(* ===== verification/_CoqProject ===== *)
-Q . S2P
Prelude.v
Logger.v
Packet.v
Codec.v
Serializer.v
GossipPayload.v
Models.v
SocketIo.v
WebFrame.v
DatabaseManager.v
Statements.v
World.v
RoomManager.v
GossipManager.v
Cluster.v
Replica.v
PacketProcessor.v
ConnectionManager.v
Server.v
Process.v
Accounts.v
Protocol.v
Config.v
EndpointRing.v
PacketBuilder.v
Client.v
Dialogue.v
Supervision.v
Console.v
Health.v
Qt.v
ChatStyle.v
Window.v
Panels.v
Delivery.v
Main.v
EndToEnd.v
