(* ===== verification/Prelude.v ===== *)
(** * A verified model of the distributed chat server

    The program is a cluster of C++ servers and their clients.  A server process takes TCP
    clients (src/server/connection_manager.cpp) and browsers over WebSocket
    (src/server/web_connection.cpp), turns every packet of theirs into one answer
    (src/server/packet_processor.cpp), keeps who is in which room (room_manager.cpp), stores
    users, rooms and messages in SQLite (database_manager.cpp), pings its clients
    (heartbeat.cpp) and tells the other servers what happened (gossip_manager.cpp).  A client
    (src/client/) holds one link, a background reader, a list of servers to fail over to, and a
    console or a window on top.

    ** Conventions

    A C++ method is a function in the state-exception monad [SE] of this file: it returns an
    outcome, a value or the exception, and the new state, so what was done before a [throw]
    stays done.  Integers keep their width ([u32], [u64], [as_int]); a [std::string] is a
    [string] of bytes, NUL included; an [unordered_map] is a [gmap], iterated in the order of
    [map_to_list]; shared pointers to sessions are locations in a heap.  What the program reads
    from outside (clocks, random numbers, whether a write, a dial or a statement succeeds) is
    read from a class of functions on the number of reads so far, and a theorem is about every
    such class unless it says otherwise.  Some do: that the storage never fails is a hypothesis
    of the theorems on consistent rooms (Server.v), on accounts (Accounts.v), on the views of
    client and server (Protocol.v, Dialogue.v), on the replicas (Replica.v) and on delivery
    (Delivery.v); that writes go through one of those on the cluster, the replicas, delivery
    and the client's half of the dialogue, and of the exact reply in Client.v.  The tactics [solve_pres], [solve_total] and [solve_result]
    with the hint databases [pres] and [total] go through an operation statement by statement.

    ** Files

    - Wire formats: Packet.v, Serializer.v and GossipPayload.v (through the interface of
      Codec.v), Models.v (text forms of users, rooms, endpoints, messages), WebFrame.v
      (SHA-1, base64, frames, upgrade, buffered reader), SocketIo.v (receive and send loops
      over an interface for Winsock with its laws).  Theorems: both directions of every round
      trip, exact size limits, reading and writing under any fragmentation, no leaked socket.
    - Storage: DatabaseManager.v, the tables of init.sql with each statement file as a function,
      every operation, and password checking over an interface for Argon2.  Theorems: keys and
      foreign keys are invariants, also under failures; renaming, saving, history, deletion.
      Statements.v, the connection: opening and closing and the loops over SQLite's prepare,
      bind, step and finalize, over an interface for these calls.  Theorems: no statement is
      left behind, and over an engine that behaves as documented the loops refine the
      table-level operations; opening closes what it opened, unless a pragma fails.
    - A node: World.v (sessions and shared state), RoomManager.v, GossipManager.v,
      PacketProcessor.v, ConnectionManager.v; Server.v puts them together as a step relation.
      Theorems: rooms, sessions and tables agree in every reachable state; every request is
      answered once with a documented code; rights are enforced; events are logged and applied
      once; anti-entropy transfers exactly what is missing; broadcasts reach exactly the
      members; the event log is bounded; heartbeats close exactly the silent.
    - The cluster: Cluster.v, any number of nodes and the bytes they exchange; Replica.v, their
      message tables.  Theorems: the logs refine sets under union; once every pair of nodes has
      exchanged they are equal, and every node returns the same messages for a room.  These
      hold for at most a log window of events, whose ids hold no separator, over links that
      do not fail.
    - The process: Process.v, ports, handler threads, start-up and shut-down.  Theorem: up or
      idle between any two steps, and stopping always releases everything.
    - Accounts.v: sessions show stored accounts and no account has two sessions.
    - The client: Config.v (settings and command line), EndpointRing.v, PacketBuilder.v,
      Client.v (network, requests, pushes, dialling), Supervision.v (start, stop and the
      supervisor thread), Console.v (menus and screens).  Theorems: the neighbour list is
      usable, the failover list is exact, waiting for a reply ends with that reply or with the
      link and with nothing else, failover reaches the first
      live server, at most one socket is open, the screens terminate and respect rights.
    - Client and server together: Protocol.v, the abstract protocol ([View], [follow]) that the
      server refines; Dialogue.v, the client's refinement of the same protocol and the
      composition of the two; EndToEnd.v, the message history from table to screen; Delivery.v,
      a chat message from its author's request, or from a peer's event, to the transcript of a
      member's window.
    - The client's window: Qt.v (what is used of Qt, as an interface with its laws), ChatStyle.v
      (palettes and stylesheet), Window.v (the dashboard page with its dialogs, run by events).
      Theorems: a refresh shows the client's state, the transcript and its unread badge follow
      the reader, every event returns and acts with the user's rights.
    - Operations: Logger.v (refinement of a journal), Health.v (the ways the health of a process
      is added up agree), Panels.v (the panels of the server's window: what they print, and the
      log panel as a sink).
    - The programs: Main.v, the server's and the client's [main].  Theorems: both leave nothing
      open, the client ends when told to, and when a stop signal of the server can be lost.

    ** Fuel and bounds

    A loop over a list recurses on the list.  Loops that wait take what they wait for as a
    finite input: the packets a link yields before it is lost (a link that stays up for ever
    without the awaited reply is waited on for ever, see Client.v), the lines of a terminal, the
    waits of a timer, the looks at a link, the events of a window, the turns of the console loop;
    a theorem quantifies over all of them.  Where fuel is used it is computed from the input and
    enough by a lemma: the length of the text for parsers and readers, the
    number of binary digits for [to_string], the rows a statement has left and the length of an
    SQL text, one more than the queued and inbound packets for
    [waitFor], the attempt budget of the source for dialling, one more than the lines for the
    console.  Limits of the source keep their values: 256 events, 1000 log messages, 100
    history rows, the frame and header sizes, the 10 second heartbeat, the 8 second backoff.

    ** Interleaving

    Threads are interleaved at the granularity of one operation: one accepted connection, one
    packet, one frame, one timer round, one peer packet, one request of the user interface.
    Interleavings inside such an operation, which the mutexes of the source allow at some
    points, are not modelled, except the wait for the stop signal in Main.v.  The windows run in
    one thread; behind a modal dialog the refresh timer, the reader and the supervisor go on.
    The exchanges of Cluster.v happen one after the other, in any order.  A new connection is assumed not to get the number of a socket
    that a session or a handler still uses.

    ** Not modelled

    The construction and layout of widgets (main_window.cpp, main_page.cpp, panel.cpp, button.cpp
    under src/*/gui), which decide nothing; the calls of the logger inside the other operations,
    which change nothing the program reads;
    SQLite, Argon2 and Winsock, which are parameters or statement functions with their
    documented behaviour (the faults of the tables are those of preparing and stepping; a
    parameter that cannot be bound is a path of Statements.v only); the web client (web/), the tests and the build files. *)
From Stdlib Require Export Ascii ZArith Lia ZifyBool ZifyN.
From Stdlib Require Import NArith.
From stdpp Require Export base gmap sets list strings sorting.
From stdpp Require Import options.

(** * Machine integers

    A [w]-bit unsigned value is a [Z] reduced modulo [2^w]; a signed [int] is the
    representative in [-2^31, 2^31). *)

Definition u8 (z : Z) : Z := (z mod 2 ^ 8)%Z.
Definition u16 (z : Z) : Z := (z mod 2 ^ 16)%Z.
Definition u32 (z : Z) : Z := (z mod 2 ^ 32)%Z.
Definition u64 (z : Z) : Z := (z mod 2 ^ 64)%Z.
Definition as_int (z : Z) : Z :=
  let r := u32 z in if (r <? 2 ^ 31)%Z then r else (r - 2 ^ 32)%Z.

Definition in_u32 (z : Z) : Prop := (0 <= z < 2 ^ 32)%Z.
Definition in_u64 (z : Z) : Prop := (0 <= z < 2 ^ 64)%Z.
Definition in_int (z : Z) : Prop := (- 2 ^ 31 <= z < 2 ^ 31)%Z.

(** * Bytes and strings

    A [std::string] is a byte sequence; Rocq's [string] is a sequence of 8-bit
    [ascii] values, so it may hold any bytes, NUL included. *)

Definition byte_of_Z (z : Z) : ascii := ascii_of_N (Z.to_N (z mod 256)%Z).
Definition Z_of_byte (c : ascii) : Z := Z.of_N (N_of_ascii c).

Definition slen (s : string) : Z := Z.of_nat (String.length s).
Definition is_empty (s : string) : bool := match s with EmptyString => true | _ => false end.

Fixpoint str_take (n : nat) (s : string) : string :=
  match n, s with
  | S n, String c s => String c (str_take n s)
  | _, _ => EmptyString
  end.

Fixpoint str_drop (n : nat) (s : string) : string :=
  match n, s with
  | S n, String _ s => str_drop n s
  | _, _ => s
  end.

(** [std::string::substr(pos, count)] for [pos <= size] *)
Definition substr (pos count : nat) (s : string) : string := str_take count (str_drop pos s).

Fixpoint str_last (s : string) : option ascii :=
  match s with
  | EmptyString => None
  | String c EmptyString => Some c
  | String _ s => str_last s
  end.

Fixpoint has_char (c : ascii) (s : string) : bool :=
  match s with
  | EmptyString => false
  | String d s => if Ascii.eqb c d then true else has_char c s
  end.

(** index of the first [c] in [s] *)
Fixpoint index_of (c : ascii) (s : string) : option nat :=
  match s with
  | EmptyString => None
  | String d s => if Ascii.eqb c d then Some 0 else S <$> index_of c s
  end.

(** [std::string::find(c, from)]; [None] is [npos] *)
Definition find_char (c : ascii) (from : nat) (s : string) : option nat :=
  (λ i, from + i) <$> index_of c (str_drop from s).

(** [std::string::rfind(c)] *)
Fixpoint rfind_char (c : ascii) (s : string) : option nat :=
  match s with
  | EmptyString => None
  | String d s =>
      match rfind_char c s with
      | Some i => Some (S i)
      | None => if Ascii.eqb c d then Some 0 else None
      end
  end.

(** the pieces [std::getline(stream, item, delim)] yields, in order *)
Fixpoint getline_go (c : ascii) (cur : string) (s : string) : list string :=
  match s with
  | EmptyString => if is_empty cur then [] else [cur]
  | String d s =>
      if Ascii.eqb c d then cur :: getline_go c EmptyString s
      else getline_go c (cur +:+ String d EmptyString) s
  end.
Definition getline_all (c : ascii) (s : string) : list string := getline_go c EmptyString s.

Fixpoint join_with (sep : string) (l : list string) : string :=
  match l with
  | [] => ""
  | [x] => x
  | x :: l => x +:+ sep +:+ join_with sep l
  end.

(** what a [const char *] reader sees of a buffer: the bytes before the first NUL *)
Fixpoint c_str (s : string) : string :=
  match s with
  | EmptyString => EmptyString
  | String c s => if Ascii.eqb c "000" then EmptyString else String c (c_str s)
  end.

(** * Decimal text: [std::to_string] and the [std::sto*] readers *)

Definition digit_char (n : N) : ascii := ascii_of_N (48 + n).
Definition is_digit (c : ascii) : bool :=
  ((48 <=? N_of_ascii c) && (N_of_ascii c <=? 57))%N.
Definition digit_val (c : ascii) : Z := Z.of_N (N_of_ascii c - 48).

Fixpoint digits_go (fuel : nat) (n : N) (acc : string) : string :=
  match fuel with
  | O => acc
  | S f =>
      let acc' := String (digit_char (n mod 10)) acc in
      if (n <? 10)%N then acc' else digits_go f (n / 10) acc'
  end.
(** the fuel is the number of binary digits, never less than the decimal ones *)
Definition to_string_N (n : N) : string := digits_go (S (N.size_nat n)) n "".
Definition to_string (z : Z) : string :=
  if (z <? 0)%Z then "-" +:+ to_string_N (Z.to_N (- z)) else to_string_N (Z.to_N z).

(** the longest digit prefix of [s], read base ten on top of [acc] *)
Fixpoint read_digits (acc : Z) (s : string) : Z :=
  match s with
  | String c s => if is_digit c then read_digits (acc * 10 + digit_val c) s else acc
  | EmptyString => acc
  end.

Definition is_space (c : ascii) : bool :=
  let n := N_of_ascii c in ((n =? 32) || ((9 <=? n) && (n <=? 13)))%N.
Fixpoint skip_space (s : string) : string :=
  match s with
  | String c r => if is_space c then skip_space r else s
  | EmptyString => s
  end.

(** the common part of [strtol]/[strtoul]: white space, an optional sign, at least one
    digit; the result is the sign and the magnitude of the numeral prefix *)
Definition read_numeral (s : string) : option (bool * Z) :=
  let s := skip_space s in
  let '(neg, s) :=
    match s with
    | String "-" r => (true, r)
    | String "+" r => (false, r)
    | _ => (false, s)
    end in
  match s with
  | String c _ => if is_digit c then Some (neg, read_digits 0 s) else None
  | EmptyString => None
  end.

Definition sto_signed (lo hi : Z) (s : string) : option Z :=
  '(neg, m) ← read_numeral s;
  let z := if neg : bool then (- m)%Z else m in
  if ((lo <=? z) && (z <=? hi))%Z then Some z else None.

(** an unsigned reader negates in the unsigned type when it sees a minus sign *)
Definition sto_unsigned (w : Z) (s : string) : option Z :=
  '(neg, m) ← read_numeral s;
  if (m <? 2 ^ w)%Z then Some (if neg : bool then ((- m) mod 2 ^ w)%Z else m) else None.

(** [None] is the exception ([invalid_argument] or [out_of_range]) *)
Definition stoi : string → option Z := sto_signed (- 2 ^ 31) (2 ^ 31 - 1).
Definition stoll : string → option Z := sto_signed (- 2 ^ 63) (2 ^ 63 - 1).
(** [unsigned long] is 32 bits wide on the Windows targets of this program *)
Definition stoul : string → option Z := sto_unsigned 32.
Definition stoull : string → option Z := sto_unsigned 64.

(** * Exceptions and the state-exception monad

    A C++ operation over a mutable object of type [S] is a function that returns an
    outcome (a value or the exception that left it) together with the new object: the
    effects made before a [throw] stay. *)

Inductive exn :=
  | ConstraintError (what : string)   (* DatabaseManager::ConstraintError *)
  | RuntimeError (what : string)      (* std::runtime_error *)
  | InvalidArgument (what : string)   (* std::invalid_argument *)
  | OutOfRange (what : string).       (* std::out_of_range *)

Definition exn_what (e : exn) : string :=
  match e with ConstraintError w | RuntimeError w | InvalidArgument w | OutOfRange w => w end.

Inductive outcome (A : Type) := Ok (a : A) | Throw (e : exn).
Arguments Ok {_} _.
Arguments Throw {_} _.

Definition SE (S A : Type) : Type := S → outcome A * S.

Global Instance SE_ret {S} : MRet (SE S) := λ A a s, (Ok a, s).
Global Instance SE_bind {S} : MBind (SE S) := λ A B f m s,
  match m s with
  | (Ok a, s') => f a s'
  | (Throw e, s') => (Throw e, s')
  end.

Definition throw {S A} (e : exn) : SE S A := λ s, (Throw e, s).
Definition get {S} : SE S S := λ s, (Ok s, s).
Definition gets {S A} (f : S → A) : SE S A := λ s, (Ok (f s), s).
Definition modify {S} (f : S → S) : SE S unit := λ s, (Ok tt, f s).
Definition try_catch {S A} (m : SE S A) (h : exn → SE S A) : SE S A := λ s,
  match m s with
  | (Ok a, s') => (Ok a, s')
  | (Throw e, s') => h e s'
  end.

(** an operation on a part of the state *)
Definition zoom {S T A} (get : S → T) (put : T → S → S) (m : SE T A) : SE S A := λ s,
  let '(o, t) := m (get s) in (o, put t s).

(** [for (x : l) body(x)]; the loop stops at the first exception *)
Fixpoint for_each {S A} (l : list A) (body : A → SE S unit) : SE S unit :=
  match l with
  | [] => mret tt
  | x :: l => body x ;; for_each l body
  end.

Definition when {S} (b : bool) (m : SE S unit) : SE S unit := if b then m else mret tt.

(** final state and result of a run *)
Definition run_state {S A} (m : SE S A) (s : S) : S := (m s).2.
Definition run_out {S A} (m : SE S A) (s : S) : outcome A := (m s).1.

(** what follows an operation that returns, or throws *)
Lemma bind_run {S A B} (m : SE S A) (f : A → SE S B) s a s' : m s = (Ok a, s') → (m ≫= f) s = f a s'.
Proof. intros H. unfold mbind, SE_bind. by rewrite H. Qed.
Lemma bind_throw {S A B} (m : SE S A) (f : A → SE S B) s e s' : m s = (Throw e, s') → (m ≫= f) s = (Throw e, s').
Proof. intros H. unfold mbind, SE_bind. by rewrite H. Qed.

(** ** Triples: [triple P m Q] when every run from a [P]-state ends in [Q], whether it
    returns or throws. *)
Definition triple {S A} (P : S → Prop) (m : SE S A) (Q : outcome A → S → Prop) : Prop :=
  ∀ s, P s → Q (run_out m s) (run_state m s).
Definition preserves {S A} (I : S → Prop) (m : SE S A) : Prop := triple I m (λ _, I).

Section triple_rules.
Context {S : Type}.
Implicit Types I P : S → Prop.

Lemma triple_bind {A B} P (m : SE S A) (f : A → SE S B) Q R :
  triple P m Q →
  (∀ a, triple (Q (Ok a)) (f a) R) →
  (∀ e s, Q (Throw e) s → R (Throw e) s) →
  triple P (m ≫= f) R.
Proof.
  intros Hm Hf He s Hs. specialize (Hm s Hs).
  unfold run_out, run_state, mbind, SE_bind in *.
  destruct (m s) as [[a|e] s'] eqn:E; simpl in *; [by apply Hf|by apply He].
Qed.

Lemma triple_pre {A} P P' (m : SE S A) Q : (∀ s, P' s → P s) → triple P m Q → triple P' m Q.
Proof. intros H Hm s Hs. by apply Hm, H. Qed.
(** the handler keeps what the body guarantees either way *)
Lemma triple_catch {A} P I (m : SE S A) (h : exn → SE S A) :
  triple P m (λ _, I) → (∀ e, triple I (h e) (λ _, I)) → triple P (try_catch m h) (λ _, I).
Proof.
  intros Hm Hh s Hs. specialize (Hm s Hs). unfold run_out, run_state, try_catch in *.
  destruct (m s) as [[a|e] s'] eqn:E; simpl in *; [done|]. by apply Hh.
Qed.

Lemma preserves_ret {A} I (a : A) : preserves I (mret a).
Proof. by intros s Hs. Qed.
Lemma preserves_throw {A} I e : preserves I (@throw S A e).
Proof. by intros s Hs. Qed.
Lemma preserves_get I : preserves I (@get S).
Proof. by intros s Hs. Qed.
Lemma preserves_gets {A} I (f : S → A) : preserves I (gets f).
Proof. by intros s Hs. Qed.
Lemma preserves_modify I (f : S → S) : (∀ s, I s → I (f s)) → preserves I (modify f).
Proof. intros H s Hs. by apply H. Qed.
Lemma preserves_bind {A B} I (m : SE S A) (f : A → SE S B) :
  preserves I m → (∀ a, preserves I (f a)) → preserves I (m ≫= f).
Proof. intros Hm Hf. by apply (triple_bind _ _ _ (λ _, I)). Qed.
Lemma preserves_catch {A} I (m : SE S A) (h : exn → SE S A) :
  preserves I m → (∀ e, preserves I (h e)) → preserves I (try_catch m h).
Proof. apply triple_catch. Qed.
(** a first part that keeps [I], a second that needs it; [J] holds at every exit *)
Lemma triple_step {A B} I J (m : SE S A) (f : A → SE S B) :
  (∀ s, I s → J s) → preserves I m → (∀ a, triple I (f a) (λ _, J)) →
  triple I (m ≫= f) (λ _, J).
Proof. intros HJ Hm Hf. apply (triple_bind _ _ _ (λ _, I)); [done|done|by intros e s ?%HJ]. Qed.
Lemma preserves_for_each {A} I (l : list A) (body : A → SE S unit) :
  (∀ a, a ∈ l → preserves I (body a)) → preserves I (for_each l body).
Proof.
  induction l as [|x l IH]; intros H; simpl; [apply preserves_ret|].
  apply preserves_bind; [apply H; set_solver|intros _; apply IH; set_solver].
Qed.
(** the result of an operation does not matter for what it keeps *)
Lemma preserves_skip {A} I (m : SE S A) : preserves I (m ;; mret tt) → preserves I m.
Proof.
  intros H s Hs. specialize (H s Hs). unfold run_out, run_state, mbind, SE_bind in *.
  by destruct (m s) as [[a|e] s'].
Qed.
Lemma preserves_when I b (m : SE S unit) : preserves I m → preserves I (when b m).
Proof. intros H. destruct b; [done|apply preserves_ret]. Qed.
Lemma preserves_zoom {T A} I (J : T → Prop) (g : S → T) (p : T → S → S) (m : SE T A) :
  preserves J m → (∀ s, I s → J (g s)) → (∀ t s, I s → J t → I (p t s)) →
  preserves I (zoom g p m).
Proof.
  intros Hm Hg Hp s Hs. specialize (Hm _ (Hg s Hs)). unfold run_out, run_state, zoom in *.
  destruct (m (g s)) as [o t] eqn:E; simpl in *. by apply Hp.
Qed.
Lemma preserves_and {A} I J (m : SE S A) :
  preserves I m → preserves J m → preserves (λ s, I s ∧ J s) m.
Proof. intros HI HJ s [??]; split; [by apply HI|by apply HJ]. Qed.
End triple_rules.

Create HintDb pres discriminated.
#[export] Hint Resolve preserves_ret preserves_throw preserves_get preserves_gets
  preserves_when : pres.

(** one structural step of a [preserves] goal *)
Ltac pres_step :=
  match goal with
  | |- preserves _ (mbind _ _) => apply preserves_bind
  | |- preserves _ (try_catch _ _) => apply preserves_catch
  | |- preserves _ (for_each _ _) => apply preserves_for_each
  | |- preserves _ (when _ _) => apply preserves_when
  | |- preserves _ (match ?x with _ => _ end) => destruct x
  | |- preserves _ (let _ := _ in _) => cbv zeta
  | |- ∀ _, _ => intros ?
  | |- _ => solve [eauto with pres nocore]
  end.
Ltac solve_pres := repeat pres_step.

(** ** Operations no exception leaves *)
Definition total {S A} (m : SE S A) : Prop := ∀ s, ∃ a, run_out m s = Ok a.

Section total_rules.
Context {S : Type}.

Lemma total_ret {A} (a : A) : total (mret a : SE S A).
Proof. intros s. by exists a. Qed.
Lemma total_get : total (@get S).
Proof. intros s. by exists s. Qed.
Lemma total_gets {A} (f : S → A) : total (gets f).
Proof. intros s. by exists (f s). Qed.
Lemma total_modify (f : S → S) : total (modify f).
Proof. intros s. by exists tt. Qed.
Lemma total_bind {A B} (m : SE S A) (f : A → SE S B) :
  total m → (∀ a, total (f a)) → total (m ≫= f).
Proof.
  intros Hm Hf s. destruct (Hm s) as [a Ha]. unfold run_out, mbind, SE_bind in *.
  destruct (m s) as [o s']. simpl in Ha. subst o. apply Hf.
Qed.
Lemma total_catch {A} (m : SE S A) (h : exn → SE S A) :
  (∀ e, total (h e)) → total (try_catch m h).
Proof.
  intros Hh s. unfold run_out, try_catch. destruct (m s) as [[a|e] s']; [by exists a|]. apply Hh.
Qed.
Lemma total_for_each {A} (l : list A) (body : A → SE S unit) :
  (∀ a, total (body a)) → total (for_each l body).
Proof.
  intros H. induction l as [|x l IH]; simpl; [apply total_ret|]. by apply total_bind.
Qed.
Lemma total_when b (m : SE S unit) : total m → total (when b m).
Proof. intros H. destruct b; [done|apply total_ret]. Qed.
Lemma total_zoom {T A} (g : S → T) (put : T → S → S) (m : SE T A) : total m → total (zoom g put m).
Proof.
  intros Hm s. destruct (Hm (g s)) as [a Ha]. unfold run_out, zoom in *. destruct (m (g s)). by exists a.
Qed.
End total_rules.

Create HintDb total discriminated.
#[export] Hint Resolve total_ret total_get total_gets total_modify total_when : total.

Ltac total_step :=
  match goal with
  | |- total (mbind _ _) => apply total_bind
  | |- total (try_catch _ _) => apply total_catch
  | |- total (for_each _ _) => apply total_for_each
  | |- total (when _ _) => apply total_when
  | |- total (match ?x with _ => _ end) => destruct x
  | |- total (let _ := _ in _) => cbv zeta
  | |- ∀ _, _ => intros ?
  | |- _ => solve [eauto with total nocore]
  end.
Ltac solve_total := repeat total_step.

(** ** Runs that return

    [runs P m Q]: from every [P]-state the operation returns, and [Q] holds of the value and
    the state. *)
Definition runs {S A} (P : S → Prop) (m : SE S A) (Q : A → S → Prop) : Prop :=
  ∀ s, P s → ∃ a s', m s = (Ok a, s') ∧ Q a s'.

Section runs_rules.
Context {S : Type}.
Implicit Types I P : S → Prop.

Lemma runs_ret {A} P (Q : A → S → Prop) a : (∀ s, P s → Q a s) → runs P (mret a) Q.
Proof. intros H s Hs. exists a, s. split; [done|by apply H]. Qed.
Lemma runs_bind {A B} P (m : SE S A) (f : A → SE S B) Q R :
  runs P m Q → (∀ a, runs (Q a) (f a) R) → runs P (m ≫= f) R.
Proof.
  intros Hm Hf s Hs. destruct (Hm s Hs) as (a & s' & Hrun & HQ).
  destruct (Hf a s' HQ) as (b & s'' & Hrun' & HR). exists b, s''.
  unfold mbind, SE_bind. by rewrite Hrun.
Qed.
(** an operation that throws nothing and keeps [I] *)
Lemma runs_total {A} I (m : SE S A) : total m → preserves I m → runs I m (λ _, I).
Proof.
  intros Ht Hp s Hs. destruct (Ht s) as [a Ha]. specialize (Hp s Hs). unfold run_out, run_state in *.
  destruct (m s) as [o s'] eqn:E. cbn in *. subst o. by exists a, s'.
Qed.
Lemma runs_frame {A B} I (m : SE S A) (f : A → SE S B) R :
  total m → preserves I m → (∀ a, runs I (f a) R) → runs I (m ≫= f) R.
Proof. intros Ht Hp Hf. by eapply runs_bind; [by apply runs_total|]. Qed.
(** the handler of a [try_catch] whose body returns is dead *)
Lemma runs_catch {A} P (m : SE S A) h Q : runs P m Q → runs P (try_catch m h) Q.
Proof.
  intros Hm s Hs. destruct (Hm s Hs) as (a & s' & Hrun & HQ). exists a, s'. unfold try_catch.
  by rewrite Hrun.
Qed.
Lemma runs_keep {A} I J (m : SE S A) :
  runs I m (λ _, I) → preserves J m → runs (λ s, I s ∧ J s) m (λ _ s, I s ∧ J s).
Proof.
  intros Hm Hp s [HI HJ]. destruct (Hm s HI) as (a & s' & Hrun & HI'). specialize (Hp s HJ).
  unfold run_state in Hp. rewrite Hrun in Hp. by exists a, s'.
Qed.
Lemma runs_weaken {A} P P' (m : SE S A) Q Q' :
  (∀ s, P' s → P s) → (∀ a s, Q a s → Q' a s) → runs P m Q → runs P' m Q'.
Proof. intros HP HQ Hm s Hs. destruct (Hm s (HP s Hs)) as (a & s' & ? & ?). eauto. Qed.
End runs_rules.

(** ** What an operation returns

    [yields]: every value it returns; [always]: it does return one, and no exception. *)
Definition yields {S A} (m : SE S A) (Q : A → Prop) : Prop :=
  ∀ s a, run_out m s = Ok a → Q a.
Definition always {S A} (m : SE S A) (Q : A → Prop) : Prop :=
  ∀ s, ∃ a, run_out m s = Ok a ∧ Q a.

Section result_rules.
Context {S A : Type} (Q : A → Prop).

Lemma yields_ret (a : A) : Q a → yields (mret a : SE S A) Q.
Proof. by intros H s a' [= <-]. Qed.
Lemma always_ret (a : A) : Q a → always (mret a : SE S A) Q.
Proof. intros H s. by exists a. Qed.
Lemma yields_bind {B} (m : SE S B) (f : B → SE S A) :
  (∀ b, yields (f b) Q) → yields (m ≫= f) Q.
Proof.
  intros Hf s a. unfold run_out, mbind, SE_bind. destruct (m s) as [[b|e] s']; [|done]. apply Hf.
Qed.
Lemma always_bind {B} (m : SE S B) (f : B → SE S A) :
  total m → (∀ b, always (f b) Q) → always (m ≫= f) Q.
Proof.
  intros Hm Hf s. destruct (Hm s) as [b Hb]. unfold run_out, mbind, SE_bind in *.
  destruct (m s) as [o s']. simpl in Hb. subst o. apply Hf.
Qed.
Lemma always_catch (m : SE S A) (h : exn → SE S A) :
  yields m Q → (∀ e, always (h e) Q) → always (try_catch m h) Q.
Proof.
  intros Hm Hh s. unfold run_out, try_catch. specialize (Hm s). unfold run_out in Hm.
  destruct (m s) as [[a|e] s']; [exists a; split; [done|by apply Hm]|apply Hh].
Qed.
End result_rules.

(** one structural step of a [yields] or [always] goal; the leaves are left *)
Ltac result_step :=
  match goal with
  | |- yields (mbind _ _) _ => apply yields_bind; intros ?
  | |- yields (mret _) _ => apply yields_ret
  | |- always (mret _) _ => apply always_ret
  | |- always (try_catch _ _) _ => apply always_catch; [|intros ?]
  | |- always (mbind _ _) _ => apply always_bind; [solve [solve_total]|intros ?]
  | |- yields (match ?x with _ => _ end) _ => destruct x
  | |- always (match ?x with _ => _ end) _ => destruct x
  | |- yields (let _ := _ in _) _ => cbv zeta
  | |- always (let _ := _ in _) _ => cbv zeta
  end.
Ltac solve_result := repeat result_step.

(** * Generic lemmas *)

(** ** Bytes *)

Lemma Z_of_byte_range c : (0 <= Z_of_byte c < 256)%Z.
Proof. unfold Z_of_byte. pose proof (N_ascii_bounded c). lia. Qed.

Lemma byte_of_Z_of_byte c : byte_of_Z (Z_of_byte c) = c.
Proof.
  unfold byte_of_Z. rewrite Z.mod_small by apply Z_of_byte_range.
  unfold Z_of_byte. rewrite N2Z.id. apply ascii_N_embedding.
Qed.

Lemma Z_of_byte_of_Z z : Z_of_byte (byte_of_Z z) = (z mod 256)%Z.
Proof.
  unfold byte_of_Z, Z_of_byte. pose proof (Z.mod_pos_bound z 256 ltac:(lia)).
  rewrite N_ascii_embedding by lia. lia.
Qed.

(** ** Strings *)

Lemma str_app_cons c s t : String c s +:+ t = String c (s +:+ t).
Proof. done. Qed.
Lemma str_app_nil_l s : "" +:+ s = s.
Proof. done. Qed.
Lemma str_app_nil_r s : s +:+ "" = s.
Proof. induction s as [|c s IH]; [done|]. by rewrite str_app_cons, IH. Qed.
Lemma str_app_assoc s t u : (s +:+ t) +:+ u = s +:+ (t +:+ u).
Proof. induction s as [|c s IH]; [done|]. by rewrite !str_app_cons, IH. Qed.
Lemma str_length_app s t : String.length (s +:+ t) = String.length s + String.length t.
Proof. induction s as [|c s IH]; [done|]. rewrite str_app_cons. simpl. by rewrite IH. Qed.
Lemma slen_app s t : slen (s +:+ t) = (slen s + slen t)%Z.
Proof. unfold slen. rewrite str_length_app. lia. Qed.
Lemma slen_nonneg s : (0 <= slen s)%Z.
Proof. unfold slen. lia. Qed.
Lemma slen_cons c s : slen (String c s) = (1 + slen s)%Z.
Proof. unfold slen. simpl. lia. Qed.
Lemma slen_nil : slen "" = 0%Z.
Proof. done. Qed.
Lemma slen_zero s : slen s = 0%Z → s = "".
Proof. destruct s; [done|]. rewrite slen_cons. pose proof (slen_nonneg s). lia. Qed.
Lemma str_app_eq_nil s t : s +:+ t = "" → s = "" ∧ t = "".
Proof. by destruct s. Qed.
Lemma str_app_inj_r s t u : s +:+ u = t +:+ u → s = t.
Proof.
  intros H. assert (String.length s = String.length t) as Hl.
  { apply (f_equal String.length) in H. rewrite !str_length_app in H. lia. }
  revert t H Hl. induction s as [|c s IH]; intros [|d t] H Hl; simpl in Hl; try lia; [done|].
  rewrite !str_app_cons in H. injection H as -> H. f_equal. apply IH; [done|lia].
Qed.
(** two splittings at the same length agree *)
Lemma str_app_inj_len s1 t1 s2 t2 :
  s1 +:+ t1 = s2 +:+ t2 → String.length s1 = String.length s2 → s1 = s2 ∧ t1 = t2.
Proof.
  revert s2. induction s1 as [|c s1 IH]; intros [|d s2] H Hl; simpl in Hl; try lia.
  - by split.
  - rewrite !str_app_cons in H. injection H as -> H.
    destruct (IH _ H) as [-> ->]; [lia|done].
Qed.
Lemma str_take_app_len s t : str_take (String.length s) (s +:+ t) = s.
Proof. induction s as [|c s IH]; [by destruct t|]. rewrite str_app_cons. simpl. by rewrite IH. Qed.
Lemma str_drop_app_len s t : str_drop (String.length s) (s +:+ t) = t.
Proof. induction s as [|c s IH]; [by destruct t|]. by rewrite str_app_cons. Qed.
Lemma str_drop_app_plus s t n : str_drop (String.length s + n) (s +:+ t) = str_drop n t.
Proof. induction s as [|c s IH]; [done|]. by rewrite str_app_cons. Qed.
Lemma str_drop_0 s : str_drop 0 s = s.
Proof. by destruct s. Qed.
Lemma str_take_0 s : str_take 0 s = "".
Proof. by destruct s. Qed.
Lemma str_take_drop n s : str_take n s +:+ str_drop n s = s.
Proof.
  revert s. induction n as [|n IH]; intros [|c s]; simpl; try done.
  by rewrite str_app_cons, IH.
Qed.
Lemma str_take_length n s : String.length (str_take n s) = n `min` String.length s.
Proof. revert s. induction n as [|n IH]; intros [|c s]; simpl; try done. by rewrite IH. Qed.
Lemma str_drop_length n s : String.length (str_drop n s) = String.length s - n.
Proof. revert s. induction n as [|n IH]; intros [|c s]; simpl; try done. Qed.
Lemma str_take_all n s : String.length s <= n → str_take n s = s.
Proof.
  revert s. induction n as [|n IH]; intros [|c s] H; simpl in *; try done; try lia.
  f_equal. apply IH. lia.
Qed.
Lemma str_drop_all n s : String.length s <= n → str_drop n s = "".
Proof.
  revert s. induction n as [|n IH]; intros [|c s] H; simpl in *; try done; try lia.
  apply IH. lia.
Qed.
Lemma str_drop_drop n m s : str_drop n (str_drop m s) = str_drop (m + n) s.
Proof.
  revert s. induction m as [|m IH]; intros [|c s]; simpl; try done; by destruct n.
Qed.
Lemma str_take_plus n m s : str_take (n + m) s = str_take n s +:+ str_take m (str_drop n s).
Proof.
  revert s. induction n as [|n IH]; intros s; [by rewrite str_drop_0, str_take_0|].
  destruct s as [|c s]; simpl; [by destruct m|]. by rewrite str_app_cons, IH.
Qed.
Lemma str_last_app_cons s c : str_last (s +:+ String c "") = Some c.
Proof.
  induction s as [|d s IH]; [done|]. rewrite str_app_cons.
  destruct s as [|e s]; [done|]. exact IH.
Qed.
Lemma str_last_app s t c : str_last t = Some c → str_last (s +:+ t) = Some c.
Proof.
  intros H. induction s as [|d s IH]; [done|]. rewrite str_app_cons. simpl.
  by destruct (s +:+ t).
Qed.
Lemma prefix_app s t : String.prefix s (s +:+ t) = true.
Proof.
  induction s as [|c s IH]; [by destruct t|]. rewrite str_app_cons. simpl.
  by destruct (ascii_dec c c).
Qed.
Lemma prefix_spec p s : String.prefix p s = true → s = p +:+ str_drop (String.length p) s.
Proof.
  revert s. induction p as [|c p IH]; intros s H.
  - by rewrite str_drop_0.
  - destruct s as [|d s]; simpl in H; [done|]. destruct (ascii_dec c d) as [->|]; [|done].
    rewrite str_app_cons. f_equal. by apply IH.
Qed.

(** ** Searching *)

Lemma has_char_app c s t : has_char c (s +:+ t) = has_char c s || has_char c t.
Proof.
  induction s as [|d s IH]; [done|]. rewrite str_app_cons. simpl.
  by destruct (Ascii.eqb c d).
Qed.
Lemma index_of_fresh c s : has_char c s = false → index_of c s = None.
Proof.
  induction s as [|d s IH]; simpl; [done|]. destruct (Ascii.eqb c d); [done|].
  intros H. by rewrite IH.
Qed.
Lemma index_of_app_fresh c s t :
  has_char c s = false → index_of c (s +:+ String c t) = Some (String.length s).
Proof.
  induction s as [|d s IH]; intros H.
  - change ("" +:+ String c t) with (String c t). simpl. by rewrite Ascii.eqb_refl.
  - rewrite str_app_cons. simpl in *. destruct (Ascii.eqb c d); [done|]. by rewrite IH.
Qed.
Lemma find_char_none c p s : has_char c s = false → find_char c (String.length p) (p +:+ s) = None.
Proof. intros H. unfold find_char. rewrite str_drop_app_len. by rewrite index_of_fresh. Qed.
Lemma find_char_some c p s t :
  has_char c s = false →
  find_char c (String.length p) (p +:+ s +:+ String c t) = Some (String.length p + String.length s).
Proof. intros H. unfold find_char. rewrite str_drop_app_len. by rewrite index_of_app_fresh. Qed.
Lemma substr_mid p s t : substr (String.length p) (String.length s) (p +:+ s +:+ t) = s.
Proof. unfold substr. rewrite str_drop_app_len. apply str_take_app_len. Qed.
Lemma substr_tail p s n : String.length s <= n → substr (String.length p) n (p +:+ s) = s.
Proof. intros H. unfold substr. rewrite str_drop_app_len. by apply str_take_all. Qed.

(** ** Decimal text *)

Fixpoint all_digits (s : string) : bool :=
  match s with EmptyString => true | String c s => is_digit c && all_digits s end.

Lemma all_digits_app s t : all_digits (s +:+ t) = all_digits s && all_digits t.
Proof.
  induction s as [|c s IH]; [done|]. rewrite str_app_cons. simpl. rewrite IH.
  by destruct (is_digit c).
Qed.
Lemma N_of_digit_char n : (n < 10)%N → N_of_ascii (digit_char n) = (48 + n)%N.
Proof. intros H. unfold digit_char. by rewrite N_ascii_embedding by lia. Qed.
Lemma is_digit_char n : (n < 10)%N → is_digit (digit_char n) = true.
Proof. intros H. unfold is_digit. rewrite N_of_digit_char by done. lia. Qed.
Lemma digit_val_char n : (n < 10)%N → digit_val (digit_char n) = Z.of_N n.
Proof. intros H. unfold digit_val. rewrite N_of_digit_char by done. lia. Qed.

Lemma digits_go_spec fuel n acc :
  (n < 10 ^ N.of_nat fuel)%N → fuel ≠ 0 →
  ∃ ds, digits_go fuel n acc = ds +:+ acc ∧ ds ≠ "" ∧ all_digits ds = true ∧
    ∀ a t, read_digits a (ds +:+ t) = read_digits (a * 10 ^ slen ds + Z.of_N n) t.
Proof.
  revert n acc. induction fuel as [|f IH]; intros n acc Hn Hf; [done|]. clear Hf.
  assert (n mod 10 < 10)%N as Hm by (apply N.mod_lt; lia).
  simpl. destruct (N.ltb_spec n 10) as [Hlt|Hge].
  - exists (String (digit_char (n mod 10)) ""). rewrite N.mod_small by done.
    split_and!; [done|done|simpl; by rewrite is_digit_char|].
    intros a t. rewrite str_app_cons. simpl. rewrite is_digit_char, digit_val_char by done.
    rewrite slen_cons, slen_nil. change (1 + 0)%Z with 1%Z. rewrite Z.pow_1_r. done.
  - assert (n / 10 < 10 ^ N.of_nat f)%N as Hd.
    { rewrite Nat2N.inj_succ, N.pow_succ_r' in Hn. apply N.Div0.div_lt_upper_bound. done. }
    destruct f as [|f]; [change (n / 10 < 1)%N in Hd; pose proof (N.div_mod n 10 ltac:(done)); lia|].
    destruct (IH (n / 10)%N (String (digit_char (n mod 10)) acc) Hd ltac:(done))
      as (ds & Heq & Hne & Hall & Hread).
    exists (ds +:+ String (digit_char (n mod 10)) ""). split_and!.
    + rewrite Heq, str_app_assoc. done.
    + by destruct ds.
    + rewrite all_digits_app, Hall. simpl. by rewrite is_digit_char.
    + intros a t. rewrite str_app_assoc, Hread, str_app_cons. simpl.
      rewrite is_digit_char, digit_val_char by done. f_equal.
      rewrite slen_app, slen_cons, slen_nil. change (1 + 0)%Z with 1%Z.
      rewrite Z.pow_add_r by (try apply slen_nonneg; lia).
      pose proof (N.div_mod n 10 ltac:(done)). nia.
Qed.

Lemma size_nat_bound n : (n < 10 ^ N.of_nat (S (N.size_nat n)))%N.
Proof.
  assert (n < 2 ^ N.of_nat (N.size_nat n))%N as H.
  { destruct n as [|p]; [done|]. simpl N.size_nat.
    induction p as [p IH|p IH|]; simpl Pos.size_nat; rewrite ?Nat2N.inj_succ, ?N.pow_succ_r' in *; lia. }
  rewrite Nat2N.inj_succ, N.pow_succ_r'.
  assert (2 ^ N.of_nat (N.size_nat n) <= 10 ^ N.of_nat (N.size_nat n))%N
    by (apply N.pow_le_mono_l; lia). lia.
Qed.

Lemma to_string_N_spec n :
  to_string_N n ≠ "" ∧ all_digits (to_string_N n) = true ∧
  ∀ a t, read_digits a (to_string_N n +:+ t) =
         read_digits (a * 10 ^ slen (to_string_N n) + Z.of_N n) t.
Proof.
  unfold to_string_N.
  destruct (digits_go_spec (S (N.size_nat n)) n "" (size_nat_bound n) ltac:(done))
    as (ds & -> & H). by rewrite str_app_nil_r.
Qed.

Lemma is_digit_not_space c : is_digit c = true → is_space c = false.
Proof. unfold is_digit, is_space. lia. Qed.

Lemma digits_neq d s :
  is_digit d = false → all_digits s = true → has_char d s = false.
Proof.
  intros Hd. induction s as [|e s IH]; [done|]. simpl. intros [He Hs]%andb_prop.
  destruct (Ascii.eqb_spec d e) as [->|]; [congruence|]. by apply IH.
Qed.

(** a separator that is neither a digit nor the minus sign never occurs in a number *)
Lemma to_string_no_char d z :
  is_digit d = false → d ≠ "-"%char → has_char d (to_string z) = false.
Proof.
  intros Hd Hm. unfold to_string. case_match.
  - rewrite str_app_cons. simpl. destruct (Ascii.eqb_spec d "-"); [done|].
    apply digits_neq; [done|apply to_string_N_spec].
  - apply digits_neq; [done|apply to_string_N_spec].
Qed.

Lemma to_string_nonneg z : (0 <= z)%Z → all_digits (to_string z) = true ∧ to_string z ≠ "".
Proof.
  intros H. unfold to_string. rewrite (proj2 (Z.ltb_ge z 0)) by done.
  split; apply to_string_N_spec.
Qed.

Lemma to_string_ne z : to_string z ≠ "".
Proof.
  unfold to_string. case_match; [done|]. apply to_string_N_spec.
Qed.

Lemma read_numeral_to_string z :
  read_numeral (to_string z) = Some ((z <? 0)%Z, Z.abs z).
Proof.
  assert (∀ n, ∃ (c : ascii) (r : string), to_string_N n = String c r ∧ is_digit c = true) as Hh.
  { intros n. destruct (to_string_N_spec n) as (Hne & Hall & _).
    destruct (to_string_N n) as [|c r]; [done|]. simpl in Hall.
    apply andb_prop in Hall as [? _]. eauto. }
  assert (∀ n, read_digits 0 (to_string_N n) = Z.of_N n) as Hr.
  { intros n. destruct (to_string_N_spec n) as (_ & _ & H).
    specialize (H 0%Z ""). rewrite str_app_nil_r in H. rewrite H. done. }
  unfold to_string. destruct (Z.ltb_spec z 0).
  - destruct (Hh (Z.to_N (- z))) as (c & r & Heq & Hc).
    rewrite str_app_cons. unfold read_numeral. simpl. rewrite str_app_nil_l, Heq, Hc, <-Heq, Hr.
    f_equal. f_equal. lia.
  - destruct (Hh (Z.to_N z)) as (c & r & Heq & Hc). unfold read_numeral.
    rewrite Heq. simpl skip_space. rewrite is_digit_not_space by done.
    assert (c ≠ "-"%char ∧ c ≠ "+"%char) as [Hm Hp] by (split; intros ->; done).
    assert (match String c r with
            | String "-" r => (true, r) | String "+" r => (false, r)
            | _ => (false, String c r) end = (false, String c r)) as ->.
    { destruct c as [[] [] [] [] [] [] [] []]; done. }
    rewrite Hc, <-Heq, Hr. f_equal. f_equal. lia.
Qed.

Lemma to_string_inj z z' : to_string z = to_string z' → z = z'.
Proof.
  intros H%(f_equal read_numeral). rewrite !read_numeral_to_string in H.
  injection H as Hs Ha. destruct (Z.ltb_spec z 0), (Z.ltb_spec z' 0); try done; lia.
Qed.

Lemma stoi_to_string z : in_int z → stoi (to_string z) = Some z.
Proof.
  intros H. unfold stoi, sto_signed, in_int in *. rewrite read_numeral_to_string. simpl.
  assert ((if (z <? 0)%Z then (- Z.abs z)%Z else Z.abs z) = z) as ->
    by (destruct (Z.ltb_spec z 0); lia).
  destruct (_ && _) eqn:E; [done|lia].
Qed.
Lemma stoll_to_string z : (- 2 ^ 63 <= z < 2 ^ 63)%Z → stoll (to_string z) = Some z.
Proof.
  intros H. unfold stoll, sto_signed in *. rewrite read_numeral_to_string. simpl.
  assert ((if (z <? 0)%Z then (- Z.abs z)%Z else Z.abs z) = z) as ->
    by (destruct (Z.ltb_spec z 0); lia).
  destruct (_ && _) eqn:E; [done|lia].
Qed.
Lemma stoul_to_string z : in_u32 z → stoul (to_string z) = Some z.
Proof.
  intros H. unfold stoul, sto_unsigned, in_u32 in *. rewrite read_numeral_to_string. simpl.
  rewrite Z.abs_eq, (proj2 (Z.ltb_ge z 0)), (proj2 (Z.ltb_lt z (2 ^ 32))) by lia. done.
Qed.
Lemma stoull_to_string z : in_u64 z → stoull (to_string z) = Some z.
Proof.
  intros H. unfold stoull, sto_unsigned, in_u64 in *. rewrite read_numeral_to_string. simpl.
  rewrite Z.abs_eq, (proj2 (Z.ltb_ge z 0)), (proj2 (Z.ltb_lt z (2 ^ 64))) by lia. done.
Qed.

Lemma read_digits_nonneg a s : (0 <= a)%Z → (0 <= read_digits a s)%Z.
Proof.
  revert a. induction s as [|c s IH]; intros a Ha; simpl; [done|].
  case_match; [|done]. apply IH. unfold digit_val. lia.
Qed.
Lemma read_numeral_nonneg s neg m : read_numeral s = Some (neg, m) → (0 <= m)%Z.
Proof.
  unfold read_numeral. destruct (match skip_space s with String "-" r => _ | _ => _ end) as [b r].
  destruct r as [|c r]; [done|]. destruct (is_digit c); [|done].
  intros [= _ <-]. by apply (read_digits_nonneg 0 (String c r)).
Qed.
Lemma sto_unsigned_range w s z : (0 <= w)%Z → sto_unsigned w s = Some z → (0 <= z < 2 ^ w)%Z.
Proof.
  intros Hw. unfold sto_unsigned. destruct (read_numeral s) as [[neg m]|] eqn:E; simpl; [|done].
  apply read_numeral_nonneg in E. destruct (Z.ltb_spec m (2 ^ w)); [|done].
  intros [= <-]. destruct neg; [|lia]. apply Z.mod_pos_bound. lia.
Qed.
Lemma stoul_range s z : stoul s = Some z → in_u32 z.
Proof. by apply sto_unsigned_range. Qed.

(** ** Separated lists *)

Lemma getline_go_piece c cur p t :
  has_char c p = false → getline_go c cur (p +:+ String c t) = (cur +:+ p) :: getline_go c "" t.
Proof.
  revert cur. induction p as [|d p IH]; intros cur H.
  - change ("" +:+ String c t) with (String c t). simpl. by rewrite Ascii.eqb_refl, str_app_nil_r.
  - rewrite str_app_cons. simpl in *. destruct (Ascii.eqb c d) eqn:E; [done|]. rewrite IH by done.
    f_equal. by rewrite str_app_assoc.
Qed.
Lemma getline_go_last c cur p :
  has_char c p = false → getline_go c cur p = if is_empty (cur +:+ p) then [] else [cur +:+ p].
Proof.
  revert cur. induction p as [|d p IH]; intros cur H; simpl in *; [by rewrite str_app_nil_r|].
  destruct (Ascii.eqb c d) eqn:E; [done|]. rewrite IH by done. by rewrite str_app_assoc.
Qed.

(** splitting undoes joining when no piece is empty or holds the separator *)
Definition plain_piece (c : ascii) (p : string) : Prop := p ≠ "" ∧ has_char c p = false.
Lemma getline_join c l :
  Forall (plain_piece c) l → getline_all c (join_with (String c "") l) = l.
Proof.
  unfold getline_all. induction 1 as [|p l [Hne Hp] Hl IH]; [done|]. destruct l as [|q l].
  - cbn [join_with]. rewrite getline_go_last by done. change ("" +:+ p) with p. by destruct p.
  - change (join_with (String c "") (p :: q :: l))
      with (p +:+ String c "" +:+ join_with (String c "") (q :: l)).
    rewrite str_app_cons, str_app_nil_l, getline_go_piece by done. by rewrite IH.
Qed.

(** what follows the last separator *)
Lemma last_piece_inj c x y a b :
  has_char c a = false → has_char c b = false → x +:+ String c a = y +:+ String c b → a = b.
Proof.
  intros Ha Hb. revert y. induction x as [|d x IH]; intros [|e y] H; rewrite ?str_app_cons in H.
  - by injection H.
  - change ("" +:+ String c a) with (String c a) in H. injection H as <- H. subst a.
    rewrite has_char_app in Ha. simpl in Ha. by rewrite Ascii.eqb_refl, orb_true_r in Ha.
  - change ("" +:+ String c b) with (String c b) in H. injection H as -> H. subst b.
    rewrite has_char_app in Hb. simpl in Hb. by rewrite Ascii.eqb_refl, orb_true_r in Hb.
  - injection H as -> H. by apply (IH y).
Qed.

(** ** Lists *)

(** the head of a filtered list is in the list, and passes *)
Lemma filter_head {A} (P : A → Prop) `{∀ x, Decision (P x)} (l l' : list A) x :
  filter P l = x :: l' → P x ∧ x ∈ l.
Proof. intros E. apply (list_elem_of_filter P l x). rewrite E. by left. Qed.

Lemma list_filter_all {A} (P : A → Prop) `{∀ x, Decision (P x)} (l : list A) :
  (∀ x, x ∈ l → P x) → filter P l = l.
Proof.
  induction l as [|x l IH]; intros Hl; [done|].
  rewrite filter_cons_True by (apply Hl; set_solver). f_equal. apply IH. set_solver.
Qed.
