(* ===== verification/Logger.v ===== *)
(** Logging (src/utils/logger/log_message.cpp, src/utils/logger/logger.cpp,
    src/utils/logger/consolelogger.cpp).

    [LogMessage] is one message, with its number, type and time; [Logger] is the singleton:
    the stored messages, the registered sinks and, in [delivered], the calls of
    [ILogger::log] it made, oldest first.  A sink is known by its address.

    The theorem: the loop that drops old messages keeps exactly the newest thousand, and every
    registered sink receives every message once, in order. *)
From S2P Require Import Prelude.
From stdpp Require Import gmap.
From stdpp Require Import options.

(** * Definitions *)

Module LogMessage.

Inductive Type_ := INFO | WARNING | ERROR | HEARTBEAT.
Record t := LogMessage {
  id : string;
  source : string;
  message : string;
  type : Type_;
  timestamp : Z
}.

Definition typeToString (ty : Type_) : string :=
  match ty with INFO => "INFO" | WARNING => "WARNING" | ERROR => "ERROR" | HEARTBEAT => "HEARTBEAT" end.
(** a name of no type is read as [INFO] *)
Definition stringToType (s : string) : Type_ :=
  if String.eqb s "INFO" then INFO
  else if String.eqb s "WARNING" then WARNING
  else if String.eqb s "ERROR" then ERROR
  else if String.eqb s "HEARTBEAT" then HEARTBEAT
  else INFO.

Definition newline : string := String "010" "".
Definition print (m : t) : string :=
  "[Msg: " +:+ id m +:+ "] (" +:+ typeToString (type m) +:+ ", " +:+ to_string (timestamp m) +:+ ")" +:+
  newline +:+ source m +:+ ": " +:+ message m +:+ newline.

Definition eqb (a b : t) : bool := String.eqb (id a) (id b).

End LogMessage.

(** [ConsoleLogger::log]: what is written, to the error stream or to the output stream *)
Inductive Stream := Out | Err.
Definition ConsoleLogger_log (m : LogMessage.t) : Stream * string :=
  (match LogMessage.type m with LogMessage.ERROR => Err | _ => Out end,
   LogMessage.print m +:+ LogMessage.newline).

Definition MAX_MESSAGES : nat := 1000.

Record Logger := mkLogger {
  messages : list LogMessage.t;
  loggers : list nat;
  delivered : list (nat * LogMessage.t);
  next_message_id : Z;             (* the counter of log_message.cpp *)
  clock_reads : nat
}.
Definition fresh_logger : Logger := mkLogger [] [] [] 0 0.

Section with_clock.
Variable clock : nat → Z.
Notation M := (SE Logger).

Definition make_message (source message : string) (type : LogMessage.Type_) : M LogMessage.t := λ s,
  let n := u64 (next_message_id s + 1) in
  (Ok (LogMessage.LogMessage (to_string n) source message type (clock (clock_reads s))),
   mkLogger (messages s) (loggers s) (delivered s) n (S (clock_reads s))).

(** [while (messages.size() > MAX_MESSAGES) messages.pop_front()] *)
Fixpoint trim (l : list LogMessage.t) : list LogMessage.t :=
  match l with
  | [] => []
  | _ :: rest => if (MAX_MESSAGES <? length l)%nat then trim rest else l
  end.

Definition set_messages (v : list LogMessage.t) (s : Logger) : Logger :=
  mkLogger v (loggers s) (delivered s) (next_message_id s) (clock_reads s).
Definition set_loggers (v : list nat) (s : Logger) : Logger :=
  mkLogger (messages s) v (delivered s) (next_message_id s) (clock_reads s).
Definition sink_log (sink : nat) (m : LogMessage.t) : M unit :=
  modify (λ s, mkLogger (messages s) (loggers s) (delivered s ++ [(sink, m)]) (next_message_id s)
    (clock_reads s)).

Definition addMessage (source message : string) (type : LogMessage.Type_) : M unit :=
  logMessage ← make_message source message type;
  modify (λ s, set_messages (trim (messages s ++ [logMessage])) s) ;;
  targets ← gets loggers;
  for_each targets (λ sink, sink_log sink logMessage).

Definition logInfo (source message : string) : M unit := addMessage source message LogMessage.INFO.
Definition logWarning (source message : string) : M unit := addMessage source message LogMessage.WARNING.
Definition logError (source message : string) : M unit := addMessage source message LogMessage.ERROR.
Definition logHeartbeat (source message : string) : M unit := addMessage source message LogMessage.HEARTBEAT.

Definition getMessage (index : nat) : M LogMessage.t :=
  l ← gets messages;
  match l !! index with
  | None => throw (OutOfRange "Logger::getMessage index out of range")
  | Some m => mret m
  end.
Definition clear : M unit := modify (set_messages []).
Definition size : M nat := gets (λ s, length (messages s)).

Definition print_logger (s : Logger) : string :=
  "Logger: " +:+ to_string (Z.of_nat (length (messages s))) +:+ " messages" +:+ LogMessage.newline +:+
  "Messages:" +:+ LogMessage.newline +:+
  foldr (λ m out, LogMessage.print m +:+ LogMessage.newline +:+ out) LogMessage.newline (messages s).

(** [None] is the null pointer *)
Definition addLogger (logger : option nat) : M unit :=
  match logger with
  | None => mret tt
  | Some l => modify (λ s, if existsb (Nat.eqb l) (loggers s) then s else set_loggers (loggers s ++ [l]) s)
  end.
Definition clearLoggers : M unit := modify (set_loggers []).

(** what the rest of the program does to the logger *)
Inductive LogCall :=
  | Log (source message : string) (type : LogMessage.Type_)
  | AddSink (l : option nat)
  | ClearSinks
  | Clear.
Definition call (c : LogCall) : M unit :=
  match c with
  | Log s m t => addMessage s m t
  | AddSink l => addLogger l
  | ClearSinks => clearLoggers
  | Clear => clear
  end.
Definition run_calls (cs : list LogCall) : M unit := for_each cs call.

End with_clock.

(** the newest [n] of a list *)
Definition newest {A} (n : nat) (l : list A) : list A := drop (length l - n) l.

(** What the logger promises, without a window and without a loop over the sinks: the messages
    since the last [clear], the set of the sinks, and what each of them was given. *)
Record Journal := mkJournal {
  logged : nat;                         (* messages ever logged *)
  kept : list LogMessage.t;
  sinks : gset nat;
  inbox : nat → list LogMessage.t
}.
Definition empty_journal : Journal := mkJournal 0 [] ∅ (λ _, []).
Definition journal_call (clock : nat → Z) (j : Journal) (c : LogCall) : Journal :=
  match c with
  | Log source message type =>
      let m := LogMessage.LogMessage (to_string (u64 (Z.of_nat (S (logged j))))) source message type (clock (logged j)) in
      mkJournal (S (logged j)) (kept j ++ [m]) (sinks j)
        (λ l, if decide (l ∈ sinks j) then inbox j l ++ [m] else inbox j l)
  | AddSink (Some l) => mkJournal (logged j) (kept j) ({[l]} ∪ sinks j) (inbox j)
  | AddSink None => j
  | ClearSinks => mkJournal (logged j) (kept j) ∅ (inbox j)
  | Clear => mkJournal (logged j) [] (sinks j) (inbox j)
  end.

(** the logger shows the journal through its window *)
Record shows (s : Logger) (j : Journal) : Prop := {
  sh_messages : messages s = newest MAX_MESSAGES (kept j);
  sh_sinks : NoDup (loggers s) ∧ list_to_set (loggers s) = sinks j;
  sh_inbox : ∀ l, (filter (λ d : nat * LogMessage.t, d.1 = l) (delivered s)).*2 = inbox j l;
  sh_count : next_message_id s = u64 (Z.of_nat (logged j)) ∧ clock_reads s = logged j
}.

(** * Lemmas *)

Lemma trim_newest l : trim l = newest MAX_MESSAGES l.
Proof.
  induction l as [|m l IH]; [done|]. cbn [trim]. destruct (Nat.ltb_spec MAX_MESSAGES (length (m :: l))) as [H|H].
  - rewrite IH. unfold newest. cbn [length] in *.
    assert (S (length l) - MAX_MESSAGES = S (length l - MAX_MESSAGES)) as -> by lia. done.
  - unfold newest. assert (length (m :: l) - MAX_MESSAGES = 0) as -> by lia. done.
Qed.
Lemma newest_length {A} n (l : list A) : length (newest n l) = n `min` length l.
Proof. unfold newest. rewrite length_drop. lia. Qed.
(** dropping as one goes is dropping at the end *)
Lemma newest_step {A} n (l : list A) x : 0 < n → newest n (newest n l ++ [x]) = newest n (l ++ [x]).
Proof.
  intros Hn. unfold newest. rewrite !length_app, length_drop. cbn [length].
  destruct (Nat.le_gt_cases (length l) n) as [Hl|Hl].
  - assert (length l - n = 0) as -> by lia. rewrite drop_0. f_equal. lia.
  - replace (length l - (length l - n) + 1 - n) with 1 by lia.
    replace (length l + 1 - n) with (length l - n + 1) by lia.
    rewrite (drop_app_le l) by lia. rewrite <-drop_drop. rewrite drop_app_le; [done|]. rewrite length_drop. lia.
Qed.

Lemma forward_run ls m s :
  for_each ls (λ l, sink_log l m) s =
  (Ok tt, mkLogger (messages s) (loggers s) (delivered s ++ ((λ l, (l, m)) <$> ls)) (next_message_id s) (clock_reads s)).
Proof.
  revert s. induction ls as [|l ls IH]; intros s; cbn [for_each].
  - cbn. rewrite app_nil_r. by destruct s.
  - unfold mbind, SE_bind. cbn [sink_log modify]. rewrite IH. cbn. by rewrite <-app_assoc.
Qed.

Lemma inbox_forward (m : LogMessage.t) l ls :
  NoDup ls → (filter (λ d : nat * LogMessage.t, d.1 = l) ((λ l, (l, m)) <$> ls)).*2 = if decide (l ∈ ls) then [m] else [].
Proof.
  induction 1 as [|x ls Hx _ IH]; [done|]. rewrite fmap_cons, filter_cons. cbn [fst].
  destruct (decide (x = l)) as [->|Hne].
  - rewrite decide_True by set_solver. cbn [fmap list_fmap snd]. by rewrite IH, decide_False.
  - rewrite IH. destruct (decide (l ∈ ls)); [by rewrite decide_True by set_solver|]. by rewrite decide_False by set_solver.
Qed.
Lemma sink_registered l ls : existsb (Nat.eqb l) ls = bool_decide (l ∈ ls).
Proof.
  apply eq_true_iff_eq. rewrite bool_decide_eq_true, existsb_exists. setoid_rewrite Nat.eqb_eq. split.
  - intros (x & Hx & ->). by apply list_elem_of_In.
  - intros Hl. exists l. by split; [apply list_elem_of_In|].
Qed.

Section facts.
Variable clock : nat → Z.

Lemma addMessage_run src msg ty s :
  let m := LogMessage.LogMessage (to_string (u64 (next_message_id s + 1))) src msg ty (clock (clock_reads s)) in
  addMessage clock src msg ty s =
  (Ok tt, mkLogger (newest MAX_MESSAGES (messages s ++ [m])) (loggers s)
    (delivered s ++ ((λ l, (l, m)) <$> loggers s)) (u64 (next_message_id s + 1)) (S (clock_reads s))).
Proof.
  cbv zeta. unfold addMessage, make_message, mbind, SE_bind, modify, gets. cbn [loggers messages set_messages].
  rewrite forward_run. cbn. by rewrite trim_newest.
Qed.
Lemma shows_call s j c : shows s j → shows (run_state (call clock c) s) (journal_call clock j c).
Proof.
  intros [Hm [Hnd Hs] Hi [Hc Hr]]. destruct c as [src msg ty|[l|]| |]; cbn [call journal_call].
  - unfold run_state. rewrite addMessage_run. cbn [snd].
    assert (u64 (next_message_id s + 1) = u64 (Z.of_nat (S (logged j)))) as Hid.
    { rewrite Hc. unfold u64. rewrite Zplus_mod_idemp_l. f_equal. lia. }
    rewrite Hid, Hr. constructor; cbn [messages loggers delivered next_message_id clock_reads logged kept sinks inbox].
    + rewrite Hm. apply newest_step. unfold MAX_MESSAGES. lia.
    + done.
    + intros l. rewrite filter_app, fmap_app, Hi, inbox_forward by done. rewrite <-Hs.
      destruct (decide (l ∈ loggers s)) as [Hl|Hl].
      * rewrite decide_True by set_solver. done.
      * rewrite decide_False by set_solver. by rewrite app_nil_r.
    + done.
  - unfold run_state. cbn. rewrite sink_registered. case_bool_decide as Hl; constructor; cbn; try done.
    + split; [done|]. rewrite <-Hs. set_solver.
    + split; [|rewrite <-Hs; set_solver]. apply NoDup_app. split_and!; [done|set_solver|apply NoDup_singleton].
  - by constructor.
  - constructor; cbn; try done. by split; [constructor|].
  - by constructor.
Qed.
Lemma shows_calls cs s j :
  shows s j → shows (run_state (run_calls clock cs) s) (foldl (journal_call clock) j cs).
Proof.
  unfold run_calls. revert s j. induction cs as [|c cs IH]; intros s j Hs; [done|]. cbn [for_each foldl].
  pose proof (shows_call s j c Hs) as Hc. unfold run_state, mbind, SE_bind in *.
  assert (∃ s', call clock c s = (Ok tt, s')) as [s' Hrun].
  { destruct c as [| [l|] | |]; cbn [call]; [by rewrite addMessage_run; eexists|by eexists..]. }
  rewrite Hrun in *. by apply IH.
Qed.
End facts.

(** * Theorems *)

(** C38. The log keeps what it should: after any calls, the stored messages are the newest
    thousand of those logged since the last clear, oldest first; each sink was given every
    message logged while it was registered, once and in order, however often it was
    registered; and reading an index gives that message or the out-of-range exception. *)
Theorem log_window clock cs :
  let s := run_state (run_calls clock cs) fresh_logger in
  let j := foldl (journal_call clock) empty_journal cs in
  shows s j ∧ length (messages s) = MAX_MESSAGES `min` length (kept j) ∧
  ∀ i, run_out (getMessage i) s =
    match newest MAX_MESSAGES (kept j) !! i with
    | Some m => Ok m
    | None => Throw (OutOfRange "Logger::getMessage index out of range")
    end.
Proof.
  cbv zeta. assert (shows (run_state (run_calls clock cs) fresh_logger) (foldl (journal_call clock) empty_journal cs)) as Hs.
  { apply shows_calls. constructor; try done. by split; [constructor|]. }
  split; [done|]. rewrite (sh_messages _ _ Hs). split; [apply newest_length|]. intros i.
  unfold run_out, getMessage, mbind, SE_bind, gets. rewrite (sh_messages _ _ Hs). by destruct (newest _ _ !! i).
Qed.

(** two registrations, a cleared log and a sink that came late *)
Example log_run :
  let s := run_state (run_calls (λ _, 7%Z) [Log "a" "one" LogMessage.INFO; AddSink (Some 4); AddSink (Some 4); Clear;
    Log "b" "two" LogMessage.ERROR; AddSink (Some 5); Log "c" "three" LogMessage.INFO]) fresh_logger in
  (LogMessage.message <$> messages s) = ["two"; "three"] ∧
  ((λ d, (d.1, LogMessage.message d.2)) <$> delivered s) = [(4, "two"); (4, "three"); (5, "three")].
Proof. vm_compute. split; reflexivity. Qed.
