(* ===== verification/Packet.v ===== *)
(** Packet (include/utils/models/packet.h, src/utils/models/packet.cpp) and the response
    codes of include/utils/RESPONSE_CODES.h: the one message type of the client and peer
    protocols, the packet type enumeration with its names, and the codes. *)
From S2P Require Import Prelude.
From stdpp Require Import options.

(** * Definitions *)

Inductive PacketType :=
  | LOGIN | LOGOUT | MESSAGE | ROOM_JOIN | ROOM_LEAVE | DEFAULT | HEARTBEAT | REGISTER
  | GOSSIP_HELLO | GOSSIP_EVENT | GOSSIP_DIGEST | GOSSIP_PULL | UPDATE_USER | ROOM_CREATE
  | ROOM_LIST | LOAD_MESSAGE_HISTORY | ROOM_INVITE | ROOM_DELETE | ROOM_KICK
  | SERVER_DIRECTORY | RECONNECT.

Global Instance PacketType_eq_dec : EqDecision PacketType.
Proof. solve_decision. Defined.

(** the enumerators in declaration order: an enumerator's position is its integer value *)
Definition all_packet_types : list PacketType :=
  [ LOGIN; LOGOUT; MESSAGE; ROOM_JOIN; ROOM_LEAVE; DEFAULT; HEARTBEAT; REGISTER;
    GOSSIP_HELLO; GOSSIP_EVENT; GOSSIP_DIGEST; GOSSIP_PULL; UPDATE_USER; ROOM_CREATE;
    ROOM_LIST; LOAD_MESSAGE_HISTORY; ROOM_INVITE; ROOM_DELETE; ROOM_KICK;
    SERVER_DIRECTORY; RECONNECT ].

(** [static_cast<int>(type)] *)
Definition type_code (t : PacketType) : Z :=
  match t with
  | LOGIN => 0 | LOGOUT => 1 | MESSAGE => 2 | ROOM_JOIN => 3 | ROOM_LEAVE => 4
  | DEFAULT => 5 | HEARTBEAT => 6 | REGISTER => 7 | GOSSIP_HELLO => 8
  | GOSSIP_EVENT => 9 | GOSSIP_DIGEST => 10 | GOSSIP_PULL => 11 | UPDATE_USER => 12
  | ROOM_CREATE => 13 | ROOM_LIST => 14 | LOAD_MESSAGE_HISTORY => 15
  | ROOM_INVITE => 16 | ROOM_DELETE => 17 | ROOM_KICK => 18 | SERVER_DIRECTORY => 19
  | RECONNECT => 20
  end%Z.

(** the enumerator an integer value stands for; [None] when it is none of them *)
Definition type_of_code (z : Z) : option PacketType :=
  if (z <? 0)%Z then None else all_packet_types !! Z.to_nat z.

(** the [packet_type_to_string] table *)
Definition packet_type_to_string : list (PacketType * string) :=
  [ (LOGIN, "LOGIN"); (LOGOUT, "LOGOUT"); (MESSAGE, "MESSAGE"); (ROOM_JOIN, "ROOM_JOIN");
    (ROOM_LEAVE, "ROOM_LEAVE"); (DEFAULT, "DEFAULT"); (HEARTBEAT, "HEARTBEAT");
    (REGISTER, "REGISTER"); (GOSSIP_HELLO, "GOSSIP_HELLO"); (GOSSIP_EVENT, "GOSSIP_EVENT");
    (GOSSIP_DIGEST, "GOSSIP_DIGEST"); (GOSSIP_PULL, "GOSSIP_PULL");
    (UPDATE_USER, "UPDATE_USER"); (ROOM_CREATE, "ROOM_CREATE"); (ROOM_LIST, "ROOM_LIST");
    (LOAD_MESSAGE_HISTORY, "LOAD_MESSAGE_HISTORY"); (ROOM_INVITE, "ROOM_INVITE");
    (ROOM_DELETE, "ROOM_DELETE"); (ROOM_KICK, "ROOM_KICK");
    (SERVER_DIRECTORY, "SERVER_DIRECTORY"); (RECONNECT, "RECONNECT") ].

Record t := Packet {
  type : PacketType;
  sender : string;
  receiver : string;
  room : string;
  message : string;
  timestamp : Z;      (* uint64_t *)
  responseCode : Z    (* int *)
}.
Add Printing Constructor t.

(** the default constructor *)
Definition empty : t := Packet DEFAULT "" "" "" "" 0 0.

(** the six-argument constructor; [now] is what [std::time] returned *)
Definition make (now : Z) (sender receiver : string) (type : PacketType)
    (room message : string) (responseCode : Z) : t :=
  Packet type sender receiver room message (u64 now) responseCode.

Definition set_type (v : PacketType) (p : t) : t :=
  Packet v (sender p) (receiver p) (room p) (message p) (timestamp p) (responseCode p).
Definition set_sender (v : string) (p : t) : t :=
  Packet (type p) v (receiver p) (room p) (message p) (timestamp p) (responseCode p).
Definition set_receiver (v : string) (p : t) : t :=
  Packet (type p) (sender p) v (room p) (message p) (timestamp p) (responseCode p).
Definition set_room (v : string) (p : t) : t :=
  Packet (type p) (sender p) (receiver p) v (message p) (timestamp p) (responseCode p).
Definition set_message (v : string) (p : t) : t :=
  Packet (type p) (sender p) (receiver p) (room p) v (timestamp p) (responseCode p).
Definition set_timestamp (v : Z) (p : t) : t :=
  Packet (type p) (sender p) (receiver p) (room p) (message p) v (responseCode p).
Definition set_code (v : Z) (p : t) : t :=
  Packet (type p) (sender p) (receiver p) (room p) (message p) (timestamp p) v.

Definition find_type (t : PacketType) : option string :=
  (λ r, r.2.2) <$> list_find (λ e, e.1 = t) packet_type_to_string.

(** [packetTypeToString]: the table entry, "DEFAULT" without one *)
Definition packetTypeToString (t : PacketType) : string := default "DEFAULT" (find_type t).

(** [stringToPacketType]: the first entry with that name, [DEFAULT] without one *)
Definition stringToPacketType (s : string) : PacketType :=
  match list_find (λ e, e.2 = s) packet_type_to_string with
  | Some (_, e) => e.1
  | None => DEFAULT
  end.

(** [isValidPacketType], on the integer value an enum object holds *)
Definition isValidPacketType (code : Z) : bool :=
  match type_of_code code with
  | Some t => bool_decide (is_Some (find_type t))
  | None => false
  end.

(** RESPONSE_CODES *)
Definition SUCCESS : Z := 200.
Definition ERROR : Z := 400.
Definition FORBIDDEN : Z := 403.
Definition NOT_FOUND : Z := 404.
Definition INTERNAL_SERVER_ERROR : Z := 500.

(** a packet whose numeric fields fit their C++ types *)
Definition wf (p : t) : Prop := in_u64 (timestamp p) ∧ in_int (responseCode p).

(** * Lemmas *)

Lemma type_of_code_code t : type_of_code (type_code t) = Some t.
Proof. by destruct t. Qed.

Lemma type_of_code_inv z t : type_of_code z = Some t → type_code t = z.
Proof.
  unfold type_of_code. destruct (Z.ltb_spec z 0) as [|Hz]; [done|].
  intros H. assert (Z.to_nat z < 21) as Hlt by (apply lookup_lt_Some in H; exact H).
  rewrite <-(Z2Nat.id z) by done. revert H. generalize (Z.to_nat z), Hlt. clear.
  intros n H. do 21 (destruct n as [|n]; [simpl; by intros [= <-]|]). lia.
Qed.

Lemma type_code_range t : (0 <= type_code t < 21)%Z.
Proof. by destruct t. Qed.

Lemma isValidPacketType_code t : isValidPacketType (type_code t) = true.
Proof. by destruct t. Qed.

Lemma isValidPacketType_inv z : isValidPacketType z = true → ∃ t, type_of_code z = Some t.
Proof. unfold isValidPacketType. destruct (type_of_code z); [eauto|done]. Qed.

Lemma packet_type_names t : stringToPacketType (packetTypeToString t) = t.
Proof. by destruct t. Qed.

#[export] Hint Rewrite type_of_code_code isValidPacketType_code packet_type_names : packet.
