(* ===== verification/Codec.v ===== *)
(** The contract between a writer of a value and the offset-passing reader that takes it
    back, shared by the packet serializer and the gossip payload.  The two source files
    carry their own copies of the same big-endian helpers; each file models its copy and
    discharges this interface for it. *)
From S2P Require Import Prelude.
From stdpp Require Import options.

(** * Definitions *)

(** [rd] reads back what [wr] wrote, at any place of a buffer, for every [ok] value; and
    whenever [rd] succeeds, what it consumed is the one encoding of an [ok] value. *)
Class Codec {A} (ok : A → Prop) (wr : A → string)
    (rd : string → Z → option (A * Z)) : Prop := {
  codec_read pre a post :
    ok a → rd (pre +:+ wr a +:+ post) (slen pre) = Some (a, (slen pre + slen (wr a))%Z);
  codec_inv pre s a o :
    rd (pre +:+ s) (slen pre) = Some (a, o) →
    ok a ∧ ∃ post, s = wr a +:+ post ∧ o = (slen pre + slen (wr a))%Z
}.

(** the four bytes of a 32-bit value, most significant first *)
Definition be32 (v : Z) : string :=
  String (byte_of_Z (v / 2 ^ 24)) (String (byte_of_Z (v / 2 ^ 16))
  (String (byte_of_Z (v / 2 ^ 8)) (String (byte_of_Z v) ""))).

(** * Lemmas *)

Lemma land_shiftl_low a b n : (0 <= n → 0 <= b < 2 ^ n → Z.land (Z.shiftl a n) b = 0)%Z.
Proof.
  intros Hn Hb. apply Z.bits_inj'. intros i Hi.
  rewrite Z.land_spec, Z.bits_0. destruct (Z.lt_ge_cases i n).
  - by rewrite Z.shiftl_spec_low.
  - rewrite <-(Z.mod_small b (2 ^ n)) by done. rewrite Z.mod_pow2_bits_high by lia.
    apply andb_false_r.
Qed.

Lemma lor_shiftl_add a b n :
  (0 <= n → 0 <= b < 2 ^ n → Z.lor (Z.shiftl a n) b = a * 2 ^ n + b)%Z.
Proof.
  intros Hn Hb. rewrite <-Z.shiftl_mul_pow2 by done.
  rewrite <-Z.lxor_lor by (by apply land_shiftl_low).
  symmetry. apply Z.add_nocarry_lxor. by apply land_shiftl_low.
Qed.

(** the value four bytes stand for *)
Lemma be_combine b0 b1 b2 b3 :
  (0 <= b0 < 256 → 0 <= b1 < 256 → 0 <= b2 < 256 → 0 <= b3 < 256 →
   Z.lor (Z.lor (Z.lor (Z.shiftl b0 24) (Z.shiftl b1 16)) (Z.shiftl b2 8)) b3
   = b0 * 2 ^ 24 + b1 * 2 ^ 16 + b2 * 2 ^ 8 + b3)%Z.
Proof.
  intros H0 H1 H2 H3.
  replace (Z.shiftl b0 24) with (Z.shiftl (Z.shiftl (Z.shiftl b0 8) 8) 8)
    by (rewrite !Z.shiftl_shiftl by lia; done).
  replace (Z.shiftl b1 16) with (Z.shiftl (Z.shiftl b1 8) 8)
    by (rewrite !Z.shiftl_shiftl by lia; done).
  rewrite <-!Z.shiftl_lor, !lor_shiftl_add by lia. lia.
Qed.

Lemma be32_length v : String.length (be32 v) = 4.
Proof. done. Qed.
Lemma slen_be32 v : slen (be32 v) = 4%Z.
Proof. done. Qed.

Lemma land_255 z : Z.land z 255 = (z mod 256)%Z.
Proof. change 255%Z with (Z.ones 8). by rewrite Z.land_ones by lia. Qed.
Lemma byte_of_Z_mod z : byte_of_Z (z mod 256) = byte_of_Z z.
Proof. unfold byte_of_Z. by rewrite Z.mod_mod by lia. Qed.

(** the bytes the shift-and-mask writers push *)
Lemma be32_shifts v :
  String (byte_of_Z (Z.land (Z.shiftr v 24) 255))
  (String (byte_of_Z (Z.land (Z.shiftr v 16) 255))
  (String (byte_of_Z (Z.land (Z.shiftr v 8) 255))
  (String (byte_of_Z (Z.land v 255)) ""))) = be32 v.
Proof.
  unfold be32. rewrite !land_255, !byte_of_Z_mod, !Z.shiftr_div_pow2 by lia. done.
Qed.

(** the four bytes determine the value and the value the bytes *)
Lemma be32_value v :
  in_u32 v →
  (Z_of_byte (byte_of_Z (v / 2 ^ 24)) * 2 ^ 24 + Z_of_byte (byte_of_Z (v / 2 ^ 16)) * 2 ^ 16 +
   Z_of_byte (byte_of_Z (v / 2 ^ 8)) * 2 ^ 8 + Z_of_byte (byte_of_Z v) = v)%Z.
Proof. unfold in_u32. intros H. rewrite !Z_of_byte_of_Z. Z.div_mod_to_equations. lia. Qed.

Lemma be32_of_bytes c0 c1 c2 c3 :
  let v := (Z_of_byte c0 * 2 ^ 24 + Z_of_byte c1 * 2 ^ 16 + Z_of_byte c2 * 2 ^ 8 + Z_of_byte c3)%Z in
  in_u32 v ∧ be32 v = String c0 (String c1 (String c2 (String c3 ""))).
Proof.
  pose proof (Z_of_byte_range c0). pose proof (Z_of_byte_range c1).
  pose proof (Z_of_byte_range c2). pose proof (Z_of_byte_range c3).
  cbv zeta. split; [unfold in_u32; lia|]. unfold be32.
  set (v := (Z_of_byte c0 * 2 ^ 24 + _)%Z).
  assert (∀ q c, (q mod 256)%Z = Z_of_byte c → byte_of_Z q = c) as Hb.
  { intros q c Hq. by rewrite <-byte_of_Z_mod, Hq, byte_of_Z_of_byte. }
  f_equal; [|f_equal; [|f_equal; [|f_equal]]]; apply Hb; unfold v;
    Z.div_mod_to_equations; lia.
Qed.

Lemma be32_inj v w : in_u32 v → in_u32 w → be32 v = be32 w → v = w.
Proof.
  intros Hv Hw H. unfold be32 in H. injection H as H0 H1 H2 H3.
  rewrite <-(be32_value v), <-(be32_value w), H0, H1, H2, H3 by done. done.
Qed.

(** the reading law at an explicit offset, with the offset after it as a length *)
Lemma codec_read_at {A} {ok : A → Prop} {wr rd} {HC : Codec ok wr rd} inp o pre a post :
  ok a → inp = pre +:+ wr a +:+ post → o = slen pre → rd inp o = Some (a, slen (pre +:+ wr a)).
Proof. intros Ha -> ->. rewrite slen_app. by apply codec_read. Qed.

Lemma codec_inv_at {A} {ok : A → Prop} {wr rd} {HC : Codec ok wr rd} inp o pre s a o' :
  rd inp o = Some (a, o') → inp = pre +:+ s → o = slen pre →
  ok a ∧ ∃ post, s = wr a +:+ post ∧ o' = slen (pre +:+ wr a).
Proof.
  intros H -> ->. destruct (codec_inv _ _ _ _ H) as (Ha & post & -> & ->).
  rewrite slen_app. eauto.
Qed.
