(* ===== verification/Serializer.v ===== *)
(** Serializer (src/utils/serializer.cpp, include/utils/serializer.h): the binary frame of
    a packet, [u32 BE size][u8 type][u64 BE timestamp][u32 BE responseCode] and four
    length-prefixed strings.  The writers and readers are the source's helper functions,
    in its order; a reader takes the buffer and an offset and returns the value and the
    offset after it.  The theorems: serialization and parsing are inverse of each other in
    both directions, and the size limit is exact. *)
From S2P Require Import Prelude Packet Codec.
From stdpp Require Import options.

(** * Definitions *)

Definition MAX_PAYLOAD_BYTES : Z := 1024 * 1024.

Definition appendU8 (out : string) (value : Z) : string :=
  out +:+ String (byte_of_Z value) "".

Definition appendU32BE (out : string) (value : Z) : string :=
  out +:+ String (byte_of_Z (Z.land (Z.shiftr value 24) 255))
         (String (byte_of_Z (Z.land (Z.shiftr value 16) 255))
         (String (byte_of_Z (Z.land (Z.shiftr value 8) 255))
         (String (byte_of_Z (Z.land value 255)) ""))).

Definition appendU64BE (out : string) (value : Z) : string :=
  appendU32BE (appendU32BE out (u32 (Z.shiftr value 32))) (u32 (Z.land value 4294967295)).

Definition appendLenPrefixed (out value : string) : string :=
  appendU32BE out (u32 (slen value)) +:+ value.

Definition remainingAtLeast (inp : string) (offset needed : Z) : bool :=
  ((offset <=? slen inp) && (needed <=? slen inp - offset))%Z.

(** [in[offset + i]] as an unsigned char, for an offset already checked *)
Definition byte_at (inp : string) (i : Z) : Z :=
  match str_drop (Z.to_nat i) inp with
  | String c _ => Z_of_byte c
  | EmptyString => 0
  end.

Definition readU8 (inp : string) (offset : Z) : option (Z * Z) :=
  if remainingAtLeast inp offset 1 then Some (byte_at inp offset, (offset + 1)%Z) else None.

Definition readU32BE (inp : string) (offset : Z) : option (Z * Z) :=
  if remainingAtLeast inp offset 4 then
    let value :=
      Z.lor (Z.lor (Z.lor (Z.shiftl (byte_at inp offset) 24)
                          (Z.shiftl (byte_at inp (offset + 1)) 16))
                   (Z.shiftl (byte_at inp (offset + 2)) 8))
            (byte_at inp (offset + 3)) in
    Some (value, (offset + 4)%Z)
  else None.

Definition readU64BE (inp : string) (offset : Z) : option (Z * Z) :=
  '(high, offset) ← readU32BE inp offset;
  '(low, offset) ← readU32BE inp offset;
  Some (Z.lor (Z.shiftl high 32) low, offset).

Definition readLenPrefixed (inp : string) (offset : Z) : option (string * Z) :=
  '(length, offset) ← readU32BE inp offset;
  if remainingAtLeast inp offset length then
    Some (substr (Z.to_nat offset) (Z.to_nat length) inp, (offset + length)%Z)
  else None.

(** the payload of a packet *)
Definition payload (packet : Packet.t) : string :=
  let out := appendU8 "" (u8 (type_code (Packet.type packet))) in
  let out := appendU64BE out (Packet.timestamp packet) in
  let out := appendU32BE out (u32 (Packet.responseCode packet)) in
  let out := appendLenPrefixed out (Packet.sender packet) in
  let out := appendLenPrefixed out (Packet.receiver packet) in
  let out := appendLenPrefixed out (Packet.room packet) in
  appendLenPrefixed out (Packet.message packet).

Definition serialize (packet : Packet.t) : string :=
  if negb (isValidPacketType (type_code (Packet.type packet))) then ""
  else
    let payload := payload packet in
    if (MAX_PAYLOAD_BYTES <? slen payload)%Z then ""
    else appendU32BE "" (u32 (slen payload)) +:+ payload.

Definition deserialize (serializedPacket : string) : option Packet.t :=
  if (slen serializedPacket <? 4)%Z then None
  else
    '(payloadSize, offset) ← readU32BE serializedPacket 0;
    if ((payloadSize =? 0) || (MAX_PAYLOAD_BYTES <? payloadSize))%Z then None
    else if negb (slen serializedPacket =? 4 + payloadSize)%Z then None
    else
      '(typeByte, offset) ← readU8 serializedPacket offset;
      if negb (isValidPacketType typeByte) then None
      else
        type ← type_of_code typeByte;
        '(timestamp, offset) ← readU64BE serializedPacket offset;
        '(responseCode, offset) ← readU32BE serializedPacket offset;
        '(sender, offset) ← readLenPrefixed serializedPacket offset;
        '(receiver, offset) ← readLenPrefixed serializedPacket offset;
        '(room, offset) ← readLenPrefixed serializedPacket offset;
        '(message, offset) ← readLenPrefixed serializedPacket offset;
        if negb (offset =? slen serializedPacket)%Z then None
        else Some (Packet.Packet type sender receiver room message timestamp
                     (as_int responseCode)).

(** * Lemmas *)

(** ** The helpers as codecs *)

Lemma appendU32BE_be32 out v : appendU32BE out v = out +:+ be32 v.
Proof. unfold appendU32BE. by rewrite be32_shifts. Qed.

Lemma byte_at_app pre s i : (0 <= i)%Z → byte_at (pre +:+ s) (slen pre + i) = byte_at s i.
Proof.
  intros Hi. unfold byte_at, slen. rewrite Z2Nat.inj_add, Nat2Z.id by lia.
  by rewrite str_drop_app_plus.
Qed.
Lemma byte_at_app_0 pre s : byte_at (pre +:+ s) (slen pre) = byte_at s 0.
Proof. rewrite <-(byte_at_app pre s 0) by lia. f_equal. lia. Qed.
Lemma remainingAtLeast_app pre s n :
  remainingAtLeast (pre +:+ s) (slen pre) n = (n <=? slen s)%Z.
Proof. unfold remainingAtLeast. rewrite slen_app. pose proof (slen_nonneg s). lia. Qed.

Definition u64_bytes (v : Z) : string := be32 (v / 2 ^ 32) +:+ be32 (v mod 2 ^ 32).
Definition str_bytes (s : string) : string := be32 (slen s) +:+ s.
Definition u8_bytes (v : Z) : string := String (byte_of_Z v) "".
Definition short (s : string) : Prop := (slen s < 2 ^ 32)%Z.

Lemma four_bytes s :
  (4 <= slen s)%Z → ∃ c0 c1 c2 c3 t, s = String c0 (String c1 (String c2 (String c3 t))).
Proof.
  destruct s as [|c0 [|c1 [|c2 [|c3 t]]]]; unfold slen; simpl; intros H; try lia. eauto 6.
Qed.

Lemma readU32BE_app pre s :
  readU32BE (pre +:+ s) (slen pre) =
  if (4 <=? slen s)%Z then
    Some (byte_at s 0 * 2 ^ 24 + byte_at s 1 * 2 ^ 16 + byte_at s 2 * 2 ^ 8 + byte_at s 3,
          slen pre + 4)%Z
  else None.
Proof.
  unfold readU32BE. rewrite remainingAtLeast_app. destruct (_ <=? _)%Z eqn:E; [|done].
  rewrite byte_at_app_0, !byte_at_app by lia.
  destruct (four_bytes s) as (c0 & c1 & c2 & c3 & t & ->); [lia|].
  unfold byte_at; simpl. pose proof (Z_of_byte_range c0). pose proof (Z_of_byte_range c1).
  pose proof (Z_of_byte_range c2). pose proof (Z_of_byte_range c3).
  by rewrite be_combine by done.
Qed.

#[export] Instance u32_codec : Codec in_u32 be32 readU32BE.
Proof.
  split.
  - intros pre v post Hv. rewrite readU32BE_app, !slen_app, !slen_be32.
    pose proof (slen_nonneg post). destruct (_ <=? _)%Z eqn:?; [|lia].
    unfold byte_at, be32; simpl. rewrite be32_value by done. do 2 f_equal.
  - intros pre s v o. rewrite readU32BE_app. destruct (_ <=? _)%Z eqn:E; [|done].
    destruct (four_bytes s) as (c0 & c1 & c2 & c3 & t & ->); [lia|].
    unfold byte_at; simpl. intros [= <- <-].
    destruct (be32_of_bytes c0 c1 c2 c3) as [Hv Hb]. split; [done|].
    exists t. rewrite Hb. done.
Qed.

#[export] Instance u8_codec : Codec (λ v, 0 <= v < 256)%Z u8_bytes readU8.
Proof.
  split.
  - intros pre v post Hv. unfold readU8. rewrite remainingAtLeast_app, byte_at_app_0.
    rewrite slen_app. pose proof (slen_nonneg post).
    destruct (Z.leb_spec 1 (slen (u8_bytes v) + slen post)); [|unfold u8_bytes in *; rewrite slen_cons, slen_nil in *; lia].
    unfold byte_at; simpl. rewrite Z_of_byte_of_Z, Z.mod_small by done. done.
  - intros pre s v o. unfold readU8. rewrite remainingAtLeast_app, byte_at_app_0.
    destruct s as [|c t]; [done|]. rewrite slen_cons. pose proof (slen_nonneg t).
    destruct (_ <=? _)%Z eqn:?; [|lia]. unfold byte_at; simpl. intros [= <- <-].
    split; [apply Z_of_byte_range|]. exists t. unfold u8_bytes.
    by rewrite byte_of_Z_of_byte.
Qed.

#[export] Instance u64_codec : Codec in_u64 u64_bytes readU64BE.
Proof.
  split.
  - intros pre v post Hv. unfold readU64BE, u64_bytes, in_u64 in *.
    assert (in_u32 (v / 2 ^ 32) ∧ in_u32 (v mod 2 ^ 32)) as [Hh Hl]
      by (unfold in_u32; Z.div_mod_to_equations; lia).
    rewrite (codec_read_at _ _ pre (v / 2 ^ 32)%Z (be32 (v mod 2 ^ 32) +:+ post)); [|done| |done].
    2: by rewrite str_app_assoc.
    simpl. rewrite (codec_read_at _ _ (pre +:+ be32 (v / 2 ^ 32)) (v mod 2 ^ 32)%Z post); [|done| |done].
    2: by rewrite !str_app_assoc.
    simpl. do 2 f_equal.
    + rewrite lor_shiftl_add by (unfold in_u32 in Hl; lia). Z.div_mod_to_equations; lia.
    + rewrite !slen_app. lia.
  - intros pre s v o. unfold readU64BE.
    destruct (readU32BE _ (slen pre)) as [[h o1]|] eqn:E1; simpl; [|done].
    destruct (codec_inv_at _ _ pre s _ _ E1) as (Hh & s1 & -> & ->); [done..|].
    destruct (readU32BE _ (slen (pre +:+ be32 h))) as [[l o2]|] eqn:E2; simpl; [|done].
    destruct (codec_inv_at _ _ (pre +:+ be32 h) s1 _ _ E2) as (Hl & s2 & -> & ->);
      [by rewrite str_app_assoc|done|].
    intros [= <- <-]. unfold in_u32 in *. rewrite lor_shiftl_add by lia.
    assert ((h * 2 ^ 32 + l) / 2 ^ 32 = h ∧ (h * 2 ^ 32 + l) mod 2 ^ 32 = l)%Z as [Hd Hm]
      by (Z.div_mod_to_equations; lia).
    split; [unfold in_u64; lia|]. exists s2. unfold u64_bytes. rewrite Hd, Hm, !str_app_assoc.
    split; [done|]. rewrite !slen_app. lia.
Qed.

#[export] Instance str_codec : Codec short str_bytes readLenPrefixed.
Proof.
  split.
  - intros pre x post Hx. unfold readLenPrefixed, str_bytes, short in *.
    pose proof (slen_nonneg x).
    rewrite (codec_read_at _ _ pre (slen x) (x +:+ post)); [|by split|by rewrite str_app_assoc|done].
    simpl. replace (pre +:+ (be32 (slen x) +:+ x) +:+ post)
      with ((pre +:+ be32 (slen x)) +:+ x +:+ post) by (by rewrite !str_app_assoc).
    rewrite remainingAtLeast_app, slen_app. pose proof (slen_nonneg post).
    destruct (_ <=? _)%Z eqn:?; [|lia]. do 2 f_equal.
    + unfold slen. rewrite !Nat2Z.id. apply substr_mid.
    + rewrite !slen_app. lia.
  - intros pre s x o. unfold readLenPrefixed.
    destruct (readU32BE _ (slen pre)) as [[l o1]|] eqn:E1; simpl; [|done].
    destruct (codec_inv_at _ _ pre s _ _ E1) as (Hl & s1 & -> & ->); [done..|].
    replace (pre +:+ be32 l +:+ s1) with ((pre +:+ be32 l) +:+ s1) by (by rewrite str_app_assoc).
    rewrite remainingAtLeast_app. destruct (Z.leb_spec l (slen s1)); [|done].
    intros [= <- <-]. unfold in_u32 in Hl.
    set (n := Z.to_nat l). assert (n <= String.length s1) as Hn by (unfold slen in *; lia).
    assert (substr (Z.to_nat (slen (pre +:+ be32 l))) n ((pre +:+ be32 l) +:+ s1) = str_take n s1)
      as ->. { unfold substr, slen. by rewrite Nat2Z.id, str_drop_app_len. }
    assert (slen (str_take n s1) = l) as Hlen.
    { unfold slen. rewrite str_take_length. lia. }
    split; [unfold short; lia|]. exists (str_drop n s1). unfold str_bytes. rewrite Hlen.
    rewrite str_app_assoc, str_take_drop. split; [done|]. rewrite !slen_app, Hlen. lia.
Qed.

(** ** The frame *)

Lemma appendLenPrefixed_bytes out s : short s → appendLenPrefixed out s = out +:+ str_bytes s.
Proof.
  intros H. unfold appendLenPrefixed, str_bytes. rewrite appendU32BE_be32.
  unfold u32. rewrite Z.mod_small by (pose proof (slen_nonneg s); unfold short in H; lia).
  by rewrite str_app_assoc.
Qed.

Lemma appendU64BE_bytes out v : in_u64 v → appendU64BE out v = out +:+ u64_bytes v.
Proof.
  intros H. unfold appendU64BE, u64_bytes, in_u64, u32 in *. rewrite !appendU32BE_be32.
  change 4294967295%Z with (Z.ones 32). rewrite Z.land_ones, Z.shiftr_div_pow2 by lia.
  rewrite Z.mod_mod by lia. rewrite (Z.mod_small (v / 2 ^ 32))
    by (Z.div_mod_to_equations; lia). by rewrite str_app_assoc.
Qed.

Lemma slen_appendLenPrefixed out s : slen (appendLenPrefixed out s) = (slen out + 4 + slen s)%Z.
Proof. unfold appendLenPrefixed. rewrite slen_app, appendU32BE_be32, slen_app, slen_be32. lia. Qed.

(** total length of the four string fields *)
Definition text_size (p : Packet.t) : Z :=
  slen (Packet.sender p) + slen (Packet.receiver p) + slen (Packet.room p) +
  slen (Packet.message p).

Lemma slen_payload p : slen (payload p) = (29 + text_size p)%Z.
Proof.
  unfold payload, text_size. rewrite !slen_appendLenPrefixed, appendU32BE_be32.
  unfold appendU64BE. rewrite !appendU32BE_be32, !slen_app, !slen_be32. unfold appendU8.
  rewrite str_app_nil_l, slen_cons, slen_nil. lia.
Qed.

Definition shorts (p : Packet.t) : Prop :=
  short (Packet.sender p) ∧ short (Packet.receiver p) ∧ short (Packet.room p) ∧
  short (Packet.message p).

Lemma shorts_of_payload p : (slen (payload p) <= MAX_PAYLOAD_BYTES)%Z → shorts p.
Proof.
  rewrite slen_payload. unfold text_size, shorts, short, MAX_PAYLOAD_BYTES.
  pose proof (slen_nonneg (Packet.sender p)). pose proof (slen_nonneg (Packet.receiver p)).
  pose proof (slen_nonneg (Packet.room p)). pose proof (slen_nonneg (Packet.message p)). lia.
Qed.

Lemma type_code_u8 t : u8 (type_code t) = type_code t ∧ (0 <= type_code t < 256)%Z.
Proof. unfold u8. pose proof (type_code_range t). rewrite Z.mod_small; lia. Qed.

Lemma payload_bytes p :
  Packet.wf p → shorts p →
  payload p = u8_bytes (type_code (Packet.type p)) +:+ u64_bytes (Packet.timestamp p) +:+
    be32 (u32 (Packet.responseCode p)) +:+ str_bytes (Packet.sender p) +:+
    str_bytes (Packet.receiver p) +:+ str_bytes (Packet.room p) +:+
    str_bytes (Packet.message p).
Proof.
  intros [Hts _] (? & ? & ? & ?). unfold payload.
  rewrite !appendLenPrefixed_bytes, appendU32BE_be32, appendU64BE_bytes by done.
  unfold appendU8, u8_bytes. rewrite (proj1 (type_code_u8 _)).
  by rewrite str_app_nil_l, !str_app_assoc.
Qed.

Lemma serialize_eq p :
  serialize p = if (MAX_PAYLOAD_BYTES <? slen (payload p))%Z then ""
                else be32 (slen (payload p)) +:+ payload p.
Proof.
  unfold serialize. rewrite isValidPacketType_code. cbn [negb]. cbv zeta.
  destruct (Z.ltb_spec MAX_PAYLOAD_BYTES (slen (payload p))); [done|].
  rewrite appendU32BE_be32, str_app_nil_l. unfold u32. rewrite Z.mod_small; [done|].
  pose proof (slen_nonneg (payload p)). unfold MAX_PAYLOAD_BYTES in *. lia.
Qed.

Lemma serialize_nonempty p : (29 + text_size p <= MAX_PAYLOAD_BYTES)%Z → serialize p ≠ "".
Proof.
  rewrite serialize_eq, slen_payload. intros H. destruct (Z.ltb_spec MAX_PAYLOAD_BYTES (29 + text_size p)); [lia|].
  done.
Qed.

Lemma as_int_u32 z : in_int z → as_int (u32 z) = z.
Proof.
  unfold in_int, as_int, u32. intros H. rewrite Z.mod_mod by lia.
  destruct (Z.ltb_spec (z mod 2 ^ 32) (2 ^ 31)); Z.div_mod_to_equations; lia.
Qed.
Lemma u32_as_int z : in_u32 z → u32 (as_int z) = z ∧ in_int (as_int z).
Proof.
  unfold in_int, in_u32, as_int, u32. intros H. rewrite (Z.mod_small z) by lia. cbv zeta.
  destruct (Z.ltb_spec z (2 ^ 31)); split; Z.div_mod_to_equations; lia.
Qed.
Lemma u32_range z : in_u32 (u32 z).
Proof. unfold in_u32, u32. apply Z.mod_pos_bound. lia. Qed.

#[local] Opaque be32 u64_bytes str_bytes u8_bytes payload.

Ltac subst_strings := repeat match goal with x := _ : string |- _ => subst x end.

(** reads the field [a], written right after [pre] *)
Ltac read_field pre a post :=
  rewrite (codec_read_at _ _ pre a post);
  [ cbn [mbind option_bind fst snd] | assumption || apply u32_range
  | subst_strings; rewrite ?str_app_nil_r, ?str_app_assoc; reflexivity | reflexivity ].

Lemma payload_min p : (29 <= slen (payload p))%Z.
Proof.
  rewrite slen_payload. unfold text_size. pose proof (slen_nonneg (Packet.sender p)).
  pose proof (slen_nonneg (Packet.receiver p)). pose proof (slen_nonneg (Packet.room p)).
  pose proof (slen_nonneg (Packet.message p)). lia.
Qed.

Lemma deserialize_frame p :
  Packet.wf p → (slen (payload p) <= MAX_PAYLOAD_BYTES)%Z →
  deserialize (be32 (slen (payload p)) +:+ payload p) = Some p.
Proof.
  intros Hwf Hmax. pose proof (shorts_of_payload p Hmax) as Hs. pose proof (payload_min p).
  assert (in_u32 (slen (payload p))) as Hn by (unfold in_u32, MAX_PAYLOAD_BYTES in *; lia).
  unfold deserialize. set (n := slen (payload p)) in *.
  rewrite slen_app, slen_be32. fold n. rewrite (proj2 (Z.ltb_ge (4 + n) 4)) by lia.
  read_field "" n (payload p).
  rewrite (proj2 (orb_false_iff _ _)) by lia. rewrite Z.eqb_refl. cbn [negb].
  pose proof (payload_bytes p Hwf Hs) as Hp. rewrite Hp.
  destruct Hwf as [Hts Hrc], Hs as (? & ? & ? & ?).
  pose proof (proj2 (type_code_u8 (Packet.type p))) as Hc.
  set (c := type_code (Packet.type p)) in *. set (R := u32 (Packet.responseCode p)).
  set (h := "" +:+ be32 n).
  read_field h c (u64_bytes (Packet.timestamp p) +:+ be32 R +:+ str_bytes (Packet.sender p) +:+
    str_bytes (Packet.receiver p) +:+ str_bytes (Packet.room p) +:+ str_bytes (Packet.message p)).
  replace (isValidPacketType c) with true by (symmetry; apply isValidPacketType_code).
  replace (type_of_code c) with (Some (Packet.type p)) by (symmetry; apply type_of_code_code).
  cbn [negb mbind option_bind].
  set (h1 := h +:+ u8_bytes c).
  read_field h1 (Packet.timestamp p) (be32 R +:+ str_bytes (Packet.sender p) +:+
    str_bytes (Packet.receiver p) +:+ str_bytes (Packet.room p) +:+ str_bytes (Packet.message p)).
  set (h2 := h1 +:+ u64_bytes (Packet.timestamp p)).
  read_field h2 R (str_bytes (Packet.sender p) +:+ str_bytes (Packet.receiver p) +:+
    str_bytes (Packet.room p) +:+ str_bytes (Packet.message p)).
  set (h3 := h2 +:+ be32 R).
  read_field h3 (Packet.sender p) (str_bytes (Packet.receiver p) +:+
    str_bytes (Packet.room p) +:+ str_bytes (Packet.message p)).
  set (h4 := h3 +:+ str_bytes (Packet.sender p)).
  read_field h4 (Packet.receiver p) (str_bytes (Packet.room p) +:+ str_bytes (Packet.message p)).
  set (h5 := h4 +:+ str_bytes (Packet.receiver p)).
  read_field h5 (Packet.room p) (str_bytes (Packet.message p)).
  set (h6 := h5 +:+ str_bytes (Packet.room p)).
  read_field h6 (Packet.message p) "".
  match goal with |- context [(?a =? ?b)%Z] => replace (a =? b)%Z with true end.
  2: { symmetry. apply Z.eqb_eq. transitivity (slen (be32 n +:+ payload p)).
       - rewrite Hp. apply (f_equal slen). subst_strings. by rewrite !str_app_assoc.
       - by rewrite slen_app, slen_be32. }
  cbn [negb]. unfold R. rewrite as_int_u32 by done. by destruct p.
Qed.

(** names the field the next successful read of [deserialize] consumed *)
Ltac inv_field rest a Ha post :=
  match goal with
  | |- context [mbind _ (?rd ?inp (slen ?pre))] =>
      let E := fresh "E" in
      destruct (rd inp (slen pre)) as [[a ?]|] eqn:E; [|done]; cbn [mbind option_bind];
      apply (codec_inv_at inp (slen pre) pre rest) in E as (Ha & post & -> & ->);
      [|rewrite ?str_app_assoc; reflexivity|reflexivity]
  end.

Lemma deserialize_inv s p :
  deserialize s = Some p →
  Packet.wf p ∧ (slen (payload p) <= MAX_PAYLOAD_BYTES)%Z ∧
  s = be32 (slen (payload p)) +:+ payload p.
Proof.
  unfold deserialize. destruct (Z.ltb_spec (slen s) 4); [done|].
  destruct (readU32BE s 0) as [[n o]|] eqn:E0; [|done]. cbn [mbind option_bind].
  destruct (codec_inv_at _ _ "" s _ _ E0) as (Hn & s1 & -> & ->); [reflexivity..|].
  destruct (_ || _) eqn:Hb; [done|]. destruct (slen _ =? 4 + n)%Z eqn:Hl; [|done]. cbn [negb].
  inv_field s1 c Hc s2. destruct (isValidPacketType _); [|done]. cbn [negb].
  destruct (type_of_code _) as [ty|] eqn:Hty; [|done]. cbn [mbind option_bind].
  apply type_of_code_inv in Hty as <-.
  inv_field s2 T HT s3. inv_field s3 R HR s4. inv_field s4 x1 H1 s5. inv_field s5 x2 H2 s6. inv_field s6 x3 H3 s7.
  inv_field s7 x4 H4 s8.
  destruct (_ =? slen _)%Z eqn:Hend; [|done]. cbn [negb]. intros [= <-].
  assert (s8 = "") as ->.
  { apply slen_zero. apply Z.eqb_eq in Hend. rewrite !slen_app, ?slen_nil in Hend. lia. }
  match goal with |- Packet.wf ?q ∧ _ => set (p := q) end.
  assert (Packet.wf p) as Hwf by (split; [done|]; by apply u32_as_int).
  assert (shorts p) as Hs by done.
  assert (payload p = u8_bytes (type_code ty) +:+ u64_bytes T +:+ be32 R +:+ str_bytes x1 +:+
    str_bytes x2 +:+ str_bytes x3 +:+ str_bytes x4 +:+ "") as Hp.
  { rewrite payload_bytes by done. simpl. by rewrite (proj1 (u32_as_int _ HR)), str_app_nil_r. }
  rewrite <-Hp in *. apply Z.eqb_eq in Hl. rewrite slen_app, slen_be32 in Hl.
  assert (n = slen (payload p)) as -> by lia.
  apply orb_false_iff in Hb as [_ Hb%Z.ltb_ge]. done.
Qed.

(** * Theorems *)

(** C29. A packet whose numeric fields fit their C++ types and whose frame does not exceed
    the size limit is read back unchanged from the bytes [serialize] wrote. *)
Theorem deserialize_serialize p :
  Packet.wf p → serialize p ≠ "" → deserialize (serialize p) = Some p.
Proof.
  intros Hwf. rewrite serialize_eq. destruct (Z.ltb_spec MAX_PAYLOAD_BYTES (slen (payload p))); [done|].
  intros _. by apply deserialize_frame.
Qed.

(** C30. The wire form is canonical: a buffer [deserialize] accepts is exactly the
    serialization of the packet it returns, so two different buffers never decode to the
    same packet, and the packet's numbers fit their types. *)
Theorem serialize_deserialize s p :
  deserialize s = Some p → serialize p = s ∧ Packet.wf p.
Proof.
  intros (Hwf & Hmax & ->)%deserialize_inv. split; [|done].
  rewrite serialize_eq. by rewrite (proj2 (Z.ltb_ge _ _)).
Qed.

(** [serialize] refuses a packet exactly when its four strings exceed the limit of
    1 MiB less the 29 fixed bytes; otherwise the frame is 33 bytes longer than the strings
    and starts with the payload size in big-endian order. *)
Theorem serialize_limit p :
  if (1048547 <? text_size p)%Z then serialize p = ""
  else slen (serialize p) = (33 + text_size p)%Z ∧
       readU32BE (serialize p) 0 = Some (29 + text_size p, 4)%Z.
Proof.
  rewrite serialize_eq, slen_payload. unfold MAX_PAYLOAD_BYTES. pose proof (payload_min p) as Hm.
  rewrite slen_payload in Hm.
  destruct (Z.ltb_spec 1048547 (text_size p)), (Z.ltb_spec (1024 * 1024) (29 + text_size p)); try lia;
    [done|]. split.
  - rewrite slen_app, slen_be32, slen_payload. lia.
  - assert (in_u32 (29 + text_size p)) as Hn by (unfold in_u32; lia).
    pose proof (codec_read_at _ 0 "" _ (payload p) Hn eq_refl eq_refl) as Hr.
    by rewrite !str_app_nil_l, slen_be32 in Hr.
Qed.

Definition sample : Packet.t :=
  Packet.make 1726000000 "alice" "" MESSAGE "General" "hi | there" (-1).

Lemma deserialize_serialize_witness : deserialize (serialize sample) = Some sample.
Proof.
  apply (deserialize_serialize sample); [split; vm_compute; split; congruence|vm_compute; congruence].
Defined.
Lemma serialize_deserialize_witness :
  serialize sample = serialize sample ∧ Packet.wf sample.
Proof. apply (serialize_deserialize (serialize sample) sample). vm_compute. reflexivity. Defined.
