(* ===== verification/GossipPayload.v ===== *)
(** Gossip event payload (src/utils/gossip_payload.cpp): the body of a [GOSSIP_EVENT]
    packet, five length-prefixed fields.  The source file has its own copies of the
    big-endian helpers; they are modelled again here and shown to be the serializer's.
    The theorems: [encode] and [decode] are inverse of each other, and [eventId] reads the
    second field of every payload [encode] writes. *)
From S2P Require Import Prelude Packet Codec Serializer.
From stdpp Require Import options.

(** * Definitions *)

Record Fields := mkFields {
  type : string;
  eventId_ : string;
  username : string;
  content : string;
  field5 : string
}.

Definition appendU32BE (out : string) (value : Z) : string :=
  out +:+ String (byte_of_Z (Z.land (Z.shiftr value 24) 255))
         (String (byte_of_Z (Z.land (Z.shiftr value 16) 255))
         (String (byte_of_Z (Z.land (Z.shiftr value 8) 255))
         (String (byte_of_Z (Z.land value 255)) ""))).

Definition appendField (out value : string) : string :=
  appendU32BE out (u32 (slen value)) +:+ value.

Definition remainingAtLeast (inp : string) (offset needed : Z) : bool :=
  ((offset <=? slen inp) && (needed <=? slen inp - offset))%Z.

Definition readU32BE (inp : string) (offset : Z) : option (Z * Z) :=
  if remainingAtLeast inp offset 4 then
    let value :=
      Z.lor (Z.lor (Z.lor (Z.shiftl (byte_at inp offset) 24)
                          (Z.shiftl (byte_at inp (offset + 1)) 16))
                   (Z.shiftl (byte_at inp (offset + 2)) 8))
            (byte_at inp (offset + 3)) in
    Some (value, (offset + 4)%Z)
  else None.

Definition readField (inp : string) (offset : Z) : option (string * Z) :=
  '(length, offset) ← readU32BE inp offset;
  if remainingAtLeast inp offset length then
    Some (substr (Z.to_nat offset) (Z.to_nat length) inp, (offset + length)%Z)
  else None.

Definition encode (type eventId username content field5 : string) : string :=
  let out := appendField "" type in
  let out := appendField out eventId in
  let out := appendField out username in
  let out := appendField out content in
  appendField out field5.

Definition decode (payload : string) : option Fields :=
  '(type, offset) ← readField payload 0;
  '(eventId, offset) ← readField payload offset;
  '(username, offset) ← readField payload offset;
  '(content, offset) ← readField payload offset;
  '(field5, offset) ← readField payload offset;
  if negb (offset =? slen payload)%Z then None
  else Some (mkFields type eventId username content field5).

Definition eventId (payload : string) : string :=
  match readField payload 0 with
  | None => ""
  | Some (_, offset) =>
      match readField payload offset with
      | None => ""
      | Some (id, _) => id
      end
  end.

(** all five fields have a length a [uint32_t] can hold *)
Definition fields_short (f : Fields) : Prop :=
  short (type f) ∧ short (eventId_ f) ∧ short (username f) ∧ short (content f) ∧
  short (field5 f).
Definition encode_fields (f : Fields) : string :=
  encode (type f) (eventId_ f) (username f) (content f) (field5 f).

(** * Lemmas *)

Lemma readField_serializer : readField = readLenPrefixed.
Proof. reflexivity. Qed.
Lemma appendField_serializer : appendField = appendLenPrefixed.
Proof. reflexivity. Qed.

#[export] Instance field_codec : Codec short str_bytes readField.
Proof. rewrite readField_serializer. apply str_codec. Qed.

Lemma encode_bytes f :
  fields_short f →
  encode_fields f = str_bytes (type f) +:+ str_bytes (eventId_ f) +:+ str_bytes (username f) +:+
    str_bytes (content f) +:+ str_bytes (field5 f).
Proof.
  intros (? & ? & ? & ? & ?). unfold encode_fields, encode. rewrite appendField_serializer.
  rewrite !appendLenPrefixed_bytes by done. by rewrite str_app_nil_l, !str_app_assoc.
Qed.

#[local] Opaque str_bytes.

Lemma eventId_prefix t i post :
  short t → short i → eventId (str_bytes t +:+ str_bytes i +:+ post) = i.
Proof.
  intros Ht Hi. unfold eventId.
  rewrite (codec_read_at _ 0 "" t (str_bytes i +:+ post)) by done.
  rewrite (codec_read_at _ _ (str_bytes t) i post) by done. done.
Qed.

Lemma decode_encode_fields f : fields_short f → decode (encode_fields f) = Some f.
Proof.
  intros Hf. rewrite encode_bytes by done. destruct Hf as (H1 & H2 & H3 & H4 & H5).
  unfold decode. set (h0 := "").
  read_field h0 (type f) (str_bytes (eventId_ f) +:+ str_bytes (username f) +:+
    str_bytes (content f) +:+ str_bytes (field5 f)).
  set (h1 := h0 +:+ str_bytes (type f)).
  read_field h1 (eventId_ f) (str_bytes (username f) +:+ str_bytes (content f) +:+
    str_bytes (field5 f)).
  set (h2 := h1 +:+ str_bytes (eventId_ f)).
  read_field h2 (username f) (str_bytes (content f) +:+ str_bytes (field5 f)).
  set (h3 := h2 +:+ str_bytes (username f)).
  read_field h3 (content f) (str_bytes (field5 f)).
  set (h4 := h3 +:+ str_bytes (content f)).
  read_field h4 (field5 f) "".
  match goal with |- context [(?a =? ?b)%Z] => replace (a =? b)%Z with true end.
  2: { symmetry. apply Z.eqb_eq, (f_equal slen). subst_strings. by rewrite !str_app_assoc. }
  by destruct f.
Qed.

(** whatever the later fields hold, an encoded payload shows the type it was given *)
Lemma appendField_grows out s : ∃ t, appendField out s = out +:+ t.
Proof. unfold appendField, appendU32BE. eexists. by rewrite str_app_assoc. Qed.
Lemma decode_type t i u c g f : short t → decode (encode t i u c g) = Some f → type f = t.
Proof.
  intros Ht. unfold encode. cbv zeta.
  assert (appendField "" t = str_bytes t) as Hfirst.
  { rewrite appendField_serializer, appendLenPrefixed_bytes by done. apply str_app_nil_l. }
  destruct (appendField_grows (appendField (appendField (appendField (appendField "" t) i) u) c) g) as [x4 ->].
  destruct (appendField_grows (appendField (appendField (appendField "" t) i) u) c) as [x3 ->].
  destruct (appendField_grows (appendField (appendField "" t) i) u) as [x2 ->].
  destruct (appendField_grows (appendField "" t) i) as [x1 ->].
  rewrite Hfirst, !str_app_assoc. unfold decode.
  rewrite (codec_read_at (rd := readField) _ 0 "" t (x1 +:+ x2 +:+ x3 +:+ x4)) by done.
  cbn [mbind option_bind]. intros H.
  destruct (readField _ _) as [[y1 o1]|]; [|done]. cbn [mbind option_bind] in H.
  destruct (readField _ o1) as [[y2 o2]|]; [|done]. cbn [mbind option_bind] in H.
  destruct (readField _ o2) as [[y3 o3]|]; [|done]. cbn [mbind option_bind] in H.
  destruct (readField _ o3) as [[y4 o4]|]; [|done]. cbn [mbind option_bind] in H.
  destruct (negb _); [done|]. by injection H as <-.
Qed.

Lemma decode_inv s f : decode s = Some f → fields_short f ∧ encode_fields f = s.
Proof.
  unfold decode.
  destruct (readField s 0) as [[x1 o]|] eqn:E0; [|done]. cbn [mbind option_bind].
  destruct (codec_inv_at _ _ "" s _ _ E0) as (H1 & s1 & -> & ->); [reflexivity..|].
  inv_field s1 x2 H2 s2. inv_field s2 x3 H3 s3. inv_field s3 x4 H4 s4. inv_field s4 x5 H5 s5.
  destruct (_ =? slen _)%Z eqn:Hend; [|done]. cbn [negb]. intros [= <-].
  assert (s5 = "") as ->.
  { apply slen_zero. apply Z.eqb_eq in Hend. rewrite !slen_app, ?slen_nil in Hend. lia. }
  assert (fields_short (mkFields x1 x2 x3 x4 x5)) as Hs by done.
  split; [done|]. rewrite encode_bytes by done. simpl. by rewrite str_app_nil_r.
Qed.

(** * Theorems *)

(** [decode] inverts [encode] on every five fields, whatever bytes they hold (the
    separator bytes of other encodings included). *)
Theorem decode_encode f : fields_short f → decode (encode_fields f) = Some f.
Proof. apply decode_encode_fields. Qed.

(** A payload [decode] accepts is exactly the encoding of the fields it returns, and
    [eventId], which does not look past the second field, returns the same identifier:
    the deduplication key of an accepted event is the identifier it is applied under. *)
Theorem encode_decode s f :
  decode s = Some f → encode_fields f = s ∧ eventId s = eventId_ f.
Proof.
  intros (Hs & <-)%decode_inv. split; [done|]. rewrite encode_bytes by done.
  destruct Hs as (? & ? & _). by apply eventId_prefix.
Qed.

Definition sample_fields : Fields :=
  mkFields "MESSAGE" "node1-MESSAGE-a|b-17-3" "a|b" "x|y|z" "1726000000".
Lemma decode_encode_witness : decode (encode_fields sample_fields) = Some sample_fields.
Proof. apply (decode_encode sample_fields). repeat split. Defined.
Lemma encode_decode_witness :
  encode_fields sample_fields = encode_fields sample_fields ∧
  eventId (encode_fields sample_fields) = "node1-MESSAGE-a|b-17-3".
Proof. apply (encode_decode (encode_fields sample_fields) sample_fields). vm_compute. reflexivity. Defined.
