(* ===== verification/Models.v ===== *)
(** Data models (src/utils/models): [User], [Room], [ClientEndpoint] and [Message], one
    Module each, with the text form each one has on the wire, [user(a|b|c)],
    [room(a|b|c|d)], [endpoint(a|b|c)], and the room directory, rooms joined by ';'.
    [None] is the [std::invalid_argument] a [deserialize] throws.
    The theorems: every text form reads back the value it was written from, under the
    exact condition on separators the format needs, and the room directory parser keeps
    each well-formed entry whatever the others hold. *)
From S2P Require Import Prelude.
From stdpp Require Import options.

(** * Definitions *)

(** the body between [prefix] and the closing parenthesis: the check and the [substr] the
    three [deserialize] functions share *)
Definition unwrap (pfx serialized : string) : option string :=
  if (String.length serialized <? String.length pfx + 1)%nat
     || negb (String.prefix pfx serialized)
     || negb (bool_decide (str_last serialized = Some ")"%char))
  then None
  else Some (substr (String.length pfx)
               (String.length serialized - String.length pfx - 1) serialized).

Module User.
Inductive UserType := ADMIN | USER | GUEST.

Record t := User { username : string; email : string; user_type : UserType }.

(** [userTypeToStringMap] *)
Definition userTypeToStringMap : list (UserType * string) :=
  [(ADMIN, "ADMIN"); (USER, "USER"); (GUEST, "GUEST")].

Definition typeToString (ty : UserType) : string :=
  match ty with ADMIN => "ADMIN" | USER => "USER" | GUEST => "GUEST" end.

Definition stringToType (s : string) : UserType :=
  match list_find (λ e, e.2 = s) userTypeToStringMap with
  | Some (_, e) => e.1
  | None => GUEST
  end.

(** [operator==] *)
Definition eqb (a b : t) : bool := String.eqb (email a) (email b).

Definition setUsername (v : string) (u : t) : t := User v (email u) (user_type u).
Definition setEmail (v : string) (u : t) : t := User (username u) v (user_type u).
Definition setUserType (v : UserType) (u : t) : t := User (username u) (email u) v.

(** [setw(7)] with fill '0' *)
Fixpoint pad0 (n : nat) (s : string) : string :=
  match n with O => s | S n => if (String.length s <? 7)%nat then pad0 n ("0" +:+ s) else s end.

(** [r] is what the uniform generator on [0, 9999] returned *)
Definition anonymousUser (r : Z) : t :=
  let suffix := pad0 7 (to_string r) in
  let genUsername := "anon" +:+ suffix in
  User genUsername (genUsername +:+ "@local") GUEST.

Definition serialize (u : t) : string :=
  "user(" +:+ username u +:+ "|" +:+ email u +:+ "|" +:+ typeToString (user_type u) +:+ ")".

Definition deserialize (serialized : string) : option t :=
  body ← unwrap "user(" serialized;
  first ← find_char "|" 0 body;
  second ← find_char "|" (first + 1) body;
  let username := substr 0 first body in
  let email := substr (first + 1) (second - first - 1) body in
  let userType := str_drop (second + 1) body in
  Some (User username email (stringToType userType)).
End User.

Module Room.
Inductive RoomType :=
  | RESEARCH_AND_DEVELOPMENT | PRODUCTION | QA | DEVOPS | SECURITY | DESIGN | MARKETING
  | HR | FINANCE | LEGAL | CUSTOMER_SUPPORT | OTHER | LOBBY.
Inductive Privacy := PUBLIC | PRIVATE.

#[global] Instance RoomType_eq_dec : EqDecision RoomType.
Proof. solve_decision. Defined.
#[global] Instance Privacy_eq_dec : EqDecision Privacy.
Proof. solve_decision. Defined.

(** the two fields only the debug printer reads, [created_at] and [creator_email], are
    left out *)
Record t := Room { id : Z; name : string; type : RoomType; privacy : Privacy }.

Definition typeMap : list (RoomType * string) :=
  [ (RESEARCH_AND_DEVELOPMENT, "R&D"); (PRODUCTION, "Production"); (QA, "QA");
    (DEVOPS, "DevOps"); (SECURITY, "Security"); (DESIGN, "Design");
    (MARKETING, "Marketing"); (HR, "HR"); (FINANCE, "Finance"); (LEGAL, "Legal");
    (CUSTOMER_SUPPORT, "Customer Support"); (OTHER, "Other"); (LOBBY, "Lobby") ].
Definition privacyMap : list (Privacy * string) :=
  [(PUBLIC, "PUBLIC"); (PRIVATE, "PRIVATE")].

Definition roomTypeToString (ty : RoomType) : string :=
  match list_find (λ e, e.1 = ty) typeMap with
  | Some (_, e) => e.2
  | None => "Other"
  end.
Definition privacyToString (p : Privacy) : string :=
  match list_find (λ e, e.1 = p) privacyMap with
  | Some (_, e) => e.2
  | None => "PUBLIC"
  end.
Definition stringToRoomType (s : string) : RoomType :=
  match list_find (λ e, e.2 = s) typeMap with
  | Some (_, e) => e.1
  | None => OTHER
  end.
Definition stringToPrivacy (s : string) : Privacy :=
  match list_find (λ e, e.2 = s) privacyMap with
  | Some (_, e) => e.1
  | None => PUBLIC
  end.

(** [operator==] *)
Definition eqb (a b : t) : bool := (id a =? id b)%Z.

Definition serialize (r : t) : string :=
  "room(" +:+ to_string (id r) +:+ "|" +:+ name r +:+ "|" +:+
  roomTypeToString (type r) +:+ "|" +:+ privacyToString (privacy r) +:+ ")".

Definition deserialize (serialized : string) : option t :=
  body ← unwrap "room(" serialized;
  first ← find_char "|" 0 body;
  second ← find_char "|" (first + 1) body;
  third ← find_char "|" (second + 1) body;
  let idStr := substr 0 first body in
  let name := substr (first + 1) (second - first - 1) body in
  let type := substr (second + 1) (third - second - 1) body in
  let privacy := str_drop (third + 1) body in
  id ← stoi idStr;
  Some (Room id name (stringToRoomType type) (stringToPrivacy privacy)).

(** the loop of [serializeList]; [i] tells the first room from the others *)
Fixpoint serializeList_go (i : nat) (out : string) (rooms : list t) : string :=
  match rooms with
  | [] => out
  | r :: rooms =>
      let out := if (0 <? i)%nat then out +:+ ";" else out in
      serializeList_go (S i) (out +:+ serialize r) rooms
  end.
Definition serializeList (rooms : list t) : string := serializeList_go 0 "" rooms.

(** the loop of [deserializeList]; each round moves [start] past one separator, so the
    length of the text bounds the rounds *)
Fixpoint deserializeList_go (fuel start : nat) (serialized : string) (rooms : list t)
    : option (list t) :=
  match fuel with
  | O => None
  | S fuel =>
      if (String.length serialized <? start)%nat then Some rooms
      else
        let end_ := find_char ";" start serialized in
        let piece := match end_ with
                     | None => str_drop start serialized
                     | Some e => substr start (e - start) serialized
                     end in
        let rooms := if is_empty piece then rooms
                     else match deserialize piece with
                          | Some r => rooms ++ [r]
                          | None => rooms
                          end in
        match end_ with
        | None => Some rooms
        | Some e => deserializeList_go fuel (e + 1) serialized rooms
        end
  end.
Definition deserializeList (serialized : string) : option (list t) :=
  if is_empty serialized then Some []
  else deserializeList_go (S (String.length serialized)) 0 serialized [].

(** the reference: the entries between the separators that parse, in order *)
Fixpoint split_on (c : ascii) (cur s : string) : list string :=
  match s with
  | EmptyString => [cur]
  | String d s =>
      if Ascii.eqb c d then cur :: split_on c "" s
      else split_on c (cur +:+ String d "") s
  end.
Definition directory (serialized : string) : list t :=
  omap (λ p, deserialize p) (split_on ";" "" serialized).
End Room.

Module ClientEndpoint.
(** [port] is a [uint16_t]; [socket] is the local handle of the gossip connection *)
Record t := ClientEndpoint { nodeId : string; host : string; port : Z; socket : Z }.

Definition INVALID_SOCKET : Z := 2 ^ 64 - 1.

Definition getSocket (e : t) : Z := socket e.
Definition setSocket (s : Z) (e : t) : t := ClientEndpoint (nodeId e) (host e) (port e) s.

Definition isLiveClientEndpoint (e : t) : bool :=
  negb (is_empty (nodeId e)) && negb (is_empty (host e)) && negb (port e =? 0)%Z.

Definition serialize (e : t) : string :=
  "endpoint(" +:+ nodeId e +:+ "|" +:+ host e +:+ "|" +:+ to_string (port e) +:+ ")".

Definition deserialize (serialized : string) : option t :=
  body ← unwrap "endpoint(" serialized;
  first ← find_char "|" 0 body;
  second ← find_char "|" (first + 1) body;
  match find_char "|" (second + 1) body with
  | Some _ => None
  | None =>
      let nodeId := substr 0 first body in
      let host := substr (first + 1) (second - first - 1) body in
      let portText := str_drop (second + 1) body in
      if is_empty nodeId || is_empty host then None
      else
        port ← stoul portText;
        if ((port =? 0) || (65535 <? port))%Z then None
        else Some (ClientEndpoint nodeId host (u16 port) INVALID_SOCKET)
  end.
End ClientEndpoint.

Module Message.
Record t := Message {
  from : User.t;
  to : User.t;
  content : string;
  timestamp : Z;
  id : string
}.

(** [boot_id], fixed when the process starts from the clock and the random device *)
Definition boot_id (time random : Z) : string :=
  to_string (u64 (u64 (u64 time * 1000003) + random)).

(** [makeMessageId]; the counter is incremented first *)
Definition makeMessageId (node_id boot_id : string) (counter now : Z) : string * Z :=
  let seq := u64 (counter + 1) in
  (node_id +:+ "-" +:+ boot_id +:+ "-" +:+ to_string now +:+ "-" +:+ to_string seq, seq).

(** the three-argument constructor, with the id counter it advances *)
Definition make (node_id boot_id : string) (counter now : Z) (from to : User.t)
    (message : string) : t * Z :=
  let '(id, counter) := makeMessageId node_id boot_id counter now in
  (Message from to message now id, counter).

Definition eqb (a b : t) : bool :=
  String.eqb (id a) (id b) && (timestamp a =? timestamp b)%Z.
Definition ltb (a b : t) : bool := (timestamp a <? timestamp b)%Z.
Definition leb (a b : t) : bool := ltb a b || eqb a b.
End Message.

(** * Lemmas *)

(** right-nested concatenations *)
Ltac str_norm :=
  repeat (rewrite str_app_assoc || rewrite str_app_cons || rewrite str_app_nil_l).

(** ** The wrapper *)

Lemma unwrap_wrap pfx body : unwrap pfx (pfx +:+ body +:+ ")") = Some body.
Proof.
  unfold unwrap. rewrite !str_length_app.
  change (String.length ")") with 1. destruct (_ <? _)%nat eqn:E; [lia|].
  rewrite prefix_app. rewrite (str_last_app pfx _ ")") by apply str_last_app_cons.
  rewrite bool_decide_true by done. cbn [orb negb]. f_equal.
  replace (String.length pfx + (String.length body + 1) - String.length pfx - 1)
    with (String.length body) by lia. apply substr_mid.
Qed.

(** ** Fields between bars *)

Lemma find_first c s t : has_char c s = false → find_char c 0 (s +:+ String c t) = Some (String.length s).
Proof. apply (find_char_some c "" s t). Qed.

(** a separator inside [s] is found before the one that follows it *)
Lemma index_of_app c s t i : index_of c s = Some i → index_of c (s +:+ t) = Some i.
Proof.
  revert i. induction s as [|d s IH]; intros i; [done|]. rewrite str_app_cons. simpl.
  destruct (Ascii.eqb c d); [done|]. destruct (index_of c s); simpl; [|done].
  intros [= <-]. by rewrite (IH n).
Qed.
Lemma index_of_lt c s i : index_of c s = Some i → i < String.length s.
Proof.
  revert i. induction s as [|d s IH]; intros i; simpl; [done|].
  destruct (Ascii.eqb c d); [intros [= <-]; lia|]. destruct (index_of c s); simpl; [|done].
  intros [= <-]. specialize (IH _ eq_refl). lia.
Qed.
Lemma index_of_has c s : has_char c s = true → is_Some (index_of c s).
Proof.
  induction s as [|d s IH]; simpl; [done|]. destruct (Ascii.eqb c d); [eauto|].
  intros [i Hi]%IH. rewrite Hi. eauto.
Qed.
Lemma find_char_inside c p s t :
  has_char c s = true →
  ∃ i, i < String.length s ∧ find_char c (String.length p) (p +:+ s +:+ t) = Some (String.length p + i).
Proof.
  intros [i Hi]%index_of_has. exists i. split; [by eapply index_of_lt|].
  unfold find_char. rewrite str_drop_app_len, (index_of_app _ _ _ _ Hi). done.
Qed.
Lemma find_char_ge c n s j : find_char c n s = Some j → n <= j.
Proof. unfold find_char. destruct (index_of _ _); simpl; [|done]. intros [= <-]. lia. Qed.
Lemma substr_length pos n s : String.length (substr pos n s) <= n.
Proof. unfold substr. rewrite str_take_length. lia. Qed.
Lemma str_length_snoc s c : String.length (s +:+ String c "") = String.length s + 1.
Proof. by rewrite str_length_app. Qed.

(** the text [a|rest] with the offset after the bar *)
Lemma bar_assoc a b : a +:+ String "|" b = (a +:+ "|") +:+ b.
Proof. by rewrite str_app_assoc. Qed.
Lemma bar_regroup a b c :
  (a +:+ String "|" b) +:+ String "|" c = a +:+ String "|" (b +:+ String "|" c).
Proof. by str_norm. Qed.
Lemma find_second a b c :
  has_char "|" b = false →
  find_char "|" (String.length a + 1) (a +:+ String "|" (b +:+ String "|" c)) =
  Some (String.length a + 1 + String.length b).
Proof.
  intros H. rewrite bar_assoc. rewrite <-(str_length_snoc a "|"). by apply find_char_some.
Qed.
Lemma substr_second a b c :
  substr (String.length a + 1) (String.length b) (a +:+ String "|" (b +:+ c)) = b.
Proof. rewrite bar_assoc, <-(str_length_snoc a "|"). apply substr_mid. Qed.
Lemma substr_first a b : substr 0 (String.length a) (a +:+ b) = a.
Proof. apply (substr_mid "" a b). Qed.
Lemma drop_second a b n :
  n = String.length a + 1 → str_drop n (a +:+ String "|" b) = b.
Proof. intros ->. rewrite bar_assoc, <-(str_length_snoc a "|"). apply str_drop_app_len. Qed.

(** ** Users *)
Module UserFacts.
Import User.

Lemma stringToType_of ty : stringToType (typeToString ty) = ty.
Proof. by destruct ty. Qed.
Lemma typeToString_bar ty : has_char "|" (typeToString ty) = false.
Proof. by destruct ty. Qed.

Lemma user_serialize_wrap u :
  serialize u = "user(" +:+ (username u +:+ String "|" (email u +:+ String "|"
    (typeToString (user_type u)))) +:+ ")".
Proof. unfold serialize. by str_norm. Qed.
End UserFacts.

Module RoomFacts.
Import Room.

Lemma stringToRoomType_of ty : stringToRoomType (roomTypeToString ty) = ty.
Proof. by destruct ty. Qed.
Lemma stringToPrivacy_of p : stringToPrivacy (privacyToString p) = p.
Proof. by destruct p. Qed.
Lemma roomTypeToString_clean ty :
  has_char "|" (roomTypeToString ty) = false ∧ has_char ";" (roomTypeToString ty) = false.
Proof. by destruct ty. Qed.
Lemma privacyToString_clean p : has_char ";" (privacyToString p) = false.
Proof. by destruct p. Qed.

Lemma room_serialize_wrap r :
  serialize r = "room(" +:+ (to_string (id r) +:+ String "|" (name r +:+ String "|"
    (roomTypeToString (type r) +:+ String "|" (privacyToString (privacy r))))) +:+ ")".
Proof. unfold serialize. by str_norm. Qed.

Lemma deserialize_serialize_room r :
  in_int (id r) → has_char "|" (name r) = false → deserialize (serialize r) = Some r.
Proof.
  intros Hid Hn. rewrite room_serialize_wrap. unfold deserialize. rewrite unwrap_wrap.
  cbn [mbind option_bind]. rewrite find_first by (by apply to_string_no_char).
  cbn [mbind option_bind]. rewrite find_second by done. cbn [mbind option_bind].
  set (i := to_string (id r)). set (t := roomTypeToString (type r)).
  rewrite substr_first. unfold i. rewrite stoi_to_string by done. fold i.
  replace (String.length i + 1 + String.length (name r) - String.length i - 1)
    with (String.length (name r)) by lia. rewrite substr_second.
  replace (i +:+ String "|" (name r +:+ String "|" (t +:+ String "|" (privacyToString (privacy r)))))
    with ((i +:+ String "|" (name r)) +:+ String "|" (t +:+ String "|" (privacyToString (privacy r))))
    by (by str_norm).
  set (h := i +:+ String "|" (name r)).
  assert (String.length i + 1 + String.length (name r) = String.length h) as ->.
  { unfold h. rewrite str_length_app. simpl. lia. }
  rewrite find_second by apply roomTypeToString_clean. cbn [mbind option_bind].
  replace (String.length h + 1 + String.length t - String.length h - 1)
    with (String.length t) by lia. rewrite substr_second.
  replace (h +:+ String "|" (t +:+ String "|" (privacyToString (privacy r))))
    with ((h +:+ String "|" t) +:+ String "|" (privacyToString (privacy r)))
    by (by str_norm).
  rewrite drop_second by (rewrite str_length_app; simpl; lia).
  unfold t. rewrite stringToRoomType_of, stringToPrivacy_of. by destruct r.
Qed.
End RoomFacts.

(** ** Reading the first two of the bar-separated fields, clean or not *)
Lemma first_field_length a b first :
  has_char "|" a = true → find_char "|" 0 (a +:+ b) = Some first →
  String.length (substr 0 first (a +:+ b)) < String.length a.
Proof.
  intros Ha Hf. destruct (find_char_inside "|" "" a b Ha) as (i & Hi & Hf').
  simpl in Hf'. rewrite str_app_nil_l in Hf'. rewrite Hf in Hf'. injection Hf' as ->.
  pose proof (substr_length 0 i (a +:+ b)). lia.
Qed.
Lemma second_field_length a b c second :
  has_char "|" b = true →
  find_char "|" (String.length a + 1) (a +:+ String "|" (b +:+ c)) = Some second →
  String.length (substr (String.length a + 1) (second - String.length a - 1)
    (a +:+ String "|" (b +:+ c))) < String.length b.
Proof.
  intros Hb Hf. rewrite bar_assoc, <-(str_length_snoc a "|") in Hf.
  destruct (find_char_inside "|" (a +:+ "|") b c Hb) as (i & Hi & Hf').
  rewrite Hf in Hf'. injection Hf' as ->. rewrite str_length_snoc.
  pose proof (substr_length (String.length a + 1) (String.length a + 1 + i - String.length a - 1)
    (a +:+ String "|" (b +:+ c))). lia.
Qed.

(** the reader of both formats up to the second bar, applied to the text a writer made *)
Lemma two_fields_clean {A} (k : string → string → nat → option A) a b c :
  has_char "|" a = false → has_char "|" b = false →
  (first ← find_char "|" 0 (a +:+ String "|" (b +:+ String "|" c));
   second ← find_char "|" (first + 1) (a +:+ String "|" (b +:+ String "|" c));
   k (substr 0 first (a +:+ String "|" (b +:+ String "|" c)))
     (substr (first + 1) (second - first - 1) (a +:+ String "|" (b +:+ String "|" c))) second)
  = k a b (String.length (a +:+ String "|" b)).
Proof.
  intros Ha Hb. rewrite find_first by done. cbn [mbind option_bind].
  rewrite find_second by done. cbn [mbind option_bind]. rewrite substr_first.
  replace (String.length a + 1 + String.length b - String.length a - 1)
    with (String.length b) by lia. rewrite substr_second.
  f_equal. rewrite str_length_app. simpl. lia.
Qed.
Lemma two_fields_inv {A} (k : string → string → nat → option A) (fa fb : A → string) a b c r :
  (∀ x y n r, k x y n = Some r → fa r = x ∧ fb r = y) →
  (first ← find_char "|" 0 (a +:+ String "|" (b +:+ String "|" c));
   second ← find_char "|" (first + 1) (a +:+ String "|" (b +:+ String "|" c));
   k (substr 0 first (a +:+ String "|" (b +:+ String "|" c)))
     (substr (first + 1) (second - first - 1) (a +:+ String "|" (b +:+ String "|" c))) second)
  = Some r →
  fa r = a → fb r = b → has_char "|" a = false ∧ has_char "|" b = false.
Proof.
  intros Hk H Hfa Hfb.
  destruct (find_char "|" 0 _) as [first|] eqn:E1; [|done]. cbn [mbind option_bind] in H.
  destruct (find_char "|" (first + 1) _) as [second|] eqn:E2; [|done]. cbn [mbind option_bind] in H.
  apply Hk in H as [H1 H2].
  assert (has_char "|" a = false) as Ha.
  { destruct (has_char "|" a) eqn:Ha; [|done]. apply (first_field_length _ _ _ Ha) in E1.
    rewrite <-H1, Hfa in E1. lia. }
  split; [done|]. rewrite find_first in E1 by done. injection E1 as <-.
  destruct (has_char "|" b) eqn:Hb; [|done].
  apply (second_field_length a b (String "|" c) second Hb) in E2. rewrite <-H2, Hfb in E2. lia.
Qed.

(** ** The room directory *)
Module DirectoryFacts.
Import Room.

Lemma split_on_nonempty c cur s : split_on c cur s ≠ [].
Proof. revert cur. induction s as [|d s IH]; intros cur; simpl; [done|]. by destruct (Ascii.eqb c d). Qed.

Lemma split_on_fresh c cur s : has_char c s = false → split_on c cur s = [cur +:+ s].
Proof.
  revert cur. induction s as [|d s IH]; intros cur; simpl; [by rewrite str_app_nil_r|].
  destruct (Ascii.eqb c d); [done|]. intros H. rewrite IH by done. by rewrite str_app_assoc.
Qed.
Lemma split_on_app c cur s t :
  split_on c cur (s +:+ String c t) = split_on c cur s ++ split_on c "" t.
Proof.
  revert cur. induction s as [|d s IH]; intros cur.
  - rewrite str_app_nil_l. simpl. by rewrite Ascii.eqb_refl.
  - rewrite str_app_cons. simpl. destruct (Ascii.eqb c d); by rewrite IH.
Qed.

(** the first separator splits off the first piece *)
Lemma split_on_first c s :
  split_on c "" s =
  match index_of c s with
  | None => [s]
  | Some i => str_take i s :: split_on c "" (str_drop (i + 1) s)
  end.
Proof.
  assert (∀ cur, split_on c cur s =
    match index_of c s with
    | None => [cur +:+ s]
    | Some i => (cur +:+ str_take i s) :: split_on c "" (str_drop (i + 1) s)
    end) as H; [|apply H].
  induction s as [|d s IH]; intros cur; simpl; [by rewrite str_app_nil_r|].
  destruct (Ascii.eqb c d) eqn:E.
  - rewrite str_app_nil_r. done.
  - rewrite IH. destruct (index_of c s); simpl; by rewrite str_app_assoc.
Qed.

Lemma deserialize_empty : deserialize "" = None.
Proof. done. Qed.

Lemma deserializeList_go_spec fuel start s rooms :
  start <= String.length s → String.length s - start < fuel →
  deserializeList_go fuel start s rooms =
  Some (rooms ++ omap (λ p, deserialize p) (split_on ";" "" (str_drop start s))).
Proof.
  revert start rooms. induction fuel as [|fuel IH]; intros start rooms Hs Hf; [lia|].
  cbn [deserializeList_go]. destruct (_ <? _)%nat eqn:E; [lia|]. clear E. cbv zeta.
  assert (∀ piece, (if is_empty piece then rooms
      else match deserialize piece with Some r => rooms ++ [r] | None => rooms end)
      = rooms ++ omap (λ p, deserialize p) [piece]) as Hpiece.
  { intros piece. simpl. destruct piece as [|c p]; cbn [is_empty].
    - by rewrite app_nil_r.
    - destruct (deserialize _); [done|by rewrite app_nil_r]. }
  rewrite !Hpiece, split_on_first. unfold find_char.
  destruct (index_of ";" (str_drop start s)) as [i|] eqn:Ei; cbn [fmap option_fmap option_map]; [|done].
  apply index_of_lt in Ei. rewrite str_drop_length in Ei.
  rewrite IH by lia. f_equal. rewrite <-app_assoc. f_equal.
  unfold substr. replace (start + i - start) with i by lia.
  rewrite str_drop_drop, Nat.add_assoc. by rewrite <-omap_app.
Qed.

Lemma serializeList_go_spec i out rooms :
  serializeList_go i out rooms =
  match rooms with
  | [] => out
  | _ => out +:+ (if (0 <? i)%nat then ";" else "") +:+ join_with ";" (serialize <$> rooms)
  end.
Proof.
  revert i out. induction rooms as [|r rooms IH]; intros i out; [done|]. simpl.
  rewrite IH. destruct rooms as [|r' rooms]; simpl.
  - destruct (0 <? i)%nat; by rewrite ?str_app_assoc, ?str_app_nil_l.
  - destruct (0 <? i)%nat; by rewrite ?str_app_assoc, ?str_app_nil_l.
Qed.

Lemma serialize_no_semicolon r :
  has_char ";" (name r) = false → has_char ";" (serialize r) = false.
Proof.
  intros Hn. unfold serialize. rewrite !has_char_app, Hn.
  rewrite (proj2 (RoomFacts.roomTypeToString_clean _)), RoomFacts.privacyToString_clean.
  rewrite to_string_no_char by done. done.
Qed.

Lemma directory_join rooms :
  Forall (λ r, in_int (id r) ∧ has_char "|" (name r) = false ∧ has_char ";" (name r) = false) rooms →
  rooms ≠ [] → directory (join_with ";" (serialize <$> rooms)) = rooms.
Proof.
  unfold directory. induction 1 as [|r rooms (Hid & Hb & Hc) Hrooms IH]; [done|]. intros _.
  destruct rooms as [|r' rooms].
  - change (join_with ";" (serialize <$> [r])) with (serialize r). rewrite split_on_fresh by (by apply serialize_no_semicolon).
    rewrite str_app_nil_l. cbn [omap list_omap]. by rewrite RoomFacts.deserialize_serialize_room.
  - change (join_with ";" (serialize <$> r :: r' :: rooms))
      with (serialize r +:+ String ";" (join_with ";" (serialize <$> r' :: rooms))).
    rewrite split_on_app, omap_app, IH by done.
    rewrite split_on_fresh by (by apply serialize_no_semicolon).
    rewrite str_app_nil_l. cbn [omap list_omap]. by rewrite RoomFacts.deserialize_serialize_room.
Qed.
End DirectoryFacts.

(** * Theorems *)

(** The directory loop terminates within its bound on every input and returns exactly
    the entries between the separators that parse, in order: one malformed entry never
    loses the others. *)
Theorem deserializeList_directory s : Room.deserializeList s = Some (Room.directory s).
Proof.
  unfold Room.deserializeList. destruct (is_empty s) eqn:E.
  - by destruct s.
  - rewrite DirectoryFacts.deserializeList_go_spec by lia. by rewrite str_drop_0.
Qed.

(** A directory whose room names hold neither '|' nor ';' reads back as the same rooms
    in the same order. *)
Theorem room_list_roundtrip rooms :
  Forall (λ r, in_int (Room.id r) ∧ has_char "|" (Room.name r) = false ∧
    has_char ";" (Room.name r) = false) rooms →
  Room.deserializeList (Room.serializeList rooms) = Some rooms.
Proof.
  intros H. unfold Room.serializeList. rewrite DirectoryFacts.serializeList_go_spec.
  destruct rooms as [|r rooms]; [done|]. change (0 <? 0)%nat with false. cbv iota.
  rewrite !str_app_nil_l. pose proof (DirectoryFacts.directory_join (r :: rooms) H ltac:(done)) as Hd.
  set (s := join_with _ _) in *. unfold Room.deserializeList. destruct (is_empty s) eqn:E.
  - destruct s; [|done]. by rewrite <-Hd.
  - rewrite DirectoryFacts.deserializeList_go_spec by lia. rewrite str_drop_0. by f_equal.
Qed.

Lemma user_reads_back u :
  has_char "|" (User.username u) = false → has_char "|" (User.email u) = false →
  User.deserialize (User.serialize u) = Some u.
Proof.
  intros Ha Hb. rewrite UserFacts.user_serialize_wrap. unfold User.deserialize. rewrite unwrap_wrap.
  cbn [mbind option_bind]. set (ty := User.typeToString (User.user_type u)).
  set (k body x y n := Some (User.User x y (User.stringToType (str_drop (n + 1) body)))).
  etransitivity; [by apply (two_fields_clean (k _))|]. unfold k.
  rewrite <-bar_regroup, drop_second by done.
  unfold ty. rewrite UserFacts.stringToType_of. by destruct u.
Qed.

(** The text form of a user reads back the user exactly when neither the username nor
    the email holds a '|'. *)
Theorem user_roundtrip u :
  User.deserialize (User.serialize u) = Some u ↔
  has_char "|" (User.username u) = false ∧ has_char "|" (User.email u) = false.
Proof.
  split; [|by intros [Ha Hb]; apply user_reads_back].
  rewrite UserFacts.user_serialize_wrap. unfold User.deserialize. rewrite unwrap_wrap.
  cbn [mbind option_bind]. set (ty := User.typeToString (User.user_type u)).
  set (k body x y n := Some (User.User x y (User.stringToType (str_drop (n + 1) body)))).
  intros H. eapply (two_fields_inv (k _) User.username User.email); [|exact H|done..].
  by intros x y n r [= <-].
Qed.

(** An advertised endpoint with a 16-bit port reads back, its local socket reset,
    exactly when it is a live client endpoint whose node id and host hold no '|'. *)
Theorem endpoint_roundtrip e :
  (0 <= ClientEndpoint.port e < 65536)%Z →
  ClientEndpoint.deserialize (ClientEndpoint.serialize e) =
    Some (ClientEndpoint.setSocket ClientEndpoint.INVALID_SOCKET e) ↔
  ClientEndpoint.isLiveClientEndpoint e = true ∧
  has_char "|" (ClientEndpoint.nodeId e) = false ∧ has_char "|" (ClientEndpoint.host e) = false.
Proof.
  intros Hp. unfold ClientEndpoint.deserialize, ClientEndpoint.isLiveClientEndpoint.
  replace (ClientEndpoint.serialize e) with ("endpoint(" +:+ (ClientEndpoint.nodeId e +:+
    String "|" (ClientEndpoint.host e +:+ String "|" (to_string (ClientEndpoint.port e)))) +:+ ")")
    by (unfold ClientEndpoint.serialize; by str_norm).
  rewrite unwrap_wrap. cbn [mbind option_bind]. set (P := to_string (ClientEndpoint.port e)).
  set (k body (x y : string) (n : nat) :=
    match find_char "|" (n + 1) body with
    | Some _ => None
    | None =>
        if is_empty x || is_empty y then None
        else port ← stoul (str_drop (n + 1) body);
             if ((port =? 0) || (65535 <? port))%Z then None
             else Some (ClientEndpoint.ClientEndpoint x y (u16 port) ClientEndpoint.INVALID_SOCKET)
    end).
  assert (∀ body x y n r, k body x y n = Some r →
    (ClientEndpoint.nodeId r = x ∧ ClientEndpoint.host r = y) ∧
    is_empty x = false ∧ is_empty y = false ∧ ClientEndpoint.port r ≠ 0%Z) as Hk.
  { unfold k. intros body x y n r. destruct (find_char _ _ _); [done|].
    destruct (is_empty x), (is_empty y); try done. simpl.
    destruct (stoul _) as [port|] eqn:Hport; [|done]. unfold stoul in Hport.
    apply sto_unsigned_range in Hport; [|done]. cbn [mbind option_bind].
    destruct (_ || _)%Z eqn:E; [done|]. intros [= <-]. split_and!; try done. simpl.
    apply orb_false_iff in E as [E1%Z.eqb_neq E2%Z.ltb_ge]. unfold u16.
    Z.div_mod_to_equations. lia. }
  split.
  - intros H.
    destruct (two_fields_inv (k _) ClientEndpoint.nodeId ClientEndpoint.host _ _ _ _
      (λ x y n r Hr, proj1 (Hk _ x y n r Hr)) H eq_refl eq_refl) as [Ha Hb].
    split_and!; [|done..].
    pose proof (eq_trans (eq_sym (two_fields_clean (k _) _ _ _ Ha Hb)) H) as H'.
    apply Hk in H' as (_ & -> & -> & Hport). simpl in Hport. simpl. lia.
  - intros (Hlive & Ha & Hb). apply andb_prop in Hlive as [[Hx Hy]%andb_prop Hz].
    etransitivity; [by apply (two_fields_clean (k _))|]. unfold k.
    destruct (is_empty (ClientEndpoint.nodeId e)), (is_empty (ClientEndpoint.host e)); try done.
    set (h := ClientEndpoint.nodeId e +:+ String "|" (ClientEndpoint.host e)).
    rewrite <-bar_regroup. fold h. rewrite bar_assoc. rewrite <-(str_length_snoc h "|"), find_char_none
      by (by apply to_string_no_char).
    rewrite str_drop_app_len. unfold P. cbn [orb]. rewrite stoul_to_string by (unfold in_u32; lia).
    cbn [mbind option_bind]. destruct (_ || _)%Z eqn:E; [lia|].
    unfold u16. rewrite Z.mod_small by lia. by destruct e.
Qed.

Definition sample_rooms : list Room.t :=
  [ Room.Room 1 "Lobby" Room.LOBBY Room.PUBLIC; Room.Room 7 "Q&A (EU)" Room.QA Room.PRIVATE ].
Lemma room_list_roundtrip_witness :
  Room.deserializeList (Room.serializeList sample_rooms) = Some sample_rooms.
Proof. apply room_list_roundtrip. repeat constructor; vm_compute; congruence. Defined.

Definition sample_endpoint : ClientEndpoint.t :=
  ClientEndpoint.ClientEndpoint "node2" "10.0.0.7" 8082 5.
Lemma endpoint_roundtrip_witness :
  ClientEndpoint.deserialize (ClientEndpoint.serialize sample_endpoint) =
  Some (ClientEndpoint.setSocket ClientEndpoint.INVALID_SOCKET sample_endpoint).
Proof.
  apply (proj2 (endpoint_roundtrip sample_endpoint ltac:(vm_compute; split; congruence))).
  done.
Defined.
