(* ===== verification/SocketIo.v ===== *)
(** Socket I/O helpers (src/utils/socket_io.cpp): whole-buffer receive and send loops over
    Winsock calls, packet framing on top of them, and the socket life-cycle helpers.
    Winsock is not part of the repository: its calls are the fields of the class
    [Winsock], over a type [W] of network states, and what the code relies on is the class
    [WinsockLaws]: [recv] returns between one and the requested number of bytes of the
    stream, [send] accepts between one and all the bytes it was given, a socket is open
    from [socket] to [closesocket].  [Chunks] is a concrete network that satisfies the
    laws: a byte stream cut into arbitrary fragments.
    The theorems: a packet is read whatever the fragmentation; what a writer sent is what a
    reader reads; the helpers leave no socket open when they fail. *)
From S2P Require Import Prelude Packet Codec Serializer Models.
From stdpp Require Import options.

(** * Definitions *)

Definition INVALID_SOCKET : Z := ClientEndpoint.INVALID_SOCKET.

(** the Winsock calls; [recv] returns the bytes it stored, [None] when its result is zero
    or negative; [send] returns how many bytes it took *)
Class Winsock (W : Type) := {
  ws_socket : W → Z * W;
  ws_bind : Z → Z → W → Z * W;
  ws_listen : Z → W → Z * W;
  ws_connect : Z → string → Z → W → Z * W;
  ws_inet_pton : string → Z;
  ws_accept : Z → W → Z * W;
  ws_closesocket : Z → W → W;
  ws_recv : Z → Z → W → option string * W;
  ws_send : Z → string → W → Z * W
}.

(** what the code relies on: [incoming s w] is what is still to be received on [s],
    [outgoing s w] what was sent on it, [opened w] the sockets that are open *)
Class WinsockLaws (W : Type) {HW : Winsock W} := {
  incoming : Z → W → string;
  outgoing : Z → W → string;
  opened : W → gset Z;
  recv_chunk s n w b w' :
    ws_recv s n w = (Some b, w') → (0 < n)%Z →
    (0 < slen b <= n)%Z ∧ incoming s w = b +:+ incoming s w';
  recv_opened s n w : opened (ws_recv s n w).2 = opened w;
  recv_some s n w : (0 < n)%Z → incoming s w ≠ "" → is_Some (ws_recv s n w).1;
  send_chunk s b w n w' :
    ws_send s b w = (n, w') →
    (n <= slen b)%Z ∧ outgoing s w' = outgoing s w +:+ str_take (Z.to_nat n) b ∧
    opened w' = opened w;
  socket_opens w s w' :
    ws_socket w = (s, w') →
    if (s =? INVALID_SOCKET)%Z then opened w' = opened w
    else s ∉ opened w ∧ opened w' = {[s]} ∪ opened w;
  bind_opened s p w : opened (ws_bind s p w).2 = opened w;
  listen_opened s w : opened (ws_listen s w).2 = opened w;
  connect_opened s h p w : opened (ws_connect s h p w).2 = opened w;
  close_opened s w : opened (ws_closesocket s w) = opened w ∖ {[s]}
}.

Section socket_io.
Context {W : Type} {HW : Winsock W}.

(** the loop of [recvExact]: [buffer] holds the bytes received so far.  [None] in the
    first component is the end of the fuel. *)
Fixpoint recvExact_go (fuel : nat) (socket : Z) (buffer : string) (bytes : Z) (w : W)
    : option (bool * string) * W :=
  if (slen buffer <? bytes)%Z then
    match fuel with
    | O => (None, w)
    | S fuel =>
        match ws_recv socket (bytes - slen buffer) w with
        | (None, w) => (Some (false, buffer), w)
        | (Some b, w) => recvExact_go fuel socket (buffer +:+ b) bytes w
        end
    end
  else (Some (true, buffer), w).

(** each round receives at least one byte *)
Definition recvExact (socket bytes : Z) (w : W) : option (bool * string) * W :=
  recvExact_go (Z.to_nat bytes) socket "" bytes w.

(** the loop of [sendExact]: [buffer] is what is left to send *)
Fixpoint sendExact_go (fuel : nat) (socket : Z) (buffer : string) (w : W) : option bool * W :=
  if (0 <? slen buffer)%Z then
    match fuel with
    | O => (None, w)
    | S fuel =>
        let '(n, w) := ws_send socket buffer w in
        if (n <=? 0)%Z then (Some false, w)
        else sendExact_go fuel socket (str_drop (Z.to_nat n) buffer) w
    end
  else (Some true, w).

Definition sendExact (socket : Z) (buffer : string) (w : W) : option bool * W :=
  sendExact_go (String.length buffer) socket buffer w.

(** [None] at the outside is the end of the fuel, inside it is [std::nullopt] *)
Definition readPacket (socket : Z) (w : W) : option (option Packet.t) * W :=
  match recvExact socket 4 w with
  | (None, w) => (None, w)
  | (Some (false, _), w) => (Some None, w)
  | (Some (true, sizeBuf), w) =>
      let payloadSize :=
        Z.lor (Z.lor (Z.lor (Z.shiftl (byte_at sizeBuf 0) 24)
                            (Z.shiftl (byte_at sizeBuf 1) 16))
                     (Z.shiftl (byte_at sizeBuf 2) 8))
              (byte_at sizeBuf 3) in
      if ((payloadSize =? 0) || (MAX_PAYLOAD_BYTES <? payloadSize))%Z then (Some None, w)
      else
        match recvExact socket payloadSize w with
        | (None, w) => (None, w)
        | (Some (false, _), w) => (Some None, w)
        | (Some (true, payload), w) =>
            let framed := sizeBuf +:+ payload in
            (Some (deserialize framed), w)
        end
  end.

Definition writePacket (socket : Z) (packet : Packet.t) (w : W) : option bool * W :=
  let framed := serialize packet in
  if is_empty framed then (Some false, w)
  else sendExact socket framed w.

Definition close (socket : Z) (w : W) : W :=
  if (socket =? INVALID_SOCKET)%Z then w else ws_closesocket socket w.

Definition listenTo (port : Z) (w : W) : Z * W :=
  let '(socketFd, w) := ws_socket w in
  if (socketFd =? INVALID_SOCKET)%Z then (INVALID_SOCKET, w)
  else
    let '(rc, w) := ws_bind socketFd port w in
    if negb (rc =? 0)%Z then (INVALID_SOCKET, close socketFd w)
    else
      let '(rc, w) := ws_listen socketFd w in
      if negb (rc =? 0)%Z then (INVALID_SOCKET, close socketFd w)
      else (socketFd, w).

Definition connectTo (host : string) (port : Z) (w : W) : Z * W :=
  let '(socketFd, w) := ws_socket w in
  if (socketFd =? INVALID_SOCKET)%Z then (INVALID_SOCKET, w)
  else if negb (ws_inet_pton (c_str host) =? 1)%Z then (INVALID_SOCKET, close socketFd w)
  else
    let '(rc, w) := ws_connect socketFd (c_str host) port w in
    if negb (rc =? 0)%Z then (INVALID_SOCKET, close socketFd w)
    else (socketFd, w).

Definition acceptFrom (listeningSocket : Z) (w : W) : Z * W :=
  if (listeningSocket =? INVALID_SOCKET)%Z then (INVALID_SOCKET, w)
  else ws_accept listeningSocket w.
End socket_io.

(** * A concrete network

    One connected socket; the bytes to come arrive in the given fragments, the send buffer
    takes at most [window] bytes at a time (at least one). *)
Record Chunks := mkChunks {
  chunks : list string;
  window : nat;
  wire : string;
  handles : gset Z;
  next_handle : Z
}.

(** bytes of the first non-empty fragment, and what is left *)
Fixpoint take_chunk (n : nat) (l : list string) : option string * list string :=
  match l with
  | [] => (None, [])
  | "" :: l => take_chunk n l
  | c :: l =>
      (Some (str_take n c), if (String.length c <=? n)%nat then l else str_drop n c :: l)
  end.

#[export] Instance Chunks_winsock : Winsock Chunks := {
  ws_socket w :=
    let h := next_handle w in
    if ((h <? 0) || (INVALID_SOCKET <=? h) || bool_decide (h ∈ handles w))%Z
    then (INVALID_SOCKET, w)
    else (h, mkChunks (chunks w) (window w) (wire w) ({[h]} ∪ handles w) (h + 1));
  ws_bind _ p w := (if (p <? 1024)%Z then -1 else 0, w)%Z;
  ws_listen _ w := (0%Z, w);
  ws_connect _ _ p w := (if (p <? 1024)%Z then -1 else 0, w)%Z;
  ws_inet_pton h := if is_empty h then 0%Z else 1%Z;
  ws_accept _ w := (INVALID_SOCKET, w);
  ws_closesocket s w :=
    mkChunks (chunks w) (window w) (wire w) (handles w ∖ {[s]}) (next_handle w);
  ws_recv _ n w :=
    let '(r, l) := take_chunk (Z.to_nat n) (chunks w) in
    (r, mkChunks l (window w) (wire w) (handles w) (next_handle w));
  ws_send _ b w :=
    let n := S (window w) `min` String.length b in
    (Z.of_nat n, mkChunks (chunks w) (window w) (wire w +:+ str_take n b) (handles w)
                   (next_handle w))
}.

(** all the bytes of the fragments *)
Definition joined (l : list string) : string := foldr String.append "" l.

(** * Lemmas *)

Lemma take_chunk_spec n l b l' :
  0 < n → take_chunk n l = (Some b, l') →
  0 < String.length b <= n ∧ joined l = b +:+ joined l'.
Proof.
  intros Hn. induction l as [|c l IH]; [done|]. destruct c as [|a c]; [exact IH|].
  cbn [take_chunk].
  assert (0 < String.length (str_take n (String a c)) <= n) as Hl
    by (rewrite str_take_length; simpl; lia).
  destruct (String.length (String a c) <=? n)%nat eqn:E; intros [= <- <-]; (split; [done|]).
  - by rewrite str_take_all by lia.
  - unfold joined. cbn [foldr]. by rewrite <-str_app_assoc, str_take_drop.
Qed.
Lemma take_chunk_some n l : joined l ≠ "" → is_Some (take_chunk n l).1.
Proof. induction l as [|c l IH]; [done|]. destruct c as [|a c]; [exact IH|]. simpl. eauto. Qed.

#[export] Instance Chunks_laws : WinsockLaws Chunks.
Proof.
  refine {| incoming _ w := joined (chunks w); outgoing _ w := wire w; opened := handles |}.
  - intros s n w b w'. simpl. destruct (take_chunk _ _) as [r l] eqn:E. intros [= -> <-] Hn.
    apply take_chunk_spec in E as [? ?]; [|lia]. unfold slen. simpl. split_and!; [lia..|done].
  - intros s n w. simpl. by destruct (take_chunk _ _).
  - intros s n w Hn Hw. simpl. apply (take_chunk_some (Z.to_nat n)) in Hw.
    by destruct (take_chunk _ _).
  - intros s b w n w'. simpl. intros [= <- <-]. simpl. rewrite Nat2Z.id.
    unfold slen. split_and!; [destruct (String.length b); lia|done|done].
  - intros w s w'. simpl. destruct (_ || _) eqn:E; intros [= <- <-].
    + by rewrite Z.eqb_refl.
    + apply orb_false_iff in E as [E Hin%bool_decide_eq_false]. destruct (_ =? _)%Z eqn:?; [lia|].
      done.
  - done.
  - done.
  - done.
  - done.
Defined.

Section laws.
Context {W : Type} {HW : Winsock W} {HL : WinsockLaws W}.
Implicit Types w : W.

(** the receive loop never runs out of fuel; what it received came off the stream *)
Lemma recvExact_go_spec fuel s buf n w :
  (n - slen buf <= Z.of_nat fuel)%Z → (slen buf <= n)%Z →
  ∃ ok buf' w', recvExact_go fuel s buf n w = (Some (ok, buf'), w') ∧
    opened w' = opened w ∧
    (ok = true → slen buf' = n ∧ buf +:+ incoming s w = buf' +:+ incoming s w') ∧
    ((n <= slen buf + slen (incoming s w))%Z → ok = true).
Proof.
  revert buf w. induction fuel as [|fuel IH]; intros buf w Hf Hn; cbn [recvExact_go];
    destruct (Z.ltb_spec (slen buf) n) as [Hlt|Hge]; try lia.
  - eexists true, buf, w. split_and!; auto with lia.
  - pose proof (recv_opened s (n - slen buf) w) as Hop.
    destruct (ws_recv s (n - slen buf) w) as [[b|] w1] eqn:E.
    + apply recv_chunk in E as (? & Hin); [|lia].
      destruct (IH (buf +:+ b) w1) as (ok & buf' & w' & Hgo & Hop' & Hlen & Hok);
        [rewrite slen_app; lia..|].
      exists ok, buf', w'. split_and!; [done|by rewrite Hop'| |].
      * intros Ht. destruct (Hlen Ht) as [? Heq]. split; [done|].
        by rewrite <-Heq, Hin, str_app_assoc.
      * intros Hall. apply Hok. rewrite Hin, slen_app in Hall. rewrite slen_app. lia.
    + exists false, buf, w1. pose proof (recv_some s (n - slen buf) w ltac:(lia)) as Hs.
      rewrite E in Hs. split_and!; [done..|]. intros Hall.
      destruct (incoming s w) as [|c i] eqn:Ei; [rewrite slen_nil in Hall; lia|].
      destruct (Hs ltac:(done)) as [? [=]].
  - eexists true, buf, w. split_and!; auto with lia.
Qed.

Lemma recvExact_spec s n w :
  (0 <= n)%Z →
  ∃ ok buf w', recvExact s n w = (Some (ok, buf), w') ∧ opened w' = opened w ∧
    (ok = true → slen buf = n ∧ incoming s w = buf +:+ incoming s w') ∧
    ((n <= slen (incoming s w))%Z → ok = true).
Proof.
  intros Hn. destruct (recvExact_go_spec (Z.to_nat n) s "" n w) as (ok & buf & w' & H);
    rewrite ?slen_nil; [lia..|]. exists ok, buf, w'. rewrite slen_nil, str_app_nil_l in H. exact H.
Qed.

(** enough bytes on the stream: the exact prefix is received *)
Lemma recvExact_ok s n w x rest :
  slen x = n → incoming s w = x +:+ rest →
  ∃ w', recvExact s n w = (Some (true, x), w') ∧ incoming s w' = rest.
Proof.
  intros Hx Hin. pose proof (slen_nonneg x). pose proof (slen_nonneg rest).
  destruct (recvExact_spec s n w) as (ok & buf & w' & Hr & _ & Hlen & Hok); [lia|].
  rewrite Hok in * by (rewrite Hin, slen_app; lia). destruct (Hlen eq_refl) as [Hb Heq].
  rewrite Hin in Heq. apply str_app_inj_len in Heq as [<- Hrest]; [by eauto|].
  unfold slen in *. lia.
Qed.

Lemma sendExact_go_spec fuel s b w :
  String.length b <= fuel →
  ∃ ok w' n, sendExact_go fuel s b w = (Some ok, w') ∧
    outgoing s w' = outgoing s w +:+ str_take n b ∧ opened w' = opened w ∧
    (ok = true → n = String.length b).
Proof.
  revert b w. induction fuel as [|fuel IH]; intros b w Hf; cbn [sendExact_go];
    destruct (Z.ltb_spec 0 (slen b)) as [Hlt|Hge].
  1: { unfold slen in Hlt. lia. }
  1,3: eexists true, w, (String.length b); assert (b = "") as ->
         by (apply slen_zero; pose proof (slen_nonneg b); lia);
       rewrite str_app_nil_r; by split_and!.
  destruct (ws_send s b w) as [n w1] eqn:E. apply send_chunk in E as (Hn & Hout & Hop).
  destruct (Z.leb_spec n 0).
  - exists false, w1, 0. replace (Z.to_nat n) with 0 in Hout by lia. by split_and!.
  - destruct (IH (str_drop (Z.to_nat n) b) w1) as (ok & w' & m & Hgo & Hout' & Hop' & Hok).
    { rewrite str_drop_length. lia. }
    exists ok, w', (Z.to_nat n + m). split_and!; [done| |congruence|].
    + rewrite Hout', Hout, str_app_assoc. f_equal. symmetry. apply str_take_plus.
    + intros ->. rewrite Hok, str_drop_length by done. unfold slen in *. lia.
Qed.
End laws.

#[local] Opaque be32 payload.

(** the size a frame starts with, as [readPacket] computes it from the first four bytes *)
Lemma frame_size n :
  in_u32 n →
  Z.lor (Z.lor (Z.lor (Z.shiftl (byte_at (be32 n) 0) 24) (Z.shiftl (byte_at (be32 n) 1) 16))
               (Z.shiftl (byte_at (be32 n) 2) 8)) (byte_at (be32 n) 3) = n.
Proof.
  intros Hn. pose proof (codec_read "" n "" Hn) as H.
  rewrite str_app_nil_l, str_app_nil_r, slen_nil in H. unfold readU32BE in H.
  destruct (remainingAtLeast _ _ _); [|done]. by injection H.
Qed.

(** * Theorems *)

(** Fragmentation does not matter: if the stream of a socket starts with the frame of
    a packet, [readPacket] returns that packet and leaves the rest of the stream, however
    [recv] cuts the bytes up, and its loops end within their fuel. *)
Theorem readPacket_frame {W} {HW : Winsock W} {HL : WinsockLaws W} s (w : W) p rest :
  Packet.wf p → serialize p ≠ "" → incoming s w = serialize p +:+ rest →
  ∃ w', readPacket s w = (Some (Some p), w') ∧ incoming s w' = rest.
Proof.
  intros Hwf. rewrite serialize_eq.
  destruct (Z.ltb_spec MAX_PAYLOAD_BYTES (slen (payload p))) as [|Hmax]; [done|].
  intros _ Hin. rewrite str_app_assoc in Hin. pose proof (payload_min p).
  destruct (recvExact_ok s 4 w (be32 (slen (payload p))) _ (slen_be32 _) Hin) as (w1 & E1 & Hin1).
  destruct (recvExact_ok s _ w1 (payload p) rest eq_refl Hin1) as (w2 & E2 & Hin2).
  exists w2. split; [|done]. unfold readPacket. rewrite E1, frame_size
    by (unfold in_u32, MAX_PAYLOAD_BYTES in *; lia). cbv zeta.
  destruct (_ || _) eqn:Hb; [lia|]. rewrite E2. by rewrite deserialize_frame.
Qed.

(** [writePacket] always returns: it sends nothing and fails for a packet over the
    size limit, and otherwise what it sent is a prefix of the packet's frame, the whole
    frame when it reports success. *)
Theorem writePacket_sends {W} {HW : Winsock W} {HL : WinsockLaws W} s p (w : W) :
  ∃ ok w' n, writePacket s p w = (Some ok, w') ∧
    outgoing s w' = outgoing s w +:+ str_take n (serialize p) ∧
    (ok = true → serialize p ≠ "" ∧ str_take n (serialize p) = serialize p) ∧
    (serialize p = "" → ok = false ∧ w' = w).
Proof.
  unfold writePacket. destruct (is_empty (serialize p)) eqn:E.
  - destruct (serialize p); [|done]. exists false, w, 0. by rewrite str_app_nil_r.
  - destruct (sendExact_go_spec (String.length (serialize p)) s (serialize p) w)
      as (ok & w' & n & Hgo & Hout & _ & Hok); [done|].
    exists ok, w', n. split_and!; [done|done| |].
    + intros Ht. split; [by destruct (serialize p)|]. apply str_take_all. rewrite Hok; done.
    + by intros Hs; rewrite Hs in E.
Qed.

(** The socket helpers leak no handle: [listenTo] and [connectTo] leave the set of
    open sockets as it was when they fail, and add exactly the socket they return when
    they succeed. *)
Theorem helpers_no_leak {W} {HW : Winsock W} {HL : WinsockLaws W} host port (w : W) :
  let ok (r : Z * W) :=
    if (r.1 =? INVALID_SOCKET)%Z then opened r.2 = opened w
    else r.1 ∉ opened w ∧ opened r.2 = {[r.1]} ∪ opened w in
  ok (listenTo port w) ∧ ok (connectTo host port w).
Proof.
  cbv zeta. unfold listenTo, connectTo, close.
  destruct (ws_socket w) as [s w0] eqn:E. apply socket_opens in E.
  destruct (s =? INVALID_SOCKET)%Z eqn:Es; [done|]. destruct E as [Hs Hop].
  assert (∀ w1, opened w1 = opened w0 → opened (ws_closesocket s w1) = opened w) as Hclose.
  { intros w1 H1. rewrite close_opened, H1, Hop. set_solver. }
  split.
  - pose proof (bind_opened s port w0) as Hb. destruct (ws_bind s port w0) as [rc w1]. simpl in Hb.
    destruct (rc =? 0)%Z; cbn [negb]; [|by apply Hclose].
    pose proof (listen_opened s w1) as Hl. destruct (ws_listen s w1) as [rc' w2]. simpl in Hl.
    destruct (rc' =? 0)%Z; cbn [negb]; [|apply Hclose; congruence].
    simpl. rewrite Es. split; [done|congruence].
  - destruct (_ =? 1)%Z; cbn [negb]; [|by apply Hclose].
    pose proof (connect_opened s (c_str host) port w0) as Hc.
    destruct (ws_connect _ _ _ _) as [rc w1]. simpl in Hc.
    destruct (rc =? 0)%Z; cbn [negb]; [|by apply Hclose].
    simpl. rewrite Es. split; [done|congruence].
Qed.

(** the frame of a packet in one- and three-byte fragments, empty reads left out *)
Fixpoint cut (n : nat) (s : string) : list string :=
  match s with
  | "" => []
  | String c s => if (n =? 0)%nat then String c "" :: cut 3 s
                  else match cut (n - 1) s with
                       | x :: l => String c x :: l
                       | [] => [String c ""]
                       end
  end.
Definition sample_net : Chunks :=
  mkChunks (cut 1 (serialize Serializer.sample +:+ "tail")) 2 "" ∅ 100.
Lemma readPacket_frame_witness :
  ∃ w', readPacket 7 sample_net = (Some (Some Serializer.sample), w') ∧ incoming 7 w' = "tail".
Proof.
  apply (readPacket_frame 7 sample_net Serializer.sample "tail").
  - split; vm_compute; split; congruence.
  - vm_compute. congruence.
  - vm_compute. reflexivity.
Defined.
Lemma writePacket_sends_witness :
  ∃ ok w' n, writePacket 7 Serializer.sample sample_net = (Some ok, w') ∧
    outgoing 7 w' = outgoing 7 sample_net +:+ str_take n (serialize Serializer.sample) ∧
    (ok = true → serialize Serializer.sample ≠ "" ∧
      str_take n (serialize Serializer.sample) = serialize Serializer.sample) ∧
    (serialize Serializer.sample = "" → ok = false ∧ w' = sample_net).
Proof. apply (writePacket_sends 7 Serializer.sample sample_net). Defined.
Lemma helpers_no_leak_witness :
  let ok (r : Z * Chunks) :=
    if (r.1 =? INVALID_SOCKET)%Z then opened r.2 = opened sample_net
    else r.1 ∉ opened sample_net ∧ opened r.2 = {[r.1]} ∪ opened sample_net in
  ok (listenTo 8082 sample_net) ∧ ok (connectTo "10.0.0.7" 8082 sample_net).
Proof. apply (helpers_no_leak "10.0.0.7" 8082 sample_net). Defined.
