(* ===== verification/WebFrame.v ===== *)
(** WebSocket framing of the browser port (the free functions and [SocketBuffer] of
    src/server/web_connection.cpp): the RFC 6455 handshake value with its SHA-1 and
    base64, the frame encoder and decoder, the HTTP upgrade check, and the buffered reader
    of a socket.  The rest of that file, which drives sessions, is in ConnectionManager.v.
    The theorems: decoding inverts encoding for every legal frame, masked or not, whatever
    follows it; a frame cut short is reported incomplete, never misread; the buffered
    reader returns the frame at the head of the stream under any fragmentation. *)
From S2P Require Import Prelude Packet Codec Serializer SocketIo.
From stdpp Require Import options.

(** * Definitions *)

Definition kWebsocketGuid : string := "258EAFA5-E914-47DA-95CA-C5AB0DC85B11".
Definition kMaxHttpHeaderBytes : Z := 8192.
Definition CRLF : string := String (byte_of_Z 13) (String (byte_of_Z 10) "").
Definition HEADER_END : string := CRLF +:+ CRLF.

(** ** SHA-1 *)

Definition rol (value bits : Z) : Z :=
  Z.lor (u32 (Z.shiftl value bits)) (Z.shiftr value (32 - bits)).

(** the bytes of a string as numbers *)
Definition bytes_of (s : string) : list Z := Z_of_byte <$> String.list_ascii_of_string s.
Definition of_bytes (l : list Z) : string := String.string_of_list_ascii (byte_of_Z <$> l).
Definition at_ (l : list Z) (i : nat) : Z := default 0%Z (l !! i).

(** the padding loop adds at most 63 zero bytes *)
Fixpoint pad_zeros (fuel : nat) (message : list Z) : list Z :=
  match fuel with
  | O => message
  | S fuel =>
      if (Z.of_nat (length message) mod 64 =? 56)%Z then message
      else pad_zeros fuel (message ++ [0%Z])
  end.

Definition sha1_message (data : string) : list Z :=
  let bitLength := u64 (slen data * 8) in
  pad_zeros 64 (bytes_of data ++ [128%Z]) ++
  ((λ shift, Z.land (Z.shiftr bitLength shift) 255) <$> [56; 48; 40; 32; 24; 16; 8; 0]%Z).

Definition sha1_word (message : list Z) (at0 : nat) : Z :=
  Z.lor (Z.lor (Z.lor (Z.shiftl (at_ message at0) 24) (Z.shiftl (at_ message (at0 + 1)) 16))
               (Z.shiftl (at_ message (at0 + 2)) 8)) (at_ message (at0 + 3)).

Fixpoint sha1_extend (n : nat) (words : list Z) : list Z :=
  match n with
  | O => words
  | S n =>
      let i := length words in
      let w := rol (Z.lxor (Z.lxor (Z.lxor (at_ words (i - 3)) (at_ words (i - 8)))
                      (at_ words (i - 14))) (at_ words (i - 16))) 1 in
      sha1_extend n (words ++ [w])
  end.

Definition not32 (z : Z) : Z := (2 ^ 32 - 1 - z)%Z.

Definition sha1_round (words : list Z) (s : Z * Z * Z * Z * Z) (i : nat) : Z * Z * Z * Z * Z :=
  let '(a, b, c, d, e) := s in
  let '(f, k) :=
    if (i <? 20)%nat then (Z.lor (Z.land b c) (Z.land (not32 b) d), 1518500249)%Z
    else if (i <? 40)%nat then (Z.lxor (Z.lxor b c) d, 1859775393)%Z
    else if (i <? 60)%nat then
      (Z.lor (Z.lor (Z.land b c) (Z.land b d)) (Z.land c d), 2400959708)%Z
    else (Z.lxor (Z.lxor b c) d, 3395469782)%Z in
  let temp := u32 (rol a 5 + f + e + k + at_ words i) in
  (temp, a, rol b 30, c, d).

Definition sha1_block (message : list Z) (h : Z * Z * Z * Z * Z) (offset : nat)
    : Z * Z * Z * Z * Z :=
  let words := sha1_extend 64 ((λ i, sha1_word message (offset + i * 4)) <$> seq 0 16) in
  let '(a, b, c, d, e) := foldl (sha1_round words) h (seq 0 80) in
  let '(h0, h1, h2, h3, h4) := h in
  (u32 (h0 + a), u32 (h1 + b), u32 (h2 + c), u32 (h3 + d), u32 (h4 + e)).

Definition sha1 (data : string) : list Z :=
  let message := sha1_message data in
  let init := (1732584193, 4023233417, 2562383102, 271733878, 3285377520)%Z in
  let '(h0, h1, h2, h3, h4) :=
    foldl (sha1_block message) init ((λ i, i * 64) <$> seq 0 (length message / 64)) in
  h ← [h0; h1; h2; h3; h4];
  (λ shift, Z.land (Z.shiftr h shift) 255) <$> [24; 16; 8; 0]%Z.

(** ** Base 64 *)

Definition kTable : string :=
  "ABCDEFGHIJKLMNOPQRSTUVWXYZabcdefghijklmnopqrstuvwxyz0123456789+/".
Definition table_char (i : Z) : ascii :=
  match str_drop (Z.to_nat i) kTable with String c _ => c | EmptyString => "=" end.

(** one round of the loop per three bytes *)
Fixpoint base64_go (rounds : nat) (data : list Z) : string :=
  match rounds with
  | O => ""
  | S rounds =>
      match data with
      | [] => ""
      | b0 :: rest =>
          let b1 := at_ data 1 in
          let b2 := at_ data 2 in
          let triple := Z.lor (Z.lor (Z.shiftl b0 16) (Z.shiftl b1 8)) b2 in
          String (table_char (Z.land (Z.shiftr triple 18) 63))
          (String (table_char (Z.land (Z.shiftr triple 12) 63))
          (String (if (1 <? length data)%nat then table_char (Z.land (Z.shiftr triple 6) 63)
                   else "=")
          (String (if (2 <? length data)%nat then table_char (Z.land triple 63) else "=")
          (base64_go rounds (drop 3 data)))))
      end
  end.
Definition base64 (data : list Z) : string := base64_go (length data) data.

Definition acceptValue (clientKey : string) : string :=
  base64 (sha1 (clientKey +:+ kWebsocketGuid)).

(** ** Frames *)

Inductive WsOpcode := Continuation | Text | Binary | Close | Ping | Pong.
#[export] Instance WsOpcode_eq_dec : EqDecision WsOpcode.
Proof. solve_decision. Defined.

Definition opcode_code (o : WsOpcode) : Z :=
  match o with
  | Continuation => 0 | Text => 1 | Binary => 2 | Close => 8 | Ping => 9 | Pong => 10
  end%Z.

(** the opcodes [decodeFrame] knows *)
Definition known_opcode (code : Z) : option WsOpcode :=
  if (code =? 1)%Z then Some Text else if (code =? 2)%Z then Some Binary
  else if (code =? 8)%Z then Some Close else if (code =? 9)%Z then Some Ping
  else if (code =? 10)%Z then Some Pong else None.

(** [FrameDecode]; the other fields are read only when the status is [Ok] *)
Inductive FrameDecode :=
  | FrameOk (consumed : Z) (opcode : WsOpcode) (payload : string)
  | FrameIncomplete
  | FrameError.

Definition mask_byte (maskKey : Z) (i : nat) : Z :=
  match (i mod 4)%nat with
  | 0 => Z.land (Z.shiftr maskKey 24) 255
  | 1 => Z.land (Z.shiftr maskKey 16) 255
  | 2 => Z.land (Z.shiftr maskKey 8) 255
  | _ => Z.land maskKey 255
  end.

(** XOR of the payload with the mask bytes, starting at index [i] *)
Fixpoint apply_mask (mask : nat → Z) (i : nat) (payload : string) : string :=
  match payload with
  | EmptyString => EmptyString
  | String c s => String (byte_of_Z (Z.lxor (Z_of_byte c) (mask i))) (apply_mask mask (S i) s)
  end.

Definition frame_head (opcode : WsOpcode) (length : Z) (masked : bool) : string :=
  let maskBit := if masked then 128%Z else 0%Z in
  String (byte_of_Z (Z.lor 128 (Z.land (opcode_code opcode) 15)))
  (if (length <? 126)%Z then String (byte_of_Z (Z.lor maskBit (u8 length))) ""
   else if (length <=? 65535)%Z then
     String (byte_of_Z (Z.lor maskBit 126))
     (String (byte_of_Z (Z.land (Z.shiftr length 8) 255))
     (String (byte_of_Z (Z.land length 255)) ""))
   else
     String (byte_of_Z (Z.lor maskBit 127))
       (of_bytes ((λ shift, Z.land (Z.shiftr length shift) 255) <$>
          [56; 48; 40; 32; 24; 16; 8; 0]%Z))).

Definition encodeFrame (opcode : WsOpcode) (payload : string) (masked : bool) (maskKey : Z)
    : string :=
  let out := frame_head opcode (slen payload) masked in
  if negb masked then out +:+ payload
  else
    out +:+ of_bytes (mask_byte maskKey <$> [0; 1; 2; 3]) +:+
    apply_mask (mask_byte maskKey) 0 payload.

(** big-endian value of [n] bytes from [i] *)
Fixpoint be_value (bytes : string) (i : Z) (n : nat) (acc : Z) : Z :=
  match n with
  | O => acc
  | S n => be_value bytes (i + 1) n (Z.lor (u64 (Z.shiftl acc 8)) (byte_at bytes i))
  end.

(** the header length the second byte announces *)
Definition header_size (second : Z) : Z :=
  let lengthCode := Z.land second 127 in
  (2 + (if lengthCode =? 126 then 2 else if lengthCode =? 127 then 8 else 0)
     + (if Z.land second 128 =? 0 then 0 else 4))%Z.

(** the payload length of a header that is complete *)
Definition declared_length (bytes : string) : Z :=
  let lengthCode := Z.land (byte_at bytes 1) 127 in
  if (lengthCode =? 126)%Z then Z.lor (Z.shiftl (byte_at bytes 2) 8) (byte_at bytes 3)
  else if (lengthCode =? 127)%Z then be_value bytes 2 8 0
  else lengthCode.

Definition decodeFrame (bytes : string) : FrameDecode :=
  if (slen bytes <? 2)%Z then FrameIncomplete
  else
    let first := byte_at bytes 0 in
    let second := byte_at bytes 1 in
    if negb (Z.land first 112 =? 0)%Z || (Z.land first 128 =? 0)%Z then FrameError
    else
      let code := Z.land first 15 in
      let control := (8 <=? code)%Z in
      match known_opcode code with
      | None => FrameError
      | Some opcode =>
          let masked := negb (Z.land second 128 =? 0)%Z in
          let lengthCode := Z.land second 127 in
          let header := header_size second in
          if (slen bytes <? header)%Z then FrameIncomplete
          else
            let payloadLength := declared_length bytes in
            if (lengthCode =? 126)%Z && (payloadLength <? 126)%Z then FrameError
            else if (lengthCode =? 127)%Z && negb (Z.land (byte_at bytes 2) 128 =? 0)%Z
            then FrameError
            else if (lengthCode =? 127)%Z && (payloadLength <=? 65535)%Z then FrameError
            else if control && (125 <? payloadLength)%Z then FrameError
            else if (MAX_PAYLOAD_BYTES + 4 <? payloadLength)%Z then FrameError
            else
              let total := (header + payloadLength)%Z in
              if (slen bytes <? total)%Z then FrameIncomplete
              else
                let payload := substr (Z.to_nat header) (Z.to_nat payloadLength) bytes in
                let payload :=
                  if masked then
                    apply_mask (λ i, byte_at bytes (header - 4 + Z.of_nat (i mod 4))) 0 payload
                  else payload in
                FrameOk total opcode payload
      end.

(** ** The upgrade request *)

Definition to_lower (c : ascii) : ascii :=
  let n := N_of_ascii c in if ((65 <=? n) && (n <=? 90))%N then ascii_of_N (n + 32) else c.
Fixpoint lowerCopy (s : string) : string :=
  match s with EmptyString => EmptyString | String c s => String (to_lower c) (lowerCopy s) end.

Definition is_blank (c : ascii) : bool := Ascii.eqb c " " || (N_of_ascii c =? 9)%N.
Fixpoint trim_front (s : string) : string :=
  match s with
  | String c r => if is_blank c then trim_front r else s
  | EmptyString => EmptyString
  end.
Fixpoint trim_back (s : string) : string :=
  match s with
  | EmptyString => EmptyString
  | String c r =>
      match trim_back r with
      | EmptyString => if is_blank c then EmptyString else String c EmptyString
      | r' => String c r'
      end
  end.
Definition trim (s : string) : string := trim_back (trim_front s).

(** [find(needle)] *)
Fixpoint find_str (needle s : string) : option nat :=
  if String.prefix needle s then Some 0
  else match s with EmptyString => None | String _ s => S <$> find_str needle s end.

Definition headerContains (value token : string) : bool :=
  match find_str (lowerCopy token) (lowerCopy value) with Some _ => true | None => false end.

Record Headers := mkHeaders {
  h_key : string;
  h_version : string;
  h_upgrade : bool;
  h_connection : bool
}.

(** the body of the header loop for one line *)
Definition header_line (line : string) (h : Headers) : Headers :=
  match find_char ":" 0 line with
  | None => h
  | Some colon =>
      let name := lowerCopy (trim (substr 0 colon line)) in
      let value := trim (str_drop (colon + 1) line) in
      if String.eqb name "upgrade" then
        mkHeaders (h_key h) (h_version h) (headerContains value "websocket") (h_connection h)
      else if String.eqb name "connection" then
        mkHeaders (h_key h) (h_version h) (h_upgrade h) (headerContains value "upgrade")
      else if String.eqb name "sec-websocket-key" then
        mkHeaders value (h_version h) (h_upgrade h) (h_connection h)
      else if String.eqb name "sec-websocket-version" then
        mkHeaders (h_key h) value (h_upgrade h) (h_connection h)
      else h
  end.

(** the header loop; each round moves [cursor] past a line, [None] is the end of the fuel *)
Fixpoint header_loop (fuel cursor : nat) (head : string) (h : Headers) : option Headers :=
  match fuel with
  | O => None
  | S fuel =>
      if (cursor <? String.length head)%nat then
        match find_str CRLF (str_drop cursor head) with
        | None => Some (header_line (str_drop cursor head) h)
        | Some n => header_loop fuel (cursor + n + 2) head (header_line (substr cursor n head) h)
        end
      else Some h
  end.

(** the empty string when the request is not a WebSocket upgrade *)
Definition upgradeResponse (httpRequest : string) : option string :=
  match find_str HEADER_END httpRequest with
  | None => Some ""
  | Some end_ =>
      let head := substr 0 end_ httpRequest in
      let lineEnd := find_str CRLF head in
      let requestLine := match lineEnd with None => head | Some e => substr 0 e head end in
      if (String.length requestLine <? 4)%nat || negb (String.eqb (substr 0 4 requestLine) "GET ")
      then Some ""
      else
        let cursor := match lineEnd with None => String.length head | Some e => e + 2 end in
        h ← header_loop (S (String.length head)) cursor head (mkHeaders "" "" false false);
        Some (if negb (h_upgrade h) || negb (h_connection h) || is_empty (h_key h)
                 || negb (String.eqb (h_version h) "13")
              then ""
              else "HTTP/1.1 101 Switching Protocols" +:+ CRLF +:+ "Upgrade: websocket" +:+ CRLF
                   +:+ "Connection: Upgrade" +:+ CRLF +:+ "Sec-WebSocket-Accept: " +:+
                   acceptValue (h_key h) +:+ CRLF +:+ CRLF)
  end.

(** ** The buffered reader *)

Section buffer.
Context {W : Type} {HW : Winsock W}.

(** [ensure]; [None] is the end of the fuel *)
Fixpoint ensure_go (fuel : nat) (socket count : Z) (pending : string) (w : W)
    : option bool * string * W :=
  if (slen pending <? count)%Z then
    match fuel with
    | O => (None, pending, w)
    | S fuel =>
        let need := (count - slen pending)%Z in
        let ask := if (need <? 4096)%Z then need else 4096%Z in
        match ws_recv socket ask w with
        | (None, w) => (Some false, pending, w)
        | (Some b, w) => ensure_go fuel socket count (pending +:+ b) w
        end
    end
  else (Some true, pending, w).
Definition ensure (socket count : Z) (pending : string) (w : W) : option bool * string * W :=
  ensure_go (Z.to_nat count) socket count pending w.

Fixpoint readHeaders_go (fuel : nat) (socket maxBytes : Z) (pending : string) (w : W)
    : option (option string) * string * W :=
  match find_str HEADER_END pending with
  | Some i => (Some (Some (str_take (i + 4) pending)), str_drop (i + 4) pending, w)
  | None =>
      if (maxBytes <=? slen pending)%Z then (Some None, pending, w)
      else
        match fuel with
        | O => (None, pending, w)
        | S fuel =>
            match ws_recv socket 1024 w with
            | (None, w) => (Some None, pending, w)
            | (Some b, w) =>
                let pending := pending +:+ b in
                if (maxBytes <? slen pending)%Z then (Some None, pending, w)
                else readHeaders_go fuel socket maxBytes pending w
            end
        end
  end.
Definition readHeaders (socket maxBytes : Z) (pending : string) (w : W)
    : option (option string) * string * W :=
  readHeaders_go (Z.to_nat maxBytes) socket maxBytes pending w.

(** the result, the bytes left in the buffer and the network; the outer [None] is the
    end of the fuel *)
Definition readFrame (socket : Z) (pending : string) (w : W)
    : option FrameDecode * string * W :=
  match ensure socket 2 pending w with
  | (None, pending, w) => (None, pending, w)
  | (Some false, pending, w) => (Some FrameError, pending, w)
  | (Some true, pending, w) =>
      let masked := negb (Z.land (byte_at pending 1) 128 =? 0)%Z in
      let header := header_size (byte_at pending 1) in
      match ensure socket header pending w with
      | (None, pending, w) => (None, pending, w)
      | (Some false, pending, w) => (Some FrameError, pending, w)
      | (Some true, pending, w) =>
          let payloadLength := declared_length pending in
          if (MAX_PAYLOAD_BYTES + 4 <? payloadLength)%Z then (Some FrameError, pending, w)
          else
            let total := (header + payloadLength)%Z in
            match ensure socket total pending w with
            | (None, pending, w) => (None, pending, w)
            | (Some false, pending, w) => (Some FrameError, pending, w)
            | (Some true, pending, w) =>
                match decodeFrame (str_take (Z.to_nat total) pending) with
                | FrameOk consumed opcode payload =>
                    let pending := str_drop (Z.to_nat consumed) pending in
                    if masked then (Some (FrameOk consumed opcode payload), pending, w)
                    else (Some FrameError, pending, w)
                | r => (Some r, pending, w)
                end
            end
      end
  end.
End buffer.

Example rfc6455_sample : acceptValue "dGhlIHNhbXBsZSBub25jZQ==" = "s3pPLMBiTxaQ9kYGzzhZRbK+xOo=".
Proof. vm_compute. reflexivity. Qed.

(** * Lemmas *)

(** ** Bytes at an offset *)

Lemma byte_at_prefix p q i : (0 <= i < slen p)%Z → byte_at (p +:+ q) i = byte_at p i.
Proof.
  unfold byte_at, slen. intros Hi. assert (Z.to_nat i < String.length p) as Hn by lia.
  clear Hi. revert p Hn. generalize (Z.to_nat i). clear. intros n. induction n as [|n IH]; intros [|c p] Hn;
    simpl in Hn; try lia; [done|]. rewrite str_app_cons. simpl. apply IH. lia.
Qed.
Lemma byte_at_tail p q i : (0 <= i)%Z → byte_at (p +:+ q) (slen p + i) = byte_at q i.
Proof. apply byte_at_app. Qed.

(** a property of the numbers below [n], checked by evaluation *)
Lemma below_forall (P : Z → bool) n z :
  forallb P (Z.of_nat <$> seq 0 n) = true → (0 <= z < Z.of_nat n)%Z → P z = true.
Proof.
  rewrite forallb_forall. intros H Hz. apply H, list_elem_of_In, list_elem_of_fmap.
  exists (Z.to_nat z). split; [lia|]. apply elem_of_seq. lia.
Qed.

Lemma lor_shift8 acc b :
  (0 <= acc < 2 ^ 56 → 0 <= b < 256 → Z.lor (u64 (Z.shiftl acc 8)) b = acc * 256 + b)%Z.
Proof.
  intros Ha Hb. unfold u64. rewrite Z.mod_small by (rewrite Z.shiftl_mul_pow2; lia).
  by rewrite lor_shiftl_add by lia.
Qed.

Lemma Z_of_byte_land z : Z_of_byte (byte_of_Z (Z.land z 255)) = (z mod 256)%Z.
Proof. by rewrite Z_of_byte_of_Z, land_255, Z.mod_mod. Qed.

(** ** The frame header *)

(** frames the decoder accepts *)
Definition legal (opcode : WsOpcode) (length : Z) : Prop :=
  opcode ≠ Continuation ∧ (0 <= length <= MAX_PAYLOAD_BYTES + 4)%Z ∧
  ((8 <= opcode_code opcode)%Z → (length <= 125)%Z).

Definition mask_size (masked : bool) : Z := if masked then 4 else 0.

(** the length code of the second byte *)
Definition length_code (length : Z) : Z :=
  if (length <? 126)%Z then length else if (length <=? 65535)%Z then 126 else 127.

Lemma frame_head_bytes op L masked :
  op ≠ Continuation → (0 <= L)%Z →
  ∃ c0 c1 t, frame_head op L masked = String c0 (String c1 t) ∧
    Z_of_byte c0 = (128 + opcode_code op)%Z ∧
    Z.land (Z_of_byte c1) 127 = length_code L ∧
    Z.land (Z_of_byte c1) 128 = (if masked then 128 else 0)%Z ∧
    slen (String c0 (String c1 t)) =
      (2 + (if length_code L =? 126 then 2 else if length_code L =? 127 then 8 else 0))%Z.
Proof.
  intros Hop HL. unfold frame_head, length_code.
  assert (Z_of_byte (byte_of_Z (Z.lor 128 (Z.land (opcode_code op) 15))) =
    (128 + opcode_code op)%Z) as H0 by (by destruct op).
  destruct (Z.ltb_spec L 126).
  - eexists _, _, _. split_and!; [reflexivity|done|..].
    + unfold u8. rewrite Z.mod_small by lia.
      pose (P := λ L, (Z.land (Z_of_byte (byte_of_Z (Z.lor (if masked then 128 else 0) L))) 127 =? L)%Z).
      assert (P L = true) as HP; [|by apply Z.eqb_eq].
      apply (below_forall P 126); [by destruct masked; vm_compute|lia].
    + unfold u8. rewrite Z.mod_small by lia.
      pose (P := λ L, (Z.land (Z_of_byte (byte_of_Z (Z.lor (if masked then 128 else 0) L))) 128
                       =? if masked then 128 else 0)%Z).
      assert (P L = true) as HP; [|by apply Z.eqb_eq].
      apply (below_forall P 126); [by destruct masked; vm_compute|lia].
    + destruct (_ =? 126)%Z eqn:?; [lia|]. by destruct (_ =? 127)%Z eqn:?; [lia|].
  - destruct (Z.leb_spec L 65535); eexists _, _, _;
      (split_and!; [reflexivity|done|by destruct masked..|done]).
Qed.

Lemma be_value_8 x y c0 c1 c2 c3 c4 c5 c6 c7 t :
  be_value (String x (String y (String c0 (String c1 (String c2 (String c3 (String c4
    (String c5 (String c6 (String c7 t)))))))))) 2 8 0 =
  (((((((Z_of_byte c0 * 256 + Z_of_byte c1) * 256 + Z_of_byte c2) * 256 + Z_of_byte c3) * 256
    + Z_of_byte c4) * 256 + Z_of_byte c5) * 256 + Z_of_byte c6) * 256 + Z_of_byte c7)%Z.
Proof.
  cbn [be_value]. unfold byte_at; simpl. repeat match goal with
    | |- context [Z_of_byte ?c] =>
        let b := fresh "b" in
        pose proof (Z_of_byte_range c); set (b := Z_of_byte c) in *; clearbody b
    end.
  change (u64 (Z.shiftl 0 8)) with 0%Z. rewrite Z.lor_0_l.
  repeat match goal with
    | |- context [Z.lor (u64 (Z.shiftl ?a 8)) ?b] => rewrite (lor_shift8 a b) by lia
    end. done.
Qed.

Lemma declared_length_spec op L masked tail :
  op ≠ Continuation → (0 <= L <= MAX_PAYLOAD_BYTES + 4)%Z →
  declared_length (frame_head op L masked +:+ tail) = L.
Proof.
  intros Hop HL. unfold MAX_PAYLOAD_BYTES in HL.
  destruct (frame_head_bytes op L masked Hop ltac:(lia)) as (c0 & c1 & t & Hh & _ & Hc & _).
  rewrite Hh. unfold declared_length. change (byte_at (String c0 (String c1 t) +:+ tail) 1)
    with (Z_of_byte c1). rewrite Hc. unfold length_code.
  unfold frame_head in Hh. destruct (Z.ltb_spec L 126) as [|HL1].
  - destruct (_ =? 126)%Z eqn:?; [lia|]. by destruct (_ =? 127)%Z eqn:?; [lia|].
  - destruct (Z.leb_spec L 65535) as [|HL2].
    + injection Hh as _ _ <-. simpl. unfold byte_at; simpl. rewrite !Z_of_byte_land.
      rewrite lor_shiftl_add, Z.shiftr_div_pow2 by (try apply Z.mod_pos_bound; lia).
      Z.div_mod_to_equations. lia.
    + injection Hh as _ _ <-. change (127 =? 126)%Z with false. change (127 =? 127)%Z with true.
      cbv iota. unfold of_bytes. cbn [fmap list_fmap String.string_of_list_ascii].
      rewrite !str_app_cons, be_value_8, !Z_of_byte_land, !Z.shiftr_div_pow2 by lia.
      rewrite (Z.div_small L (2 ^ 56)), (Z.div_small L (2 ^ 48)), (Z.div_small L (2 ^ 40)),
        (Z.div_small L (2 ^ 32)), (Z.div_small L (2 ^ 24)) by lia.
      Z.div_mod_to_equations. lia.
Qed.

(** ** Masking *)

Lemma apply_mask_length m i s : String.length (apply_mask m i s) = String.length s.
Proof. revert i. induction s as [|c s IH]; intros i; simpl; [done|]. by rewrite IH. Qed.

Lemma apply_mask_twice m m' i s :
  (∀ j, 0 <= m j < 256)%Z → (∀ j, m' j = m j) → apply_mask m' i (apply_mask m i s) = s.
Proof.
  intros Hm Heq. revert i. induction s as [|c s IH]; intros i; simpl; [done|]. f_equal; [|apply IH].
  rewrite Z_of_byte_of_Z, Heq. pose proof (Z_of_byte_range c) as Hc. specialize (Hm i).
  assert (0 <= Z.lxor (Z_of_byte c) (m i) < 256)%Z as Hx.
  { split; [apply Z.lxor_nonneg; lia|].
    destruct (Z.eq_dec (Z.lxor (Z_of_byte c) (m i)) 0%Z) as [->|Hne]; [lia|].
    apply (Z.log2_lt_pow2 _ 8); [pose proof (proj2 (Z.lxor_nonneg (Z_of_byte c) (m i))); lia|].
    eapply Z.le_lt_trans; [apply Z.log2_lxor; lia|].
    apply Z.max_lub_lt; (eapply Z.le_lt_trans; [apply Z.log2_le_mono with (b := 255%Z); lia|done]). }
  rewrite Z.mod_small by done. rewrite Z.lxor_assoc, Z.lxor_nilpotent, Z.lxor_0_r.
  apply byte_of_Z_of_byte.
Qed.

Lemma mask_byte_range k i : (0 <= mask_byte k i < 256)%Z.
Proof.
  unfold mask_byte. destruct (i mod 4)%nat as [|[|[|]]]; rewrite land_255; apply Z.mod_pos_bound; lia.
Qed.
Lemma mask_byte_mod k i : mask_byte k (i mod 4) = mask_byte k i.
Proof. unfold mask_byte. by rewrite Nat.Div0.mod_mod. Qed.

(** the four mask bytes as written before the payload *)
Definition mask_bytes (key : Z) : string := of_bytes (mask_byte key <$> [0; 1; 2; 3]).
Lemma byte_at_mask key rest i :
  byte_at (mask_bytes key +:+ rest) (Z.of_nat (i mod 4)) = mask_byte key i.
Proof.
  rewrite <-mask_byte_mod. pose proof (Nat.mod_upper_bound i 4 ltac:(lia)) as H.
  destruct (i mod 4)%nat as [|[|[|[|]]]]; [| | | |lia]; unfold byte_at, mask_bytes, of_bytes; simpl;
    rewrite Z_of_byte_of_Z; apply Z.mod_small, mask_byte_range.
Qed.

Lemma apply_mask_ext m m' i s : (∀ j, m j = m' j) → apply_mask m i s = apply_mask m' i s.
Proof. intros H. revert i. induction s as [|c s IH]; intros i; simpl; [done|]. by rewrite H, IH. Qed.

(** ** Decoding a header followed by anything *)

Lemma byte_at_2 a b c t : byte_at (String a (String b (String c t))) 2 = Z_of_byte c.
Proof. done. Qed.
Lemma head_top_bit op L masked tail :
  op ≠ Continuation → (0 <= L <= MAX_PAYLOAD_BYTES + 4)%Z →
  (length_code L =? 127)%Z &&
    negb (Z.land (byte_at (frame_head op L masked +:+ tail) 2) 128 =? 0)%Z = false.
Proof.
  intros Hop HL. unfold length_code, frame_head. unfold MAX_PAYLOAD_BYTES in HL.
  destruct (Z.ltb_spec L 126) as [|]; [by destruct (_ =? 127)%Z eqn:?; [lia|]|].
  destruct (Z.leb_spec L 65535) as [|]; [done|]. unfold of_bytes.
  cbn [fmap list_fmap String.string_of_list_ascii]. rewrite !str_app_cons, byte_at_2.
  rewrite Z_of_byte_land, Z.shiftr_div_pow2, Z.div_small by lia. done.
Qed.

Lemma decode_head_tail op L masked tail :
  legal op L →
  let head := frame_head op L masked in
  let total := (slen head + mask_size masked + L)%Z in
  decodeFrame (head +:+ tail) =
  if (slen (head +:+ tail) <? total)%Z then FrameIncomplete
  else FrameOk total op
    (if masked then apply_mask (λ i, byte_at tail (Z.of_nat (i mod 4))) 0 (substr 4 (Z.to_nat L) tail)
     else str_take (Z.to_nat L) tail).
Proof.
  intros (Hop & HL & Hctl). cbv zeta. pose proof (declared_length_spec op L masked tail Hop HL) as Hdecl.
  destruct (frame_head_bytes op L masked Hop ltac:(lia)) as (c0 & c1 & t & Hh & H0 & Hc & Hm & Hsz).
  set (head := frame_head op L masked) in *. pose proof (slen_nonneg tail).
  assert (2 <= slen head)%Z as Hge by (rewrite Hh, Hsz; repeat case_match; lia).
  unfold decodeFrame. rewrite slen_app. destruct (_ <? 2)%Z eqn:?; [lia|].
  assert (byte_at (head +:+ tail) 0 = 128 + opcode_code op)%Z as -> by (rewrite Hh; exact H0).
  assert (byte_at (head +:+ tail) 1 = Z_of_byte c1) as -> by (by rewrite Hh).
  assert (header_size (Z_of_byte c1) = slen head + mask_size masked)%Z as ->.
  { unfold header_size. rewrite Hc, Hm, Hh, Hsz. by destruct masked. }
  rewrite Hdecl, Hc, Hm.
  assert (negb (Z.land (128 + opcode_code op) 112 =? 0)%Z || (Z.land (128 + opcode_code op) 128 =? 0)%Z
    = false) as -> by (by destruct op).
  assert (known_opcode (Z.land (128 + opcode_code op) 15) = Some op) as -> by (by destruct op).
  assert (Z.land (128 + opcode_code op) 15 = opcode_code op) as -> by (by destruct op).
  assert (negb ((if masked then 128 else 0) =? 0)%Z = masked) as -> by (by destruct masked).
  assert (0 <= mask_size masked)%Z as Hms by (by destruct masked).
  assert ((length_code L =? 127)%Z && negb (Z.land (byte_at (head +:+ tail) 2) 128 =? 0)%Z = false)
    as -> by (apply head_top_bit; [done|lia]).
  assert ((length_code L =? 126)%Z && (L <? 126)%Z = false ∧
          (length_code L =? 127)%Z && (L <=? 65535)%Z = false) as [-> ->].
  { unfold length_code. destruct (Z.ltb_spec L 126), (Z.leb_spec L 65535); lia. }
  assert ((8 <=? opcode_code op)%Z && (125 <? L)%Z = false) as -> by lia.
  destruct (MAX_PAYLOAD_BYTES + 4 <? L)%Z eqn:?; [lia|].
  destruct (Z.ltb_spec (slen head + slen tail) (slen head + mask_size masked)) as [Hlt|Hge'].
  - destruct (_ <? slen head + mask_size masked + L)%Z eqn:?; [done|lia].
  - destruct (_ <? slen head + mask_size masked + L)%Z eqn:?; [done|]. f_equal.
    unfold substr. replace (Z.to_nat (slen head + mask_size masked))
      with (String.length head + Z.to_nat (mask_size masked)) by (unfold slen; lia).
    rewrite str_drop_app_plus. destruct masked; [|by rewrite str_drop_0].
    apply apply_mask_ext. intros i. rewrite <-(byte_at_tail head tail) by lia. f_equal. simpl. lia.
Qed.

Lemma encodeFrame_eq op payload masked key :
  encodeFrame op payload masked key =
  frame_head op (slen payload) masked +:+
  (if masked then mask_bytes key +:+ apply_mask (mask_byte key) 0 payload else payload).
Proof. unfold encodeFrame. by destruct masked. Qed.

Lemma slen_encodeFrame op payload masked key :
  slen (encodeFrame op payload masked key) =
  (slen (frame_head op (slen payload) masked) + mask_size masked + slen payload)%Z.
Proof.
  rewrite encodeFrame_eq, slen_app. destruct masked; simpl; [|lia].
  rewrite slen_app. change (slen (mask_bytes key)) with 4%Z.
  assert (slen (apply_mask (mask_byte key) 0 payload) = slen payload) as ->
    by (unfold slen; by rewrite apply_mask_length). lia.
Qed.

Lemma decode_encode_frame op payload masked key rest :
  legal op (slen payload) →
  decodeFrame (encodeFrame op payload masked key +:+ rest) =
  FrameOk (slen (encodeFrame op payload masked key)) op payload.
Proof.
  intros Hl. rewrite slen_encodeFrame, encodeFrame_eq, str_app_assoc.
  rewrite decode_head_tail by done. rewrite <-str_app_assoc, <-encodeFrame_eq, slen_app, slen_encodeFrame.
  pose proof (slen_nonneg rest). destruct (_ <? _)%Z eqn:?; [lia|]. f_equal.
  unfold slen. rewrite Nat2Z.id. destruct masked; [|by rewrite str_take_app_len].
  rewrite str_app_assoc. rewrite (apply_mask_ext _ (mask_byte key)) by (intros; apply byte_at_mask).
  change 4 with (String.length (mask_bytes key)).
  rewrite <-(apply_mask_length (mask_byte key) 0 payload), substr_mid.
  apply apply_mask_twice; [apply mask_byte_range|done].
Qed.

Lemma str_take_app_le n s t : n <= String.length s → str_take n (s +:+ t) = str_take n s.
Proof.
  revert s. induction n as [|n IH]; intros s Hn; [by rewrite !str_take_0|].
  destruct s as [|c s]; simpl in Hn; [lia|]. rewrite str_app_cons. simpl. by rewrite IH by lia.
Qed.
Lemma str_take_app_ge n s t :
  String.length s <= n → str_take n (s +:+ t) = s +:+ str_take (n - String.length s) t.
Proof.
  revert s. induction n as [|n IH]; intros s Hn.
  - destruct s as [|c s]; simpl in Hn; [done|lia].
  - destruct s as [|c s]; [done|]. simpl in Hn. rewrite !str_app_cons. simpl. by rewrite IH by lia.
Qed.

(** a decoder input of two or more bytes that stops inside the header *)
Lemma decode_short_head op c0 c1 t L masked :
  op ≠ Continuation → Z_of_byte c0 = (128 + opcode_code op)%Z →
  Z.land (Z_of_byte c1) 127 = length_code L →
  Z.land (Z_of_byte c1) 128 = (if masked : bool then 128 else 0)%Z →
  (2 + slen t < 2 + (if length_code L =? 126 then 2 else if length_code L =? 127 then 8 else 0))%Z →
  decodeFrame (String c0 (String c1 t)) = FrameIncomplete.
Proof.
  intros Hop H0 Hc Hm Hlt. unfold decodeFrame. rewrite !slen_cons. pose proof (slen_nonneg t).
  destruct (_ <? 2)%Z eqn:?; [lia|].
  change (byte_at (String c0 (String c1 t)) 0) with (Z_of_byte c0).
  change (byte_at (String c0 (String c1 t)) 1) with (Z_of_byte c1). rewrite H0.
  assert (negb (Z.land (128 + opcode_code op) 112 =? 0)%Z || (Z.land (128 + opcode_code op) 128 =? 0)%Z
    = false) as -> by (by destruct op).
  assert (known_opcode (Z.land (128 + opcode_code op) 15) = Some op) as -> by (by destruct op).
  unfold header_size. rewrite Hc, Hm. cbv zeta. revert Hlt.
  generalize (if (length_code L =? 126)%Z then 2 else if (length_code L =? 127)%Z then 8 else 0)%Z.
  intros q Hq. assert (0 <= (if (if masked then 128 else 0) =? 0 then 0 else 4))%Z as Hk
    by (by destruct masked).
  match goal with |- (if ?b then _ else _) = _ => destruct b eqn:E end; [done|lia].
Qed.

Lemma decode_prefix op payload masked key n :
  legal op (slen payload) → n < String.length (encodeFrame op payload masked key) →
  decodeFrame (str_take n (encodeFrame op payload masked key)) = FrameIncomplete.
Proof.
  intros Hl Hn. pose proof Hl as (Hop & HL & _).
  pose proof (slen_encodeFrame op payload masked key) as Hlen.
  rewrite encodeFrame_eq in *. set (head := frame_head op (slen payload) masked) in *.
  set (tail := if masked then _ else _) in *.
  destruct (Nat.le_gt_cases (String.length head) n) as [Hge|Hlt].
  - rewrite str_take_app_ge by done. unfold head. rewrite decode_head_tail by done. fold head.
    rewrite slen_app. unfold slen in Hlen. unfold slen at 2. rewrite str_take_length.
    destruct (_ <? _)%Z eqn:E; [done|]. unfold slen in E. lia.
  - rewrite str_take_app_le by lia.
    destruct (frame_head_bytes op (slen payload) masked Hop ltac:(lia))
      as (c0 & c1 & t & Hh & H0 & Hc & Hm & Hsz). fold head in Hh. rewrite Hh in *.
    destruct n as [|[|n]]; [done|done|]. simpl.
    eapply decode_short_head; [done..|]. rewrite !slen_cons in Hsz.
    assert (slen (str_take n t) < slen t)%Z; [|lia].
    simpl in Hlt. unfold slen. rewrite str_take_length. lia.
Qed.

(** ** The buffered reader *)

Section buffer_lemmas.
Context {W : Type} {HW : Winsock W} {HL : WinsockLaws W}.

(** everything the reader has or will have *)
Definition available (socket : Z) (pending : string) (w : W) : string :=
  pending +:+ incoming socket w.

Lemma ensure_go_spec fuel s n pending (w : W) :
  (n - slen pending <= Z.of_nat fuel)%Z → (n <= slen (available s pending w))%Z →
  ∃ pending' w', ensure_go fuel s n pending w = (Some true, pending', w') ∧
    available s pending' w' = available s pending w ∧ (n <= slen pending')%Z.
Proof.
  unfold available. revert pending w. induction fuel as [|fuel IH]; intros pending w Hf Hn;
    cbn [ensure_go]; destruct (Z.ltb_spec (slen pending) n) as [Hlt|Hge]; try lia.
  1,3: by eexists pending, w.
  set (ask := if (_ <? 4096)%Z then _ else _).
  assert (0 < ask)%Z as Hask by (unfold ask; case_match; lia).
  rewrite slen_app in Hn.
  destruct (ws_recv s ask w) as [[b|] w1] eqn:E.
  - apply recv_chunk in E as (? & Hin); [|done].
    destruct (IH (pending +:+ b) w1) as (p' & w' & Hgo & Hav & Hp);
      [rewrite slen_app; lia|rewrite !slen_app; rewrite Hin, slen_app in Hn; lia|].
    exists p', w'. rewrite Hav, Hin, str_app_assoc. done.
  - pose proof (recv_some s ask w Hask) as Hs. rewrite E in Hs.
    destruct (incoming s w) as [|c i]; [rewrite slen_nil in Hn; lia|].
    destruct (Hs ltac:(done)) as [? [=]].
Qed.
Lemma ensure_spec s n pending (w : W) :
  (n <= slen (available s pending w))%Z →
  ∃ pending' w', ensure s n pending w = (Some true, pending', w') ∧
    available s pending' w' = available s pending w ∧ (n <= slen pending')%Z.
Proof. apply ensure_go_spec. pose proof (slen_nonneg pending). lia. Qed.

Lemma available_byte s pending (w : W) i :
  (0 <= i < slen pending)%Z → byte_at pending i = byte_at (available s pending w) i.
Proof. intros H. symmetry. by apply byte_at_prefix. Qed.

Lemma be_value_prefix p q i n acc :
  (0 <= i)%Z → (i + Z.of_nat n <= slen p)%Z → be_value (p +:+ q) i n acc = be_value p i n acc.
Proof.
  revert i acc. induction n as [|n IH]; intros i acc Hi Hn; simpl; [done|].
  rewrite byte_at_prefix by lia. apply IH; lia.
Qed.
Lemma declared_length_prefix p q :
  (2 <= slen p)%Z → (header_size (byte_at p 1) <= slen p)%Z →
  declared_length (p +:+ q) = declared_length p.
Proof.
  intros H2 Hs. unfold declared_length, header_size in *. rewrite byte_at_prefix by lia.
  assert (0 <= (if Z.land (byte_at p 1) 128 =? 0 then 0 else 4))%Z as Hk
    by (clear; by destruct (Z.land (byte_at p 1) 128 =? 0)%Z).
  destruct (_ =? 126)%Z; [by rewrite !byte_at_prefix by lia|].
  destruct (_ =? 127)%Z; [|done]. apply be_value_prefix; lia.
Qed.
End buffer_lemmas.

(** ** Termination of the two HTTP loops *)

Lemma header_loop_total fuel cursor head h :
  String.length head - cursor < fuel → is_Some (header_loop fuel cursor head h).
Proof.
  revert cursor h. induction fuel as [|fuel IH]; intros cursor h Hf; [lia|]. cbn [header_loop].
  destruct (Nat.ltb_spec cursor (String.length head)); [|by eauto].
  destruct (find_str _ _); [|by eauto]. apply IH. lia.
Qed.

Lemma upgradeResponse_total req : is_Some (upgradeResponse req).
Proof.
  unfold upgradeResponse. destruct (find_str _ req); [|by eauto]. cbv zeta.
  destruct (_ || _); [by eauto|].
  edestruct header_loop_total as [h ->]; [|simpl; by eauto]. lia.
Qed.

Section readers.
Context {W : Type} {HW : Winsock W} {HL : WinsockLaws W}.

Lemma readHeaders_total s n pending (w : W) :
  (0 <= n)%Z → is_Some (readHeaders s n pending w).1.1.
Proof using HL.
  intros Hn. unfold readHeaders.
  assert (n - slen pending <= Z.of_nat (Z.to_nat n))%Z as Hf by (pose proof (slen_nonneg pending); lia).
  revert Hf. generalize (Z.to_nat n). intros fuel. revert pending w.
  induction fuel as [|fuel IH]; intros pending w Hf; cbn [readHeaders_go];
    (destruct (find_str _ _); [by eexists|]);
    (destruct (Z.leb_spec n (slen pending)); [by eexists|]); [lia|].
  destruct (ws_recv s 1024 w) as [[b|] w'] eqn:E; [|by eexists].
  apply recv_chunk in E as ((? & ?) & _); [|lia].
  destruct (_ <? _)%Z; [by eexists|]. apply IH. rewrite slen_app. lia.
Qed.

Lemma readFrame_spec s pending (w : W) op payload masked key rest :
  legal op (slen payload) →
  available s pending w = encodeFrame op payload masked key +:+ rest →
  ∃ pending' w',
    readFrame s pending w =
      (Some (if masked then FrameOk (slen (encodeFrame op payload masked key)) op payload
             else FrameError), pending', w') ∧
    available s pending' w' = rest.
Proof.
  intros Hl Hav. pose proof Hl as (Hop & HL' & _).
  pose proof (slen_encodeFrame op payload masked key) as Hlen.
  pose proof (decode_encode_frame op payload masked key "" Hl) as Hdec. rewrite str_app_nil_r in Hdec.
  set (F := encodeFrame op payload masked key) in *. set (h := frame_head op (slen payload) masked) in *.
  assert (∃ tl, F = h +:+ tl) as [tl HF] by (unfold F, h; rewrite encodeFrame_eq; eauto).
  destruct (frame_head_bytes op (slen payload) masked Hop ltac:(lia))
    as (c0 & c1 & t & Hh & _ & Hc & Hm & Hsz). fold h in Hh.
  assert (2 <= slen h)%Z as H2 by (rewrite Hh, !slen_cons; pose proof (slen_nonneg t); lia).
  assert (0 <= mask_size masked)%Z as Hms by (by destruct masked).
  assert (header_size (Z_of_byte c1) = slen h + mask_size masked)%Z as Hhs.
  { unfold header_size. rewrite Hc, Hm, Hh, Hsz. by destruct masked. }
  pose proof (slen_nonneg rest). unfold readFrame.
  destruct (ensure_spec s 2 pending w) as (p1 & w1 & -> & Hav1 & Hp1);
    [rewrite Hav, slen_app; lia|].
  rewrite (available_byte s p1 w1) by lia. rewrite Hav1, Hav, HF, str_app_assoc.
  assert (byte_at (h +:+ tl +:+ rest) 1 = Z_of_byte c1) as -> by (by rewrite Hh).
  rewrite Hhs, Hm.
  destruct (ensure_spec s (slen h + mask_size masked) p1 w1) as (p2 & w2 & -> & Hav2 & Hp2);
    [rewrite Hav1, Hav, slen_app; lia|].
  assert (declared_length p2 = slen payload) as ->.
  { rewrite <-(declared_length_prefix p2 (incoming s w2)).
    - change (p2 +:+ incoming s w2) with (available s p2 w2). rewrite Hav2, Hav1, Hav, HF, str_app_assoc.
      by apply declared_length_spec.
    - lia.
    - rewrite (available_byte s p2 w2), Hav2, Hav1, Hav, HF, str_app_assoc by lia.
      replace (byte_at (h +:+ tl +:+ rest) 1) with (Z_of_byte c1) by (by rewrite Hh). lia. }
  match goal with |- context [if ?b then _ else _] => destruct b eqn:? end; [lia|].
  destruct (ensure_spec s (slen h + mask_size masked + slen payload) p2 w2)
    as (p3 & w3 & -> & Hav3 & Hp3); [rewrite Hav2, Hav1, Hav, slen_app; lia|].
  rewrite <-Hlen in *. rewrite Hav2, Hav1, Hav in Hav3. unfold available in *.
  assert (p3 = F +:+ str_drop (String.length F) p3) as Hp.
  { rewrite <-(str_take_drop (String.length F) p3) at 1. f_equal.
    transitivity (str_take (String.length F) (p3 +:+ incoming s w3)).
    - rewrite str_take_app_le; [done|]. unfold slen in Hp3. lia.
    - rewrite Hav3. apply str_take_app_len. }
  assert (str_take (Z.to_nat (slen F)) p3 = F) as ->.
  { unfold slen. by rewrite Nat2Z.id, Hp, str_take_app_len. }
  rewrite Hdec, <-HF. exists (str_drop (String.length F) p3), w3. split.
  - unfold slen. rewrite Nat2Z.id. by destruct masked.
  - rewrite Hp, str_app_assoc in Hav3.
    assert (str_drop (String.length F) (F +:+ str_drop (String.length F) p3 +:+ incoming s w3)
      = str_drop (String.length F) (F +:+ rest)) as He by (by rewrite Hav3).
    by rewrite !str_drop_app_len in He.
Qed.
End readers.

(** * Theorems *)

(** C31. Decoding inverts encoding: every data, ping, pong and close frame the protocol
    allows, masked with any key or not, decodes to its opcode and payload and to the exact
    number of bytes it took, whatever follows it. *)
Theorem decodeFrame_encodeFrame op payload masked key rest :
  legal op (slen payload) →
  decodeFrame (encodeFrame op payload masked key +:+ rest) =
  FrameOk (slen (encodeFrame op payload masked key)) op payload.
Proof. apply decode_encode_frame. Qed.

(** A frame cut anywhere before its last byte is reported incomplete, never an error
    and never a shorter frame. *)
Theorem decodeFrame_truncated op payload masked key n :
  legal op (slen payload) → n < String.length (encodeFrame op payload masked key) →
  decodeFrame (str_take n (encodeFrame op payload masked key)) = FrameIncomplete.
Proof. apply decode_prefix. Qed.

(** C37. The buffered reader returns the frame at the head of the stream whatever the
    fragmentation and whatever it already holds, and keeps every byte after it; an
    unmasked frame, which a browser must not send, is consumed and rejected.  Its loops end
    within their fuel. *)
Theorem readFrame_stream {W} {HW : Winsock W} {HL : WinsockLaws W}
    s pending (w : W) op payload masked key rest :
  legal op (slen payload) →
  available s pending w = encodeFrame op payload masked key +:+ rest →
  ∃ pending' w',
    readFrame s pending w =
      (Some (if masked then FrameOk (slen (encodeFrame op payload masked key)) op payload
             else FrameError), pending', w') ∧
    available s pending' w' = rest.
Proof. apply readFrame_spec. Qed.

Lemma decodeFrame_encodeFrame_witness :
  decodeFrame (encodeFrame Binary "hello" true 305419896 +:+ "xyz") =
  FrameOk (slen (encodeFrame Binary "hello" true 305419896)) Binary "hello".
Proof. apply (decodeFrame_encodeFrame Binary "hello" true 305419896 "xyz"). by vm_compute. Defined.
Lemma decodeFrame_truncated_witness :
  decodeFrame (str_take 7 (encodeFrame Ping "hello" true 1)) = FrameIncomplete.
Proof. apply (decodeFrame_truncated Ping "hello" true 1 7); [by vm_compute|vm_compute; lia]. Defined.
Definition frame_net : Chunks :=
  mkChunks (cut 2 (str_drop 3 (encodeFrame Text "hello" true 7) +:+ "rest")) 2 "" ∅ 100.
Lemma readFrame_stream_witness :
  ∃ pending' w', readFrame 7 (str_take 3 (encodeFrame Text "hello" true 7)) frame_net =
      (Some (FrameOk (slen (encodeFrame Text "hello" true 7)) Text "hello"), pending', w') ∧
    available 7 pending' w' = "rest".
Proof.
  apply (readFrame_stream 7 (str_take 3 (encodeFrame Text "hello" true 7)) frame_net Text "hello"
    true 7 "rest"); [by vm_compute|vm_compute; reflexivity].
Defined.
