(* ===== verification/DatabaseManager.v ===== *)
(** Storage (src/server/database_manager.cpp with src/database/init.sql and the statements
    of src/database/queries) and password checking (src/auth/authentication.cpp).

    The tables are lists of row records in rowid order; a statement is a function on them
    with SQLite's documented effect: uniqueness, foreign keys when the pragma is on, OR
    IGNORE, OR REPLACE, AUTOINCREMENT, and [sqlite3_changes].  Every statement may also fail
    for a reason of its own (I/O, a busy file): [env_db] says, for the n-th statement, at
    which point and with which message.  The text of a column is read with [sqlite3_column_text] into a C
    string, so it stops at the first NUL byte.

    The theorems: the table keys and foreign keys are invariants of every operation
    (renaming, the one operation that turns foreign keys off, included); saving is
    idempotent; history is bounded and newest first; deleting a room removes everything
    that refers to it. *)
From S2P Require Import Prelude Models.
From stdpp Require Import options.

(** * Definitions *)

(** ** What is outside the repository *)

(** the Argon2 library: hashing with a salt (the error message when it fails) and
    verification *)
Inductive Argon2Result := ARGON2_OK | ARGON2_VERIFY_MISMATCH | ARGON2_OTHER.
Class Argon2 := {
  argon2id_hash_encoded : string → string → string + string;
  argon2id_verify : string → string → Argon2Result
}.

(** what the storage engine says when a statement cannot be prepared or carried out *)
Inductive Fault := PrepareFails (message : string) | StepFails (message : string).

(** the failures of the storage engine and the random device *)
Class DbEnv := {
  db_argon2 :: Argon2;
  env_db : nat → option Fault;
  env_salt : nat → string;
  NODE_ID : string
}.

Definition hashPassword `{Argon2} (salt password : string) : outcome string :=
  match argon2id_hash_encoded salt password with
  | inl encoded => Ok (c_str encoded)
  | inr message => Throw (RuntimeError message)
  end.

Definition checkPassword `{Argon2} (password hash : string) : bool :=
  match argon2id_verify (c_str hash) password with
  | ARGON2_OK => true
  | ARGON2_VERIFY_MISMATCH => false
  | ARGON2_OTHER => String.eqb hash password
  end.

(** ** Tables *)

Record UserRow := mkUserRow {
  u_username : string; u_email : string; u_password : string; u_type : string }.
Record RoomRow := mkRoomRow {
  r_id : Z; r_name : string; r_type : string; r_privacy : string }.
Record MessageRow := mkMessageRow {
  m_id : string; m_room_id : Z; m_sender_username : string; m_sender_email : string;
  m_content : string; m_created_at : Z; m_origin : string }.
Record MembershipRow := mkMembershipRow {
  mb_username : string; mb_room_id : Z; mb_node_id : string }.
Record OnlineRow := mkOnlineRow { on_username : string; on_node_id : string }.
Record AllowRow := mkAllowRow { al_room_id : Z; al_email : string; al_creator : bool }.

#[export] Instance UserRow_eq_dec : EqDecision UserRow.
Proof. solve_decision. Defined.
#[export] Instance RoomRow_eq_dec : EqDecision RoomRow.
Proof. solve_decision. Defined.
#[export] Instance MessageRow_eq_dec : EqDecision MessageRow.
Proof. solve_decision. Defined.
#[export] Instance MembershipRow_eq_dec : EqDecision MembershipRow.
Proof. solve_decision. Defined.
#[export] Instance OnlineRow_eq_dec : EqDecision OnlineRow.
Proof. solve_decision. Defined.
#[export] Instance AllowRow_eq_dec : EqDecision AllowRow.
Proof. solve_decision. Defined.

Record Db := mkDb {
  users : list UserRow;
  rooms : list RoomRow;
  messages : list MessageRow;
  membership : list MembershipRow;
  online_users : list OnlineRow;
  allow_list : list AllowRow;
  sqlite_sequence : Z;     (* largest room id ever given out *)
  foreign_keys : bool;     (* the pragma *)
  statements : nat         (* statements executed so far *)
}.

Definition set_users v db := mkDb v (rooms db) (messages db) (membership db) (online_users db)
  (allow_list db) (sqlite_sequence db) (foreign_keys db) (statements db).
Definition set_rooms v s db := mkDb (users db) v (messages db) (membership db) (online_users db)
  (allow_list db) s (foreign_keys db) (statements db).
Definition set_messages v db := mkDb (users db) (rooms db) v (membership db) (online_users db)
  (allow_list db) (sqlite_sequence db) (foreign_keys db) (statements db).
Definition set_membership v db := mkDb (users db) (rooms db) (messages db) v (online_users db)
  (allow_list db) (sqlite_sequence db) (foreign_keys db) (statements db).
Definition set_online_users v db := mkDb (users db) (rooms db) (messages db) (membership db) v
  (allow_list db) (sqlite_sequence db) (foreign_keys db) (statements db).
Definition set_allow_list v db := mkDb (users db) (rooms db) (messages db) (membership db)
  (online_users db) v (sqlite_sequence db) (foreign_keys db) (statements db).
Definition set_foreign_keys v db := mkDb (users db) (rooms db) (messages db) (membership db)
  (online_users db) (allow_list db) (sqlite_sequence db) v (statements db).
Definition next_statement db := mkDb (users db) (rooms db) (messages db) (membership db)
  (online_users db) (allow_list db) (sqlite_sequence db) (foreign_keys db) (S (statements db)).

(** the seeded database of init.sql; [admin_hash] and [user_hash] stand for the two literal
    Argon2 strings *)
Definition init (admin_hash user_hash : string) : Db :=
  mkDb [ mkUserRow "admin" "admin@example.com" admin_hash "ADMIN";
         mkUserRow "user" "user@example.com" user_hash "USER" ]
       [ mkRoomRow 1 "Lobby" "Lobby" "PUBLIC"; mkRoomRow 2 "General" "Other" "PUBLIC" ]
       [] [] [] [] 2 true 0.

(** ** Running statements *)

Definition SqlRow := list string.
Definition UNIQUE (what : string) : string := "UNIQUE constraint failed: " +:+ what.
Definition FOREIGN_KEY : string := "FOREIGN KEY constraint failed".

(** ORDER BY created_at DESC *)
Definition newer (a b : MessageRow) : Prop := (m_created_at b <= m_created_at a)%Z.
#[export] Instance newer_dec a b : Decision (newer a b).
Proof. unfold newer. apply _. Defined.

(** what the exception says: how it starts is up to the place that runs the statement *)
Definition fault_text (step : string) (f : Fault) : string :=
  match f with
  | PrepareFails message => "Failed to prepare SQL: " +:+ message
  | StepFails message => step +:+ message
  end.
Definition STEP_FAILED : string := "Failed to step SQL: ".

(** one statement: the changed tables and the number of rows changed, or the constraint it
    violates *)
Definition run_statement {env : DbEnv} (explain : Fault → string) (f : Db → string + (Z * Db)) : SE Db Z := λ db,
  let db := next_statement db in
  match env_db (statements db) with
  | Some fault => (Throw (RuntimeError (explain fault)), db)
  | None =>
      match f db with
      | inl message => (Throw (ConstraintError message), db)
      | inr (changes, db) => (Ok changes, db)
      end
  end.

Notation execute := (run_statement (fault_text STEP_FAILED)).

Section with_env.
Context {env : DbEnv}.

(** [query]: the rows of a SELECT *)
Definition query (f : Db → list SqlRow) : SE Db (list SqlRow) := λ db,
  let db := next_statement db in
  match env_db (statements db) with
  | Some fault => (Throw (RuntimeError (fault_text STEP_FAILED fault)), db)
  | None => (Ok (f db), db)
  end.

(** [exec("PRAGMA foreign_keys=...")] *)
Definition exec_text (f : Fault) : string :=
  "Failed to execute SQL statement: " +:+ match f with PrepareFails message | StepFails message => message end.
Definition pragma_foreign_keys (v : bool) : SE Db unit :=
  run_statement exec_text (λ db, inr (0%Z, set_foreign_keys v db)) ;; mret tt.

(** rows removed by a DELETE *)
Definition removed {A} (l l' : list A) : Z := Z.of_nat (length l - length l').

(** ** The statements *)

Definition text (s : string) : string := c_str s.

Definition sql_get_user (username : string) (db : Db) : list SqlRow :=
  (λ u, [text (u_username u); text (u_email u); text (u_type u)]) <$>
  filter (λ u, u_username u = username) (users db).

Definition sql_user_exists (username : string) (db : Db) : list SqlRow :=
  (λ _, ["1"]) <$> take 1 (filter (λ u, u_username u = username) (users db)).

Definition sql_login_user (username : string) (db : Db) : list SqlRow :=
  (λ u, [text (u_username u); text (u_email u); text (u_type u); text (u_password u)]) <$>
  filter (λ u, u_username u = username) (users db).

Definition sql_create_user (username email password user_type : string) (db : Db)
    : string + (Z * Db) :=
  if negb (bool_decide (user_type ∈ ["ADMIN"; "USER"; "GUEST"]))
  then inl "CHECK constraint failed: users"
  else if bool_decide (username ∈ u_username <$> users db) then inl (UNIQUE "users.username")
  else if bool_decide (email ∈ u_email <$> users db) then inl (UNIQUE "users.email")
  else inr (1%Z, set_users (users db ++ [mkUserRow username email password user_type]) db).

Definition sql_update_user_password (password username : string) (db : Db)
    : string + (Z * Db) :=
  inr (Z.of_nat (length (filter (λ u, u_username u = username) (users db))),
       set_users ((λ u, if bool_decide (u_username u = username)
                        then mkUserRow (u_username u) (u_email u) password (u_type u)
                        else u) <$> users db) db).

(** the four statements of update_user.sql.  An UPDATE is rejected as a whole when two of
    the rows it leaves would share a key; a rename with foreign keys on is rejected when a
    membership row still refers to the old name. *)
Definition rename_user (desired current : string) (u : UserRow) : UserRow :=
  if bool_decide (u_username u = current)
  then mkUserRow desired (u_email u) (u_password u) (u_type u) else u.
Definition sql_update_user_users (desired current : string) (db : Db) : string + (Z * Db) :=
  let users' := rename_user desired current <$> users db in
  if negb (bool_decide (NoDup (u_username <$> users'))) then inl (UNIQUE "users.username")
  else if foreign_keys db && negb (String.eqb desired current)
          && bool_decide (current ∈ u_username <$> users db)
          && bool_decide (current ∈ mb_username <$> membership db) then inl FOREIGN_KEY
  else inr (Z.of_nat (length (filter (λ u, u_username u = current) (users db))),
            set_users users' db).
Definition rename_member (desired current : string) (m : MembershipRow) : MembershipRow :=
  if bool_decide (mb_username m = current)
  then mkMembershipRow desired (mb_room_id m) (mb_node_id m) else m.
Definition sql_update_user_membership (desired current : string) (db : Db)
    : string + (Z * Db) :=
  let membership' := rename_member desired current <$> membership db in
  if negb (bool_decide (NoDup ((λ m, (mb_username m, mb_room_id m)) <$> membership')))
  then inl (UNIQUE "membership.username, membership.room_id")
  else if foreign_keys db && bool_decide (current ∈ mb_username <$> membership db)
          && negb (bool_decide (desired ∈ u_username <$> users db)) then inl FOREIGN_KEY
  else inr (Z.of_nat (length (filter (λ m, mb_username m = current) (membership db))),
            set_membership membership' db).
Definition rename_online (desired current : string) (o : OnlineRow) : OnlineRow :=
  if bool_decide (on_username o = current) then mkOnlineRow desired (on_node_id o) else o.
Definition sql_update_user_online (desired current : string) (db : Db) : string + (Z * Db) :=
  let online' := rename_online desired current <$> online_users db in
  if negb (bool_decide (NoDup (on_username <$> online')))
  then inl (UNIQUE "online_users.username")
  else inr (Z.of_nat (length (filter (λ o, on_username o = current) (online_users db))),
            set_online_users online' db).
Definition rename_message (desired current : string) (m : MessageRow) : MessageRow :=
  if bool_decide (m_sender_username m = current)
  then mkMessageRow (m_id m) (m_room_id m) desired (m_sender_email m) (m_content m)
         (m_created_at m) (m_origin m) else m.
Definition sql_update_user_messages (desired current : string) (db : Db)
    : string + (Z * Db) :=
  inr (Z.of_nat (length (filter (λ m, m_sender_username m = current) (messages db))),
       set_messages (rename_message desired current <$> messages db) db).

Definition sql_save_message (id : string) (room_id : Z) (username email content : string)
    (created_at : Z) (origin : string) (db : Db) : string + (Z * Db) :=
  if bool_decide (id ∈ m_id <$> messages db) then inr (0%Z, db)
  else if foreign_keys db
          && (negb (bool_decide (room_id ∈ r_id <$> rooms db))
              || negb (bool_decide (email ∈ u_email <$> users db))) then inl FOREIGN_KEY
  else inr (1%Z, set_messages
              (messages db ++ [mkMessageRow id room_id username email content created_at origin])
              db).

(** COALESCE of the joined user's type *)
Definition sender_type (email : string) (db : Db) : string :=
  match filter (λ u, u_email u = email) (users db) with u :: _ => u_type u | [] => "GUEST" end.

Definition sql_load_history (room_id : Z) (db : Db) : list SqlRow :=
  (λ m, [text (m_id m); text (m_sender_username m); text (m_content m);
         to_string (m_created_at m); text (m_sender_email m);
         text (sender_type (m_sender_email m) db)]) <$>
  take 100 (merge_sort newer (filter (λ m, m_room_id m = room_id) (messages db))).

Definition sql_set_membership (username : string) (room_id : Z) (node_id : string) (db : Db)
    : string + (Z * Db) :=
  if foreign_keys db
     && (negb (bool_decide (username ∈ u_username <$> users db))
         || negb (bool_decide (room_id ∈ r_id <$> rooms db))) then inl FOREIGN_KEY
  else inr (1%Z, set_membership
              (filter (λ m, ¬ (mb_username m = username ∧ mb_room_id m = room_id)) (membership db)
               ++ [mkMembershipRow username room_id node_id]) db).

Definition delete_membership (P : MembershipRow → Prop) `{∀ m, Decision (P m)} (db : Db)
    : string + (Z * Db) :=
  let rest := filter (λ m, ¬ P m) (membership db) in
  inr (removed (membership db) rest, set_membership rest db).
Definition sql_clear_membership (username : string) (room_id : Z) : Db → string + (Z * Db) :=
  delete_membership (λ m, mb_username m = username ∧ mb_room_id m = room_id).
Definition sql_clear_all_membership (username : string) : Db → string + (Z * Db) :=
  delete_membership (λ m, mb_username m = username).

Definition sql_move_membership (node_id username : string) (db : Db) : string + (Z * Db) :=
  inr (Z.of_nat (length (filter (λ m, mb_username m = username) (membership db))),
       set_membership ((λ m, if bool_decide (mb_username m = username)
                             then mkMembershipRow (mb_username m) (mb_room_id m) node_id
                             else m) <$> membership db) db).
Definition sql_membership_node (username : string) (room_id : Z) (db : Db) : list SqlRow :=
  (λ m, [text (mb_node_id m)]) <$>
  take 1 (filter (λ m, mb_username m = username ∧ mb_room_id m = room_id) (membership db)).

Definition sql_is_user_online (username : string) (db : Db) : list SqlRow :=
  (λ _, ["1"]) <$> take 1 (filter (λ o, on_username o = username) (online_users db)).
Definition sql_get_online_node (username : string) (db : Db) : list SqlRow :=
  (λ o, [text (on_node_id o)]) <$>
  take 1 (filter (λ o, on_username o = username) (online_users db)).
Definition sql_set_online (username node_id : string) (db : Db) : string + (Z * Db) :=
  inr (1%Z, set_online_users
        (filter (λ o, on_username o ≠ username) (online_users db) ++ [mkOnlineRow username node_id]) db).
Definition sql_clear_online (username : string) (db : Db) : string + (Z * Db) :=
  let rest := filter (λ o, on_username o ≠ username) (online_users db) in
  inr (removed (online_users db) rest, set_online_users rest db).
Definition sql_clear_node_presence (node_id : string) (db : Db) : string + (Z * Db) :=
  let rest := filter (λ o, on_node_id o ≠ node_id) (online_users db) in
  inr (removed (online_users db) rest, set_online_users rest db).

Definition room_row (r : RoomRow) : SqlRow :=
  [to_string (r_id r); text (r_name r); text (r_type r); text (r_privacy r)].
Definition sql_create_room (name type privacy : string) (db : Db) : string + (Z * Db) :=
  if bool_decide (name ∈ r_name <$> rooms db) then inl (UNIQUE "rooms.name")
  else
    let id := (sqlite_sequence db + 1)%Z in
    inr (1%Z, set_rooms (rooms db ++ [mkRoomRow id name type privacy]) id db).
Definition sql_get_room (id : Z) (db : Db) : list SqlRow :=
  room_row <$> filter (λ r, r_id r = id) (rooms db).
Definition sql_list_rooms (db : Db) : list SqlRow := room_row <$> rooms db.

(** the four statements of delete_room.sql *)
Definition sql_delete_room_allow (id : Z) (db : Db) : string + (Z * Db) :=
  let rest := filter (λ a, al_room_id a ≠ id) (allow_list db) in
  inr (removed (allow_list db) rest, set_allow_list rest db).
Definition sql_delete_room_membership (id : Z) : Db → string + (Z * Db) :=
  delete_membership (λ m, mb_room_id m = id).
Definition sql_delete_room_messages (id : Z) (db : Db) : string + (Z * Db) :=
  let rest := filter (λ m, m_room_id m ≠ id) (messages db) in
  inr (removed (messages db) rest, set_messages rest db).
Definition sql_delete_room_rooms (id : Z) (db : Db) : string + (Z * Db) :=
  let rest := filter (λ r, r_id r ≠ id) (rooms db) in
  if foreign_keys db && bool_decide (id ∈ r_id <$> rooms db)
     && (bool_decide (id ∈ al_room_id <$> allow_list db)
         || bool_decide (id ∈ mb_room_id <$> membership db)
         || bool_decide (id ∈ m_room_id <$> messages db))
  then inl FOREIGN_KEY
  else inr (removed (rooms db) rest, set_rooms rest (sqlite_sequence db) db).

Definition sql_get_allow_list (room_id : Z) (db : Db) : list SqlRow :=
  (λ a, [text (al_email a)]) <$> filter (λ a, al_room_id a = room_id) (allow_list db).
Definition sql_is_allowed (room_id : Z) (email : string) (db : Db) : list SqlRow :=
  (λ _, ["1"]) <$> filter (λ a, al_room_id a = room_id ∧ al_email a = email) (allow_list db).
Definition sql_is_allow_list_creator (room_id : Z) (email : string) (db : Db) : list SqlRow :=
  (λ _, ["1"]) <$>
  filter (λ a, al_room_id a = room_id ∧ al_email a = email ∧ al_creator a = true) (allow_list db).
Definition sql_add_user_allow_list (room_id : Z) (email : string) (creator : bool) (db : Db)
    : string + (Z * Db) :=
  if bool_decide ((room_id, email) ∈ (λ a, (al_room_id a, al_email a)) <$> allow_list db)
  then inr (0%Z, db)
  else if foreign_keys db
          && (negb (bool_decide (room_id ∈ r_id <$> rooms db))
              || negb (bool_decide (email ∈ u_email <$> users db))) then inl FOREIGN_KEY
  else inr (1%Z, set_allow_list (allow_list db ++ [mkAllowRow room_id email creator]) db).
Definition sql_remove_user_allow_list (room_id : Z) (email : string) (db : Db)
    : string + (Z * Db) :=
  let rest := filter (λ a, ¬ (al_room_id a = room_id ∧ al_email a = email)) (allow_list db) in
  inr (removed (allow_list db) rest, set_allow_list rest db).

(** ** The operations *)

Definition userFromRow (row : SqlRow) : SE Db User.t :=
  match row with
  | c0 :: c1 :: c2 :: _ => mret (User.User c0 c1 (User.stringToType c2))
  | _ => throw (RuntimeError "users row is missing columns")
  end.

Definition roomFromRow (row : SqlRow) : SE Db Room.t :=
  match row with
  | c0 :: c1 :: c2 :: c3 :: _ =>
      match stoi c0 with
      | None => throw (RuntimeError "invalid rooms.id value")
      | Some id => mret (Room.Room id c1 (Room.stringToRoomType c2) (Room.stringToPrivacy c3))
      end
  | _ => throw (RuntimeError "rooms row is missing columns")
  end.

Definition messageFromRow (row : SqlRow) : SE Db Message.t :=
  match row with
  | c0 :: c1 :: c2 :: c3 :: c4 :: c5 :: _ =>
      match stoll c3 with
      | None => throw (RuntimeError "invalid messages.created_at value")
      | Some createdAt =>
          let from := User.User c1 c4 (User.stringToType c5) in
          let to := User.User "" "" User.GUEST in
          mret (Message.Message from to c2 createdAt c0)
      end
  | _ => throw (RuntimeError "messages row is missing columns")
  end.

(** the conversion loop of the list-valued queries *)
Fixpoint from_rows {A} (conv : SqlRow → SE Db A) (rows : list SqlRow) : SE Db (list A) :=
  match rows with
  | [] => mret []
  | row :: rows => x ← conv row; l ← from_rows conv rows; mret (x :: l)
  end.

Definition getUser (username : string) : SE Db (option User.t) :=
  rows ← query (sql_get_user username);
  match rows with
  | [] => mret None
  | row :: _ => u ← userFromRow row; mret (Some u)
  end.

Definition userExists (username : string) : SE Db bool :=
  rows ← query (sql_user_exists username);
  mret (negb (bool_decide (rows = []))).

Definition createUser (username passwordHash email : string) : SE Db User.t :=
  let userType := User.typeToString User.USER in
  try_catch (execute (sql_create_user username email passwordHash userType) ;; mret tt)
    (λ e, match e with
          | ConstraintError _ => throw (ConstraintError "User already exists")
          | _ => throw e
          end) ;;
  mret (User.User username email User.USER).

(** [Authentication::hashPassword] with the salt of the moment *)
Definition hash_now (password : string) : SE Db string := λ db,
  (hashPassword (env_salt (statements db)) password, db).

Definition update_user_sql (desired current : string) : SE Db unit :=
  execute (sql_update_user_users desired current) ;;
  execute (sql_update_user_membership desired current) ;;
  execute (sql_update_user_online desired current) ;;
  execute (sql_update_user_messages desired current) ;;
  mret tt.

Definition updateUser (currentUsername newUsername newPassword email : string)
    : SE Db User.t :=
  existing ← getUser currentUsername;
  match existing with
  | None => throw (RuntimeError "User not found")
  | Some existing =>
      if negb (String.eqb (User.email existing) email)
      then throw (RuntimeError "Email does not match profile")
      else
        let current := currentUsername in
        let desired := newUsername in
        if is_empty desired then throw (RuntimeError "Username is required")
        else
          taken ← (if negb (String.eqb desired current) then userExists desired else mret false);
          if (taken : bool) then throw (ConstraintError "Username already taken")
          else
            when (negb (is_empty newPassword))
              (passwordHash ← hash_now newPassword;
               execute (sql_update_user_password passwordHash current) ;; mret tt) ;;
            when (negb (String.eqb desired current))
              (pragma_foreign_keys false ;;
               try_catch (update_user_sql desired current)
                 (λ e, pragma_foreign_keys true ;; throw e) ;;
               pragma_foreign_keys true) ;;
            updated ← getUser desired;
            match updated with
            | None => throw (RuntimeError "User missing after update")
            | Some u => mret u
            end
  end.

(** [variant<User, string>] *)
Definition loginUser (username password : string) : SE Db (User.t + string) :=
  let kAuthFailed := "Invalid username or password" in
  rows ← query (sql_login_user username);
  match rows with
  | [] => mret (inr kAuthFailed)
  | row :: _ =>
      if (length row <? 4)%nat then mret (inr kAuthFailed)
      else if negb (checkPassword password (default "" (row !! 3))) then mret (inr kAuthFailed)
      else u ← userFromRow row; mret (inl u)
  end.

Definition saveMessage (message : Message.t) (roomId : Z) : SE Db bool :=
  let from := Message.from message in
  changes ← execute (sql_save_message (Message.id message) roomId (User.username from)
                       (User.email from) (Message.content message)
                       (Message.timestamp message) NODE_ID);
  mret (0 <? changes)%Z.

Definition loadHistory (roomId : Z) : SE Db (list Message.t) :=
  rows ← query (sql_load_history roomId);
  from_rows messageFromRow rows.

Definition setMembership (username : string) (roomId : Z) (nodeId : string) : SE Db unit :=
  execute (sql_set_membership username roomId nodeId) ;; mret tt.
Definition clearMembership (username : string) (roomId : Z) : SE Db unit :=
  execute (sql_clear_membership username roomId) ;; mret tt.
Definition isUserOnline (username : string) : SE Db bool :=
  rows ← query (sql_is_user_online username);
  mret (negb (bool_decide (rows = []))).

(** the first column of the first row *)
Definition first_cell (rows : list SqlRow) : option string :=
  match rows with (c :: _) :: _ => Some c | _ => None end.
Definition onlineNode (username : string) : SE Db (option string) :=
  rows ← query (sql_get_online_node username);
  mret (first_cell rows).
Definition setOnline (username nodeId : string) : SE Db unit :=
  execute (sql_set_online username nodeId) ;; mret tt.
Definition clearOnline (username : string) : SE Db unit :=
  execute (sql_clear_online username) ;; mret tt.
Definition clearNodePresence (nodeId : string) : SE Db unit :=
  execute (sql_clear_node_presence nodeId) ;; mret tt.
Definition canClaimPresence (username : string) (ownerIsLive : bool) : SE Db bool :=
  owner ← onlineNode username;
  match owner with
  | None => mret false
  | Some _ => mret (negb ownerIsLive)
  end.
Definition moveMembership (username nodeId : string) : SE Db unit :=
  execute (sql_move_membership nodeId username) ;; mret tt.
Definition membershipNode (username : string) (roomId : Z) : SE Db (option string) :=
  rows ← query (sql_membership_node username roomId);
  mret (first_cell rows).
Definition clearAllMembership (username : string) : SE Db unit :=
  execute (sql_clear_all_membership username) ;; mret tt.

Definition addToAllowList (roomId : Z) (email : string) (creator : bool) : SE Db unit :=
  execute (sql_add_user_allow_list roomId email creator) ;; mret tt.

(** the statement of [createRoom] and the id of the new room *)
Definition insert_room (f : Db → string + (Z * Db)) : SE Db Z :=
  try_catch (run_statement (fault_text "Failed to create room: ") f ;; mret tt)
    (λ e, match e with ConstraintError _ => throw (ConstraintError "Room already exists") | _ => throw e end) ;;
  gets (λ db, as_int (sqlite_sequence db)).
Definition createRoom (name : string) (type : Room.RoomType) (privacy : Room.Privacy)
    (creatorEmail : string) : SE Db Room.t :=
  id ← insert_room (sql_create_room name (Room.roomTypeToString type) (Room.privacyToString privacy));
  let created := Room.Room id name type privacy in
  when (negb (is_empty creatorEmail)) (addToAllowList id creatorEmail true) ;;
  mret created.

Definition getRoom (id : Z) : SE Db Room.t :=
  rows ← query (sql_get_room id);
  match rows with
  | [] => throw (RuntimeError "Room not found")
  | row :: _ => roomFromRow row
  end.

Definition listRooms : SE Db (list Room.t) :=
  rows ← query sql_list_rooms;
  from_rows roomFromRow rows.

Definition ping : SE Db bool :=
  try_catch (query (λ _, [["1"]]) ;; mret true) (λ _, mret false).

Definition deleteRoom (id : Z) : SE Db unit :=
  if (id <? 3)%Z then throw (RuntimeError "Cannot delete default rooms")
  else
    execute (sql_delete_room_allow id) ;;
    execute (sql_delete_room_membership id) ;;
    execute (sql_delete_room_messages id) ;;
    changes ← execute (sql_delete_room_rooms id);
    if (changes =? 0)%Z then throw (ConstraintError "Room not found") else mret tt.

Definition getAllowList (roomId : Z) : SE Db (list string) :=
  rows ← query (sql_get_allow_list roomId);
  mret (omap (λ row, head row) rows).
Definition isAllowed (roomId : Z) (email : string) : SE Db bool :=
  rows ← query (sql_is_allowed roomId email);
  mret (negb (bool_decide (rows = []))).
Definition isAllowListCreator (roomId : Z) (email : string) : SE Db bool :=
  rows ← query (sql_is_allow_list_creator roomId email);
  mret (negb (bool_decide (rows = []))).
Definition removeFromAllowList (roomId : Z) (email : string) : SE Db unit :=
  execute (sql_remove_user_allow_list roomId email) ;; mret tt.

End with_env.

(** * Invariants *)

(** every table's primary key and UNIQUE columns; room ids never exceed the sequence *)
Record keys (db : Db) : Prop := {
  k_username : NoDup (u_username <$> users db);
  k_email : NoDup (u_email <$> users db);
  k_room_id : NoDup (r_id <$> rooms db);
  k_room_name : NoDup (r_name <$> rooms db);
  k_message : NoDup (m_id <$> messages db);
  k_membership : NoDup ((λ m, (mb_username m, mb_room_id m)) <$> membership db);
  k_online : NoDup (on_username <$> online_users db);
  k_allow : NoDup ((λ a, (al_room_id a, al_email a)) <$> allow_list db);
  k_sequence : ∀ i, i ∈ r_id <$> rooms db → (1 <= i <= sqlite_sequence db)%Z;
  k_sequence_min : (2 <= sqlite_sequence db)%Z
}.

(** every foreign key points at a row *)
Record refs (db : Db) : Prop := {
  f_message : ∀ m, m ∈ messages db →
    m_room_id m ∈ r_id <$> rooms db ∧ m_sender_email m ∈ u_email <$> users db;
  f_member_user : ∀ m, m ∈ membership db → mb_username m ∈ u_username <$> users db;
  f_member_room : ∀ m, m ∈ membership db → mb_room_id m ∈ r_id <$> rooms db;
  f_allow : ∀ a, a ∈ allow_list db →
    al_room_id a ∈ r_id <$> rooms db ∧ al_email a ∈ u_email <$> users db
}.

Definition db_wf (db : Db) : Prop := keys db ∧ refs db ∧ foreign_keys db = true.

(** * Lemmas *)

(** ** Lists *)

Lemma NoDup_fmap_filter {A B} (f : A → B) (P : A → Prop) `{∀ x, Decision (P x)} (l : list A) :
  NoDup (f <$> l) → NoDup (f <$> filter P l).
Proof. intros Hl. eapply sublist_NoDup; [exact Hl|]. apply fmap_sublist, sublist_filter. Qed.

Lemma NoDup_fmap_snoc {A B} (f : A → B) (l : list A) x :
  NoDup (f <$> l) → f x ∉ f <$> l → NoDup (f <$> l ++ [x]).
Proof.
  intros Hl Hx. rewrite fmap_app. apply NoDup_app. split_and!; [done| |apply NoDup_singleton].
  intros y Hy Hy'. apply list_elem_of_singleton in Hy' as ->. done.
Qed.

Lemma elem_of_fmap_filter {A B} (f : A → B) (P : A → Prop) `{∀ x, Decision (P x)} (l : list A) y :
  y ∈ f <$> filter P l → y ∈ f <$> l.
Proof.
  intros (x & -> & [_ Hx]%list_elem_of_filter)%list_elem_of_fmap.
  by apply list_elem_of_fmap_2.
Qed.

Lemma filter_none {A} (P : A → Prop) `{∀ x, Decision (P x)} (l : list A) :
  (∀ x, x ∈ l → ¬ P x) → filter P l = [].
Proof.
  induction l as [|x l IH]; intros Hl; [done|].
  rewrite filter_cons_False by (apply Hl; set_solver). apply IH. set_solver.
Qed.

Lemma filter_fmap_key {A B} (f : A → B) (l : list A) x `{∀ y, Decision (f y = f x)} :
  NoDup (f <$> l) → x ∈ l → filter (λ y, f y = f x) l = [x].
Proof.
  intros Hl Hx. induction l as [|y l IH]; [by apply not_elem_of_nil in Hx|].
  rewrite fmap_cons, NoDup_cons in Hl. destruct Hl as [Hy Hl].
  apply elem_of_cons in Hx as [->|Hx].
  - rewrite filter_cons_True by done. f_equal. apply filter_none.
    intros z Hz Heq. apply Hy. rewrite <-Heq. by apply list_elem_of_fmap_2.
  - rewrite filter_cons_False; [by apply IH|]. intros Heq. apply Hy. rewrite Heq.
    by apply list_elem_of_fmap_2.
Qed.

(** a map that keeps a key keeps the keys *)
Lemma fmap_key_ext {A B} (f : A → B) (g : A → A) (l : list A) :
  (∀ x, f (g x) = f x) → f <$> (g <$> l) = f <$> l.
Proof. intros H. rewrite <-list_fmap_compose. apply list_fmap_ext. intros. apply H. Qed.

(** ** The invariant, statement by statement *)

(** the fields [keys] and [refs] read; neither sees the statement counter *)
Lemma keys_next db : keys db → keys (next_statement db).
Proof. intros []. by constructor. Qed.
Lemma refs_next db : refs db → refs (next_statement db).
Proof. intros []. by constructor. Qed.
Lemma db_wf_next db : db_wf db → db_wf (next_statement db).
Proof. intros (? & ? & ?). split_and!; [by apply keys_next|by apply refs_next|done]. Qed.

(** the guards of a statement as propositions *)
Ltac guards :=
  repeat match goal with
  | H : negb _ = false |- _ => apply negb_false_iff in H
  | H : negb _ = true |- _ => apply negb_true_iff in H
  | H : bool_decide _ = true |- _ => apply bool_decide_eq_true in H
  | H : bool_decide _ = false |- _ => apply bool_decide_eq_false in H
  | H : _ || _ = false |- _ => apply orb_false_iff in H as [? ?]
  | H : foreign_keys ?db = true, H' : context [foreign_keys ?db] |- _ =>
      rewrite H in H'; cbn [andb] in H'
  end.

Section with_env2.
Context {env : DbEnv}.

Lemma preserves_execute I ex f :
  (∀ db, I db → I (next_statement db)) →
  (∀ db n db', I db → f db = inr (n, db') → I db') → preserves I (run_statement ex f).
Proof.
  intros Hn Hf db Hdb. specialize (Hn db Hdb). unfold run_state, run_out, run_statement.
  destruct (env_db _); [done|]. destruct (f _) as [?|[n db']] eqn:E; [done|]. exact (Hf _ _ _ Hn E).
Qed.
Lemma preserves_query I f :
  (∀ db, I db → I (next_statement db)) → preserves I (query f).
Proof.
  intros Hn db Hdb. specialize (Hn db Hdb). unfold run_state, run_out, query.
  by destruct (env_db _).
Qed.

Lemma keys_query f : preserves keys (query f).
Proof. apply preserves_query, keys_next. Qed.
Lemma db_wf_query f : preserves db_wf (query f).
Proof. apply preserves_query, db_wf_next. Qed.

(** a statement that keeps [keys], [refs] (with foreign keys on) and the pragma *)
Definition stmt_ok (f : Db → string + (Z * Db)) : Prop :=
  ∀ db n db', f db = inr (n, db') →
    foreign_keys db' = foreign_keys db ∧ (keys db → keys db') ∧
    (foreign_keys db = true → keys db → refs db → refs db').

Lemma stmt_ok_keys ex f : stmt_ok f → preserves keys (run_statement ex f).
Proof.
  intros H. apply preserves_execute; [apply keys_next|]. intros db n db' Hk Hf.
  by apply (H _ _ _ Hf).
Qed.
Lemma stmt_ok_wf ex f : stmt_ok f → preserves db_wf (run_statement ex f).
Proof.
  intros H. apply preserves_execute; [apply db_wf_next|]. intros db n db' (Hk & Hr & Hfk) Hf.
  destruct (H _ _ _ Hf) as (Hfk' & Hk' & Hr'). split_and!; [auto..|congruence].
Qed.

(** uses a referential fact about the row at hand *)
Ltac use_refs x Hx :=
  repeat match goal with H : ∀ y, y ∈ _ → _ |- _ => specialize (H x) end; set_solver.

(** opens a [stmt_ok] goal on the successful branch and discharges the tables the
    statement leaves alone, inserts into or deletes from *)
Ltac stmt_start :=
  intros db n db' Hf; repeat case_match; simplify_eq; try discriminate;
  (split; [reflexivity|split; [intros []|intros Hfk [] []]]); guards; constructor; simpl;
  eauto using NoDup_fmap_filter, NoDup_fmap_snoc.
Ltac refs_row :=
  let x := fresh "x" in let Hx := fresh "Hx" in
  rewrite ?fmap_app; intros x Hx;
  rewrite ?elem_of_app, ?list_elem_of_singleton, ?list_elem_of_filter in Hx; destruct_or?; simplify_eq/=;
  try use_refs x Hx.

Lemma ok_create_user u e p ty : stmt_ok (sql_create_user u e p ty).
Proof. unfold sql_create_user. stmt_start; refs_row. Qed.

Lemma ok_update_password p u : stmt_ok (sql_update_user_password p u).
Proof.
  unfold sql_update_user_password.
  assert (∀ l : list UserRow,
    let l' := (λ u', if bool_decide (u_username u' = u)
              then mkUserRow (u_username u') (u_email u') p (u_type u') else u') <$> l in
    u_username <$> l' = u_username <$> l ∧ u_email <$> l' = u_email <$> l) as Hl.
  { intros l; split; apply fmap_key_ext; intros x; by case_bool_decide. }
  intros db n db' Hf; simplify_eq. destruct (Hl (users db)) as [Hu He].
  split; [done|]. split; [intros []|intros _ [] []]; constructor; simpl; rewrite ?Hu, ?He; done.
Qed.

Lemma ok_save_message i r u e c t o : stmt_ok (sql_save_message i r u e c t o).
Proof. unfold sql_save_message. stmt_start; refs_row. Qed.

Lemma ok_set_membership u r n0 : stmt_ok (sql_set_membership u r n0).
Proof.
  unfold sql_set_membership. stmt_start; try refs_row.
  all: apply NoDup_fmap_snoc; [by apply NoDup_fmap_filter|].
  all: intros (m & [= -> ->] & [Hm _]%list_elem_of_filter)%list_elem_of_fmap; by apply Hm.
Qed.

Lemma ok_delete_membership P `{∀ m, Decision (P m)} : stmt_ok (delete_membership P).
Proof. unfold delete_membership. stmt_start; refs_row. Qed.

Lemma ok_move_membership n0 u : stmt_ok (sql_move_membership n0 u).
Proof.
  unfold sql_move_membership.
  set (g := λ m : MembershipRow, if bool_decide (mb_username m = u)
              then mkMembershipRow (mb_username m) (mb_room_id m) n0 else m).
  assert (∀ m, mb_username (g m) = mb_username m ∧ mb_room_id (g m) = mb_room_id m) as Hg.
  { intros m. unfold g. by case_bool_decide. }
  intros db n db' Hf; simplify_eq. split; [done|].
  split; [intros []|intros _ [] []]; constructor; simpl; try done.
  - rewrite fmap_key_ext; [done|]. intros m. by destruct (Hg m) as [-> ->].
  - intros ? (m & -> & Hm)%list_elem_of_fmap. destruct (Hg m) as [-> _]. auto.
  - intros ? (m & -> & Hm)%list_elem_of_fmap. destruct (Hg m) as [_ ->]. auto.
Qed.

Lemma ok_set_online u n0 : stmt_ok (sql_set_online u n0).
Proof.
  unfold sql_set_online. stmt_start. apply NoDup_fmap_snoc; [by apply NoDup_fmap_filter|].
  intros (m & Heq & [Hm _]%list_elem_of_filter)%list_elem_of_fmap. by apply Hm.
Qed.
Lemma ok_clear_online u : stmt_ok (sql_clear_online u).
Proof. unfold sql_clear_online. stmt_start. Qed.
Lemma ok_clear_node_presence n0 : stmt_ok (sql_clear_node_presence n0).
Proof. unfold sql_clear_node_presence. stmt_start. Qed.

Lemma ok_create_room nm ty pr : stmt_ok (sql_create_room nm ty pr).
Proof.
  unfold sql_create_room. stmt_start; try refs_row.
  all: try (apply NoDup_fmap_snoc; [done|]; intros Hin%k_sequence0; simpl in Hin; lia).
  - apply k_sequence0 in Hx. lia.
  - apply list_elem_of_singleton in Hx. simpl in Hx. lia.
  - lia.
Qed.

Lemma ok_delete_room_allow i : stmt_ok (sql_delete_room_allow i).
Proof. unfold sql_delete_room_allow. stmt_start; refs_row. Qed.
Lemma ok_delete_room_messages i : stmt_ok (sql_delete_room_messages i).
Proof. unfold sql_delete_room_messages. stmt_start; refs_row. Qed.
Lemma ok_add_allow r e c : stmt_ok (sql_add_user_allow_list r e c).
Proof. unfold sql_add_user_allow_list. stmt_start; refs_row. Qed.
Lemma ok_remove_allow r e : stmt_ok (sql_remove_user_allow_list r e).
Proof. unfold sql_remove_user_allow_list. stmt_start; refs_row. Qed.

Lemma ok_delete_room_rooms i : stmt_ok (sql_delete_room_rooms i).
Proof.
  intros db n db' Hf. unfold sql_delete_room_rooms in Hf.
  destruct (_ && _) eqn:Hg; [done|]. simplify_eq/=. split; [done|].
  split; [intros []; constructor; simpl; eauto using NoDup_fmap_filter|].
  { intros j Hj%elem_of_fmap_filter. auto. }
  intros Hfk _ []. rewrite Hfk in Hg. cbn [andb] in Hg.
  assert (∀ j, j ∈ r_id <$> rooms db →
    (j = i → i ∉ al_room_id <$> allow_list db ∧ i ∉ mb_room_id <$> membership db ∧
             i ∉ m_room_id <$> messages db → False) →
    j ∈ r_id <$> filter (λ r, r_id r ≠ i) (rooms db)) as Hin.
  { intros j (r & -> & Hr)%list_elem_of_fmap Hne. apply list_elem_of_fmap_2, list_elem_of_filter.
    split; [|done]. intros Heq. rewrite (bool_decide_eq_true_2 (i ∈ r_id <$> _)) in Hg
      by (rewrite <-Heq; by apply list_elem_of_fmap_2).
    cbn [andb] in Hg. guards. by apply Hne. }
  constructor; simpl; intros x Hx.
  - destruct (f_message0 x Hx). split; [|done]. apply Hin; [done|].
    intros <- (_ & _ & Hno). by apply Hno, list_elem_of_fmap_2.
  - by apply f_member_user0.
  - apply Hin; [by apply f_member_room0|]. intros <- (_ & Hno & _). by apply Hno, list_elem_of_fmap_2.
  - destruct (f_allow0 x Hx). split; [|done]. apply Hin; [done|].
    intros <- (Hno & _ & _). by apply Hno, list_elem_of_fmap_2.
Qed.

(** ** The rename statements *)

Lemma keys_update_users d c : preserves keys (execute (sql_update_user_users d c)).
Proof.
  apply preserves_execute; [apply keys_next|]. intros db n db' [] Hf.
  unfold sql_update_user_users in Hf. repeat case_match; simplify_eq. guards.
  constructor; simpl; try done. rewrite fmap_key_ext; [done|].
  intros x. unfold rename_user. by destruct (bool_decide (u_username x = c)).
Qed.
Lemma keys_update_membership d c : preserves keys (execute (sql_update_user_membership d c)).
Proof.
  apply preserves_execute; [apply keys_next|]. intros db n db' [] Hf.
  unfold sql_update_user_membership in Hf. repeat case_match; simplify_eq. guards. by constructor.
Qed.
Lemma keys_update_online d c : preserves keys (execute (sql_update_user_online d c)).
Proof.
  apply preserves_execute; [apply keys_next|]. intros db n db' [] Hf.
  unfold sql_update_user_online in Hf. repeat case_match; simplify_eq. guards. by constructor.
Qed.
Lemma keys_update_messages d c : preserves keys (execute (sql_update_user_messages d c)).
Proof.
  apply preserves_execute; [apply keys_next|]. intros db n db' [] Hf.
  unfold sql_update_user_messages in Hf. simplify_eq. constructor; simpl; try done.
  rewrite fmap_key_ext; [done|]. intros x. unfold rename_message. by destruct (bool_decide (m_sender_username x = c)).
Qed.
Lemma keys_pragma v : preserves keys (pragma_foreign_keys v).
Proof.
  unfold pragma_foreign_keys. apply preserves_bind; [|intros; apply preserves_ret].
  apply preserves_execute; [apply keys_next|]. intros db n db' [] Hf. simplify_eq. by constructor.
Qed.

Lemma preserves_from_rows {A} I (conv : SqlRow → SE Db A) rows :
  (∀ r, preserves I (conv r)) → preserves I (from_rows conv rows).
Proof. intros H. induction rows; simpl; solve_pres; eauto. Qed.
Lemma preserves_userFromRow I r : preserves I (userFromRow r).
Proof. unfold userFromRow. solve_pres. Qed.
Lemma preserves_roomFromRow I r : preserves I (roomFromRow r).
Proof. unfold roomFromRow. solve_pres. Qed.
Lemma preserves_messageFromRow I r : preserves I (messageFromRow r).
Proof. unfold messageFromRow. solve_pres. Qed.
Lemma preserves_hash_now I p : preserves I (hash_now p).
Proof. by intros db Hdb. Qed.

End with_env2.

#[export] Hint Resolve ok_create_user ok_update_password ok_save_message ok_set_membership
  ok_delete_membership ok_move_membership ok_set_online ok_clear_online
  ok_clear_node_presence ok_create_room ok_delete_room_allow ok_delete_room_messages
  ok_add_allow ok_remove_allow ok_delete_room_rooms stmt_ok_keys stmt_ok_wf keys_query
  db_wf_query keys_update_users keys_update_membership keys_update_online
  keys_update_messages keys_pragma preserves_from_rows preserves_userFromRow
  preserves_roomFromRow preserves_messageFromRow preserves_hash_now : pres.

(** ** Operations that leave the rooms table alone *)

Section rooms_kept.
Context {env : DbEnv}.

(** the rooms table and its sequence are [R] and [q] *)
Definition rooms_are (R : list RoomRow) (q : Z) (db : Db) : Prop :=
  rooms db = R ∧ sqlite_sequence db = q.

Definition stmt_keeps_rooms (f : Db → string + (Z * Db)) : Prop :=
  ∀ db n db', f db = inr (n, db') →
    rooms db' = rooms db ∧ sqlite_sequence db' = sqlite_sequence db.

Lemma keeps_rooms_execute R q ex f : stmt_keeps_rooms f → preserves (rooms_are R q) (run_statement ex f).
Proof.
  intros H. apply preserves_execute; [done|]. intros db n db' [<- <-] Hf. by apply (H _ _ _ Hf).
Qed.
Lemma keeps_rooms_query R q f : preserves (rooms_are R q) (query f).
Proof. by apply preserves_query. Qed.
End rooms_kept.

Ltac keeps_rooms := intros ? ? ? ?; repeat case_match; simplify_eq; done.

Lemma kr_create_user u e p t : stmt_keeps_rooms (sql_create_user u e p t).
Proof. unfold sql_create_user. keeps_rooms. Qed.
Lemma kr_update_password p u : stmt_keeps_rooms (sql_update_user_password p u).
Proof. unfold sql_update_user_password. keeps_rooms. Qed.
Lemma kr_update_users d c : stmt_keeps_rooms (sql_update_user_users d c).
Proof. unfold sql_update_user_users. keeps_rooms. Qed.
Lemma kr_update_membership d c : stmt_keeps_rooms (sql_update_user_membership d c).
Proof. unfold sql_update_user_membership. keeps_rooms. Qed.
Lemma kr_update_online d c : stmt_keeps_rooms (sql_update_user_online d c).
Proof. unfold sql_update_user_online. keeps_rooms. Qed.
Lemma kr_update_messages d c : stmt_keeps_rooms (sql_update_user_messages d c).
Proof. unfold sql_update_user_messages. keeps_rooms. Qed.
Lemma kr_save_message i r u e c t o : stmt_keeps_rooms (sql_save_message i r u e c t o).
Proof. unfold sql_save_message. keeps_rooms. Qed.
Lemma kr_set_membership u r n : stmt_keeps_rooms (sql_set_membership u r n).
Proof. unfold sql_set_membership. keeps_rooms. Qed.
Lemma kr_delete_membership P `{∀ m, Decision (P m)} : stmt_keeps_rooms (delete_membership P).
Proof. unfold delete_membership. keeps_rooms. Qed.
Lemma kr_move_membership n u : stmt_keeps_rooms (sql_move_membership n u).
Proof. unfold sql_move_membership. keeps_rooms. Qed.
Lemma kr_set_online u n : stmt_keeps_rooms (sql_set_online u n).
Proof. unfold sql_set_online. keeps_rooms. Qed.
Lemma kr_clear_online u : stmt_keeps_rooms (sql_clear_online u).
Proof. unfold sql_clear_online. keeps_rooms. Qed.
Lemma kr_clear_node n : stmt_keeps_rooms (sql_clear_node_presence n).
Proof. unfold sql_clear_node_presence. keeps_rooms. Qed.
Lemma kr_add_allow r e c : stmt_keeps_rooms (sql_add_user_allow_list r e c).
Proof. unfold sql_add_user_allow_list. keeps_rooms. Qed.
Lemma kr_remove_allow r e : stmt_keeps_rooms (sql_remove_user_allow_list r e).
Proof. unfold sql_remove_user_allow_list. keeps_rooms. Qed.
Lemma kr_pragma v : stmt_keeps_rooms (λ db, inr (0%Z, set_foreign_keys v db)).
Proof. keeps_rooms. Qed.

#[export] Hint Resolve keeps_rooms_execute keeps_rooms_query kr_create_user kr_update_password
  kr_update_users kr_update_membership kr_update_online kr_update_messages kr_save_message
  kr_set_membership kr_delete_membership kr_move_membership kr_set_online kr_clear_online
  kr_clear_node kr_add_allow kr_remove_allow kr_pragma : pres.

(** ** The operations *)

(** every operation of the class that writes, as one type *)
Inductive DbOp :=
  | OpCreateUser (username passwordHash email : string)
  | OpUpdateUser (current desired password email : string)
  | OpSaveMessage (message : Message.t) (roomId : Z)
  | OpSetMembership (username : string) (roomId : Z) (nodeId : string)
  | OpClearMembership (username : string) (roomId : Z)
  | OpClearAllMembership (username : string)
  | OpMoveMembership (username nodeId : string)
  | OpSetOnline (username nodeId : string)
  | OpClearOnline (username : string)
  | OpClearNodePresence (nodeId : string)
  | OpCreateRoom (name : string) (type : Room.RoomType) (privacy : Room.Privacy) (creator : string)
  | OpDeleteRoom (id : Z)
  | OpAddToAllowList (roomId : Z) (email : string) (creator : bool)
  | OpRemoveFromAllowList (roomId : Z) (email : string).

Definition run_op {env : DbEnv} (op : DbOp) : SE Db unit :=
  match op with
  | OpCreateUser u p e => createUser u p e ;; mret tt
  | OpUpdateUser c d p e => updateUser c d p e ;; mret tt
  | OpSaveMessage m r => saveMessage m r ;; mret tt
  | OpSetMembership u r n => setMembership u r n
  | OpClearMembership u r => clearMembership u r
  | OpClearAllMembership u => clearAllMembership u
  | OpMoveMembership u n => moveMembership u n
  | OpSetOnline u n => setOnline u n
  | OpClearOnline u => clearOnline u
  | OpClearNodePresence n => clearNodePresence n
  | OpCreateRoom nm t p c => createRoom nm t p c ;; mret tt
  | OpDeleteRoom i => deleteRoom i
  | OpAddToAllowList r e c => addToAllowList r e c
  | OpRemoveFromAllowList r e => removeFromAllowList r e
  end.

Ltac unfold_ops :=
  unfold createUser, updateUser, update_user_sql, saveMessage, setMembership, clearMembership,
    clearAllMembership, moveMembership, setOnline, clearOnline, clearNodePresence, createRoom, insert_room,
    deleteRoom, addToAllowList, removeFromAllowList, getUser, userExists, loginUser, loadHistory,
    isUserOnline, canClaimPresence, onlineNode, membershipNode, getRoom, listRooms, ping,
    getAllowList, isAllowed, isAllowListCreator.

Section operations.
Context {env : DbEnv}.

Lemma run_op_keys op : preserves keys (run_op op).
Proof. destruct op; cbn [run_op]; unfold_ops; solve_pres. Qed.

Lemma run_op_wf op :
  (∀ c d p e, op ≠ OpUpdateUser c d p e) → preserves db_wf (run_op op).
Proof. intros Hop. destruct op; cbn [run_op]; [|by edestruct Hop|..]; unfold_ops; solve_pres. Qed.

Lemma createRoom_wf nm t p c : preserves db_wf (createRoom nm t p c).
Proof. unfold_ops; solve_pres. Qed.
Lemma deleteRoom_wf i : preserves db_wf (deleteRoom i).
Proof. unfold_ops; solve_pres. Qed.
(** deleting never gives an id back *)
Lemma deleteRoom_sequence q i : preserves (λ db, sqlite_sequence db = q) (deleteRoom i).
Proof.
  assert (∀ f, (∀ db n db', f db = inr (n, db') → sqlite_sequence db' = sqlite_sequence db) →
    preserves (λ db, sqlite_sequence db = q) (execute f)) as He.
  { intros f Hf. apply preserves_execute; [done|]. intros db n db' <-. apply Hf. }
  unfold_ops. solve_pres; apply He; intros db n db'.
  - unfold sql_delete_room_allow. by intros [= _ <-].
  - unfold sql_delete_room_membership, delete_membership. by intros [= _ <-].
  - unfold sql_delete_room_messages. by intros [= _ <-].
  - unfold sql_delete_room_rooms. case_match; [done|]. by intros [= _ <-].
Qed.

(** the operations that create or delete no room *)
Definition touches_rooms (op : DbOp) : bool :=
  match op with OpCreateRoom _ _ _ _ | OpDeleteRoom _ => true | _ => false end.

Lemma run_op_rooms R q op : touches_rooms op = false → preserves (rooms_are R q) (run_op op).
Proof.
  destruct op; try done; intros _; cbn [run_op]; unfold_ops; unfold pragma_foreign_keys; solve_pres.
Qed.

End operations.

(** ** Renaming *)

Section rename.
Context {env : DbEnv}.
(** no statement fails for a reason outside the tables *)
Hypothesis no_failure : ∀ n, env_db n = None.

Lemma execute_run ex f db :
  run_statement ex f db = match f (next_statement db) with
                 | inl message => (Throw (ConstraintError message), next_statement db)
                 | inr (changes, db') => (Ok changes, db')
                 end.
Proof using no_failure. unfold run_statement. by rewrite no_failure. Qed.
Lemma query_run f db : query f db = (Ok (f (next_statement db)), next_statement db).
Proof using no_failure. unfold query. by rewrite no_failure. Qed.

(** the references survive when users and memberships are renamed together *)
Lemma refs_renamed d c db db' :
  refs db →
  users db' = rename_user d c <$> users db → rooms db' = rooms db →
  membership db' = rename_member d c <$> membership db → allow_list db' = allow_list db →
  (messages db' = messages db ∨ messages db' = rename_message d c <$> messages db) →
  refs db'.
Proof.
  intros [Hm Hu Hr Ha] Eu Er Emb Eal Em.
  assert (u_email <$> users db' = u_email <$> users db) as Ee.
  { rewrite Eu. apply fmap_key_ext. intros x. unfold rename_user.
    by destruct (bool_decide (u_username x = c)). }
  constructor; rewrite ?Er, ?Ee, ?Emb, ?Eal.
  - destruct Em as [->| ->]; [done|]. intros ? (m & -> & Hin)%list_elem_of_fmap.
    unfold rename_message. destruct (bool_decide (m_sender_username m = c)); simpl; by apply Hm.
  - intros ? (m & -> & Hin)%list_elem_of_fmap. rewrite Eu.
    pose proof (Hu m Hin) as (u & Heq & Hu')%list_elem_of_fmap.
    apply list_elem_of_fmap. exists (rename_user d c u). split; [|by apply list_elem_of_fmap_2].
    unfold rename_member, rename_user. rewrite Heq. by destruct (bool_decide (u_username u = c)).
  - intros ? (m & -> & Hin)%list_elem_of_fmap. unfold rename_member.
    destruct (bool_decide (mb_username m = c)); simpl; by apply Hr.
  - done.
Qed.

Lemma NoDup_fmap_inj {A B} (g : A → B) (l : list A) :
  (∀ x y, x ∈ l → y ∈ l → g x = g y → x = y) → NoDup l → NoDup (g <$> l).
Proof. intros H Hl. by apply NoDup_fmap_2_strong. Qed.

(** nobody has the new name: the renamed keys are still distinct *)
Lemma rename_users_NoDup d c l :
  NoDup (u_username <$> l) → d ∉ u_username <$> l →
  NoDup (u_username <$> (rename_user d c <$> l)).
Proof.
  intros Hl Hd. set (g := λ n : string, if bool_decide (n = c) then d else n).
  assert (u_username <$> (rename_user d c <$> l) = g <$> (u_username <$> l)) as ->.
  { rewrite <-!list_fmap_compose. apply list_fmap_ext. intros _ x _. simpl. unfold rename_user, g.
    by destruct (bool_decide (u_username x = c)). }
  apply NoDup_fmap_inj; [|done]. intros x y Hx Hy. unfold g. repeat case_bool_decide; congruence.
Qed.
Lemma rename_members_NoDup d c l :
  NoDup ((λ m, (mb_username m, mb_room_id m)) <$> l) → (∀ m, m ∈ l → mb_username m ≠ d) →
  NoDup ((λ m, (mb_username m, mb_room_id m)) <$> (rename_member d c <$> l)).
Proof.
  intros Hl Hd. set (k := λ m : MembershipRow, (mb_username m, mb_room_id m)) in *.
  set (g := λ n : string * Z, (if bool_decide (n.1 = c) then d else n.1, n.2)).
  assert (k <$> (rename_member d c <$> l) = g <$> (k <$> l)) as ->.
  { rewrite <-!list_fmap_compose. apply list_fmap_ext. intros _ x _. simpl. unfold rename_member, g, k.
    simpl. by destruct (bool_decide (mb_username x = c)). }
  apply NoDup_fmap_inj; [|done]. intros ? ? (x & -> & Hx)%list_elem_of_fmap (y & -> & Hy)%list_elem_of_fmap.
  apply Hd in Hx, Hy. unfold g, k in *. simpl. intros [= H1 H2]. f_equal; [|done].
  repeat case_bool_decide; congruence.
Qed.

(** what the four statements leave, on both outcomes *)
Definition renamed (d c : string) (online : list OnlineRow) (msgs : list MessageRow)
    (db db' : Db) : Prop :=
  users db' = rename_user d c <$> users db ∧ rooms db' = rooms db ∧
  membership db' = rename_member d c <$> membership db ∧ allow_list db' = allow_list db ∧
  online_users db' = online ∧ messages db' = msgs ∧
  sqlite_sequence db' = sqlite_sequence db ∧ foreign_keys db' = foreign_keys db.

Lemma update_user_sql_run d c db :
  keys db → refs db → foreign_keys db = false → d ∉ u_username <$> users db →
  ∃ db',
    if bool_decide (NoDup (on_username <$> (rename_online d c <$> online_users db)))
    then update_user_sql d c db = (Ok tt, db') ∧
      renamed d c (rename_online d c <$> online_users db) (rename_message d c <$> messages db) db db'
    else update_user_sql d c db = (Throw (ConstraintError (UNIQUE "online_users.username")), db') ∧
      renamed d c (online_users db) (messages db) db db'.
Proof using no_failure.
  intros [] [] Hfk Hd. unfold update_user_sql, mbind, SE_bind.
  rewrite execute_run. unfold sql_update_user_users. simpl.
  rewrite (bool_decide_eq_true_2 (NoDup (u_username <$> _))) by (by apply rename_users_NoDup).
  cbn [negb].
  rewrite Hfk. cbn [andb]. rewrite execute_run. unfold sql_update_user_membership. simpl.
  rewrite (bool_decide_eq_true_2 (NoDup ((λ m, (mb_username m, mb_room_id m)) <$> _))).
  2: { apply rename_members_NoDup; [done|]. intros m Hm Heq. apply Hd. rewrite <-Heq. by apply f_member_user0. }
  cbn [negb]. rewrite Hfk. cbn [andb]. rewrite execute_run. unfold sql_update_user_online. simpl.
  case_bool_decide; cbn [negb].
  - rewrite execute_run. unfold sql_update_user_messages. simpl. by eexists.
  - by eexists.
Qed.

Lemma update_user_sql_refs d c db :
  keys db → refs db → foreign_keys db = false → d ∉ u_username <$> users db →
  refs (run_state (update_user_sql d c) db) ∧ foreign_keys (run_state (update_user_sql d c) db) = false.
Proof using no_failure.
  intros Hk Hr Hfk Hd. destruct (update_user_sql_run d c db Hk Hr Hfk Hd) as [db' H]. unfold run_state.
  case_bool_decide; destruct H as [-> (Eu & Er & Emb & Eal & _ & Em & _ & Ef)]; simpl;
    (split; [eapply refs_renamed; eauto|congruence]).
Qed.

Lemma userExists_run d db :
  userExists d db = (Ok (bool_decide (d ∈ u_username <$> users db)), next_statement db).
Proof using no_failure.
  unfold userExists, mbind, SE_bind. rewrite query_run. unfold mret, SE_ret. do 2 f_equal.
  unfold sql_user_exists. simpl. rewrite <-bool_decide_not. apply bool_decide_ext.
  destruct (filter (λ u, u_username u = d) (users db)) as [|u l] eqn:E; simpl.
  - split; [done|]. intros (u & -> & Hu)%list_elem_of_fmap.
    by eapply (filter_nil_not_elem_of _ _ u) in E.
  - split; [|done]. intros _. assert (u ∈ filter (λ u, u_username u = d) (users db)) as Hu
      by (rewrite E; set_solver).
    apply list_elem_of_filter in Hu as [<- Hu]. by apply list_elem_of_fmap_2.
Qed.

Lemma pragma_run v db :
  pragma_foreign_keys v db = (Ok tt, set_foreign_keys v (next_statement db)).
Proof using no_failure. unfold pragma_foreign_keys, mbind, SE_bind. by rewrite execute_run. Qed.

(** the guarded rename block *)
Definition rename_block (d c : string) : SE Db unit :=
  pragma_foreign_keys false ;;
  try_catch (update_user_sql d c) (λ e, pragma_foreign_keys true ;; throw e) ;;
  pragma_foreign_keys true.

Lemma rename_block_run d c db :
  let db1 := set_foreign_keys false (next_statement db) in
  ∃ o db2, update_user_sql d c db1 = (o, db2) ∧
    rename_block d c db = (o, set_foreign_keys true (next_statement db2)).
Proof using no_failure.
  cbv zeta. destruct (update_user_sql d c _) as [o db2] eqn:E. exists o, db2. split; [done|].
  unfold rename_block, mbind, SE_bind, try_catch. rewrite pragma_run, E.
  destruct o as [[]|e]; simpl; by rewrite pragma_run.
Qed.

Lemma rename_block_wf d c db :
  db_wf db → d ∉ u_username <$> users db → db_wf (run_state (rename_block d c) db).
Proof using no_failure.
  intros (Hk & Hr & Hf) Hd. set (db1 := set_foreign_keys false (next_statement db)).
  assert (keys db1 ∧ refs db1) as [Hk1 Hr1].
  { destruct Hk, Hr. split; by constructor. }
  destruct (rename_block_run d c db) as (o & db2 & E & Hrun). fold db1 in E.
  assert (keys db2) as Hk2.
  { pose proof (run_op_keys (OpUpdateUser "" "" "" "")) as _.
    assert (preserves keys (update_user_sql d c)) as Hp by (unfold update_user_sql; solve_pres).
    specialize (Hp db1 Hk1). unfold run_state in Hp. by rewrite E in Hp. }
  pose proof (update_user_sql_refs d c db1 Hk1 Hr1 eq_refl Hd) as [Hr2 _].
  unfold run_state in *. rewrite E in Hr2. rewrite Hrun. simpl in *.
  split_and!; [destruct Hk2; by constructor|destruct Hr2; by constructor|done].
Qed.
End rename.

Section operations2.
Context {env : DbEnv}.
Hypothesis no_failure : ∀ n, env_db n = None.

(** the state between the name check and the rename of [updateUser] *)
Definition name_free (c d : string) (db : Db) : Prop :=
  db_wf db ∧ (d ≠ c → d ∉ u_username <$> users db).

Lemma name_free_password c d p u :
  triple (name_free c d) (execute (sql_update_user_password p u)) (λ _, name_free c d).
Proof using no_failure.
  intros db [Hwf Hd]. pose proof (ok_update_password p u) as Hok.
  apply (stmt_ok_wf (fault_text STEP_FAILED)) in Hok. specialize (Hok db Hwf). split; [done|]. intros Hne.
  unfold run_state. rewrite execute_run by done. simpl.
  rewrite fmap_key_ext; [by apply Hd|]. intros x. by case_bool_decide.
Qed.

Lemma updateUser_wf c d p e : preserves db_wf (updateUser c d p e).
Proof using no_failure.
  unfold updateUser. apply preserves_bind; [unfold getUser; solve_pres|]. intros existing.
  destruct existing as [existing|]; [|solve_pres]. destruct (negb _); [solve_pres|].
  destruct (is_empty d); [solve_pres|].
  apply (triple_bind _ _ _ (λ o s, match o with Ok false => name_free c d s | _ => db_wf s end)).
  { intros db Hdb. destruct (String.eqb_spec d c) as [->|Hne]; cbn [negb].
    - by split.
    - unfold run_out, run_state. rewrite userExists_run by done. simpl.
      case_bool_decide as Hin; [by apply db_wf_next|]. split; [by apply db_wf_next|done]. }
  2: by intros ? ? ?.
  intros [|]; [intros s Hs; by apply preserves_throw|].
  apply (triple_bind _ _ _ (λ _, name_free c d)); [| |by intros ? ? [? _]].
  { unfold when. destruct (negb (is_empty p)); [|by intros s Hs].
    apply (triple_bind _ _ _ (λ _, name_free c d)); [by intros s Hs| |by intros].
    intros hash. apply (triple_bind _ _ _ (λ _, name_free c d)); [apply name_free_password| |by intros].
    by intros n s Hs. }
  intros []. apply (triple_bind _ _ _ (λ _, db_wf)); [| |by intros].
  { intros s [Hs Hd]. unfold when. destruct (String.eqb_spec d c) as [->|Hne]; cbn [negb]; [done|].
    apply (rename_block_wf no_failure d c s Hs). by apply Hd. }
  intros []. apply preserves_bind; [unfold getUser; solve_pres|]. intros []; solve_pres.
Qed.

Lemma getUser_run u db :
  keys db → u ∈ users db →
  getUser (u_username u) db =
    (Ok (Some (User.User (text (u_username u)) (text (u_email u)) (User.stringToType (text (u_type u))))),
     next_statement db).
Proof using no_failure.
  intros Hk Hu. unfold getUser, mbind, SE_bind. rewrite query_run by done.
  unfold sql_get_user. cbn [next_statement users].
  rewrite (filter_fmap_key u_username _ u) by (done || apply Hk). done.
Qed.

(** a rename to a name nobody has and nobody is online under, statement by statement *)
Lemma rename_block_success d c db :
  db_wf db → d ∉ u_username <$> users db → d ∉ on_username <$> online_users db →
  ∃ db', rename_block d c db = (Ok tt, db') ∧ db_wf db' ∧
    users db' = rename_user d c <$> users db ∧
    membership db' = rename_member d c <$> membership db ∧
    online_users db' = rename_online d c <$> online_users db ∧
    messages db' = rename_message d c <$> messages db ∧
    rooms db' = rooms db ∧ allow_list db' = allow_list db.
Proof using no_failure.
  intros Hwf Hd Hon. pose proof Hwf as (Hk & Hr & Hf).
  pose proof (rename_block_wf no_failure d c db Hwf Hd) as Hwf'.
  set (db1 := set_foreign_keys false (next_statement db)).
  destruct (rename_block_run no_failure d c db) as (o & db2 & E & Hrun). fold db1 in E.
  assert (keys db1) as Hk1 by (destruct Hk; by constructor).
  assert (refs db1) as Hr1 by (destruct Hr; by constructor).
  destruct (update_user_sql_run no_failure d c db1 Hk1 Hr1 eq_refl Hd) as [db2' H].
  rewrite bool_decide_eq_true_2 in H.
  2: { set (g := λ n : string, if bool_decide (n = c) then d else n).
       assert (on_username <$> (rename_online d c <$> online_users db1) =
         g <$> (on_username <$> online_users db)) as ->.
       { rewrite <-!list_fmap_compose. apply list_fmap_ext. intros _ x _. simpl. unfold rename_online, g.
         by destruct (bool_decide (on_username x = c)). }
       apply NoDup_fmap_inj; [|apply Hk]. intros x y Hx Hy. unfold g. repeat case_bool_decide; congruence. }
  destruct H as [H (Eu & Er & Emb & Eal & Eon & Em & _ & _)]. rewrite E in H. injection H as -> ->.
  eexists. split; [exact Hrun|]. unfold run_state in Hwf'. rewrite Hrun in Hwf'. by split_and!.
Qed.
End operations2.

Lemma newer_sorted l : StronglySorted newer (merge_sort newer l) ∧ merge_sort newer l ≡ₚ l.
Proof.
  assert (Transitive newer) by (intros x y z; unfold newer; lia).
  assert (Total newer) by (intros x y; unfold newer; lia).
  split; [by apply StronglySorted_merge_sort|apply merge_sort_Permutation].
Qed.

Section functional.
Context {env : DbEnv}.
Hypothesis no_failure : ∀ n, env_db n = None.

Definition message_row (m : Message.t) (roomId : Z) : MessageRow :=
  mkMessageRow (Message.id m) roomId (User.username (Message.from m)) (User.email (Message.from m))
    (Message.content m) (Message.timestamp m) NODE_ID.

Lemma saveMessage_run m r db :
  saveMessage m r db =
  if bool_decide (Message.id m ∈ m_id <$> messages db) then (Ok false, next_statement db)
  else if foreign_keys db
          && (negb (bool_decide (r ∈ r_id <$> rooms db))
              || negb (bool_decide (User.email (Message.from m) ∈ u_email <$> users db)))
  then (Throw (ConstraintError FOREIGN_KEY), next_statement db)
  else (Ok true, set_messages (messages db ++ [message_row m r]) (next_statement db)).
Proof using no_failure.
  unfold saveMessage, mbind, SE_bind. rewrite execute_run by done. unfold sql_save_message.
  cbn [next_statement messages foreign_keys rooms users].
  destruct (bool_decide _); [done|]. by destruct (_ && _).
Qed.

(** the stored form of a message of the history *)
Definition row_message (db : Db) (m : MessageRow) : Message.t :=
  Message.Message
    (User.User (text (m_sender_username m)) (text (m_sender_email m))
      (User.stringToType (text (sender_type (m_sender_email m) db))))
    (User.User "" "" User.GUEST) (text (m_content m)) (m_created_at m) (text (m_id m)).

Lemma from_rows_messages db db0 (l : list MessageRow) :
  (∀ m, m ∈ l → (- 2 ^ 63 <= m_created_at m < 2 ^ 63)%Z) →
  from_rows messageFromRow ((λ m, [text (m_id m); text (m_sender_username m); text (m_content m);
         to_string (m_created_at m); text (m_sender_email m);
         text (sender_type (m_sender_email m) db)]) <$> l) db0 = (Ok (row_message db <$> l), db0).
Proof.
  clear no_failure. induction l as [|m l IH]; intros Hl; [done|]. cbn [fmap list_fmap from_rows].
  unfold mbind, SE_bind at 1. cbn [messageFromRow]. rewrite stoll_to_string by (apply Hl; set_solver).
  unfold mret, SE_ret, SE_bind. rewrite IH by (intros; apply Hl; set_solver). done.
Qed.

Lemma deleteRoom_run i db :
  db_wf db → (3 <= i)%Z → i ∈ r_id <$> rooms db →
  ∃ db', deleteRoom i db = (Ok tt, db') ∧
    users db' = users db ∧ online_users db' = online_users db ∧
    rooms db' = filter (λ r, r_id r ≠ i) (rooms db) ∧
    messages db' = filter (λ m, m_room_id m ≠ i) (messages db) ∧
    membership db' = filter (λ m, mb_room_id m ≠ i) (membership db) ∧
    allow_list db' = filter (λ a, al_room_id a ≠ i) (allow_list db) ∧
    sqlite_sequence db' = sqlite_sequence db.
Proof using no_failure.
  intros (Hk & Hr & Hf) Hi Hin. unfold deleteRoom. destruct (i <? 3)%Z eqn:?; [lia|].
  unfold mbind, SE_bind. rewrite execute_run by done. unfold sql_delete_room_allow. simpl.
  rewrite execute_run by done. unfold sql_delete_room_membership, delete_membership. simpl.
  rewrite execute_run by done. unfold sql_delete_room_messages. simpl.
  rewrite execute_run by done. unfold sql_delete_room_rooms. simpl. rewrite Hf.
  rewrite (bool_decide_eq_true_2 (i ∈ r_id <$> rooms db)) by done. cbn [andb].
  assert (∀ {A} (f : A → Z) (l : list A), i ∉ f <$> filter (λ x, f x ≠ i) l) as Hno.
  { intros A f l (x & Heq & [Hx _]%list_elem_of_filter)%list_elem_of_fmap. by apply Hx. }
  rewrite !bool_decide_eq_false_2 by apply Hno. cbn [orb].
  unfold removed. assert (length (filter (λ r, r_id r ≠ i) (rooms db)) < length (rooms db)) as Hlen.
  { apply list_elem_of_fmap in Hin as (r & -> & Hr'). clear -Hr'.
    induction (rooms db) as [|x l IH]; [set_solver|]. rewrite filter_cons.
    apply elem_of_cons in Hr' as [<-|Hr'].
    - case_decide; [done|]. simpl. pose proof (length_filter (λ r0, r_id r0 ≠ r_id r) l). lia.
    - specialize (IH Hr'). case_decide; simpl; lia. }
  destruct (_ =? 0)%Z eqn:?; [lia|]. eexists. by split_and!.
Qed.

Lemma deleteRoom_missing i db :
  (3 <= i)%Z → i ∉ r_id <$> rooms db →
  ∃ db', deleteRoom i db = (Throw (ConstraintError "Room not found"), db') ∧
    users db' = users db ∧ online_users db' = online_users db ∧ rooms db' = rooms db.
Proof using no_failure.
  intros Hi Hin. unfold deleteRoom. destruct (i <? 3)%Z eqn:?; [lia|].
  unfold mbind, SE_bind. rewrite execute_run by done. unfold sql_delete_room_allow. simpl.
  rewrite execute_run by done. unfold sql_delete_room_membership, delete_membership. simpl.
  rewrite execute_run by done. unfold sql_delete_room_messages. simpl.
  rewrite execute_run by done. unfold sql_delete_room_rooms. simpl.
  rewrite (bool_decide_eq_false_2 (i ∈ r_id <$> rooms db)) by done. rewrite andb_false_r. cbn [andb].
  assert (filter (λ r, r_id r ≠ i) (rooms db) = rooms db) as ->.
  { apply list_filter_all. intros r Hr Heq. apply Hin. rewrite <-Heq. by apply list_elem_of_fmap_2. }
  unfold removed. rewrite Nat.sub_diag. simpl. by eexists.
Qed.
End functional.

(** ** Operations a handler may run at any point

    [db_safe] operations keep the tables well formed and leave the rooms alone. *)
Definition db_safe {A} (m : SE Db A) : Prop :=
  ∀ R q, preserves (λ db, db_wf db ∧ rooms_are R q db) m.

Section safe.
Context {env : DbEnv}.

Lemma db_safe_intro {A} (m : SE Db A) :
  preserves db_wf m → (∀ R q, preserves (rooms_are R q) m) → db_safe m.
Proof. intros Hw Hr R q. apply (preserves_and db_wf (rooms_are R q)); [done|apply Hr]. Qed.

(** every statement and conversion of an operation is safe *)
Ltac safe := apply db_safe_intro; [|intros R q]; unfold_ops; unfold pragma_foreign_keys; solve_pres.

Lemma safe_getUser u : db_safe (getUser u).
Proof. safe. Qed.
Lemma safe_userExists u : db_safe (userExists u).
Proof. safe. Qed.
Lemma safe_createUser u h e : db_safe (createUser u h e).
Proof. safe. Qed.
Lemma safe_hash_now p : db_safe (hash_now p).
Proof. safe. Qed.
Lemma safe_loginUser u p : db_safe (loginUser u p).
Proof. safe. Qed.
Lemma safe_saveMessage m r : db_safe (saveMessage m r).
Proof. safe. Qed.
Lemma safe_loadHistory r : db_safe (loadHistory r).
Proof. safe. Qed.
Lemma safe_setMembership u r n : db_safe (setMembership u r n).
Proof. safe. Qed.
Lemma safe_clearMembership u r : db_safe (clearMembership u r).
Proof. safe. Qed.
Lemma safe_clearAllMembership u : db_safe (clearAllMembership u).
Proof. safe. Qed.
Lemma safe_moveMembership u n : db_safe (moveMembership u n).
Proof. safe. Qed.
Lemma safe_isUserOnline u : db_safe (isUserOnline u).
Proof. safe. Qed.
Lemma safe_onlineNode u : db_safe (onlineNode u).
Proof. safe. Qed.
Lemma safe_setOnline u n : db_safe (setOnline u n).
Proof. safe. Qed.
Lemma safe_clearOnline u : db_safe (clearOnline u).
Proof. safe. Qed.
Lemma safe_clearNodePresence n : db_safe (clearNodePresence n).
Proof. safe. Qed.
Lemma safe_canClaimPresence u b : db_safe (canClaimPresence u b).
Proof. safe. Qed.
Lemma safe_isAllowed r e : db_safe (isAllowed r e).
Proof. safe. Qed.
Lemma safe_isAllowListCreator r e : db_safe (isAllowListCreator r e).
Proof. safe. Qed.
Lemma safe_addToAllowList r e c : db_safe (addToAllowList r e c).
Proof. safe. Qed.
Lemma safe_removeFromAllowList r e : db_safe (removeFromAllowList r e).
Proof. safe. Qed.
Lemma safe_listRooms : db_safe listRooms.
Proof. safe. Qed.
Lemma safe_bind {A B} (m : SE Db A) (f : A → SE Db B) :
  db_safe m → (∀ a, db_safe (f a)) → db_safe (m ≫= f).
Proof. intros Hm Hf R q. apply preserves_bind; [apply Hm|intros; apply Hf]. Qed.

Section no_failure.
Hypothesis no_failure : ∀ n, env_db n = None.
Lemma safe_updateUser c d p e : db_safe (updateUser c d p e).
Proof using no_failure.
  apply db_safe_intro; [by apply updateUser_wf|intros R q].
  unfold_ops; unfold pragma_foreign_keys; solve_pres.
Qed.

(** with a storage that never fails, the queries and the unconstrained statements return *)
Lemma total_query f : total (query f).
Proof using no_failure. intros d. unfold run_out. rewrite query_run by done. by eexists. Qed.
Lemma total_execute ex f : (∀ d, ∃ r, f d = inr r) → total (run_statement ex f).
Proof using no_failure.
  intros Hf d. unfold run_out. rewrite execute_run by done. destruct (Hf (next_statement d)) as [[n d'] ->]. by exists n.
Qed.
Lemma total_setOnline u n : total (setOnline u n).
Proof using no_failure. apply total_bind; [|solve_total]. apply total_execute. by eexists. Qed.
Lemma total_clearOnline u : total (clearOnline u).
Proof using no_failure. apply total_bind; [|solve_total]. apply total_execute. by eexists. Qed.
Lemma total_clearMembership u r : total (clearMembership u r).
Proof using no_failure. apply total_bind; [|solve_total]. apply total_execute. by eexists. Qed.
Lemma total_clearAllMembership u : total (clearAllMembership u).
Proof using no_failure. apply total_bind; [|solve_total]. apply total_execute. by eexists. Qed.
Lemma total_moveMembership u n : total (moveMembership u n).
Proof using no_failure. apply total_bind; [|solve_total]. apply total_execute. by eexists. Qed.
Lemma total_onlineNode u : total (onlineNode u).
Proof using no_failure. apply total_bind; [apply total_query|solve_total]. Qed.
Lemma total_isUserOnline u : total (isUserOnline u).
Proof using no_failure. apply total_bind; [apply total_query|solve_total]. Qed.
Lemma total_userExists u : total (userExists u).
Proof using no_failure. apply total_bind; [apply total_query|solve_total]. Qed.
Lemma total_getUser u : total (getUser u).
Proof using no_failure.
  intros d. unfold run_out, getUser, mbind, SE_bind. rewrite query_run by done. unfold sql_get_user.
  cbn [next_statement users]. destruct (filter _ (users d)) as [|r rest]; by eexists.
Qed.

(** who the allow list lets in, and who may manage a room *)
Definition on_list (r : Z) (e : string) (db : Db) : Prop :=
  (r, e) ∈ (λ a, (al_room_id a, al_email a)) <$> allow_list db.
Definition creator_of (r : Z) (e : string) (db : Db) : Prop :=
  (r, e, true) ∈ (λ a, (al_room_id a, al_email a, al_creator a)) <$> allow_list db.
#[export] Instance on_list_dec r e db : Decision (on_list r e db).
Proof. unfold on_list. apply _. Defined.
#[export] Instance creator_of_dec r e db : Decision (creator_of r e db).
Proof. unfold creator_of. apply _. Defined.

Lemma nonempty_filter {A B} (P : A → Prop) `{∀ x, Decision (P x)} (f : A → B) (l : list A) :
  negb (bool_decide (f <$> filter P l = [])) = bool_decide (Exists P l).
Proof.
  clear no_failure. rewrite <-bool_decide_not. apply bool_decide_ext. rewrite Exists_exists.
  destruct (filter P l) as [|x k] eqn:E; cbn.
  - split; [done|]. intros (x & Hx & HP). by apply (filter_nil_not_elem_of P l x) in E.
  - split; [|done]. intros _. exists x. apply and_comm.
    apply (list_elem_of_filter P l x). rewrite E. set_solver.
Qed.
(** the answer of a membership query, unless the statement fails *)
Lemma query_exists {A} (P : A → Prop) `{∀ x, Decision (P x)} (tbl : Db → list A) db :
  (∀ d, tbl (next_statement d) = tbl d) →
  ∃ o, (rows ← query (λ d, (λ _, ["1"]) <$> filter P (tbl d)); mret (negb (bool_decide (rows = [])))) db
      = (o, next_statement db) ∧
    match o with Ok b => b = bool_decide (Exists P (tbl db)) | Throw _ => True end.
Proof.
  clear no_failure. intros Ht. unfold mbind, SE_bind, query. destruct (env_db _) as [m|]; [by eexists|].
  eexists. split; [done|]. cbn. by rewrite nonempty_filter, Ht.
Qed.
Lemma isAllowed_cases r e db :
  ∃ o, isAllowed r e db = (o, next_statement db) ∧
    match o with Ok b => b = bool_decide (on_list r e db) | Throw _ => True end.
Proof.
  clear no_failure.
  destruct (query_exists (λ a, al_room_id a = r ∧ al_email a = e) allow_list db) as (o & Ho & Hb); [done|].
  exists o. split; [exact Ho|]. destruct o as [b|]; [|done]. rewrite Hb. apply bool_decide_ext.
  unfold on_list. rewrite Exists_exists, list_elem_of_fmap. naive_solver.
Qed.
Lemma isCreator_cases r e db :
  ∃ o, isAllowListCreator r e db = (o, next_statement db) ∧
    match o with Ok b => b = bool_decide (creator_of r e db) | Throw _ => True end.
Proof.
  clear no_failure.
  destruct (query_exists (λ a, al_room_id a = r ∧ al_email a = e ∧ al_creator a = true) allow_list db)
    as (o & Ho & Hb); [done|].
  exists o. split; [exact Ho|]. destruct o as [b|]; [|done]. rewrite Hb. apply bool_decide_ext.
  unfold creator_of. rewrite Exists_exists, list_elem_of_fmap. split.
  - intros (a & Ha & <- & <- & Hc). exists a. by rewrite Hc.
  - intros (a & [= -> -> Hc] & Ha). by exists a.
Qed.

(** creating a room, on every outcome *)
Lemma createRoom_run nm ty pr e db :
  let row := mkRoomRow (sqlite_sequence db + 1) nm (Room.roomTypeToString ty) (Room.privacyToString pr) in
  let '(o, db') := createRoom nm ty pr e db in
  (nm ∈ r_name <$> rooms db ∧ rooms db' = rooms db ∧ sqlite_sequence db' = sqlite_sequence db ∧
   o = Throw (ConstraintError "Room already exists")) ∨
  (nm ∉ r_name <$> rooms db ∧ rooms db' = rooms db ++ [row] ∧
   sqlite_sequence db' = (sqlite_sequence db + 1)%Z ∧
   (∀ r, o = Ok r → r = Room.Room (as_int (sqlite_sequence db + 1)) nm ty pr)).
Proof using no_failure.
  cbv zeta. unfold createRoom, insert_room, mbind, SE_bind, try_catch. rewrite execute_run by done.
  unfold sql_create_room. cbn [next_statement rooms sqlite_sequence].
  case_bool_decide as Hin; cbn [fst snd].
  - left. by split_and!.
  - unfold mret, SE_ret, gets, when. cbn [sqlite_sequence set_rooms].
    destruct (is_empty e); cbn [negb]; [right; split_and!; try done; by intros ? [= <-]|].
    unfold addToAllowList, mbind, SE_bind. rewrite execute_run by done.
    unfold sql_add_user_allow_list. cbn [next_statement allow_list set_rooms rooms users foreign_keys].
    case_bool_decide; [right; split_and!; try done; by intros ? [= <-]|].
    destruct (_ && _); right; split_and!; try done; by intros ? [= <-].
Qed.
End no_failure.
End safe.

#[export] Hint Resolve safe_getUser safe_userExists safe_createUser safe_hash_now safe_loginUser
  safe_saveMessage safe_loadHistory safe_setMembership safe_clearMembership
  safe_clearAllMembership safe_moveMembership safe_isUserOnline safe_onlineNode safe_setOnline
  safe_clearOnline safe_clearNodePresence safe_canClaimPresence safe_isAllowed
  safe_isAllowListCreator safe_addToAllowList safe_removeFromAllowList safe_listRooms : pres.

(** one operation of the class renames users *)
Definition is_update_user (op : DbOp) : bool := match op with OpUpdateUser _ _ _ _ => true | _ => false end.

(** * Theorems *)

(** C25. The tables stay well formed: keys and UNIQUE columns hold no duplicate, room ids
    stay within the sequence, and every foreign key points at a row, after every operation,
    whether it succeeds, throws, or a statement in the middle of it fails; only a rename,
    which runs with foreign keys off and outside a transaction, needs the storage engine
    not to fail half way for the references, and even then the keys are kept. *)
Theorem database_wf {env : DbEnv} op db :
  db_wf db →
  keys (run_state (run_op op) db) ∧
  ((is_update_user op = true → ∀ n, env_db n = None) → db_wf (run_state (run_op op) db)).
Proof.
  intros Hdb. split; [apply run_op_keys, Hdb|]. intros Hop. destruct (is_update_user op) eqn:E.
  - destruct op; try done. cbn [run_op].
    apply preserves_bind; [apply updateUser_wf; by apply Hop|intros; apply preserves_ret|done].
  - apply run_op_wf; [|done]. by intros c d p e ->.
Qed.

(** A rename carries everything that names the user: when the new name is free and
    nobody holds presence under it, the user row, the memberships, the presence row and the
    stored messages are all under the new name, the user returned has the new name and the
    old email and type, and the tables are still well formed with the foreign-key check on. *)
Theorem updateUser_renames {env : DbEnv} c d db u :
  (∀ n, env_db n = None) → db_wf db →
  u ∈ users db → u_username u = c → text (u_email u) = u_email u → d ≠ "" → d ≠ c →
  d ∉ u_username <$> users db → d ∉ on_username <$> online_users db →
  ∃ db', updateUser c d "" (u_email u) db =
      (Ok (User.User (text d) (u_email u) (User.stringToType (text (u_type u)))), db') ∧
    users db' = rename_user d c <$> users db ∧
    membership db' = rename_member d c <$> membership db ∧
    online_users db' = rename_online d c <$> online_users db ∧
    messages db' = rename_message d c <$> messages db ∧ db_wf db'.
Proof.
  intros no_failure Hwf Hu <- Htext Hne Hdc Hd Hon. set (c := u_username u).
  destruct (rename_block_success no_failure d c (next_statement (next_statement db)))
    as (db' & Hrun & Hwf' & Eu & Emb & Eon & Em & _ & _); [by do 2 apply db_wf_next|done..|].
  exists (next_statement db'). split_and!; [|done..|by apply db_wf_next].
  unfold updateUser, mbind, SE_bind.
  pose proof (getUser_run no_failure u db (proj1 Hwf) Hu) as Hget0. fold c in Hget0.
  rewrite Hget0. cbn [User.email]. rewrite Htext, String.eqb_refl. cbn [negb].
  destruct (is_empty d) eqn:Ed; [by destruct d|].
  rewrite (proj2 (String.eqb_neq d c)) by done. cbn [negb].
  rewrite userExists_run by done. rewrite bool_decide_eq_false_2 by done. cbn [is_empty negb when].
  change (rename_block d c (next_statement (next_statement db)) = (Ok tt, db')) in Hrun.
  unfold rename_block, mbind, SE_bind in Hrun. unfold mret, SE_ret at 1. rewrite Hrun.
  set (u' := rename_user d c u).
  assert (u' ∈ users db') as Hu' by (rewrite Eu; by apply list_elem_of_fmap_2).
  pose proof (getUser_run no_failure u' db' (proj1 Hwf') Hu') as Hget.
  unfold u', rename_user in Hget. rewrite bool_decide_eq_true_2 in Hget by done. cbn in Hget.
  rewrite Hget. rewrite <-Htext at 2. done.
Qed.

(** Saving is idempotent in the message id: a stored id is left alone and reported
    false; a new message of a known room and sender is appended once and reported true, and
    saving it again changes nothing; a message of an unknown room or sender is refused. *)
Theorem saveMessage_idempotent {env : DbEnv} m r db :
  (∀ n, env_db n = None) → db_wf db →
  let '(o, db') := saveMessage m r db in
  saveMessage m r db' = (match o with Ok _ => Ok false | Throw e => Throw e end, next_statement db') ∧
  (o = Ok true ↔ Message.id m ∉ m_id <$> messages db ∧ r ∈ r_id <$> rooms db ∧
                 User.email (Message.from m) ∈ u_email <$> users db) ∧
  (o = Ok false ↔ Message.id m ∈ m_id <$> messages db) ∧
  messages db' = messages db ++ (match o with Ok true => [message_row m r] | _ => [] end).
Proof.
  intros no_failure (_ & _ & Hf). rewrite saveMessage_run, Hf by done. cbn [andb].
  destruct (bool_decide (Message.id m ∈ _)) eqn:E1;
    [|destruct (bool_decide (r ∈ _)) eqn:E2, (bool_decide (User.email _ ∈ _)) eqn:E3]; cbn [orb negb];
    rewrite saveMessage_run by done; cbn [next_statement messages rooms users set_messages foreign_keys];
    rewrite ?fmap_app, ?Hf, ?E1, ?E2, ?E3; cbn [andb orb negb]; guards;
    try (rewrite bool_decide_eq_true_2 by set_solver);
    (split; [reflexivity|]); rewrite ?app_nil_r; split_and!; try done; try (by rewrite app_nil_r);
    naive_solver.
Qed.

(** History is what a reader expects: it returns without error the stored messages of
    that room and of no other, newest first, at most one hundred, and no message it leaves
    out is newer than one it returns. *)
Theorem loadHistory_newest {env : DbEnv} r db :
  (∀ n, env_db n = None) →
  (∀ m, m ∈ messages db → (- 2 ^ 63 <= m_created_at m < 2 ^ 63)%Z) →
  ∃ shown hidden,
    loadHistory r db = (Ok (row_message (next_statement db) <$> shown), next_statement db) ∧
    shown ++ hidden ≡ₚ filter (λ m, m_room_id m = r) (messages db) ∧
    StronglySorted newer (shown ++ hidden) ∧ length shown <= 100 ∧
    (length shown < 100 → hidden = []).
Proof.
  intros no_failure Hrange. set (l := filter (λ m, m_room_id m = r) (messages db)).
  destruct (newer_sorted l) as [Hs Hp].
  exists (take 100 (merge_sort newer l)), (drop 100 (merge_sort newer l)). rewrite take_drop.
  split_and!; [|done|done|rewrite length_take; lia|].
  - unfold loadHistory, mbind, SE_bind. rewrite query_run by done. unfold sql_load_history.
    apply from_rows_messages. cbn [next_statement messages]. fold l.
    intros m Hm. apply Hrange. apply (list_elem_of_filter (λ m, m_room_id m = r) (messages db)).
    fold l. rewrite <-Hp. eapply subseteq_take; exact Hm.
  - rewrite length_take. intros Hlt. apply nil_length_inv. rewrite length_drop. lia.
Qed.

(** Deleting a room that exists removes exactly the room and everything that refers to
    it, its allow list, memberships and messages, and nothing else; a default room, or an
    id no room has, is refused and no room, user or presence row changes. *)
Theorem deleteRoom_cascades {env : DbEnv} i db :
  (∀ n, env_db n = None) → db_wf db →
  ∃ o db', deleteRoom i db = (o, db') ∧
    users db' = users db ∧ online_users db' = online_users db ∧
    rooms db' = (match o with Ok _ => filter (λ r, r_id r ≠ i) (rooms db) | Throw _ => rooms db end) ∧
    (o = Ok tt ↔ (3 <= i)%Z ∧ i ∈ r_id <$> rooms db) ∧
    (o = Ok tt →
      messages db' = filter (λ m, m_room_id m ≠ i) (messages db) ∧
      membership db' = filter (λ m, mb_room_id m ≠ i) (membership db) ∧
      allow_list db' = filter (λ a, al_room_id a ≠ i) (allow_list db)).
Proof.
  intros no_failure Hwf. destruct (Z.lt_ge_cases i 3) as [Hlt|Hge].
  { unfold deleteRoom. destruct (i <? 3)%Z eqn:?; [|lia]. eexists _, _.
    split_and!; try done. split; [done|lia]. }
  destruct (decide (i ∈ r_id <$> rooms db)) as [Hin|Hin].
  - destruct (deleteRoom_run no_failure i db Hwf Hge Hin)
      as (db' & Hrun & Eu & Eon & Er & Em & Emb & Eal & _).
    exists (Ok tt), db'. by split_and!.
  - destruct (deleteRoom_missing no_failure i db Hge Hin) as (db' & Hrun & Eu & Eon & Er).
    eexists _, db'. split; [exact Hrun|].
    split_and!; try done. by split; [|intros [_ ?]].
Qed.

(** ** Concrete instances *)

Lemma init_wf a b : db_wf (init a b).
Proof.
  split_and!; [|by constructor; intros ? ?%elem_of_nil|done].
  constructor; simpl; try (apply (bool_decide_unpack _); by vm_compute).
  intros i Hi. rewrite !elem_of_cons in Hi. destruct Hi as [->|[->|[]%elem_of_nil]]; lia.
Qed.

(** a storage engine that does not fail and a transparent password hash *)
#[local] Instance plain_argon2 : Argon2 := {
  argon2id_hash_encoded salt password := inl ("$argon2id$" +:+ salt +:+ "$" +:+ password);
  argon2id_verify encoded password :=
    if negb (String.prefix "$argon2id$" encoded) then ARGON2_OTHER
    else match rfind_char "$" encoded with
         | Some i => if String.eqb (str_drop (S i) encoded) password then ARGON2_OK
                     else ARGON2_VERIFY_MISMATCH
         | None => ARGON2_OTHER
         end
}.
#[local] Instance plain_env : DbEnv := {
  db_argon2 := plain_argon2;
  env_db _ := None;
  env_salt n := to_string (Z.of_nat n);
  NODE_ID := "node1"
}.

Definition seeded : Db := init "$argon2id$s$admin" "$argon2id$s$user".
Definition seeded_user : UserRow := mkUserRow "user" "user@example.com" "$argon2id$s$user" "USER".
Definition hello : Message.t :=
  Message.Message (User.User "user" "user@example.com" User.USER) (User.User "" "" User.GUEST)
    "hello" 1726000000 "node1-7-1726000000-1".
(** the seeded database with a third room that is in use *)
Definition busy : Db :=
  foldl (λ db op, run_state (run_op op) db) seeded
    [ OpCreateRoom "QA" Room.QA Room.PRIVATE "admin@example.com"; OpSetMembership "user" 3 "node1";
      OpSaveMessage hello 3; OpSetOnline "user" "node1" ].
Lemma busy_wf : db_wf busy.
Proof. unfold busy. cbn [foldl]. do 4 (apply run_op_wf; [done|]). apply init_wf. Qed.

Lemma database_wf_witness :
  keys (run_state (run_op (OpUpdateUser "user" "bob" "" "user@example.com")) busy) ∧
  db_wf (run_state (run_op (OpUpdateUser "user" "bob" "" "user@example.com")) busy).
Proof.
  destruct (database_wf (OpUpdateUser "user" "bob" "" "user@example.com") busy busy_wf) as [Hk Hw].
  split; [exact Hk|]. apply Hw. done.
Defined.
Lemma updateUser_renames_witness :
  ∃ db', updateUser "user" "bob" "" "user@example.com" busy =
      (Ok (User.User "bob" "user@example.com" User.USER), db') ∧
    users db' = rename_user "bob" "user" <$> users busy ∧
    membership db' = rename_member "bob" "user" <$> membership busy ∧
    online_users db' = rename_online "bob" "user" <$> online_users busy ∧
    messages db' = rename_message "bob" "user" <$> messages busy ∧ db_wf db'.
Proof.
  apply (updateUser_renames "user" "bob" busy seeded_user); try done; try apply busy_wf;
    apply (bool_decide_unpack _); vm_compute; exact I.
Defined.
Lemma saveMessage_idempotent_witness :
  let '(o, db') := saveMessage hello 1 seeded in
  saveMessage hello 1 db' = (match o with Ok _ => Ok false | Throw e => Throw e end, next_statement db') ∧
  (o = Ok true ↔ Message.id hello ∉ m_id <$> messages seeded ∧ 1%Z ∈ r_id <$> rooms seeded ∧
                 User.email (Message.from hello) ∈ u_email <$> users seeded) ∧
  (o = Ok false ↔ Message.id hello ∈ m_id <$> messages seeded) ∧
  messages db' = messages seeded ++ (match o with Ok true => [message_row hello 1] | _ => [] end).
Proof. apply (saveMessage_idempotent hello 1 seeded); [done|apply init_wf]. Defined.
Lemma loadHistory_newest_witness :
  ∃ shown hidden,
    loadHistory 3 busy = (Ok (row_message (next_statement busy) <$> shown), next_statement busy) ∧
    shown ++ hidden ≡ₚ filter (λ m, m_room_id m = 3%Z) (messages busy) ∧
    StronglySorted newer (shown ++ hidden) ∧ length shown <= 100 ∧
    (length shown < 100 → hidden = []).
Proof.
  apply (loadHistory_newest 3 busy); [done|].
  intros m Hm. apply list_elem_of_singleton in Hm as ->. vm_compute. split; congruence.
Defined.
Lemma deleteRoom_cascades_witness :
  ∃ o db', deleteRoom 3 busy = (o, db') ∧
    users db' = users busy ∧ online_users db' = online_users busy ∧
    rooms db' = (match o with Ok _ => filter (λ r, r_id r ≠ 3%Z) (rooms busy) | Throw _ => rooms busy end) ∧
    (o = Ok tt ↔ (3 <= 3)%Z ∧ 3%Z ∈ r_id <$> rooms busy) ∧
    (o = Ok tt →
      messages db' = filter (λ m, m_room_id m ≠ 3%Z) (messages busy) ∧
      membership db' = filter (λ m, mb_room_id m ≠ 3%Z) (membership busy) ∧
      allow_list db' = filter (λ a, al_room_id a ≠ 3%Z) (allow_list busy)).
Proof. apply (deleteRoom_cascades 3 busy); [done|apply busy_wf]. Defined.
