(* ===== verification/Statements.v ===== *)
(** The database connection (constructor, destructor, exec, prepareLocked, query, execute and
    createRoom of src/server/database_manager.cpp): the calls to SQLite's C interface from
    which the statements of DatabaseManager.v are made.

    SQLite is not modelled: its calls are the fields of the class [Sqlite] over a type of
    engine states.  What holds whatever the engine answers needs only [SqliteLaws]; what
    its documentation says a prepared statement does is the class [SqliteSpec], which ties
    the engine to the tables of DatabaseManager.v.  [PlainEngine] is a concrete engine that
    satisfies both.

    The theorems: no operation leaves a statement behind, on any path; the connection is
    closed exactly when opening it fails, and left open when a pragma or the schema fails;
    a query and a script of statements do to the tables what DatabaseManager.v says they
    do, rows, changes, constraints and faults included. *)
From S2P Require Import Prelude Models DatabaseManager.
From stdpp Require Import options.

(** * Definitions *)

(** ** What is outside the repository *)

Definition SQLITE_OK : Z := 0.
Definition SQLITE_CONSTRAINT : Z := 19.
Definition SQLITE_ROW : Z := 100.
Definition SQLITE_DONE : Z := 101.

(** the calls of SQLite; a statement is a handle, zero for [nullptr].  [sqlite3_prepare_v2]
    returns the statement and the text behind it; [rows_left] is not a call: how many rows a
    statement has yet to give. *)
Class Sqlite (E : Type) := {
  sqlite3_open : string → E → Z * bool * E;
  sqlite3_close : E → E;
  sqlite3_errmsg : E → string;
  sqlite3_busy_timeout : Z → E → E;
  sqlite3_exec : string → E → Z * option string * E;
  sqlite3_prepare_v2 : string → E → Z * Z * string * E;
  sqlite3_bind_text : Z → Z → string → Z → E → Z * E;
  sqlite3_step : Z → E → Z * E;
  sqlite3_column_count : Z → E → Z;
  sqlite3_column_text : Z → Z → E → option string;
  sqlite3_finalize : Z → E → E;
  sqlite3_changes : E → Z;
  sqlite3_last_insert_rowid : E → Z;
  rows_left : Z → E → nat
}.

(** what the loops and the clean-up rely on: no statement comes with an error, a statement
    takes some of the text, a row that was given is not given again, a file that was opened
    has a handle *)
Class SqliteLaws (E : Type) {HS : Sqlite E} := {
  prepare_null sql e rc stmt rest e' :
    sqlite3_prepare_v2 sql e = (rc, stmt, rest, e') → rc ≠ SQLITE_OK → stmt = 0%Z;
  prepare_takes sql e stmt rest e' :
    sqlite3_prepare_v2 sql e = (SQLITE_OK, stmt, rest, e') → sql ≠ "" → String.length rest < String.length sql;
  step_takes stmt e e' :
    sqlite3_step stmt e = (SQLITE_ROW, e') → rows_left stmt e' < rows_left stmt e;
  open_made path e made e' : sqlite3_open path e = (SQLITE_OK, made, e') → made = true
}.

(** the directory of the file: whether it has one, and the error when it cannot be made *)
Class Directories := {
  has_parent_path : string → bool;
  create_directories : string → option string
}.

(** ** The connection *)

(** the calls that make and release something *)
Inductive Call := Opened | Closed | Executed (sql : string) | Prepared (stmt : Z) | Finalized (stmt : Z).

(** [handle] says that the member [db] is not null *)
Record Conn (E : Type) := mkConn { engine : E; handle : bool; calls : list Call }.
Arguments mkConn {E} _ _ _.
Arguments engine {E} _.
Arguments handle {E} _.
Arguments calls {E} _.

Section connection.
Context {E : Type} {HS : Sqlite E}.
Notation M := (SE (Conn E)).

Definition set_handle (b : bool) (c : Conn E) : Conn E := mkConn (engine c) b (calls c).
(** a call to the engine, and what it leaves in the record *)
Definition api {A} (f : E → A * E) (log : A → list Call) : M A := λ c,
  let '(a, e) := f (engine c) in (Ok a, mkConn e (handle c) (calls c ++ log a)).
Definition errmsg : M string := gets (λ c, sqlite3_errmsg (engine c)).
Definition step (stmt : Z) : M Z := api (sqlite3_step stmt) (λ _, []).
(** nothing happens to the null statement *)
Definition finalize (stmt : Z) : M unit :=
  when (negb (stmt =? 0)%Z) (api (λ e, (tt, sqlite3_finalize stmt e)) (λ _, [Finalized stmt])).
Definition prepare (sql : string) : M (Z * Z * string) :=
  api (sqlite3_prepare_v2 sql) (λ '(_, stmt, _), if (stmt =? 0)%Z then [] else [Prepared stmt]).

(** the scope of a [StmtPtr]: the statement is finalized however it is left *)
Definition scoped {A} (stmt : Z) (body : M A) : M A := λ c,
  let '(o, c) := body c in (o, run_state (finalize stmt) c).

(** [exec] *)
Definition exec (sql : string) : M unit :=
  '(rc, err) ← api (sqlite3_exec sql) (λ _, [Executed sql]);
  if (rc =? SQLITE_OK)%Z then mret tt
  else throw (RuntimeError ("Failed to execute SQL statement: " +:+ default "unknown error" err)).

(** the loop that binds the parameters from [index] on: false at the first that fails *)
Fixpoint bind_params (stmt index : Z) (params : list string) : M bool :=
  match params with
  | [] => mret true
  | param :: params =>
      rc ← api (sqlite3_bind_text stmt index param (as_int (slen param))) (λ _, []);
      if negb (rc =? SQLITE_OK)%Z then mret false else bind_params stmt (index + 1) params
  end.

Definition prepareLocked (sql : string) (params : list string) : M Z :=
  '(rc, stmt, _) ← prepare sql;
  if negb (rc =? SQLITE_OK)%Z then message ← errmsg; throw (RuntimeError ("Failed to prepare SQL: " +:+ message))
  else
    bound ← bind_params stmt 1 params;
    if negb bound then
      message ← errmsg; finalize stmt ;; throw (RuntimeError ("Failed to bind SQL parameter: " +:+ message))
    else mret stmt.

(** the columns of the row the statement stands on, as C strings *)
Definition row_of (stmt : Z) (e : E) : SqlRow :=
  (λ col, default "" (c_str <$> sqlite3_column_text stmt col e)) <$> seqZ 0 (sqlite3_column_count stmt e).

(** the loop of [query]; a statement with [n] rows left takes [n + 1] rounds *)
Fixpoint query_loop (fuel : nat) (stmt : Z) (rows : list SqlRow) : M (list SqlRow) :=
  match fuel with
  | O => mret rows
  | S fuel =>
      rc ← step stmt;
      if (rc =? SQLITE_ROW)%Z then row ← gets (λ c, row_of stmt (engine c)); query_loop fuel stmt (rows ++ [row])
      else if (rc =? SQLITE_DONE)%Z then mret rows
      else message ← errmsg; throw (RuntimeError ("Failed to step SQL: " +:+ message))
  end.
Definition query (sql : string) (params : list string) : M (list SqlRow) :=
  stmt ← prepareLocked sql params;
  scoped stmt (fuel ← gets (λ c, S (rows_left stmt (engine c))); query_loop fuel stmt []).

Definition is_blank (c : ascii) : bool :=
  Ascii.eqb c " " || Ascii.eqb c "009" || Ascii.eqb c "010" || Ascii.eqb c "013".
Fixpoint skip_blanks (s : string) : string :=
  match s with
  | EmptyString => EmptyString
  | String c s' => if is_blank c then skip_blanks s' else s
  end.

(** one statement of [execute], within the scope of its [StmtPtr] *)
Definition run_one (stmt : Z) (params : list string) : M Z :=
  bound ← bind_params stmt 1 params;
  if negb bound then message ← errmsg; throw (RuntimeError ("Failed to bind SQL parameter: " +:+ message))
  else
    rc ← step stmt;
    if (rc =? SQLITE_CONSTRAINT)%Z then message ← errmsg; throw (ConstraintError message)
    else if negb (rc =? SQLITE_DONE)%Z then message ← errmsg; throw (RuntimeError ("Failed to step SQL: " +:+ message))
    else gets (λ c, sqlite3_changes (engine c)).
(** the loop of [execute]; every round takes some of the text *)
Fixpoint execute_loop (fuel : nat) (tail : string) (params : list string) (changes : Z) : M Z :=
  match fuel with
  | O => mret changes
  | S fuel =>
      let tail := skip_blanks tail in
      if is_empty tail then mret changes
      else
        '(rc, raw, next) ← prepare tail;
        if negb (rc =? SQLITE_OK)%Z
        then message ← errmsg; throw (RuntimeError ("Failed to prepare SQL: " +:+ message))
        else changes ← scoped raw (run_one raw params); execute_loop fuel next params changes
  end.
Definition execute (sql : string) (params : list string) : M Z :=
  execute_loop (S (String.length sql)) sql params 0.

(** the part of [createRoom] that holds the lock: the id of the new room *)
Definition insert_room (sql : string) (params : list string) : M Z :=
  stmt ← prepareLocked sql params;
  scoped stmt
    (rc ← step stmt;
     if (rc =? SQLITE_CONSTRAINT)%Z then throw (ConstraintError "Room already exists")
     else if negb (rc =? SQLITE_DONE)%Z
     then message ← errmsg; throw (RuntimeError ("Failed to create room: " +:+ message))
     else gets (λ c, as_int (sqlite3_last_insert_rowid (engine c)))).

(** ** Opening and closing *)

Definition close : M unit :=
  open ← gets handle;
  when open (api (λ e, (tt, sqlite3_close e)) (λ _, [Closed]) ;; modify (set_handle false)).

Definition DEFAULT_INTERVAL : Z := 5000.
Definition connect `{Directories} (path init : string) : M unit :=
  match (if has_parent_path path then create_directories path else None) with
  | Some message => throw (RuntimeError message)
  | None =>
      '(rc, made) ← api (sqlite3_open path) (λ '(_, made), if (made : bool) then [Opened] else []);
      modify (set_handle made) ;;
      (if negb (rc =? SQLITE_OK)%Z then
         message ← (if (made : bool) then errmsg else mret "unknown error");
         close ;; throw (RuntimeError ("Failed to open database: " +:+ message))
       else mret tt) ;;
      exec "PRAGMA journal_mode=WAL;" ;;
      exec "PRAGMA foreign_keys=ON;" ;;
      api (λ e, (tt, sqlite3_busy_timeout DEFAULT_INTERVAL e)) (λ _, []) ;;
      exec init
  end.
End connection.

(** how often a statement was prepared, less how often it was finalized *)
Definition ledger (stmt : Z) (l : list Call) : Z :=
  foldr (λ c n, match c with
    | Prepared s => if decide (s = stmt) then n + 1 else n
    | Finalized s => if decide (s = stmt) then n - 1 else n
    | _ => n
    end)%Z 0%Z l.

(** ** What the documentation says of a statement *)

(** a prepared statement: its text, the parameters bound so far, the rows it still gives *)
Record Stmt := mkStmt { s_text : string; s_params : list string; s_rows : option (list SqlRow) }.

(** a row as the code reads it: the columns as C strings *)
Definition read_row (row : SqlRow) : SqlRow := c_str <$> row.

(** SQLite's own limit on the length of a parameter *)
Definition bindable (p : string) : Prop := (slen p <= 1000000000)%Z.

(** the engine over the tables of DatabaseManager.v: [select] and [change] are what a
    statement means, the faults are those of [env_db] *)
Class SqliteSpec (E : Type) {HS : Sqlite E} {env : DbEnv} := {
  tables : E → Db;
  stmt_at : Z → E → option Stmt;
  first_statement : string → option (string * string);
  arity : string → nat;
  select : string → option (list string → Db → list SqlRow);
  change : string → list string → Db → string + (Z * Db);
  spec_prepare sql s rest e :
    first_statement sql = Some (s, rest) →
    ∃ rc stmt rest' e', sqlite3_prepare_v2 sql e = (rc, stmt, rest', e') ∧ tables e' = next_statement (tables e) ∧
      match env_db (S (statements (tables e))) with
      | Some (PrepareFails m) => rc ≠ SQLITE_OK ∧ sqlite3_errmsg e' = m
      | _ => rc = SQLITE_OK ∧ stmt ≠ 0%Z ∧ rest' = rest ∧ stmt_at stmt e' = Some (mkStmt s [] None)
      end;
  spec_bind stmt s ps p e :
    stmt_at stmt e = Some (mkStmt s ps None) → length ps < arity s → bindable p →
    ∃ e', sqlite3_bind_text stmt (Z.of_nat (S (length ps))) p (slen p) e = (SQLITE_OK, e') ∧ tables e' = tables e ∧
      stmt_at stmt e' = Some (mkStmt s (ps ++ [p]) None);
  spec_select stmt s ps st F e :
    stmt_at stmt e = Some (mkStmt s ps st) → length ps = arity s → select s = Some F →
    ∃ rc e', sqlite3_step stmt e = (rc, e') ∧ tables e' = tables e ∧
      match st, env_db (statements (tables e)) with
      | None, Some (StepFails m) => rc ≠ SQLITE_ROW ∧ rc ≠ SQLITE_DONE ∧ sqlite3_errmsg e' = m
      | _, _ =>
          match default (F ps (tables e)) st with
          | [] => rc = SQLITE_DONE
          | row :: rows => rc = SQLITE_ROW ∧ row_of stmt e' = read_row row ∧ stmt_at stmt e' = Some (mkStmt s ps (Some rows))
          end
      end;
  spec_change stmt s ps e :
    stmt_at stmt e = Some (mkStmt s ps None) → length ps = arity s → select s = None →
    ∃ rc e', sqlite3_step stmt e = (rc, e') ∧
      match env_db (statements (tables e)) with
      | Some (StepFails m) =>
          rc ≠ SQLITE_CONSTRAINT ∧ rc ≠ SQLITE_DONE ∧ sqlite3_errmsg e' = m ∧ tables e' = tables e
      | _ =>
          match change s ps (tables e) with
          | inl m => rc = SQLITE_CONSTRAINT ∧ sqlite3_errmsg e' = m ∧ tables e' = tables e
          | inr (k, db) =>
              rc = SQLITE_DONE ∧ sqlite3_changes e' = k ∧ tables e' = db ∧
              (sqlite_sequence db ≠ sqlite_sequence (tables e) → sqlite3_last_insert_rowid e' = sqlite_sequence db)
          end
      end;
  spec_finalize stmt e : tables (sqlite3_finalize stmt e) = tables e
}.

(** the statements of a text *)
Inductive script `{SqliteSpec E} : string → list string → Prop :=
  | script_end t : skip_blanks t = "" → script t []
  | script_more t s rest ss :
      skip_blanks t ≠ "" → first_statement (skip_blanks t) = Some (s, rest) → script rest ss → script t (s :: ss).
(** statements one after the other: the changes of the last *)
Fixpoint run_script {env : DbEnv} (fs : list (Db → string + (Z * Db))) (changes : Z) : SE Db Z :=
  match fs with
  | [] => mret changes
  | f :: fs => changes ← DatabaseManager.execute f; run_script fs changes
  end.
(** what an operation of the connection does to the tables *)
Definition seen `{SqliteSpec E} {A} (m : SE (Conn E) A) (c : Conn E) : outcome A * Db :=
  let '(o, c') := m c in (o, tables (engine c')).

(** * Lemmas *)

(** ** No statement is left behind *)

Lemma ledger_app stmt l l' : ledger stmt (l ++ l') = (ledger stmt l + ledger stmt l')%Z.
Proof.
  unfold ledger. induction l as [|c l IH]; [done|]. cbn [app foldr]. rewrite IH.
  destruct c; try done; case_decide; lia.
Qed.

Section released.
Context {E : Type} {HS : Sqlite E} {laws : SqliteLaws E}.
(** what the ledger says of every statement, plus [stmt] once more if it is one *)
Context (owed : Z → Z).
Definition owes (stmt : Z) (c : Conn E) : Prop :=
  ∀ s, ledger s (calls c) = (owed s + if decide (s = stmt ∧ stmt ≠ 0%Z) then 1 else 0)%Z.
Definition even (c : Conn E) : Prop := ∀ s, ledger s (calls c) = owed s.

Lemma owes_null c : owes 0 c ↔ even c.
Proof.
  unfold owes, even. split; intros H s; specialize (H s); [rewrite decide_False in H by tauto|rewrite decide_False by tauto]; lia.
Qed.
Lemma api_keeps stmt {A} (f : E → A * E) : preserves (owes stmt) (api f (λ _, [])).
Proof.
  intros c Hc. unfold run_state, api. destruct (f (engine c)) as [a e]. intros s. cbn. rewrite app_nil_r. apply Hc.
Qed.
Hint Resolve api_keeps : pres.
Lemma errmsg_keeps stmt : preserves (owes stmt) errmsg.
Proof. apply preserves_gets. Qed.
Hint Resolve errmsg_keeps : pres.
Lemma bind_params_keeps stmt s i ps : preserves (owes stmt) (bind_params s i ps).
Proof. revert i. induction ps as [|p ps IH]; intros i; cbn [bind_params]; solve_pres. Qed.
Hint Resolve bind_params_keeps : pres.
Lemma step_keeps stmt s : preserves (owes stmt) (step s).
Proof. apply api_keeps. Qed.
Hint Resolve step_keeps : pres.

Lemma bind_params_total s i ps : total (bind_params s i ps).
Proof.
  revert i. induction ps as [|p ps IH]; intros i; cbn [bind_params]; solve_total.
  intros c. unfold run_out, api. destruct (sqlite3_bind_text _ _ _ _ _). by eexists.
Qed.
Lemma finalize_run s c : finalize s c = (Ok tt, run_state (finalize s) c).
Proof. unfold run_state, finalize, when. by destruct (negb _). Qed.

Lemma prepare_owes sql c :
  even c →
  ∃ rc stmt rest c', prepare sql c = (Ok (rc, stmt, rest), c') ∧ owes stmt c' ∧ (rc ≠ SQLITE_OK → stmt = 0%Z).
Proof using laws.
  intros Hc. unfold prepare, api. destruct (sqlite3_prepare_v2 sql (engine c)) as [[[rc stmt] rest] e] eqn:Hp.
  exists rc, stmt, rest, (mkConn e (handle c) (calls c ++ if (stmt =? 0)%Z then [] else [Prepared stmt])). split; [done|].
  split; [|by eapply prepare_null]. intros s. cbn [calls]. rewrite ledger_app, Hc. f_equal.
  destruct (Z.eqb_spec stmt 0) as [->|Hne]; [by rewrite decide_False by tauto|].
  cbn. repeat case_decide; first [lia|naive_solver].
Qed.
Lemma finalize_even stmt c : owes stmt c → even (run_state (finalize stmt) c).
Proof.
  intros Hc s. specialize (Hc s). unfold run_state, finalize, when. destruct (Z.eqb_spec stmt 0) as [->|Hne]; cbn -[ledger].
  - rewrite decide_False in Hc by tauto. lia.
  - rewrite ledger_app, Hc. cbn. repeat case_decide; first [lia|naive_solver].
Qed.
Lemma scoped_even {A} stmt (body : SE (Conn E) A) :
  preserves (owes stmt) body → triple (owes stmt) (scoped stmt body) (λ _, even).
Proof.
  intros Hb c Hc. specialize (Hb c Hc). unfold run_state at 1, run_out, scoped. unfold run_state in Hb.
  destruct (body c) as [o c']. by apply finalize_even.
Qed.
(** from even to even, with the statement in between *)
Lemma prepareLocked_owes sql ps :
  triple even (prepareLocked sql ps) (λ o c, match o with Ok stmt => owes stmt c | Throw _ => even c end).
Proof using laws.
  intros c Hc. destruct (prepare_owes sql c Hc) as (rc & stmt & rest & c' & Hp & Ho & Hnull).
  destruct (bind_params_total stmt 1 ps c') as [bound Hb]. pose proof (bind_params_keeps stmt stmt 1 ps c' Ho) as Hk.
  unfold run_out, run_state in *. unfold prepareLocked. erewrite !bind_run by exact Hp. cbv beta iota.
  destruct (Z.eqb_spec rc SQLITE_OK) as [->|Hrc]; cbn [negb]; cbv iota.
  - destruct (bind_params stmt 1 ps c') as [o c1] eqn:Hrun. cbn [fst snd] in *. subst o. 
    erewrite !bind_run by exact Hrun.
    destruct bound; cbn [negb]; cbv iota; [exact Hk|]. erewrite !bind_run by reflexivity. erewrite !bind_run by apply finalize_run.
    by apply finalize_even.
  - apply owes_null. rewrite Hnull in Ho by done. exact Ho.
Qed.
(** a statement that is prepared, used and finalized *)
Lemma statement_even {A} sql ps (body : Z → SE (Conn E) A) :
  (∀ stmt, preserves (owes stmt) (body stmt)) → preserves even (stmt ← prepareLocked sql ps; scoped stmt (body stmt)).
Proof using laws.
  intros Hb. eapply triple_bind; [apply prepareLocked_owes|intros stmt; by apply scoped_even|by intros e c Hc].
Qed.
Lemma query_loop_keeps stmt s n rows : preserves (owes stmt) (query_loop n s rows).
Proof. revert rows. induction n as [|n IH]; intros rows; cbn [query_loop]; solve_pres; apply IH. Qed.
Lemma execute_loop_even n tail ps k : preserves even (execute_loop n tail ps k).
Proof using laws.
  revert tail k. induction n as [|n IH]; intros tail k; [apply preserves_ret|]. cbn [execute_loop]. cbv zeta.
  destruct (is_empty _); [apply preserves_ret|]. intros c Hc.
  destruct (prepare_owes (skip_blanks tail) c Hc) as (rc & stmt & rest & c' & Hp & Ho & Hnull).
  unfold run_state. erewrite !bind_run by exact Hp. cbv beta iota. destruct (Z.eqb_spec rc SQLITE_OK) as [->|Hrc]; cbn [negb]; cbv iota.
  - assert (triple (owes stmt) (changes ← scoped stmt (run_one stmt ps); execute_loop n rest ps changes) (λ _, even)) as H.
    { eapply triple_bind; [apply scoped_even; unfold run_one; solve_pres|intros a; apply IH|by intros e d Hd]. }
    exact (H c' Ho).
  - apply owes_null. rewrite Hnull in Ho by done. exact Ho.
Qed.
End released.

(** ** What the statements do to the tables *)

Lemma skip_blanks_length s : String.length (skip_blanks s) <= String.length s.
Proof. induction s as [|c s IH]; [done|]. cbn [skip_blanks]. destruct (is_blank c); cbn [String.length]; lia. Qed.

Lemma bindable_length p : bindable p → as_int (slen p) = slen p.
Proof.
  unfold bindable, as_int, u32, slen. intros Hp. rewrite Z.mod_small by lia. cbv zeta.
  by destruct (Z.ltb_spec (Z.of_nat (String.length p)) (2 ^ 31)); [|lia].
Qed.

Section refines.
Context {E : Type} {HS : Sqlite E} {laws : SqliteLaws E} {env : DbEnv} {spec : SqliteSpec E}.

Lemma bind_params_run stmt s ps : Forall bindable ps → ∀ bound c,
  stmt_at stmt (engine c) = Some (mkStmt s bound None) → length bound + length ps = arity s →
  ∃ c', bind_params stmt (Z.of_nat (S (length bound))) ps c = (Ok true, c') ∧ tables (engine c') = tables (engine c) ∧
    stmt_at stmt (engine c') = Some (mkStmt s (bound ++ ps) None).
Proof using Type.
  induction 1 as [|p ps Hp Hps IH]; intros bound c Hs Hlen.
  { exists c. by rewrite app_nil_r. }
  cbn [length] in Hlen. destruct (spec_bind stmt s bound p (engine c) Hs) as (e & Hb & Ht & Hs'); [lia|done|].
  cbn [bind_params]. rewrite bindable_length by done. erewrite bind_run by (unfold api; rewrite Hb; reflexivity). rewrite Z.eqb_refl. cbn [negb].
  destruct (IH (bound ++ [p]) (mkConn e (handle c) (calls c ++ []))) as (c' & Hrun & Ht' & Hs''); [done|rewrite length_app; cbn; lia|].
  exists c'. rewrite length_app in Hrun. replace (Z.of_nat (S (length bound)) + 1)%Z with (Z.of_nat (S (length bound + 1))) by lia.
  rewrite <-app_assoc in Hs''. by rewrite Ht'.
Qed.

(** the statement with its parameters, or the fault *)
Lemma prepareLocked_run sql s rest ps c :
  first_statement sql = Some (s, rest) → length ps = arity s → Forall bindable ps →
  let db := next_statement (tables (engine c)) in
  ∃ c', tables (engine c') = db ∧
    match env_db (statements db) with
    | Some (PrepareFails m) => prepareLocked sql ps c = (Throw (RuntimeError ("Failed to prepare SQL: " +:+ m)), c')
    | _ => ∃ stmt, prepareLocked sql ps c = (Ok stmt, c') ∧ stmt_at stmt (engine c') = Some (mkStmt s ps None)
    end.
Proof using Type.
  intros Hs Hlen Hps db. destruct (spec_prepare sql s rest (engine c) Hs) as (rc & stmt & rest' & e & Hp & Ht & Hcase).
  change (S (statements (tables (engine c)))) with (statements db) in Hcase.
  assert (∃ l, prepare sql c = (Ok (rc, stmt, rest'), mkConn e (handle c) l)) as [l Hrun] by (eexists; unfold prepare, api; by rewrite Hp).
  set (c1 := mkConn e (handle c) l) in *. assert (∀ k, stmt_at stmt e = Some (mkStmt s [] None) → rc = SQLITE_OK → k = prepareLocked sql ps c →
    ∃ c', tables (engine c') = db ∧ ∃ stmt, k = (Ok stmt, c') ∧ stmt_at stmt (engine c') = Some (mkStmt s ps None)) as Hok.
  { intros k Hat -> ->. destruct (bind_params_run stmt s ps Hps [] c1 Hat Hlen) as (c' & Hb & Ht' & Hat').
    exists c'. split; [by rewrite Ht'|]. exists stmt. split; [|done]. unfold prepareLocked. erewrite bind_run by exact Hrun.
    cbv beta iota. rewrite Z.eqb_refl. cbn [negb]. by erewrite bind_run by exact Hb. }
  destruct (env_db (statements db)) as [[m|m]|]; [|destruct Hcase as (? & ? & ? & ?); by eapply Hok..].
  destruct Hcase as [Hrc Hm]. exists c1. split; [done|]. unfold prepareLocked. erewrite bind_run by exact Hrun. cbv beta iota.
  rewrite (proj2 (Z.eqb_neq _ _) Hrc). cbn [negb]. erewrite bind_run by reflexivity. cbn [engine c1]. by rewrite Hm.
Qed.

Lemma scoped_run {A} stmt (m : SE (Conn E) A) c o c' :
  m c = (o, c') → ∃ c'', scoped stmt m c = (o, c'') ∧ tables (engine c'') = tables (engine c').
Proof using Type.
  intros H. unfold scoped. rewrite H. eexists. split; [done|]. unfold run_state, finalize, when.
  destruct (negb _); [|done]. apply spec_finalize.
Qed.
Lemma step_run stmt c rc e : sqlite3_step stmt (engine c) = (rc, e) → step stmt c = (Ok rc, mkConn e (handle c) (calls c ++ [])).
Proof using Type. intros H. unfold step, api. by rewrite H. Qed.

(** the rows a started statement gives *)
Lemma query_loop_rows stmt s ps F : length ps = arity s → select s = Some F → ∀ rows fuel got c,
  stmt_at stmt (engine c) = Some (mkStmt s ps (Some rows)) → rows_left stmt (engine c) < fuel →
  ∃ c', query_loop fuel stmt got c = (Ok (got ++ (read_row <$> rows)), c') ∧ tables (engine c') = tables (engine c).
Proof using laws.
  intros Hlen HF rows. induction rows as [|row rows IH]; intros fuel got c Hat Hfuel;
    destruct (spec_select stmt s ps _ F (engine c) Hat Hlen HF) as (rc & e & Hstep & Ht & Hcase); cbn [from_option id] in Hcase;
    (destruct fuel as [|fuel]; [lia|]); cbn [query_loop]; erewrite bind_run by (apply step_run; exact Hstep).
  - subst rc. rewrite fmap_nil, (app_nil_r got). eexists. split; [reflexivity|exact Ht].
  - destruct Hcase as (-> & Hrow & Hat'). rewrite Z.eqb_refl. erewrite bind_run by reflexivity. cbn [engine]. rewrite Hrow.
    apply step_takes in Hstep. destruct (IH fuel (got ++ [read_row row]) (mkConn e (handle c) (calls c ++ []))) as (c' & Hrun & Ht'); [done|cbn; lia|].
    exists c'. rewrite <-app_assoc in Hrun. split; [exact Hrun|]. by rewrite Ht'.
Qed.
Lemma query_loop_run stmt s ps F fuel c :
  length ps = arity s → select s = Some F → stmt_at stmt (engine c) = Some (mkStmt s ps None) → rows_left stmt (engine c) < fuel →
  let db := tables (engine c) in
  ∃ c', tables (engine c') = db ∧
    query_loop fuel stmt [] c = (match env_db (statements db) with
      | Some (StepFails m) => Throw (RuntimeError ("Failed to step SQL: " +:+ m))
      | _ => Ok (read_row <$> F ps db)
      end, c').
Proof using laws.
  intros Hlen HF Hat Hfuel db. destruct (spec_select stmt s ps _ F (engine c) Hat Hlen HF) as (rc & e & Hstep & Ht & Hcase).
  cbn [from_option id] in Hcase. fold db in Hcase, Ht. destruct fuel as [|fuel]; [lia|]. cbn [query_loop].
  set (c1 := mkConn e (handle c) (calls c ++ [])). pose proof (step_run stmt c rc e Hstep) as Hs. fold c1 in Hs. erewrite bind_run by exact Hs.
  assert (match F ps db with [] => rc = SQLITE_DONE | row :: rows => rc = SQLITE_ROW ∧ row_of stmt e = read_row row ∧ stmt_at stmt e = Some (mkStmt s ps (Some rows)) end →
    ∃ c', tables (engine c') = db ∧ (if (rc =? SQLITE_ROW)%Z then row ← gets (λ c, row_of stmt (engine c)); query_loop fuel stmt ([] ++ [row])
      else if (rc =? SQLITE_DONE)%Z then mret [] else message ← errmsg; throw (RuntimeError ("Failed to step SQL: " +:+ message))) c1 = (Ok (read_row <$> F ps db), c')) as Hok.
  { destruct (F ps db) as [|row rows]; [intros ->; by exists c1|]. intros (-> & Hrow & Hat'). rewrite Z.eqb_refl.
    erewrite bind_run by reflexivity. cbn [engine c1]. rewrite Hrow. apply step_takes in Hstep.
    destruct (query_loop_rows stmt s ps F Hlen HF rows fuel [read_row row] c1 Hat') as (c' & Hrun & Ht'); [cbn; lia|]. exists c'. by rewrite Ht'. }
  destruct (env_db (statements db)) as [[m|m]|]; [by apply Hok| |by apply Hok].
  destruct Hcase as (Hr & Hd & Hm). exists c1. split; [done|]. rewrite (proj2 (Z.eqb_neq _ _) Hr), (proj2 (Z.eqb_neq _ _) Hd).
  erewrite bind_run by reflexivity. cbn [engine c1]. by rewrite Hm.
Qed.

(** one statement that changes the tables, once it is prepared; [text] is how the exception starts *)
Definition stepped (text : string) (s : string) (ps : list string) (db : Db) : outcome Z * Db :=
  match env_db (statements db) with
  | Some (StepFails m) => (Throw (RuntimeError (text +:+ m)), db)
  | _ => match change s ps db with
         | inl m => (Throw (ConstraintError m), db)
         | inr (k, db') => (Ok k, db')
         end
  end.
Lemma run_statement_stepped text s ps db :
  run_statement (fault_text text) (change s ps) db =
    match env_db (S (statements db)) with
    | Some (PrepareFails m) => (Throw (RuntimeError ("Failed to prepare SQL: " +:+ m)), next_statement db)
    | _ => stepped text s ps (next_statement db)
    end.
Proof using Type. unfold run_statement, stepped. cbn [statements next_statement]. by destruct (env_db _) as [[]|]. Qed.

(** the branches behind the step of such a statement *)
Definition after_step {A} (constraint : string → exn) (text : string) (done : SE (Conn E) A) (rc : Z) : SE (Conn E) A :=
  if (rc =? SQLITE_CONSTRAINT)%Z then message ← errmsg; throw (constraint message)
  else if negb (rc =? SQLITE_DONE)%Z then message ← errmsg; throw (RuntimeError (text +:+ message))
  else done.
Lemma after_step_run {A} constraint text (f : E → A) stmt s ps c :
  stmt_at stmt (engine c) = Some (mkStmt s ps None) → length ps = arity s → select s = None →
  let db := tables (engine c) in
  ∃ c', (step stmt ≫= after_step constraint text (gets (λ c, f (engine c)))) c =
      (match (stepped text s ps db).1 with
       | Ok _ => Ok (f (engine c'))
       | Throw (ConstraintError m) => Throw (constraint m)
       | Throw e => Throw e
       end, c') ∧
    tables (engine c') = (stepped text s ps db).2 ∧
    (∀ k, (stepped text s ps db).1 = Ok k → sqlite3_changes (engine c') = k ∧
      (sqlite_sequence (stepped text s ps db).2 ≠ sqlite_sequence db →
       sqlite3_last_insert_rowid (engine c') = sqlite_sequence (stepped text s ps db).2)).
Proof using Type.
  intros Hat Hlen HF db. destruct (spec_change stmt s ps (engine c) Hat Hlen HF) as (rc & e & Hstep & Hcase). fold db in Hcase.
  exists (mkConn e (handle c) (calls c ++ [])). erewrite bind_run by (apply step_run; exact Hstep). cbn [engine]. unfold after_step, stepped.
  destruct (env_db (statements db)) as [[m|m]|].
  2: { destruct Hcase as (Hc & Hd & Hm & Ht). rewrite (proj2 (Z.eqb_neq _ _) Hc), (proj2 (Z.eqb_neq _ _) Hd). cbn [negb fst snd].
       erewrite bind_run by reflexivity. cbn [engine]. by rewrite Hm. }
  all: destruct (change s ps db) as [m'|[k db']]; cbn [fst snd];
    [destruct Hcase as (-> & Hm & Ht); rewrite Z.eqb_refl; erewrite bind_run by reflexivity; cbn [engine]; by rewrite Hm
    |destruct Hcase as (-> & Hk & Ht & Hr); rewrite Z.eqb_refl; cbn [negb];
     change (SQLITE_DONE =? SQLITE_CONSTRAINT)%Z with false; cbv iota; split; [done|]; split; [done|]; by intros ? [= <-]].
Qed.

Lemma run_one_run stmt s ps c :
  stmt_at stmt (engine c) = Some (mkStmt s [] None) → length ps = arity s → select s = None → Forall bindable ps →
  ∃ c', run_one stmt ps c = ((stepped STEP_FAILED s ps (tables (engine c))).1, c') ∧
    tables (engine c') = (stepped STEP_FAILED s ps (tables (engine c))).2.
Proof using Type.
  intros Hat Hlen HF Hps. destruct (bind_params_run stmt s ps Hps [] c Hat Hlen) as (c1 & Hb & Ht & Hat1).
  unfold run_one. erewrite bind_run by exact Hb. cbn [negb].
  destruct (after_step_run ConstraintError STEP_FAILED sqlite3_changes stmt s ps c1 Hat1 Hlen HF) as (c' & Hrun & Ht' & Hk).
  rewrite Ht in *. exists c'. split; [|exact Ht']. etrans; [exact Hrun|].
  destruct (stepped _ _ _ _) as [[k|[]] db']; cbn [fst snd] in *; try done. by destruct (Hk k eq_refl) as [-> _].
Qed.

Definition changing (ps : list string) (s : string) : Prop := select s = None ∧ length ps = arity s.
Lemma execute_loop_run ps : Forall bindable ps → ∀ t ss, script t ss → Forall (changing ps) ss → ∀ fuel k c,
  String.length t < fuel →
  seen (execute_loop fuel t ps k) c = run_script ((λ s, change s ps) <$> ss) k (tables (engine c)).
Proof using laws.
  intros Hps t ss Hs. induction Hs as [t Ht|t s rest ss Ht Hf Hs IH]; intros Hss fuel k c Hfuel;
    (destruct fuel as [|fuel]; [lia|]); cbn [execute_loop]; cbv zeta.
  { unfold seen. by rewrite Ht. }
  assert (is_empty (skip_blanks t) = false) as -> by (by destruct (skip_blanks t)).
  apply Forall_cons in Hss as [[HF Hlen] Hss]. set (db := tables (engine c)).
  destruct (spec_prepare _ s rest (engine c) Hf) as (rc & stmt & rest' & e & Hp & Hdb & Hcase). fold db in Hdb, Hcase.
  assert (∃ l, prepare (skip_blanks t) c = (Ok (rc, stmt, rest'), mkConn e (handle c) l)) as [l Hrun]
    by (eexists; unfold prepare, api; by rewrite Hp).
  set (c1 := mkConn e (handle c) l) in *. cbn [fmap list_fmap run_script]. unfold seen. erewrite bind_run by exact Hrun. cbv beta iota.
  match goal with |- _ = (?m ≫= ?f) ?d =>
    change ((m ≫= f) d) with (match m d with (Ok a, d') => f a d' | (Throw x, d') => (Throw x, d') end) end.
  rewrite run_statement_stepped.
  assert (stmt_at stmt e = Some (mkStmt s [] None) → rc = SQLITE_OK → rest' = rest →
    (let '(o, c') := (if negb (rc =? SQLITE_OK)%Z then message ← errmsg; throw (RuntimeError ("Failed to prepare SQL: " +:+ message))
       else changes ← scoped stmt (run_one stmt ps); execute_loop fuel rest' ps changes) c1 in (o, tables (engine c'))) =
    match stepped STEP_FAILED s ps (next_statement db) with
    | (Ok a, d) => run_script ((λ s, change s ps) <$> ss) a d
    | (Throw x, d) => (Throw x, d)
    end) as Hok.
  { intros Hat -> ->. rewrite Z.eqb_refl. cbn [negb]. destruct (run_one_run stmt s ps c1 Hat Hlen HF Hps) as (c2 & Hone & Ht2).
    cbn [engine c1] in Hone, Ht2. rewrite Hdb in Hone, Ht2. destruct (scoped_run stmt _ _ _ _ Hone) as (c3 & Hsc & Ht3). rewrite <-Ht3 in Ht2.
    destruct (stepped _ _ _ _) as [[a|x] d]; cbn [fst snd] in *; [erewrite bind_run by exact Hsc|erewrite bind_throw by exact Hsc; by rewrite Ht2].
    rewrite <-Ht2. apply IH; [done|]. apply prepare_takes in Hp; [|done].
    pose proof (skip_blanks_length t). lia. }
  destruct (env_db (S (statements db))) as [[m|m]|]; [|destruct Hcase as (? & ? & ? & ?); by apply Hok..].
  destruct Hcase as [Hrc Hm]. rewrite (proj2 (Z.eqb_neq _ _) Hrc). cbn [negb]. erewrite bind_run by reflexivity.
  unfold throw. cbn [engine c1]. by rewrite Hm, Hdb.
Qed.

(** the insertion of a room, from its statement on *)
Definition room_stepped (r : outcome Z * Db) : outcome Z * Db :=
  match r with
  | (Ok _, db) => (Ok (as_int (sqlite_sequence db)), db)
  | (Throw (ConstraintError _), db) => (Throw (ConstraintError "Room already exists"), db)
  | (Throw e, db) => (Throw e, db)
  end.
Lemma insert_room_stepped s ps db :
  DatabaseManager.insert_room (change s ps) db =
    match env_db (S (statements db)) with
    | Some (PrepareFails m) => (Throw (RuntimeError ("Failed to prepare SQL: " +:+ m)), next_statement db)
    | _ => room_stepped (stepped "Failed to create room: " s ps (next_statement db))
    end.
Proof using Type.
  unfold DatabaseManager.insert_room, mbind, SE_bind, try_catch. rewrite run_statement_stepped.
  destruct (env_db _) as [[]|]; [done|..]; by destruct (stepped _ _ _ _) as [[k|[]] d].
Qed.
Lemma insert_scoped stmt s ps c db :
  stmt_at stmt (engine c) = Some (mkStmt s ps None) → tables (engine c) = db → length ps = arity s → select s = None →
  (∀ db k db', change s ps db = inr (k, db') → sqlite_sequence db' ≠ sqlite_sequence db) →
  (let '(o, c') := scoped stmt
     (rc ← step stmt;
      if (rc =? SQLITE_CONSTRAINT)%Z then throw (ConstraintError "Room already exists")
      else if negb (rc =? SQLITE_DONE)%Z
      then message ← errmsg; throw (RuntimeError ("Failed to create room: " +:+ message))
      else gets (λ c, as_int (sqlite3_last_insert_rowid (engine c)))) c in (o, tables (engine c'))) =
    room_stepped (stepped "Failed to create room: " s ps db).
Proof using Type.
  intros Hat <- Hlen HF Hseq.
  destruct (after_step_run (λ _, ConstraintError "Room already exists") "Failed to create room: "
    (λ e, as_int (sqlite3_last_insert_rowid e)) stmt s ps c Hat Hlen HF) as (c' & Hrun & Ht & Hk).
  destruct (scoped_run stmt _ c _ c' Hrun) as (c2 & Hs & Ht2). etrans; [exact (f_equal (λ '(o, c'), (o, tables (engine c'))) Hs)|].
  cbv beta iota. rewrite Ht2, Ht. set (db := tables (engine c)) in *.
  destruct (stepped _ _ _ db) as [[k|[]] d] eqn:Est; cbn [fst snd room_stepped] in *; try done.
  destruct (Hk k eq_refl) as [_ Hrow]. rewrite Hrow; [done|].
  unfold stepped in Est. destruct (env_db _) as [[]|]; try done; destruct (change s ps db) as [|[k' d']] eqn:Ec; try done;
    injection Est as _ <-; by eapply Hseq.
Qed.
End refines.

(** deleting a room and renaming a user are scripts *)
Lemma delete_room_script {env : DbEnv} id db :
  (3 <= id)%Z →
  deleteRoom id db =
    (changes ← run_script [sql_delete_room_allow id; sql_delete_room_membership id; sql_delete_room_messages id; sql_delete_room_rooms id] 0;
     if (changes =? 0)%Z then throw (ConstraintError "Room not found") else mret tt) db.
Proof.
  intros Hid. unfold deleteRoom. destruct (Z.ltb_spec id 3); [lia|]. unfold run_script, mbind, SE_bind.
  by repeat (destruct (run_statement _ _ _) as [[] ?]; [|done]).
Qed.
Lemma update_user_script {env : DbEnv} d c db :
  update_user_sql d c db =
    (run_script [sql_update_user_users d c; sql_update_user_membership d c; sql_update_user_online d c; sql_update_user_messages d c] 0 ;;
     mret tt) db.
Proof.
  unfold update_user_sql, run_script, mbind, SE_bind. by repeat (destruct (run_statement _ _ _) as [[] ?]; [|done]).
Qed.

(** ** Opening *)

Section opening.
Context {E : Type} {HS : Sqlite E}.
(** [exec] adds its text; what it throws names itself *)
Lemma exec_run sql (c : Conn E) :
  ∃ o e, exec sql c = (o, mkConn e (handle c) (calls c ++ [Executed sql])) ∧
    (o = Ok tt ∨ ∃ m, o = Throw (RuntimeError ("Failed to execute SQL statement: " +:+ m))).
Proof.
  unfold exec. destruct (sqlite3_exec sql (engine c)) as [[rc err] e] eqn:H.
  erewrite bind_run by (unfold api; rewrite H; reflexivity). cbv beta iota.
  destruct (rc =? SQLITE_OK)%Z; eexists _, e; (split; [reflexivity|]); [by left|right; by eexists].
Qed.
Lemma exec_step {A} sql (k : SE (Conn E) A) c o c' :
  (exec sql ;; k) c = (o, c') →
  (∃ m, o = Throw (RuntimeError ("Failed to execute SQL statement: " +:+ m)) ∧ handle c' = handle c ∧ calls c' = calls c ++ [Executed sql]) ∨
  ∃ c1, k c1 = (o, c') ∧ handle c1 = handle c ∧ calls c1 = calls c ++ [Executed sql].
Proof.
  destruct (exec_run sql c) as (x & e & Hx & [->|[m ->]]).
  - erewrite bind_run by exact Hx. intros Hk. right. by eexists.
  - erewrite bind_throw by exact Hx. intros [= <- <-]. left. by exists m.
Qed.
(** the pragmas and the schema: all of them, or up to the one that fails *)
Lemma pragmas_run init (c : Conn E) o c' :
  (exec "PRAGMA journal_mode=WAL;" ;; exec "PRAGMA foreign_keys=ON;" ;;
   api (λ e, (tt, sqlite3_busy_timeout DEFAULT_INTERVAL e)) (λ _, []) ;; exec init) c = (o, c') →
  let todo := [Executed "PRAGMA journal_mode=WAL;"; Executed "PRAGMA foreign_keys=ON;"; Executed init] in
  ∃ l, calls c' = calls c ++ l ∧ handle c' = handle c ∧
    match o with
    | Ok _ => l = todo
    | Throw e => (∃ n, 0 < n <= 3 ∧ l = take n todo) ∧ ∃ m, e = RuntimeError ("Failed to execute SQL statement: " +:+ m)
    end.
Proof.
  intros H todo. apply exec_step in H as [(m & -> & Hh & Hl)|(c1 & H & Hh1 & Hl1)].
  { eexists. split; [exact Hl|]. split; [done|]. split; [by exists 1; split; [lia|]|by eexists]. }
  apply exec_step in H as [(m & -> & Hh & Hl)|(c2 & H & Hh2 & Hl2)].
  { rewrite Hl1, <-app_assoc in Hl. eexists. split; [exact Hl|]. split; [congruence|]. split; [by exists 2; split; [lia|]|by eexists]. }
  erewrite bind_run in H by reflexivity.
  match type of H with exec init ?d = _ => destruct (exec_run init d) as (x & e & Hx & Hcase) end. 
  pose proof (eq_trans (eq_sym H) Hx) as Heq. injection Heq as -> ->. clear H Hx.
  exists todo. cbn [calls handle]. rewrite Hl2, Hl1, app_nil_r, <-!app_assoc. split; [done|]. split; [congruence|].
  destruct Hcase as [->|[m ->]]; [done|]. split; [by exists 3; split; [lia|]|by eexists].
Qed.
Lemma refused_run made (c : Conn E) :
  handle c = made →
  ∃ m c', (message ← (if made then errmsg else mret "unknown error"); close ;;
      throw (RuntimeError ("Failed to open database: " +:+ message)) : SE (Conn E) unit) c = (Throw (RuntimeError m), c') ∧
    calls c' = calls c ++ (if made then [Closed] else []) ∧ handle c' = false.
Proof.
  destruct c as [e h l]. cbn [handle calls]. intros <-. destruct h; eexists _, _; (split; [reflexivity|]); [done|]. by rewrite app_nil_r.
Qed.
(** the destructor *)
Lemma close_run (c : Conn E) :
  calls (run_state close c) = calls c ++ (if handle c then [Closed] else []) ∧ handle (run_state close c) = false.
Proof. unfold run_state, close, mbind, SE_bind, gets, when. destruct (handle c) eqn:Hd; [done|]. by rewrite app_nil_r. Qed.
End opening.

(** * Theorems *)

(** C27. No statement is left behind: whatever the engine answers, an operation of the
    connection finalizes each statement it prepares, once, and no other, whether it returns
    or throws: a pragma, a query, a script of several statements that may fail at any of
    them, and the insertion of a room. *)
Theorem statements_released {E} `{SqliteLaws E} (c : Conn E) sql params stmt :
  let same {A} (m : SE (Conn E) A) := ledger stmt (calls (run_state m c)) = ledger stmt (calls c) in
  same (exec sql) ∧ same (query sql params) ∧ same (execute sql params) ∧ same (insert_room sql params).
Proof.
  set (owed := λ s, ledger s (calls c)).
  assert (∀ A (m : SE (Conn E) A), preserves (even owed) m → ledger stmt (calls (run_state m c)) = ledger stmt (calls c)) as Hm.
  { intros A m Hp. by apply (Hp c). }
  split_and!; apply Hm.
  - intros d Hd s. destruct (exec_run sql d) as (o & e & Hrun & _). unfold run_state. rewrite Hrun. cbn [snd calls].
    rewrite ledger_app, Hd. cbn. lia.
  - apply statement_even. intros s. pose proof (query_loop_keeps owed s). solve_pres.
  - apply execute_loop_even.
  - apply statement_even. intros s. pose proof (step_keeps owed s). pose proof (errmsg_keeps owed s). solve_pres.
Qed.

(** C26. The statements do what the tables say: over an engine that behaves as documented a
    query returns the rows of its SELECT and leaves the tables; a text of several statements
    runs them in order with the same parameters, stops at the first that fails with its
    constraint or fault, and returns the changes of the last; the insertion of a room
    returns the id the table gave it.  This is [query], [execute] and [insert_room] of
    DatabaseManager.v, the exception and the tables left behind included. *)
Theorem statements_refine {E} `{SqliteLaws E} {env : DbEnv} {spec : SqliteSpec E} (c : Conn E) sql params s rest ss :
  Forall bindable params → first_statement sql = Some (s, rest) → length params = arity s →
  (∀ F, select s = Some F → seen (query sql params) c = DatabaseManager.query (λ db, read_row <$> F params db) (tables (engine c))) ∧
  (script sql ss → Forall (changing params) ss →
   seen (execute sql params) c = run_script ((λ s, change s params) <$> ss) 0 (tables (engine c))) ∧
  (select s = None → (∀ db k db', change s params db = inr (k, db') → sqlite_sequence db' ≠ sqlite_sequence db) →
   seen (insert_room sql params) c = DatabaseManager.insert_room (change s params) (tables (engine c))).
Proof.
  intros Hps Hf Hlen. destruct (prepareLocked_run sql s rest params c Hf Hlen Hps) as (c1 & Ht & Hp). cbv zeta in Ht, Hp.
  set (db := next_statement (tables (engine c))) in *. split_and!.
  - intros F HF. unfold seen, query, DatabaseManager.query. fold db.
    assert (∀ stmt, stmt_at stmt (engine c1) = Some (mkStmt s params None) → ∃ c', tables (engine c') = db ∧
      scoped stmt (fuel ← gets (λ c, S (rows_left stmt (engine c))); query_loop fuel stmt []) c1 =
        (match env_db (statements db) with
         | Some (StepFails m) => Throw (RuntimeError (STEP_FAILED +:+ m)) | _ => Ok (read_row <$> F params db) end, c')) as Hq.
    { intros stmt Hat. destruct (query_loop_run stmt s params F (S (rows_left stmt (engine c1))) c1 Hlen HF Hat) as (c2 & Ht2 & Hrun); [lia|].
      rewrite Ht in *. destruct (scoped_run stmt (fuel ← gets (λ c, S (rows_left stmt (engine c))); query_loop fuel stmt []) c1 _ c2 Hrun)
        as (c3 & Hs & Ht3). exists c3. by rewrite Ht3. }
    destruct (env_db (statements db)) as [[m|m]|]; [by erewrite bind_throw by exact Hp; rewrite Ht|..];
      destruct Hp as (stmt & Hp & Hat); destruct (Hq stmt Hat) as (c2 & Ht2 & Hrun); erewrite bind_run by exact Hp; by rewrite Hrun, Ht2.
  - intros Hs Hss. apply execute_loop_run; [done..|lia].
  - intros HF Hseq. rewrite insert_room_stepped. unfold seen. change (S (statements (tables (engine c)))) with (statements db). fold db.
    assert (∀ stmt, stmt_at stmt (engine c1) = Some (mkStmt s params None) →
      prepareLocked sql params c = (Ok stmt, c1) →
      (let '(o, c') := insert_room sql params c in (o, tables (engine c'))) =
      room_stepped (stepped "Failed to create room: " s params db)) as Hi.
    { intros stmt Hat Hrun. unfold insert_room. erewrite bind_run by exact Hrun.
      by apply (insert_scoped stmt s params c1 db Hat Ht Hlen HF). }
    destruct (env_db (statements db)) as [[m|m]|]; [|destruct Hp as (stmt & Hp & Hat); by apply (Hi stmt)..].
    unfold insert_room. erewrite bind_throw by exact Hp. by rewrite Ht.
Qed.

(** C28. Opening the database: it runs the two pragmas and the schema in order and ends with
    an open handle; when the directory or the file cannot be had the connection is closed
    again and the handle null; when a pragma or the schema fails the exception leaves the
    handle open and nothing closes it, since an object whose constructor throws is never
    destroyed.  The destructor closes exactly an open handle. *)
Theorem open_database {E} `{SqliteLaws E} `{Directories} path init (c : Conn E) :
  handle c = false →
  let todo := [Executed "PRAGMA journal_mode=WAL;"; Executed "PRAGMA foreign_keys=ON;"; Executed init] in
  let '(o, c') := connect path init c in
  (∃ l, calls c' = calls c ++ l ∧
    match o with
    | Ok _ => handle c' = true ∧ l = Opened :: todo
    | Throw e =>
        handle c' = false ∧ (l = [] ∨ l = [Opened; Closed]) ∨
        handle c' = true ∧ (∃ n, 0 < n <= 3 ∧ l = Opened :: take n todo) ∧
          ∃ m, e = RuntimeError ("Failed to execute SQL statement: " +:+ m)
    end) ∧
  calls (run_state close c') = calls c' ++ (if handle c' then [Closed] else []) ∧ handle (run_state close c') = false.
Proof.
  intros Hc todo. destruct (connect path init c) as [o c'] eqn:Hrun. split; [|apply close_run]. revert Hrun. unfold connect.
  destruct (if has_parent_path path then _ else _) as [m|].
  { intros [= <- <-]. exists []. rewrite app_nil_r. split; [done|]. left. split; [done|by left]. }
  destruct (sqlite3_open path (engine c)) as [[rc made] e] eqn:Hopen.
  erewrite bind_run by (unfold api; rewrite Hopen; reflexivity). cbv beta iota. erewrite bind_run by reflexivity.
  set (c1 := set_handle made _). assert (calls c1 = calls c ++ if made then [Opened] else []) as Hl1 by done.
  assert (handle c1 = made) as Hh1 by done. clearbody c1. destruct (Z.eqb_spec rc SQLITE_OK) as [->|Hrc]; cbn [negb].
  - apply open_made in Hopen as ->. erewrite bind_run by reflexivity. intros Hrun. destruct (pragmas_run init c1 o c' Hrun) as (l & Hl & Hcase).
    rewrite Hl1, <-app_assoc in Hl. eexists. split; [exact Hl|]. rewrite Hh1 in Hcase.
    destruct o as [u|x]; destruct Hcase as [Hh Hcase]; [by subst l|]. right. destruct Hcase as ((n & Hn & ->) & Hm).
    split; [done|]. split; [by exists n|done].
  - unfold mbind at 1, SE_bind at 1. destruct (refused_run made c1 Hh1) as (m & c2 & -> & Hl2 & Hh2). intros [= <- <-].
    rewrite Hl1, <-app_assoc in Hl2. eexists. split; [exact Hl2|]. left. split; [done|]. destruct made; [by right|by left].
Qed.

(** ** A concrete engine

    It knows the statements of the rooms table and of delete_room.sql, by their texts, and
    cuts a script at its semicolons; its pragmas fail when it is told so. *)
Record Plain := mkPlain {
  pl_db : Db; pl_stmts : gmap Z Stmt; pl_next : nat; pl_row : SqlRow; pl_message : string; pl_changes : Z; pl_rowid : Z;
  pl_broken : bool
}.
Definition set_pl_stmts v p := mkPlain (pl_db p) v (pl_next p) (pl_row p) (pl_message p) (pl_changes p) (pl_rowid p) (pl_broken p).
Definition plain_fault (m : string) (p : Plain) : Plain :=
  mkPlain (pl_db p) (pl_stmts p) (pl_next p) (pl_row p) m (pl_changes p) (pl_rowid p) (pl_broken p).
Definition plain_row (stmt : Z) (s : Stmt) (row : SqlRow) (p : Plain) : Plain :=
  mkPlain (pl_db p) (<[stmt := s]> (pl_stmts p)) (pl_next p) row (pl_message p) (pl_changes p) (pl_rowid p) (pl_broken p).
Definition plain_changed (db : Db) (k : Z) (p : Plain) : Plain :=
  mkPlain db (pl_stmts p) (pl_next p) (pl_row p) (pl_message p) k (sqlite_sequence db) (pl_broken p).
Definition plain_prepared (db : Db) (s : string) (p : Plain) : Plain :=
  mkPlain db (<[Z.of_nat (S (pl_next p)) := mkStmt s [] None]> (pl_stmts p)) (S (pl_next p)) (pl_row p) (pl_message p)
    (pl_changes p) (pl_rowid p) (pl_broken p).

Fixpoint cut (s : string) : string * string :=
  match s with
  | EmptyString => (EmptyString, EmptyString)
  | String c s => if Ascii.eqb c ";" then (EmptyString, s) else let '(a, b) := cut s in (String c a, b)
  end.
Definition plain_first (sql : string) : option (string * string) :=
  let t := skip_blanks sql in if is_empty t then None else Some (cut t).
Fixpoint plain_arity (s : string) : nat :=
  match s with EmptyString => 0 | String c s => (if Ascii.eqb c "?" then 1 else 0) + plain_arity s end.
Definition plain_select (s : string) : option (list string → Db → list SqlRow) :=
  if String.eqb s "SELECT * FROM rooms" then Some (λ _ db, sql_list_rooms db) else None.
Definition plain_change (s : string) (ps : list string) (db : Db) : string + (Z * Db) :=
  let id := default 0%Z (stoi (default "" (head ps))) in
  if String.eqb s "DELETE FROM allow_list WHERE room_id = ?" then sql_delete_room_allow id db
  else if String.eqb s "DELETE FROM membership WHERE room_id = ?" then sql_delete_room_membership id db
  else if String.eqb s "DELETE FROM messages WHERE room_id = ?" then sql_delete_room_messages id db
  else if String.eqb s "DELETE FROM rooms WHERE id = ?" then sql_delete_room_rooms id db
  else if String.eqb s "INSERT INTO rooms (name, type, privacy) VALUES (?, ?, ?)" then
    match ps with [name; type; privacy] => sql_create_room name type privacy db | _ => inl "" end
  else inl "no such statement".

Definition plain_step {env : DbEnv} (stmt : Z) (p : Plain) : Z * Plain :=
  match pl_stmts p !! stmt with
  | None => (21, p)%Z
  | Some (mkStmt s ps st) =>
      match plain_select s with
      | Some F =>
          match st, env_db (statements (pl_db p)) with
          | None, Some (StepFails m) => (1%Z, plain_fault m p)
          | _, _ =>
              match default (F ps (pl_db p)) st with
              | [] => (SQLITE_DONE, p)
              | row :: rows => (SQLITE_ROW, plain_row stmt (mkStmt s ps (Some rows)) row p)
              end
          end
      | None =>
          match env_db (statements (pl_db p)) with
          | Some (StepFails m) => (1%Z, plain_fault m p)
          | _ =>
              match plain_change s ps (pl_db p) with
              | inl m => (SQLITE_CONSTRAINT, plain_fault m p)
              | inr (k, db) => (SQLITE_DONE, plain_changed db k p)
              end
          end
      end
  end.
Definition plain_prepare {env : DbEnv} (sql : string) (p : Plain) : Z * Z * string * Plain :=
  match plain_first sql with
  | None => (SQLITE_OK, 0%Z, "", p)
  | Some (s, rest) =>
      let db := next_statement (pl_db p) in
      match env_db (statements db) with
      | Some (PrepareFails m) => (1%Z, 0%Z, sql, plain_fault m (plain_changed db 0 p))
      | _ => (SQLITE_OK, Z.of_nat (S (pl_next p)), rest, plain_prepared db s p)
      end
  end.
Definition plain_bind (stmt index : Z) (v : string) (len : Z) (p : Plain) : Z * Plain :=
  match pl_stmts p !! stmt with
  | Some (mkStmt s ps None) => (SQLITE_OK, set_pl_stmts (<[stmt := mkStmt s (ps ++ [v]) None]> (pl_stmts p)) p)
  | _ => (21%Z, p)
  end.

#[local] Instance PlainEngine {env : DbEnv} : Sqlite Plain := {|
  sqlite3_open path p := (if is_empty path then 14%Z else SQLITE_OK, true, p);
  sqlite3_close p := p;
  sqlite3_errmsg := pl_message;
  sqlite3_busy_timeout _ p := p;
  sqlite3_exec sql p := if pl_broken p then (1%Z, Some "disk I/O error", p) else (SQLITE_OK, None, p);
  sqlite3_prepare_v2 := plain_prepare;
  sqlite3_bind_text := plain_bind;
  sqlite3_step := plain_step;
  sqlite3_column_count _ p := Z.of_nat (length (pl_row p));
  sqlite3_column_text _ col p := pl_row p !! Z.to_nat col;
  sqlite3_finalize stmt p := set_pl_stmts (delete stmt (pl_stmts p)) p;
  sqlite3_changes := pl_changes;
  sqlite3_last_insert_rowid := pl_rowid;
  rows_left stmt p :=
    match pl_stmts p !! stmt with
    | Some (mkStmt s ps st) => match plain_select s with Some F => length (default (F ps (pl_db p)) st) | None => 0 end
    | None => 0
    end
|}.

Lemma cut_length s : s ≠ "" → String.length (cut s).2 < String.length s.
Proof.
  induction s as [|c s IH]; [done|]. intros _. cbn [cut]. destruct (Ascii.eqb c ";"); [cbn; lia|].
  destruct (cut s) as [a b] eqn:E. cbn [snd] in *. destruct s as [|c' s']; [injection E as <- <-; cbn; lia|].
  specialize (IH ltac:(done)). cbn [String.length] in *. lia.
Qed.
#[local] Instance PlainLaws {env : DbEnv} : SqliteLaws Plain.
Proof.
  split.
  - intros sql e rc stmt rest e'. cbn. unfold plain_prepare. destruct (plain_first sql) as [[s r]|]; [|by intros [= <- <- _ _]].
    cbv zeta. destruct (env_db _) as [[]|]; by intros [= <- <- _ _].
  - intros sql e stmt rest e'. cbn. unfold plain_prepare, plain_first. cbv zeta. intros H Hsql.
    assert (0 < String.length sql) by (destruct sql; cbn; [done|lia]).
    destruct (skip_blanks sql) as [|a t] eqn:Ht; cbn [is_empty] in H; [injection H as _ <- _; cbn; lia|].
    pose proof (cut_length (String a t) ltac:(done)). pose proof (skip_blanks_length sql) as Hle. rewrite Ht in Hle.
    destruct (cut (String a t)) as [s r]. cbn [snd] in *. destruct (env_db _) as [[]|]; try discriminate H; injection H as _ <- _; lia.
  - intros stmt e e'. cbn. unfold plain_step. destruct (pl_stmts e !! stmt) as [[s ps st]|] eqn:Hs; [|done].
    destruct (plain_select s) as [F|] eqn:HF.
    + assert (match default (F ps (pl_db e)) st with [] => (SQLITE_DONE, e)
        | row :: rows => (SQLITE_ROW, plain_row stmt (mkStmt s ps (Some rows)) row e) end = (SQLITE_ROW, e') →
        (match pl_stmts e' !! stmt with Some (mkStmt s ps st) => match plain_select s with Some F => length (default (F ps (pl_db e')) st)
           | None => 0 end | None => 0 end < length (default (F ps (pl_db e)) st))%nat) as Hok.
      { destruct (default _ st) as [|row rows]; [done|]. intros [= <-]. cbn. rewrite lookup_insert_eq, HF. cbn. lia. }
      destruct st as [rows|]; [exact Hok|]. destruct (env_db _) as [[]|]; [exact Hok|done|exact Hok].
    + destruct (env_db _) as [[]|]; [|done|]; destruct (plain_change s ps (pl_db e)) as [|[]]; done.
  - intros path e made e'. cbn. by destruct (is_empty path); intros [= <- _].
Qed.

Lemma plain_row_of {env : DbEnv} stmt (p : Plain) : row_of stmt p = read_row (pl_row p).
Proof.
  unfold row_of, read_row. cbn. apply list_eq. intros i. rewrite !list_lookup_fmap. destruct (decide (i < length (pl_row p))) as [Hi|Hi].
  - rewrite lookup_seqZ_lt by lia. cbn [fmap option_fmap option_map]. rewrite Z.add_0_l, Nat2Z.id. apply lookup_lt_is_Some in Hi as [x Hx].
    rewrite Hx. exact (f_equal (λ o, Some (default "" (c_str <$> o))) Hx).
  - rewrite lookup_seqZ_ge by lia. by rewrite lookup_ge_None_2 by lia.
Qed.

#[local] Instance PlainSpec {env : DbEnv} : SqliteSpec Plain.
Proof.
  refine {| tables := pl_db; stmt_at stmt p := pl_stmts p !! stmt; first_statement := plain_first; arity := plain_arity;
    select := plain_select; change := plain_change |}.
  - intros sql s rest e Hf. cbn. unfold plain_prepare. rewrite Hf. cbv zeta.
    cbn [statements next_statement]. destruct (env_db (S (statements (pl_db e)))) as [[m|m]|]; eexists _, _, _, _; (split; [reflexivity|]).
    + by split.
    + cbn. rewrite lookup_insert_eq. by split_and!.
    + cbn. rewrite lookup_insert_eq. by split_and!.
  - intros stmt s ps p e Hs _ _. cbn. unfold plain_bind. rewrite Hs. eexists. split; [reflexivity|]. cbn. by rewrite lookup_insert_eq.
  - intros stmt s ps st F e Hs _ HF. cbn. unfold plain_step. rewrite Hs, HF.
    assert (∀ rows, ∃ rc e',
      match rows with [] => (SQLITE_DONE, e) | row :: rows => (SQLITE_ROW, plain_row stmt (mkStmt s ps (Some rows)) row e) end = (rc, e') ∧
      pl_db e' = pl_db e ∧ match rows with [] => rc = SQLITE_DONE
        | row :: rows => rc = SQLITE_ROW ∧ row_of stmt e' = read_row row ∧ pl_stmts e' !! stmt = Some (mkStmt s ps (Some rows)) end) as Hrows.
    { intros [|row rows]; eexists _, _; (split; [reflexivity|]); [done|]. cbn. by rewrite plain_row_of, lookup_insert_eq. }
    destruct st as [rows|]; [apply Hrows|]. destruct (env_db _) as [[m|m]|]; [apply Hrows| |apply Hrows].
    eexists _, _. split; [reflexivity|]. by split_and!.
  - intros stmt s ps e Hs _ HF. cbn. unfold plain_step. rewrite Hs, HF.
    assert (∃ rc e', match plain_change s ps (pl_db e) with inl m => (SQLITE_CONSTRAINT, plain_fault m e)
        | inr (k, db) => (SQLITE_DONE, plain_changed db k e) end = (rc, e') ∧
      match plain_change s ps (pl_db e) with
      | inl m => rc = SQLITE_CONSTRAINT ∧ pl_message e' = m ∧ pl_db e' = pl_db e
      | inr (k, db) => rc = SQLITE_DONE ∧ pl_changes e' = k ∧ pl_db e' = db ∧
          (sqlite_sequence db ≠ sqlite_sequence (pl_db e) → pl_rowid e' = sqlite_sequence db)
      end) as Hc.
    { destruct (plain_change s ps (pl_db e)) as [m|[k db]]; eexists _, _; (split; [reflexivity|]); by split_and!. }
    destruct (env_db _) as [[m|m]|]; [exact Hc| |exact Hc]. eexists _, _. split; [reflexivity|]. by split_and!.
  - done.
Defined.

(** * Witnesses *)

(** delete_room.sql, as the build puts it into the program *)
Definition delete_room_sql : string := "
DELETE FROM allow_list WHERE room_id = ?;
DELETE FROM membership WHERE room_id = ?;
DELETE FROM messages WHERE room_id = ?;
DELETE FROM rooms WHERE id = ?;
".
Definition delete_room_texts : list string :=
  ["DELETE FROM allow_list WHERE room_id = ?"; "DELETE FROM membership WHERE room_id = ?";
   "DELETE FROM messages WHERE room_id = ?"; "DELETE FROM rooms WHERE id = ?"].
(** an engine with a room in use; the third statement it runs fails, or its pragmas do *)
Definition full_env : DbEnv := {|
  db_argon2 := plain_argon2;
  env_db n := if Nat.eqb n (3 + statements busy) then Some (StepFails "disk I/O error") else None;
  env_salt n := to_string (Z.of_nat n);
  NODE_ID := "node1"
|}.
Definition plain_conn (broken handle : bool) : Conn Plain :=
  mkConn (mkPlain busy ∅ 0 [] "" 0 0 broken) handle [].
Definition in_root : Directories := {| has_parent_path _ := false; create_directories _ := None |}.

Lemma statements_released_witness :
  let m := @execute Plain (@PlainEngine full_env) delete_room_sql ["3"] in
  let c := plain_conn false true in
  run_out m c = Throw (RuntimeError "Failed to step SQL: disk I/O error") ∧
  calls (run_state m c) = [Prepared 1; Finalized 1; Prepared 2; Finalized 2; Prepared 3; Finalized 3] ∧
  ledger 3 (calls (run_state m c)) = ledger 3 (calls c).
Proof.
  cbv zeta. split; [vm_compute; reflexivity|]. split; [vm_compute; reflexivity|].
  pose proof (@statements_released Plain (@PlainEngine full_env) (@PlainLaws full_env) (plain_conn false true) delete_room_sql ["3"] 3) as H.
  cbv zeta in H. destruct H as (_ & _ & H & _). exact H.
Defined.

Lemma delete_room_is_script : @script Plain (@PlainEngine full_env) full_env (@PlainSpec full_env) delete_room_sql delete_room_texts.
Proof.
  unfold delete_room_texts.
  do 4 (eapply script_more; [vm_compute; discriminate|vm_compute; reflexivity|]). by apply script_end.
Qed.
(** the faults and what the statements before them did are the same on both sides *)
Lemma statements_refine_witness :
  @seen Plain (@PlainEngine full_env) full_env (@PlainSpec full_env) _ (@execute Plain (@PlainEngine full_env) delete_room_sql ["3"])
    (plain_conn false true) =
  @run_script full_env ((λ s, plain_change s ["3"]) <$> delete_room_texts) 0 busy ∧
  (@run_script full_env ((λ s, plain_change s ["3"]) <$> delete_room_texts) 0 busy).1 =
    Throw (RuntimeError "Failed to step SQL: disk I/O error").
Proof.
  split; [|vm_compute; reflexivity].
  refine (proj1 (proj2 (@statements_refine Plain (@PlainEngine full_env) (@PlainLaws full_env) full_env (@PlainSpec full_env)
    (plain_conn false true) delete_room_sql ["3"] "DELETE FROM allow_list WHERE room_id = ?" _ delete_room_texts
    ltac:(repeat constructor; vm_compute; discriminate) eq_refl eq_refl)) delete_room_is_script _).
  repeat constructor.
Defined.

Lemma open_database_witness :
  let run := @connect Plain (@PlainEngine full_env) in_root "chat.db" "CREATE TABLE t;" (plain_conn true false) in
  run.1 = Throw (RuntimeError "Failed to execute SQL statement: disk I/O error") ∧ handle run.2 = true ∧
  ∃ l, calls run.2 = l ∧ Closed ∉ l.
Proof.
  pose proof (@open_database Plain (@PlainEngine full_env) (@PlainLaws full_env) in_root "chat.db" "CREATE TABLE t;" (plain_conn true false) eq_refl) as H.
  assert (@connect Plain (@PlainEngine full_env) in_root "chat.db" "CREATE TABLE t;" (plain_conn true false) =
    (Throw (RuntimeError "Failed to execute SQL statement: disk I/O error"),
     mkConn (engine (plain_conn true false)) true [Opened; Executed "PRAGMA journal_mode=WAL;"])) as Hrun by (vm_compute; reflexivity).
  rewrite Hrun in *. cbv zeta iota beta in H. destruct H as [(l & Hl & Hcase) _]. split; [reflexivity|]. split; [reflexivity|].
  exists l. split; [exact Hl|]. destruct Hcase as [[Hh _]|(_ & (n & Hn & ->) & _)]; [discriminate Hh|].
  destruct n as [|[|[|[|n]]]]; [lia|..|lia]; vm_compute; intros Hin; by repeat (apply elem_of_cons in Hin as [Hin|Hin]; [discriminate Hin|]); apply elem_of_nil in Hin.
Defined.
