(* ===== verification/World.v ===== *)
(** The server process: client sessions (src/server/client_session.cpp), the state all
    managers share, and the operations of the connection manager the others call
    (src/server/connection_manager.cpp: sessions, sending, closing, directory pushes).

    One record [World] holds what the C++ objects hold: the database, the heap of
    [ClientSession] objects (a session map holds pointers to them, as the shared pointers of
    the source do), the room manager's maps, the gossip manager's state, the two event
    counters.  A handler is a function in the state-exception monad [M] over it.  What the
    outside decides is read from [ServerEnv] in order: the clocks, the random generator,
    whether a socket write succeeds.  What goes out is appended to [net].  Handlers run one
    at a time in this model; the source runs them on threads under its mutexes.  Logging is
    left out, and [unordered_map] iteration, whose order the language leaves open, is in the
    order of [map_to_list]. *)
From S2P Require Import Prelude Packet Models Serializer GossipPayload WebFrame DatabaseManager.
From stdpp Require Import options.

(** * Definitions *)

Definition INVALID_SOCKET : Z := ClientEndpoint.INVALID_SOCKET.

(** milliseconds a client may stay silent *)
Definition HEARTBEAT_TIMEOUT : Z := 10000.

(** ** The environment *)

Class ServerEnv := {
  srv_db :: DbEnv;
  SERVER_HOST : string;
  PORT : Z;
  env_time : nat → Z;      (* std::time(nullptr) *)
  env_steady : nat → Z;    (* steady_clock::now(), in milliseconds *)
  env_rand : nat → Z;      (* uniform in [0, 9999] *)
  env_write : nat → bool;  (* does the n-th socket write go through *)
  env_connect : nat → Z;   (* the socket connectTo returned *)
  env_listening : nat → bool;   (* the listening flag, which another thread may clear *)
  PEER_PORT : Z;
  PEERS : list string
}.

(** ** Client sessions *)

Record ClientSession := mkSession {
  clientSocket : Z;
  user : User.t;
  room : Room.t;
  authenticated : bool;
  closed : bool;
  lastHeartbeatTime : Z
}.
Definition set_s_user v s :=
  mkSession (clientSocket s) v (room s) (authenticated s) (closed s) (lastHeartbeatTime s).
Definition set_s_room v s :=
  mkSession (clientSocket s) (user s) v (authenticated s) (closed s) (lastHeartbeatTime s).
Definition set_s_authenticated v s :=
  mkSession (clientSocket s) (user s) (room s) v (closed s) (lastHeartbeatTime s).
Definition set_s_closed v s :=
  mkSession (clientSocket s) (user s) (room s) (authenticated s) v (lastHeartbeatTime s).
Definition set_s_heartbeat v s :=
  mkSession (clientSocket s) (user s) (room s) (authenticated s) (closed s) v.

(** a pointer to a session object *)
Definition loc := nat.

(** ** Gossip state *)

Record Gossip := mkGossip {
  stopped : bool;
  clientPeers : gmap string ClientEndpoint.t;
  outboundAddrs : gmap Z string;
  openPeerSockets : gset Z;
  seenEvents : gset string;
  recentEventIds : list string;
  eventLog : gmap string Packet.t
}.
Definition set_peers v g := mkGossip (stopped g) v (outboundAddrs g) (openPeerSockets g)
  (seenEvents g) (recentEventIds g) (eventLog g).
Definition set_outbound v g := mkGossip (stopped g) (clientPeers g) v (openPeerSockets g)
  (seenEvents g) (recentEventIds g) (eventLog g).
Definition set_open v g := mkGossip (stopped g) (clientPeers g) (outboundAddrs g) v
  (seenEvents g) (recentEventIds g) (eventLog g).
Definition set_log seen recent log g := mkGossip (stopped g) (clientPeers g) (outboundAddrs g)
  (openPeerSockets g) seen recent log.

(** ** The process *)

(** what leaves the process *)
Inductive NetAction :=
  | NetSend (socket : Z) (bytes : string) (ok : bool)
  | NetClose (socket : Z).

Record World := mkWorld {
  db : Db;
  heap : gmap loc ClientSession;
  next_loc : loc;
  sessions : gmap Z loc;
  webSockets : gset Z;
  knownRooms : gmap string Room.t;
  members : gmap string (gset Z);
  gossip_set : bool;            (* gossip_ != nullptr *)
  gossip : Gossip;
  nextPresenceSeq : Z;
  dropLogoutSeq : Z;
  net : list NetAction;
  reads : nat                   (* values read from the environment so far *)
}.

Definition set_db v w := mkWorld v (heap w) (next_loc w) (sessions w) (webSockets w)
  (knownRooms w) (members w) (gossip_set w) (gossip w) (nextPresenceSeq w) (dropLogoutSeq w)
  (net w) (reads w).
Definition set_heap v w := mkWorld (db w) v (next_loc w) (sessions w) (webSockets w)
  (knownRooms w) (members w) (gossip_set w) (gossip w) (nextPresenceSeq w) (dropLogoutSeq w)
  (net w) (reads w).
Definition set_next_loc v w := mkWorld (db w) (heap w) v (sessions w) (webSockets w)
  (knownRooms w) (members w) (gossip_set w) (gossip w) (nextPresenceSeq w) (dropLogoutSeq w)
  (net w) (reads w).
Definition set_sessions v w := mkWorld (db w) (heap w) (next_loc w) v (webSockets w)
  (knownRooms w) (members w) (gossip_set w) (gossip w) (nextPresenceSeq w) (dropLogoutSeq w)
  (net w) (reads w).
Definition set_webSockets v w := mkWorld (db w) (heap w) (next_loc w) (sessions w) v
  (knownRooms w) (members w) (gossip_set w) (gossip w) (nextPresenceSeq w) (dropLogoutSeq w)
  (net w) (reads w).
Definition set_knownRooms v w := mkWorld (db w) (heap w) (next_loc w) (sessions w)
  (webSockets w) v (members w) (gossip_set w) (gossip w) (nextPresenceSeq w)
  (dropLogoutSeq w) (net w) (reads w).
Definition set_members v w := mkWorld (db w) (heap w) (next_loc w) (sessions w)
  (webSockets w) (knownRooms w) v (gossip_set w) (gossip w) (nextPresenceSeq w)
  (dropLogoutSeq w) (net w) (reads w).
Definition set_gossip v w := mkWorld (db w) (heap w) (next_loc w) (sessions w)
  (webSockets w) (knownRooms w) (members w) (gossip_set w) v (nextPresenceSeq w)
  (dropLogoutSeq w) (net w) (reads w).
Definition set_presenceSeq v w := mkWorld (db w) (heap w) (next_loc w) (sessions w)
  (webSockets w) (knownRooms w) (members w) (gossip_set w) (gossip w) v (dropLogoutSeq w)
  (net w) (reads w).
Definition set_dropSeq v w := mkWorld (db w) (heap w) (next_loc w) (sessions w)
  (webSockets w) (knownRooms w) (members w) (gossip_set w) (gossip w) (nextPresenceSeq w) v
  (net w) (reads w).
Definition set_net v w := mkWorld (db w) (heap w) (next_loc w) (sessions w) (webSockets w)
  (knownRooms w) (members w) (gossip_set w) (gossip w) (nextPresenceSeq w) (dropLogoutSeq w)
  v (reads w).
Definition set_reads v w := mkWorld (db w) (heap w) (next_loc w) (sessions w) (webSockets w)
  (knownRooms w) (members w) (gossip_set w) (gossip w) (nextPresenceSeq w) (dropLogoutSeq w)
  (net w) v.

Notation M := (SE World).

(** RoomManager::LOBBY and RoomManager::GENERAL *)
Definition LOBBY : Room.t := Room.Room 1 "Lobby" Room.LOBBY Room.PUBLIC.
Definition GENERAL : Room.t := Room.Room 2 "General" Room.OTHER Room.PUBLIC.

(** the members of a room, none when the map has no entry *)
Definition members_of (w : World) (name : string) : gset Z := default ∅ (members w !! name).

Section with_env.
Context {env : ServerEnv}.

(** ** Reading the environment *)

Definition next_read : M nat := λ w, (Ok (reads w), set_reads (S (reads w)) w).
Definition time_now : M Z := n ← next_read; mret (env_time n).
Definition steady_now : M Z := n ← next_read; mret (env_steady n).
Definition anonymousUser : M User.t := n ← next_read; mret (User.anonymousUser (env_rand n)).

(** an operation of the database *)
Definition db_do {A} (m : SE Db A) : M A := zoom db set_db m.

(** a fresh packet, stamped with the clock *)
Definition new_packet (sender receiver : string) (type : PacketType) (room message : string)
    (responseCode : Z) : M Packet.t :=
  now ← time_now;
  mret (Packet.make now sender receiver type room message responseCode).

(** ** Session objects *)

(** the object a pointer refers to; every pointer of the model is allocated *)
Definition no_session : ClientSession :=
  mkSession INVALID_SOCKET (User.User "" "" User.GUEST) LOBBY false true 0.
Definition session_at (w : World) (l : loc) : ClientSession := default no_session (heap w !! l).
Definition update_session (l : loc) (f : ClientSession → ClientSession) (w : World) : World :=
  set_heap (alter f l (heap w)) w.

Definition getSocket (l : loc) : M Z := gets (λ w, clientSocket (session_at w l)).
Definition getUser (l : loc) : M User.t := gets (λ w, user (session_at w l)).
Definition getRoomOf (l : loc) : M Room.t := gets (λ w, room (session_at w l)).
Definition isAuthenticated (l : loc) : M bool := gets (λ w, authenticated (session_at w l)).
Definition isClosed (l : loc) : M bool := gets (λ w, closed (session_at w l)).
Definition setUser (l : loc) (v : User.t) : M unit := modify (update_session l (set_s_user v)).
Definition setRoom (l : loc) (v : Room.t) : M unit := modify (update_session l (set_s_room v)).
Definition setAuthenticated (l : loc) (v : bool) : M unit :=
  modify (update_session l (set_s_authenticated v)).
(** true the first time *)
Definition markClosed (l : loc) : M bool :=
  was ← isClosed l;
  modify (update_session l (set_s_closed true)) ;;
  mret (negb was).
Definition touch (l : loc) : M unit :=
  now ← steady_now;
  modify (update_session l (set_s_heartbeat now)).
Definition isAlive (l : loc) : M bool :=
  now ← steady_now;
  last ← gets (λ w, lastHeartbeatTime (session_at w l));
  mret (now - last <? HEARTBEAT_TIMEOUT)%Z.

(** [make_shared<ClientSession>(...)] *)
Definition new_session (socket : Z) (u : User.t) (r : Room.t) : M loc :=
  now ← steady_now;
  l ← gets next_loc;
  modify (λ w, set_next_loc (S l) (set_heap (<[l := mkSession socket u r false false now]> (heap w)) w)) ;;
  mret l.

(** ** ConnectionManager: the session map *)

Definition getSessions : M (list (Z * loc)) := gets (λ w, map_to_list (sessions w)).

Definition addSession (socket : Z) (l : loc) : M unit :=
  modify (λ w, set_sessions (<[socket := l]> (sessions w)) w).

Definition markWebSocket (socket : Z) : M unit :=
  modify (λ w, set_webSockets ({[socket]} ∪ webSockets w) w).

(** users are equal when their emails are *)
Definition hasSession (u : User.t) : M bool :=
  gets (λ w, existsb (λ '(_, l), authenticated (session_at w l) && User.eqb (user (session_at w l)) u)
               (map_to_list (sessions w))).

(** ** ConnectionManager: sending and closing *)

(** a socket write: the environment decides whether all of it goes through *)
Definition write_bytes (socket : Z) (bytes : string) : M bool :=
  n ← next_read;
  modify (λ w, set_net (net w ++ [NetSend socket bytes (env_write n)]) w) ;;
  mret (env_write n).

(** [socket_io::writePacket] *)
Definition write_packet (socket : Z) (packet : Packet.t) : M bool :=
  let framed := serialize packet in
  if is_empty framed then mret false else write_bytes socket framed.

Definition sendPacket (socket : Z) (packet : Packet.t) : M bool :=
  found ← gets (λ w, sessions w !! socket);
  webSocket ← gets (λ w, bool_decide (socket ∈ webSockets w));
  match found with
  | None => mret false
  | Some l =>
      c ← isClosed l;
      if (c : bool) then mret false
      else if negb webSocket then write_packet socket packet
      else
        let framed := serialize packet in
        if is_empty framed then mret false
        else write_bytes socket (encodeFrame Binary framed false 0)
  end.

(** [socket_io::close] of a socket the process owns *)
Definition close_socket (socket : Z) : M unit :=
  if (socket =? INVALID_SOCKET)%Z then mret tt
  else modify (λ w, set_net (net w ++ [NetClose socket]) w).

Definition closeClient (socket : Z) : M unit :=
  found ← gets (λ w, sessions w !! socket);
  match found with
  | None => mret tt
  | Some l =>
      first ← markClosed l;
      when first (close_socket socket)
  end.

Definition pushServerDirectory (body : string) (only : Z) : M unit :=
  packet ← new_packet "server" "*" SERVER_DIRECTORY "" body 0;
  if negb (only =? INVALID_SOCKET)%Z then sendPacket only packet ;; mret tt
  else
    all ← getSessions;
    for_each all (λ '(socket, l),
      c ← isClosed l;
      when (negb c) (sendPacket socket packet ;; mret tt)).

End with_env.

(** * Lemmas *)

(** ** What an operation leaves alone

    Most steps of a handler touch only the network trace and the environment counter; a
    predicate that reads neither is kept by them. *)
Definition quiet (I : World → Prop) : Prop :=
  ∀ w n t, I w → I (set_net n (set_reads t w)).

Lemma set_net_eta w : set_net (net w) (set_reads (reads w) w) = w.
Proof. by destruct w. Qed.

Section quiet.
Context {env : ServerEnv} (I : World → Prop) (HI : quiet I).

Lemma quiet_reads w t : I w → I (set_reads t w).
Proof using HI. intros H. exact (HI w (net w) t H). Qed.
Lemma quiet_net w n : I w → I (set_net n w).
Proof using HI. intros H. destruct w. exact (HI _ n _ H). Qed.

Lemma quiet_next_read : preserves I next_read.
Proof using HI. intros w Hw. by apply quiet_reads. Qed.
Lemma quiet_time_now : preserves I time_now.
Proof using HI. apply preserves_bind; [apply quiet_next_read|intros; apply preserves_ret]. Qed.
Lemma quiet_steady_now : preserves I steady_now.
Proof using HI. apply preserves_bind; [apply quiet_next_read|intros; apply preserves_ret]. Qed.
Lemma quiet_anonymousUser : preserves I anonymousUser.
Proof using HI. apply preserves_bind; [apply quiet_next_read|intros; apply preserves_ret]. Qed.
Lemma quiet_new_packet a b c d e f : preserves I (new_packet a b c d e f).
Proof using HI. apply preserves_bind; [apply quiet_time_now|intros; apply preserves_ret]. Qed.
Lemma quiet_write_bytes s b : preserves I (write_bytes s b).
Proof using HI.
  apply preserves_bind; [apply quiet_next_read|intros].
  apply preserves_bind; [|intros; apply preserves_ret].
  apply preserves_modify. intros. by apply quiet_net.
Qed.
Lemma quiet_write_packet s p : preserves I (write_packet s p).
Proof using HI. unfold write_packet. cbv zeta. case_match; [apply preserves_ret|apply quiet_write_bytes]. Qed.
Lemma quiet_sendPacket s p : preserves I (sendPacket s p).
Proof using HI.
  unfold sendPacket, isClosed. cbv zeta. pose proof quiet_write_bytes. pose proof quiet_write_packet.
  solve_pres.
Qed.
Lemma quiet_close_socket s : preserves I (close_socket s).
Proof using HI.
  unfold close_socket. case_match; [apply preserves_ret|]. apply preserves_modify.
  intros. by apply quiet_net.
Qed.
Lemma quiet_pushServerDirectory b s : preserves I (pushServerDirectory b s).
Proof using HI.
  unfold pushServerDirectory, isClosed, getSessions. pose proof quiet_new_packet.
  pose proof quiet_sendPacket. solve_pres.
Qed.
End quiet.

#[export] Hint Resolve quiet_next_read quiet_time_now quiet_steady_now quiet_anonymousUser
  quiet_new_packet quiet_write_bytes quiet_write_packet quiet_sendPacket quiet_close_socket
  quiet_pushServerDirectory : pres.

(** ** Reading the clock and writing to a socket return *)

Section world_total.
Context {env : ServerEnv}.
Lemma total_db_do {A} (m : SE Db A) : total m → total (db_do m).
Proof. intros Hm w. destruct (Hm (db w)) as [a Ha]. unfold run_out, db_do, zoom in *. destruct (m (db w)). by exists a. Qed.
Lemma total_next_read : total next_read.
Proof. intros w. by eexists. Qed.
Hint Resolve total_next_read : total.
Lemma total_time_now : total time_now.
Proof. unfold time_now. solve_total. Qed.
Lemma total_steady_now : total steady_now.
Proof. unfold steady_now. solve_total. Qed.
Lemma total_new_packet a b c d e f : total (new_packet a b c d e f).
Proof. pose proof total_time_now. unfold new_packet. solve_total. Qed.
Lemma total_write_bytes k b : total (write_bytes k b).
Proof. unfold write_bytes. solve_total. Qed.
Lemma total_write_packet k p : total (write_packet k p).
Proof. pose proof total_write_bytes. unfold write_packet. solve_total. Qed.
Lemma total_sendPacket k p : total (sendPacket k p).
Proof.
  pose proof total_write_bytes. pose proof total_write_packet. unfold sendPacket, isClosed. solve_total.
Qed.
Lemma total_pushServerDirectory b k : total (pushServerDirectory b k).
Proof.
  pose proof total_new_packet. pose proof total_sendPacket.
  unfold pushServerDirectory, isClosed, getSessions. solve_total.
Qed.
End world_total.
#[export] Hint Resolve total_next_read total_time_now total_steady_now total_new_packet
  total_write_bytes total_write_packet total_sendPacket total_pushServerDirectory : total.

(** ** Sending, step by step *)

(** the bytes a packet is on the wire of this socket *)
Definition wire (w : World) (packet : Packet.t) (socket : Z) : string :=
  if bool_decide (socket ∈ webSockets w) then encodeFrame Binary (serialize packet) false 0
  else serialize packet.

(** the socket has a session that is not closed *)
Definition is_open (w : World) (socket : Z) : bool :=
  match sessions w !! socket with Some l => negb (closed (session_at w l)) | None => false end.

(** one more write of the trace *)
Definition sent_world `{ServerEnv} (socket : Z) (bytes : string) (w : World) : World :=
  set_net (net w ++ [NetSend socket bytes (env_write (reads w))]) (set_reads (S (reads w)) w).

Lemma sendPacket_run {env : ServerEnv} s p w :
  sendPacket s p w =
  if is_open w s && negb (is_empty (serialize p))
  then (Ok (env_write (reads w)), sent_world s (wire w p s) w) else (Ok false, w).
Proof.
  unfold sendPacket, is_open, wire, write_packet, isClosed, mbind, SE_bind, gets.
  destruct (sessions w !! s) as [l|]; [|done]. destruct (closed (session_at w l)); [done|].
  cbn [negb andb]. case_bool_decide; cbn [negb]; by destruct (is_empty (serialize p)).
Qed.

(** ** A concrete environment: nothing fails, the clocks advance by one per reading *)
#[local] Instance plain_server : ServerEnv := {
  srv_db := plain_env;
  SERVER_HOST := "127.0.0.1";
  PORT := 5050;
  env_time n := (1726000000 + Z.of_nat n)%Z;
  env_steady n := Z.of_nat n;
  env_rand n := (Z.of_nat n mod 10000)%Z;
  env_write _ := true;
  env_connect n := (1000 + Z.of_nat n)%Z;
  env_listening _ := true;
  PEER_PORT := 6050;
  PEERS := []
}.

(** the process before [Server::start]: no session, no room known, gossip stopped *)
Definition boot (tables : Db) : World :=
  mkWorld tables ∅ 0 ∅ ∅ ∅ ∅ false (mkGossip true ∅ ∅ ∅ ∅ [] ∅) 0 0 [] 0.

(** ** A sample state: the user of the seeded tables in General, an anonymous client in the
    Lobby, and a private room neither is in *)
Definition QA_ROOM : Room.t := Room.Room 3 "QA" Room.QA Room.PRIVATE.
Definition sample_session : ClientSession :=
  mkSession 7 (User.User "user" "user@example.com" User.USER) GENERAL true false 0.
Definition sample_state : World :=
  mkWorld busy
    {[ 0 := sample_session; 1 := mkSession 8 (User.anonymousUser 4) LOBBY false false 0 ]} 2
    {[ 7%Z := 0; 8%Z := 1 ]} {[ 8%Z ]}
    {[ Room.name LOBBY := LOBBY; Room.name GENERAL := GENERAL; "QA" := QA_ROOM ]}
    {[ "General" := {[ 7%Z ]}; "Lobby" := {[ 8%Z ]} ]}
    true (mkGossip false ∅ ∅ ∅ ∅ [] ∅) 0 0 [] 0.
