(* ===== verification/RoomManager.v ===== *)
(** RoomManager (src/server/room_manager.cpp): the rooms the process knows, who is in them,
    joining, leaving, creating, deleting, and broadcasting.

    The central invariant is [coherent]: a socket is in the member set of a room exactly
    when its session says it is in that room, so a broadcast reaches the room's clients and
    nobody else.  [leaveAll] takes a socket out of every set and leaves it to the caller to
    drop the session or to join a room again; the last argument of [coherent] says
    where such a socket is in between. *)
From S2P Require Import Prelude Packet Serializer WebFrame Models DatabaseManager World.
From stdpp Require Import options.

(** * Definitions *)

Section with_env.
Context {env : ServerEnv}.

(** [knownRooms.emplace] *)
Definition emplace_room (name : string) (r : Room.t) (known : gmap string Room.t)
    : gmap string Room.t :=
  match known !! name with Some _ => known | None => <[name := r]> known end.

(** the constructor *)
Definition RoomManager_init : M unit :=
  defaultRooms ← db_do listRooms;
  for_each defaultRooms (λ r,
    modify (λ w, set_knownRooms (emplace_room (Room.name r) r (knownRooms w)) w)).

Definition getRoom (name : string) : M (option Room.t) :=
  gets (λ w, knownRooms w !! (if is_empty name then Room.name LOBBY else name)).

Definition removeSocketLocked (socket : Z) (roomName : string) : M unit :=
  found ← gets (λ w, (members w !! roomName : option (gset Z)));
  match found with
  | None => mret tt
  | Some sockets =>
      let sockets := sockets ∖ {[socket]} in
      if decide (sockets = ∅)
      then modify (λ w, set_members (delete roomName (members w)) w)
      else modify (λ w, set_members (<[roomName := sockets]> (members w)) w)
  end.

(** [members[name].insert(socket)] *)
Definition insert_member (name : string) (socket : Z) : M unit :=
  modify (λ w, set_members (<[name := {[socket]} ∪ members_of w name]> (members w)) w).

(** the roll back of a join whose membership could not be stored *)
Definition rollback_join (socket : Z) (name previousRoom : string) (l : loc) : M unit :=
  removeSocketLocked socket name ;;
  prev ← gets (λ w, knownRooms w !! previousRoom);
  match prev with
  | Some r => setRoom l r ;; insert_member previousRoom socket
  | None => setRoom l LOBBY ;; insert_member (Room.name LOBBY) socket
  end.

Definition joinRoom (roomName : string) (l : loc) : M bool :=
  let name := if is_empty roomName then Room.name LOBBY else roomName in
  previous ← getRoomOf l;
  let previousRoomId := Room.id previous in
  let previousRoom := Room.name previous in
  u ← getUser l;
  let username := User.username u in
  persist ← isAuthenticated l;
  socket ← getSocket l;
  found ← gets (λ w, knownRooms w !! name);
  match found with
  | None => mret false
  | Some r =>
      removeSocketLocked socket previousRoom ;;
      setRoom l r ;;
      insert_member name socket ;;
      let joinedRoomId := Room.id r in
      if (persist : bool) then
        try_catch
          (when (negb (previousRoomId =? joinedRoomId)%Z)
             (db_do (clearMembership username previousRoomId)) ;;
           db_do (setMembership username joinedRoomId NODE_ID) ;;
           mret true)
          (λ _, rollback_join socket name previousRoom l ;; mret false)
      else mret true
  end.

Definition leaveAll (l : loc) : M unit :=
  previous ← getRoomOf l;
  u ← getUser l;
  persist ← isAuthenticated l;
  socket ← getSocket l;
  removeSocketLocked socket (Room.name previous) ;;
  setRoom l LOBBY ;;
  when (persist && negb (is_empty (User.username u)))
    (try_catch (db_do (clearAllMembership (User.username u))) (λ _, mret tt)).

(** the sending loop; the result is false when a send failed *)
Fixpoint broadcast_loop (sockets : list Z) (packet : Packet.t) (skipSocket : Z) (ok : bool)
    : M bool :=
  match sockets with
  | [] => mret ok
  | socket :: sockets =>
      if (socket =? skipSocket)%Z then broadcast_loop sockets packet skipSocket ok
      else
        sent ← sendPacket socket packet;
        broadcast_loop sockets packet skipSocket (if (sent : bool) then ok else false)
  end.

Definition broadcast (r : Room.t) (packet : Packet.t) (skipSocket : Z) : M bool :=
  sockets ← gets (λ w, elements (members_of w (Room.name r)));
  broadcast_loop sockets packet skipSocket true.

Definition createRoom (r : Room.t) (creatorEmail : string) : M bool :=
  found ← gets (λ w, knownRooms w !! Room.name r);
  match found with
  | Some _ => mret false
  | None =>
      try_catch
        (created ← db_do (DatabaseManager.createRoom (Room.name r) (Room.type r)
                            (Room.privacy r) creatorEmail);
         modify (λ w, set_knownRooms (emplace_room (Room.name created) created (knownRooms w)) w) ;;
         mret true)
        (λ _, mret false)
  end.

Definition listRooms : M (list Room.t) := gets (λ w, (map_to_list (knownRooms w)).*2).

(** moves the session of one socket of a deleted room to the Lobby *)
Definition move_to_lobby (deletedRoomId : Z) (found : gmap Z loc) (socket : Z) : M unit :=
  match found !! socket with
  | None => mret tt
  | Some l =>
      setRoom l LOBBY ;;
      auth ← isAuthenticated l;
      u ← getUser l;
      when (auth && negb (is_empty (User.username u)))
        (try_catch
           (db_do (clearMembership (User.username u) deletedRoomId) ;;
            db_do (setMembership (User.username u) (Room.id LOBBY) NODE_ID))
           (λ _, mret tt))
  end.

Definition deleteRoom (roomName : string) : M bool :=
  if String.eqb roomName (Room.name LOBBY) || String.eqb roomName (Room.name GENERAL)
  then mret false
  else
    found ← gets (λ w, knownRooms w !! roomName);
    match found with
    | None => mret false
    | Some r =>
        let deletedRoomId := Room.id r in
        sockets ← gets (λ w, elements (members_of w roomName));
        modify (λ w, set_members (delete roomName (members w)) w) ;;
        modify (λ w, set_knownRooms (delete roomName (knownRooms w)) w) ;;
        for_each sockets (λ socket, insert_member (Room.name LOBBY) socket) ;;
        deleted ← try_catch (db_do (DatabaseManager.deleteRoom deletedRoomId) ;; mret true)
                    (λ _, mret false);
        if negb deleted then mret false
        else
          snapshot ← gets sessions;
          for_each sockets (move_to_lobby deletedRoomId snapshot) ;;
          rooms ← listRooms;
          lobbyPush ← new_packet "server" "*" ROOM_LIST (Room.name LOBBY)
                        (Room.serializeList rooms) 0;
          for_each sockets (λ socket, sendPacket socket lobbyPush ;; mret tt) ;;
          mret true
    end.

Fixpoint broadcast_rooms (rooms : list Room.t) (packet : Packet.t) (skipSocket : Z) (ok : bool)
    : M bool :=
  match rooms with
  | [] => mret ok
  | r :: rooms =>
      sent ← broadcast r packet skipSocket;
      broadcast_rooms rooms packet skipSocket (if (sent : bool) then ok else false)
  end.

(** to the rooms that have members and are known *)
Definition broadcastAll (packet : Packet.t) (skipSocket : Z) : M bool :=
  rooms ← gets (λ w, omap (λ e, knownRooms w !! e.1) (map_to_list (members w)));
  broadcast_rooms rooms packet skipSocket true.

End with_env.

(** * Lemmas *)

(** ** Member sets *)

(** [removeSocketLocked] and [insert_member] as functions on the state *)
Definition remove_member (s : Z) (n : string) (w : World) : World :=
  match members w !! n with
  | None => w
  | Some sockets =>
      if decide (sockets ∖ {[s]} = ∅) then set_members (delete n (members w)) w
      else set_members (<[n := sockets ∖ {[s]}]> (members w)) w
  end.
Definition add_member (n : string) (s : Z) (w : World) : World :=
  set_members (<[n := {[s]} ∪ members_of w n]> (members w)) w.

Lemma removeSocketLocked_run s n w : removeSocketLocked s n w = (Ok tt, remove_member s n w).
Proof.
  unfold removeSocketLocked, remove_member, mbind, SE_bind, gets. destruct (members w !! n); [|done].
  by case_decide.
Qed.
Lemma members_of_remove s n w m :
  members_of (remove_member s n w) m = if decide (m = n) then members_of w n ∖ {[s]} else members_of w m.
Proof.
  unfold remove_member, members_of. destruct (members w !! n) as [k|] eqn:E.
  - destruct (decide (k ∖ {[s]} = ∅)) as [He|He]; cbn [members set_members];
      destruct (decide (m = n)) as [->|Hne];
      rewrite ?lookup_delete_eq, ?lookup_insert_eq, ?lookup_delete_ne, ?lookup_insert_ne, ?E by done; done.
  - destruct (decide (m = n)) as [->|Hne]; [|done]. rewrite E. simpl. set_solver.
Qed.
Lemma members_of_add s n w m :
  members_of (add_member n s w) m = if decide (m = n) then {[s]} ∪ members_of w n else members_of w m.
Proof.
  unfold add_member, members_of at 1. cbn [members set_members].
  destruct (decide (m = n)) as [->|Hne]; [by rewrite lookup_insert_eq|by rewrite lookup_insert_ne].
Qed.

(** ** Session objects *)

Lemma session_at_update l f w l' :
  session_at (update_session l f w) l' =
  if decide (l' = l) then from_option f no_session (heap w !! l) else session_at w l'.
Proof.
  unfold session_at, update_session. cbn [heap set_heap]. destruct (decide (l' = l)) as [->|Hne].
  - rewrite lookup_alter_eq. by destruct (heap w !! l).
  - by rewrite lookup_alter_ne.
Qed.

(** ** Coherence

    [S] is the session map the member sets are about.  [ov] lists the sockets that are on
    their way: the room, if any, whose member set holds them, whatever their session says. *)
Definition expected (S : gmap Z loc) (ov : gmap Z (option string)) (w : World) (s : Z)
    : option string :=
  match ov !! s with
  | Some place => place
  | None => (λ l, Room.name (room (session_at w l))) <$> S !! s
  end.

Record coherent (S : gmap Z loc) (ov : gmap Z (option string)) (w : World) : Prop := {
  c_lobby : knownRooms w !! Room.name LOBBY = Some LOBBY;
  c_named : ∀ n r, knownRooms w !! n = Some r → Room.name r = n;
  c_session : ∀ s l, S !! s = Some l → ∃ o, heap w !! l = Some o ∧ clientSocket o = s;
  c_room : ∀ s l, S !! s = Some l → ov !! s = None →
    knownRooms w !! Room.name (room (session_at w l)) = Some (room (session_at w l));
  c_member : ∀ s n, s ∈ members_of w n ↔ expected S ov w s = Some n;
  c_fresh : ∀ l, next_loc w <= l → heap w !! l = None
}.

(** the stored row of a room *)
Definition room_to_row (r : Room.t) : RoomRow :=
  mkRoomRow (Room.id r) (Room.name r) (Room.roomTypeToString (Room.type r))
    (Room.privacyToString (Room.privacy r)).

Record backed (w : World) : Prop := {
  b_row : ∀ n r, knownRooms w !! n = Some r → room_to_row r ∈ rooms (db w);
  b_default : ∀ n r, knownRooms w !! n = Some r → (Room.id r < 3)%Z →
    n = Room.name LOBBY ∨ n = Room.name GENERAL
}.

(** room ids still fit the [int] the source keeps them in *)
Definition small (w : World) : Prop := (sqlite_sequence (db w) < 2 ^ 31)%Z.

(** [T] is the current session map *)
Definition inv (T S : gmap Z loc) (ov : gmap Z (option string)) (w : World) : Prop :=
  db_wf (db w) ∧ sessions w = T ∧ (small w → coherent S ov w ∧ backed w).
Notation Inv S := (inv S S ∅).

Lemma coherent_frame S ov w w' :
  knownRooms w' = knownRooms w → heap w' = heap w → members w' = members w →
  next_loc w' = next_loc w → coherent S ov w → coherent S ov w'.
Proof.
  destruct w, w'; simpl. intros -> -> -> -> []. by constructor.
Qed.
Lemma inv_frame T S ov w w' :
  db w' = db w → sessions w' = sessions w → knownRooms w' = knownRooms w → heap w' = heap w →
  members w' = members w → next_loc w' = next_loc w → inv T S ov w → inv T S ov w'.
Proof.
  intros Ed Es Ek Eh Em En (Hwf & HT & Hc). unfold inv, small. rewrite Ed, Es.
  split_and!; [done..|]. intros Hs. destruct (Hc Hs) as [Hco Hb]. split.
  - by eapply coherent_frame.
  - destruct Hb. constructor; rewrite Ek, ?Ed; done.
Qed.

(** ** Predicates the storage operations keep *)

Definition db_stable (I : World → Prop) : Prop := ∀ w t, I w →
  db_wf (db w) ∧
  (db_wf t → rooms_are (rooms (db w)) (sqlite_sequence (db w)) t → I (set_db t w)).

Lemma db_do_pres {A} (I : World → Prop) (m : SE Db A) :
  db_stable I → db_safe m → preserves I (db_do m).
Proof.
  intros HI Hm w Hw. unfold run_state, run_out, db_do, zoom.
  destruct (HI w (run_state m (db w)) Hw) as [Hwf Hset].
  destruct (Hm (rooms (db w)) (sqlite_sequence (db w)) (db w)) as [Hwf' Hr]; [by split|].
  unfold run_state in *. destruct (m (db w)) as [o t]. by apply Hset.
Qed.

Lemma quiet_inv T S ov : quiet (inv T S ov).
Proof. intros w n t Hw. by eapply inv_frame; [..|exact Hw]. Qed.
Lemma db_stable_inv T S ov : db_stable (inv T S ov).
Proof.
  intros w t (Hwf & HT & Hc). split; [done|]. intros Hwf' [Er Eq]. split_and!; [done..|].
  unfold small. cbn [db set_db]. rewrite Eq. intros Hs. destruct (Hc Hs) as [Hco [Hb1 Hb2]]. split.
  - by eapply coherent_frame; [..|exact Hco].
  - constructor; cbn [db set_db knownRooms]; rewrite ?Er; done.
Qed.
Lemma quiet_and I J : quiet I → quiet J → quiet (λ w, I w ∧ J w).
Proof. intros HI HJ w n t [??]; split; [by apply HI|by apply HJ]. Qed.

#[export] Hint Resolve quiet_inv db_stable_inv db_do_pres : pres.
#[export] Hint Extern 5 (preserves (inv _ _ _) (modify _)) =>
  apply preserves_modify; intros ? ?; eapply inv_frame; [..|eassumption]; reflexivity : pres.

(** an update of a session object that leaves its socket and room alone *)
Definition keeps_place (f : ClientSession → ClientSession) : Prop :=
  ∀ o, clientSocket (f o) = clientSocket o ∧ room (f o) = room o.

Lemma coherent_update S ov l f w :
  keeps_place f → coherent S ov w → coherent S ov (update_session l f w).
Proof.
  intros Hf [Hl Hn Hs Hr Hm Hfr].
  assert (∀ l', room (session_at (update_session l f w) l') = room (session_at w l')) as Hroom.
  { intros l'. rewrite session_at_update. case_decide; [subst|done]. unfold session_at.
    destruct (heap w !! l); [apply Hf|done]. }
  constructor; [done|done| | | |].
  - intros s l' Hsl. destruct (Hs s l' Hsl) as (o & Ho & Hos). unfold update_session. cbn [heap set_heap].
    destruct (decide (l' = l)) as [->|Hne]; [|rewrite lookup_alter_ne by done; eauto].
    rewrite lookup_alter_eq, Ho. eexists. split; [done|]. by rewrite (proj1 (Hf o)).
  - intros s l' Hsl Hov. rewrite Hroom. by apply (Hr s l').
  - intros s n. etransitivity; [apply Hm|]. unfold expected. destruct (ov !! s); [done|].
    destruct (S !! s) as [l'|]; [|done]. cbn. by rewrite Hroom.
  - intros l' Hl'. unfold update_session. cbn [heap set_heap next_loc] in *.
    destruct (decide (l' = l)) as [->|Hne]; [|rewrite lookup_alter_ne by done; by apply Hfr].
    rewrite lookup_alter_eq. by rewrite (Hfr l Hl').
Qed.
Lemma inv_update T S ov l f w : keeps_place f → inv T S ov w → inv T S ov (update_session l f w).
Proof.
  intros Hf (Hwf & HT & Hc). split_and!; [done..|]. intros Hs. destruct (Hc Hs) as [Hco [Hb1 Hb2]].
  split; [by apply coherent_update|by constructor].
Qed.

(** ** Moving one socket *)

(** taking a socket out of the room [old] and pointing its session at [r] *)
Definition uproot (s : Z) (old : string) (l : loc) (r : Room.t) (w : World) : World :=
  update_session l (set_s_room r) (remove_member s old w).
Definition place (s : Z) (old : string) (l : loc) (r : Room.t) (w : World) : World :=
  add_member (Room.name r) s (uproot s old l r w).

Lemma heap_remove s n w : heap (remove_member s n w) = heap w.
Proof. unfold remove_member. repeat case_match; done. Qed.
Lemma known_remove s n w : knownRooms (remove_member s n w) = knownRooms w.
Proof. unfold remove_member. repeat case_match; done. Qed.
Lemma db_remove s n w : db (remove_member s n w) = db w.
Proof. unfold remove_member. repeat case_match; done. Qed.
Lemma sessions_remove s n w : sessions (remove_member s n w) = sessions w.
Proof. unfold remove_member. repeat case_match; done. Qed.
Lemma next_remove s n w : next_loc (remove_member s n w) = next_loc w.
Proof. unfold remove_member. repeat case_match; done. Qed.

Section move.
Context (S : gmap Z loc) (ov : gmap Z (option string)) (w : World) (s : Z) (l : loc)
  (old : string) (r : Room.t).
Context (Hco : coherent S ov w) (Hsl : S !! s = Some l)
  (Hold : ∀ m, expected S ov w s = Some m → m = old).

Lemma uproot_session s' l' :
  S !! s' = Some l' → room (session_at (uproot s old l r w) l') = if decide (s' = s) then r else room (session_at w l').
Proof using Hco Hsl.
  intros Hs'. unfold uproot. rewrite session_at_update, heap_remove.
  destruct (c_session _ _ _ Hco s l Hsl) as (o & Ho & Hos).
  destruct (c_session _ _ _ Hco s' l' Hs') as (o' & Ho' & Hos').
  destruct (decide (s' = s)) as [->|Hne].
  - rewrite decide_True by congruence. by rewrite Ho.
  - rewrite decide_False by congruence. unfold session_at. by rewrite heap_remove.
Qed.
Lemma uproot_known : knownRooms (uproot s old l r w) = knownRooms w.
Proof. apply known_remove. Qed.
Lemma uproot_members m : members_of (uproot s old l r w) m = members_of w m ∖ {[s]}.
Proof using Hco Hold.
  clear Hsl. change (members_of (remove_member s old w) m = members_of w m ∖ {[s]}).
  rewrite members_of_remove. case_decide as Hm; [by subst|].
  assert (s ∉ members_of w m) as Hs; [|set_solver]. rewrite (c_member _ _ _ Hco).
  intros He. by apply Hm, Hold.
Qed.

Lemma uproot_coherent : coherent S (<[s := None]> ov) (uproot s old l r w).
Proof using Hco Hsl Hold.
  pose proof Hco as [Hl Hn Hs Hr Hm Hfr].
  constructor; rewrite ?uproot_known; [done|done| | | |].
  - intros s' l' Hs'. unfold uproot, update_session. cbn [heap set_heap]. rewrite heap_remove.
    destruct (Hs s' l' Hs') as (o & Ho & Hos). destruct (decide (l' = l)) as [->|Hne].
    + rewrite lookup_alter_eq, Ho. by eexists.
    + rewrite lookup_alter_ne by done. by exists o.
  - intros s' l' Hs' Hov. apply lookup_insert_None in Hov as [Hov Hne].
    rewrite (uproot_session s' l' Hs'), decide_False by done. by apply (Hr s' l').
  - intros s' n. rewrite uproot_members, elem_of_difference, Hm, not_elem_of_singleton.
    unfold expected. destruct (decide (s' = s)) as [->|Hne].
    + rewrite lookup_insert_eq. naive_solver.
    + rewrite lookup_insert_ne by done. destruct (ov !! s'); [naive_solver|].
      destruct (S !! s') as [l'|] eqn:E; [|naive_solver]. cbn.
      rewrite (uproot_session s' l' E), decide_False by done. naive_solver.
  - intros l' Hl'. unfold uproot, update_session in *. cbn [heap set_heap next_loc] in *.
    rewrite heap_remove. rewrite next_remove in Hl'. destruct (decide (l' = l)) as [->|Hne].
    + by rewrite lookup_alter_eq, (Hfr l Hl').
    + rewrite lookup_alter_ne by done. by apply Hfr.
Qed.

Lemma place_coherent :
  knownRooms w !! Room.name r = Some r → coherent S (delete s ov) (place s old l r w).
Proof using Hco Hsl Hold.
  intros Hr. destruct uproot_coherent as [Hl Hn Hs Hroom Hm Hfr]. unfold place.
  set (w1 := uproot s old l r w) in *. pose proof (uproot_session s l Hsl) as Hat.
  rewrite decide_True in Hat by done. fold w1 in Hat.
  constructor; [done|done|done| | |done].
  - intros s' l' Hs' Hov. change (session_at (add_member (Room.name r) s w1) l') with (session_at w1 l').
    change (knownRooms (add_member _ _ w1)) with (knownRooms w1).
    destruct (decide (s' = s)) as [->|Hne].
    + assert (l' = l) as -> by congruence. rewrite Hat.
      by replace (knownRooms w1) with (knownRooms w) by (symmetry; apply uproot_known).
    + apply Hroom with s'; [done|]. rewrite lookup_insert_ne by done. by rewrite lookup_delete_ne in Hov.
  - intros s' n. rewrite members_of_add. unfold expected.
    change (λ l', Room.name (room (session_at (add_member (Room.name r) s w1) l')))
      with (λ l', Room.name (room (session_at w1 l'))).
    destruct (decide (s' = s)) as [->|Hne].
    + rewrite lookup_delete_eq, Hsl. cbn. rewrite Hat.
      destruct (decide (n = Room.name r)) as [->|Hnr]; [set_solver|].
      rewrite Hm. unfold expected. rewrite lookup_insert_eq. naive_solver.
    + rewrite lookup_delete_ne by done. specialize (Hm s' n). unfold expected in Hm.
      rewrite lookup_insert_ne in Hm by done. rewrite <-Hm.
      destruct (decide (n = Room.name r)) as [->|Hnr]; [set_solver|done].
Qed.
End move.

Lemma inv_uproot T S ov w s l old r :
  inv T S ov w → S !! s = Some l → (small w → ∀ m, expected S ov w s = Some m → m = old) →
  inv T S (<[s := None]> ov) (uproot s old l r w).
Proof.
  intros (Hwf & HT & Hc) Hsl Hold. unfold inv, small, uproot. cbn [db update_session set_heap sessions].
  rewrite db_remove, sessions_remove. split_and!; [done..|]. intros Hs. destruct (Hc Hs) as [Hco [Hb1 Hb2]].
  split; [by apply uproot_coherent; auto|].
  constructor; cbn [knownRooms update_session set_heap db]; rewrite known_remove, ?db_remove; done.
Qed.
Lemma inv_place T S ov w s l old r :
  inv T S ov w → S !! s = Some l → (small w → ∀ m, expected S ov w s = Some m → m = old) →
  (small w → knownRooms w !! Room.name r = Some r) →
  inv T S (delete s ov) (place s old l r w).
Proof.
  intros (Hwf & HT & Hc) Hsl Hold Hr. unfold inv, small, place, uproot.
  cbn [db add_member set_members update_session set_heap sessions].
  rewrite db_remove, sessions_remove. split_and!; [done..|]. intros Hs. destruct (Hc Hs) as [Hco [Hb1 Hb2]].
  split; [by apply place_coherent; auto|].
  constructor; cbn [knownRooms add_member set_members update_session set_heap db];
    rewrite known_remove, ?db_remove; done.
Qed.

(** ** Joining and leaving *)

Section joining.
Context {env : ServerEnv}.

(** the stored membership of a join *)
Definition persist_join (username : string) (previousRoomId joinedRoomId : Z) : M bool :=
  when (negb (previousRoomId =? joinedRoomId)%Z) (db_do (clearMembership username previousRoomId)) ;;
  db_do (setMembership username joinedRoomId NODE_ID) ;;
  mret true.

Lemma joinRoom_run n l w :
  let o := session_at w l in
  let name := if is_empty n then Room.name LOBBY else n in
  joinRoom n l w =
  match knownRooms w !! name with
  | None => (Ok false, w)
  | Some r =>
      let w1 := add_member name (clientSocket o) (uproot (clientSocket o) (Room.name (room o)) l r w) in
      if authenticated o
      then try_catch (persist_join (User.username (user o)) (Room.id (room o)) (Room.id r))
             (λ _, rollback_join (clientSocket o) name (Room.name (room o)) l ;; mret false) w1
      else (Ok true, w1)
  end.
Proof.
  cbv zeta. unfold joinRoom, getRoomOf, getUser, isAuthenticated, getSocket, mbind, SE_bind, gets.
  destruct (knownRooms w !! _) as [r|]; [|done]. rewrite removeSocketLocked_run.
  unfold setRoom, insert_member, modify. by destruct (authenticated (session_at w l)).
Qed.

(** a storage operation keeps the heap, so the room of a session *)
Definition placed (l : loc) (r : Room.t) (w : World) : Prop := room (session_at w l) = r.

Lemma session_place s old l r w :
  is_Some (heap w !! l) → room (session_at (place s old l r w) l) = r.
Proof.
  intros [o Ho]. change (room (session_at (uproot s old l r w) l) = r). unfold uproot.
  by rewrite session_at_update, heap_remove, decide_True, Ho.
Qed.

Lemma rollback_run s name prev l w :
  rollback_join s name prev l w =
  (Ok tt, match knownRooms w !! prev with
          | Some r => add_member prev s (uproot s name l r w)
          | None => place s name l LOBBY w
          end).
Proof.
  unfold rollback_join, mbind, SE_bind, gets. rewrite removeSocketLocked_run. rewrite known_remove.
  by destruct (knownRooms w !! prev).
Qed.

Lemma inv_at T S ov w l s :
  inv T S ov w → S !! s = Some l → small w →
  clientSocket (session_at w l) = s ∧ is_Some (heap w !! l).
Proof.
  intros (_ & _ & Hc) Hsl Hs. destruct (Hc Hs) as [Hco _].
  destruct (c_session _ _ _ Hco s l Hsl) as (o & Ho & Hos). unfold session_at. by rewrite Ho.
Qed.

(** states before and after the ids outgrow an [int]: in the latter only the tables count *)
Definition good T S ov (w : World) : Prop := inv T S ov w ∧ small w.
Definition big T (w : World) : Prop := db_wf (db w) ∧ sessions w = T ∧ ¬ small w.

Lemma inv_cases T S ov w : inv T S ov w → good T S ov w ∨ big T w.
Proof. intros Hw. destruct (Z.lt_ge_cases (sqlite_sequence (db w)) (2 ^ 31)); [by left|right].
  destruct Hw as (? & ? & _). split_and!; [done..|]. unfold small. lia. Qed.
Lemma big_inv T S ov w : big T w → inv T S ov w.
Proof. intros (? & ? & ?). by split_and!. Qed.
Lemma quiet_big T : quiet (big T).
Proof. by intros w n t (? & ? & ?). Qed.
Lemma db_stable_big T : db_stable (big T).
Proof.
  intros w t (? & ? & Hs). split; [done|]. intros ? [_ Hq]. split_and!; [done..|].
  unfold small. cbn [db set_db]. by rewrite Hq.
Qed.
Lemma big_frame T w w' : db w' = db w → sessions w' = sessions w → big T w → big T w'.
Proof. unfold big, small. by intros -> ->. Qed.
Lemma quiet_good T S ov : quiet (good T S ov).
Proof. intros w n t [Hw ?]. split; [by apply quiet_inv|done]. Qed.

(** an operation of both kinds of states is one of [inv] *)
Lemma triple_inv {A} T S ov (m : M A) (Q : outcome A → World → Prop) :
  triple (good T S ov) m Q → preserves (big T) m →
  (∀ o w, big T w → Q o w) → triple (inv T S ov) m Q.
Proof.
  intros Hg Hb HQ w [Hw|Hw]%inv_cases; [by apply Hg|]. apply HQ. by apply Hb.
Qed.
End joining.

#[export] Hint Resolve quiet_big db_stable_big quiet_good : pres.
#[export] Hint Extern 5 (preserves (big _) (modify _)) =>
  apply preserves_modify; intros ? ?; eapply big_frame; [..|eassumption]; reflexivity : pres.

Section joining2.
Context {env : ServerEnv}.

Lemma db_stable_good_placed T S ov l r : db_stable (λ w, good T S ov w ∧ placed l r w).
Proof.
  intros w t [[Hi Hs] Hp]. destruct (db_stable_inv T S ov w t Hi) as [Hwf Hset]. split; [done|].
  intros Hwf' Hr. split; [|done]. split; [by apply Hset|]. destruct Hr as [_ Hq].
  unfold small. cbn [db set_db]. by rewrite Hq.
Qed.

Lemma small_place w w' : db w' = db w → small w → small w'.
Proof. unfold small. by intros ->. Qed.
Lemma db_uproot s old l r w : db (uproot s old l r w) = db w.
Proof. unfold uproot. cbn [db update_session set_heap]. apply db_remove. Qed.
Lemma sessions_uproot s old l r w : sessions (uproot s old l r w) = sessions w.
Proof. unfold uproot. cbn [sessions update_session set_heap]. apply sessions_remove. Qed.

Lemma good_place T S ov w s l old r :
  good T S ov w → S !! s = Some l → (∀ m, expected S ov w s = Some m → m = old) →
  knownRooms w !! Room.name r = Some r →
  good T S (delete s ov) (place s old l r w).
Proof.
  intros [Hw Hs] Hsl Hold Hr. split; [by apply inv_place|].
  apply (small_place w); [|done]. apply db_uproot.
Qed.

(** where a session in its room is *)
Lemma expected_session (S : gmap Z loc) w s l m :
  S !! s = Some l → expected S ∅ w s = Some m → m = Room.name (room (session_at w l)).
Proof. intros Hsl. unfold expected. rewrite lookup_empty, Hsl. cbn. by intros [= <-]. Qed.

Lemma good_socket T S ov w l s :
  good T S ov w → S !! s = Some l → clientSocket (session_at w l) = s ∧ is_Some (heap w !! l).
Proof. intros [Hi Hs] Hsl. by eapply inv_at. Qed.
Lemma good_named T S ov w n r : good T S ov w → knownRooms w !! n = Some r → Room.name r = n.
Proof. intros [(_ & _ & Hc) Hs]. destruct (Hc Hs) as [Hco _]. apply (c_named _ _ _ Hco). Qed.
Lemma good_lobby T S ov w : good T S ov w → knownRooms w !! Room.name LOBBY = Some LOBBY.
Proof. intros [(_ & _ & Hc) Hs]. destruct (Hc Hs) as [Hco _]. apply (c_lobby _ _ _ Hco). Qed.

(** the sockets on their way when at most [s] is *)
Definition at_most (s : Z) (ov : gmap Z (option string)) : Prop := ov = ∅ ∨ ov = {[s := None]}.
Lemma at_most_delete s ov : at_most s ov → delete s ov = ∅.
Proof. intros [->| ->]; [apply delete_empty|apply delete_singleton_eq]. Qed.
Lemma at_most_expected (S : gmap Z loc) ov w s l m :
  at_most s ov → S !! s = Some l → expected S ov w s = Some m → m = Room.name (room (session_at w l)).
Proof.
  intros [->| ->] Hsl; [by apply expected_session|]. unfold expected. by rewrite lookup_singleton_eq.
Qed.

Lemma rollback_pres T S s l name prev :
  S !! s = Some l →
  triple (λ w, good T S ∅ w ∧ Room.name (room (session_at w l)) = name) (rollback_join s name prev l)
    (λ _, good T S ∅).
Proof.
  intros Hsl w [Hw Hp]. unfold run_state. rewrite rollback_run. cbn [snd].
  destruct (knownRooms w !! prev) as [r|] eqn:E.
  - pose proof (good_named _ _ _ _ _ _ Hw E) as <-.
    rewrite <-(delete_empty s). apply (good_place _ _ _ _ _ _ name r Hw Hsl); [|done].
    intros m Hm. rewrite <-Hp. by eapply expected_session.
  - rewrite <-(delete_empty s). apply (good_place _ _ _ _ _ _ name LOBBY Hw Hsl); [|by eapply good_lobby].
    intros m Hm. rewrite <-Hp. by eapply expected_session.
Qed.

Lemma persist_pres (I : World → Prop) u p j : db_stable I → preserves I (persist_join u p j).
Proof. intros HI. unfold persist_join. solve_pres. Qed.

Lemma joinRoom_good T S s l ov n :
  S !! s = Some l → at_most s ov →
  triple (good T S ov) (joinRoom n l) (λ o w,
    good T S ∅ w ∨ good T S ov w ∧ knownRooms w !! (if is_empty n then Room.name LOBBY else n) = None).
Proof.
  intros Hsl Hov w Hw. unfold run_out, run_state. rewrite joinRoom_run. cbv zeta.
  set (name := if is_empty n then _ else n). set (o := session_at w l).
  destruct (knownRooms w !! name) as [r|] eqn:Hr; [|by right]. left.
  destruct (good_socket _ _ _ _ _ _ Hw Hsl) as [Hos Hheap]. fold o in Hos. rewrite Hos.
  pose proof (good_named _ _ _ _ _ _ Hw Hr) as <-.
  set (prev := room o) in *. set (w1 := add_member _ _ _).
  assert (good T S ∅ w1 ∧ placed l r w1) as Hw1.
  { split; [|by apply session_place]. rewrite <-(at_most_delete s ov) by done.
    apply (good_place _ _ _ _ _ _ (Room.name prev) r Hw Hsl); [|done].
    intros m. by apply at_most_expected. }
  clearbody w1. destruct (authenticated o); [|apply Hw1].
  pose proof (persist_pres _ (User.username (user o)) (Room.id prev) (Room.id r)
    (db_stable_good_placed T S ∅ l r) w1 Hw1) as Hp. unfold run_state in Hp.
  unfold try_catch. destruct (persist_join _ _ _ w1) as [[b|e] w2]; simpl in Hp |- *; [apply Hp|].
  unfold mbind, SE_bind. destruct Hp as [Hg Hpl].
  pose proof (rollback_pres T S s l (Room.name r) (Room.name prev) Hsl w2) as Hrb.
  unfold run_state in Hrb. rewrite rollback_run in *. apply Hrb. split; [done|]. by rewrite Hpl.
Qed.
End joining2.

Section operations.
Context {env : ServerEnv}.

Lemma joinRoom_total n l : total (joinRoom n l).
Proof.
  unfold joinRoom, getRoomOf, getUser, isAuthenticated, getSocket, removeSocketLocked, setRoom,
    insert_member, rollback_join, removeSocketLocked, setRoom, insert_member.
  solve_total.
Qed.
Lemma leaveAll_total l : total (leaveAll l).
Proof.
  unfold leaveAll, getRoomOf, getUser, isAuthenticated, getSocket, removeSocketLocked, setRoom.
  solve_total.
Qed.
Lemma joinRoom_big T n l : preserves (big T) (joinRoom n l).
Proof.
  unfold joinRoom, getRoomOf, getUser, isAuthenticated, getSocket, removeSocketLocked, setRoom,
    insert_member, rollback_join, removeSocketLocked, setRoom, insert_member.
  solve_pres.
Qed.
Lemma leaveAll_big T l : preserves (big T) (leaveAll l).
Proof.
  unfold leaveAll, getRoomOf, getUser, isAuthenticated, getSocket, removeSocketLocked, setRoom.
  solve_pres.
Qed.

(** joining from a room, and joining the Lobby from nowhere *)
Lemma joinRoom_inv T S s l n : S !! s = Some l → preserves (inv T S ∅) (joinRoom n l).
Proof.
  intros Hsl. apply triple_inv; [|apply joinRoom_big|intros _; apply big_inv].
  intros w Hw. by destruct (joinRoom_good T S s l ∅ n Hsl (or_introl eq_refl) w Hw) as [[]|[[] _]].
Qed.
Lemma joinLobby_inv T S s l :
  S !! s = Some l → triple (inv T S {[s := None]}) (joinRoom (Room.name LOBBY) l) (λ _, inv T S ∅).
Proof.
  intros Hsl. apply triple_inv; [|apply joinRoom_big|intros _; apply big_inv].
  intros w Hw.
  destruct (joinRoom_good T S s l _ (Room.name LOBBY) Hsl (or_intror eq_refl) w Hw) as [[]|[Hg Hno]]; [done|].
  enough (Some LOBBY = None) by done. rewrite <-(good_lobby _ _ _ _ Hg). exact Hno.
Qed.

Lemma leaveAll_inv T S s l :
  S !! s = Some l → triple (inv T S ∅) (leaveAll l) (λ _, inv T S {[s := None]}).
Proof.
  intros Hsl. apply triple_inv; [|apply leaveAll_big|intros _; apply big_inv].
  intros w Hw. unfold run_state, leaveAll, getRoomOf, getUser, isAuthenticated, getSocket, mbind, SE_bind, gets.
  rewrite removeSocketLocked_run. unfold setRoom, modify.
  destruct (good_socket _ _ _ _ _ _ Hw Hsl) as [Hos _]. rewrite Hos.
  set (o := session_at w l). fold (uproot s (Room.name (room o)) l LOBBY w).
  assert (inv T S {[s := None]} (uproot s (Room.name (room o)) l LOBBY w)) as H1.
  { rewrite <-insert_empty. apply inv_uproot; [apply Hw|done|]. intros _ m. by apply expected_session. }
  revert H1. generalize (uproot s (Room.name (room o)) l LOBBY w).
  change (preserves (inv T S {[s := None]}) (when (authenticated o && negb (is_empty (User.username (user o))))
    (try_catch (db_do (clearAllMembership (User.username (user o)))) (λ _, mret tt)))).
  solve_pres.
Qed.

Lemma update_inv T S ov l f : keeps_place f → preserves (inv T S ov) (modify (update_session l f)).
Proof. intros Hf. apply preserves_modify. intros w. by apply inv_update. Qed.
Lemma setUser_inv T S ov l v : preserves (inv T S ov) (setUser l v).
Proof. by apply update_inv. Qed.
Lemma setAuthenticated_inv T S ov l v : preserves (inv T S ov) (setAuthenticated l v).
Proof. by apply update_inv. Qed.
Lemma touch_inv T S ov l : preserves (inv T S ov) (touch l).
Proof. apply preserves_bind; [eauto with pres|]. intros. by apply update_inv. Qed.
Lemma markClosed_inv T S ov l : preserves (inv T S ov) (markClosed l).
Proof.
  apply preserves_bind; [apply preserves_gets|]. intros.
  apply preserves_bind; [by apply update_inv|solve_pres].
Qed.
Lemma closeClient_inv T S ov s : preserves (inv T S ov) (closeClient s).
Proof. pose proof markClosed_inv. unfold closeClient. solve_pres. Qed.

Lemma quiet_broadcast_loop I l p k b : quiet I → preserves I (broadcast_loop l p k b).
Proof. intros HI. revert b. induction l as [|s l IH]; intros b; cbn [broadcast_loop]; solve_pres; apply IH. Qed.
Lemma quiet_broadcast I r p k : quiet I → preserves I (broadcast r p k).
Proof. intros HI. pose proof (quiet_broadcast_loop I). unfold broadcast. solve_pres. Qed.
Lemma quiet_broadcast_rooms I l p k b : quiet I → preserves I (broadcast_rooms l p k b).
Proof.
  intros HI. pose proof (quiet_broadcast I) as Hb. revert b.
  induction l as [|r l IH]; intros b; cbn [broadcast_rooms]; solve_pres; apply IH.
Qed.
Lemma quiet_broadcastAll I p k : quiet I → preserves I (broadcastAll p k).
Proof. intros HI. pose proof (quiet_broadcast_rooms I). unfold broadcastAll. solve_pres. Qed.
End operations.

#[export] Hint Resolve joinRoom_total leaveAll_total : total.
#[export] Hint Resolve joinRoom_inv setUser_inv setAuthenticated_inv touch_inv markClosed_inv
  closeClient_inv quiet_broadcast quiet_broadcastAll : pres.

(** ** Creating a room *)

Lemma coherent_known S ov w n r :
  knownRooms w !! n = None → Room.name r = n → coherent S ov w →
  coherent S ov (set_knownRooms (<[n := r]> (knownRooms w)) w).
Proof.
  intros Hno Hn [Hl Hnm Hs Hr Hm Hf].
  assert (∀ m r', knownRooms w !! m = Some r' → <[n := r]> (knownRooms w) !! m = Some r') as Hk.
  { intros m r' Hm'. rewrite lookup_insert_ne; [done|]. by intros ->; rewrite Hno in Hm'. }
  constructor; cbn [knownRooms set_knownRooms]; [by apply Hk| |exact Hs| |exact Hm|exact Hf].
  - intros m r'. destruct (decide (m = n)) as [->|Hne]; [rewrite lookup_insert_eq; by intros [= <-]|].
    rewrite lookup_insert_ne by done. apply Hnm.
  - intros s l Hsl Hov. apply Hk. by apply (Hr s l).
Qed.

Section create.
Context {env : ServerEnv}.
Hypothesis no_failure : ∀ n, env_db n = None.

Lemma createRoom_inv T S ov r e : preserves (inv T S ov) (createRoom r e).
Proof using no_failure.
  intros w Hw. unfold run_state, createRoom, mbind, SE_bind, gets.
  destruct (knownRooms w !! Room.name r) as [r0|] eqn:Hno; [done|].
  unfold try_catch, db_do, zoom.
  pose proof (createRoom_run no_failure (Room.name r) (Room.type r) (Room.privacy r) e (db w)) as Hrun.
  pose proof (createRoom_wf (Room.name r) (Room.type r) (Room.privacy r) e (db w)) as Hwf.
  unfold run_state in Hwf. destruct (DatabaseManager.createRoom _ _ _ _ (db w)) as [o t]. cbn [snd] in Hwf.
  destruct Hw as (Hwf0 & HT & Hc). specialize (Hwf Hwf0). cbv zeta in Hrun.
  assert (small (set_db t w) → small w) as Hsmall.
  { unfold small. cbn [db set_db]. destruct Hrun as [(_ & _ & -> & _)|(_ & _ & -> & _)]; lia. }
  assert (∀ x, x ∈ rooms (db w) → x ∈ rooms t) as Hrows.
  { intros x Hx. destruct Hrun as [(_ & -> & _)|(_ & -> & _)]; [done|set_solver]. }
  assert (inv T S ov (set_db t w)) as Ht.
  { split_and!; [done..|]. intros Hs. destruct (Hc (Hsmall Hs)) as [Hco [Hb1 Hb2]]. split.
    - by eapply coherent_frame; [..|exact Hco].
    - constructor; cbn [knownRooms set_db db]; [|done]. intros n r' Hr'. by apply Hrows, (Hb1 n). }
  destruct o as [created|?]; [|done].
  unfold mbind, SE_bind, modify, mret, SE_ret. cbn [snd].
  destruct Hrun as [(_ & _ & _ & ?)|(_ & Er & Eq & Hres)]; [done|]. rewrite (Hres _ eq_refl).
  cbn [Room.name knownRooms set_db]. unfold emplace_room. rewrite Hno.
  destruct Ht as (_ & _ & Ht). split_and!; [done..|]. intros Hs. destruct (Ht Hs) as [Hco [Hb1 Hb2]].
  assert (as_int (sqlite_sequence (db w) + 1) = sqlite_sequence (db w) + 1)%Z as Hid.
  { unfold small in Hs. cbn [db set_db set_knownRooms] in Hs. rewrite Eq in Hs.
    pose proof (k_sequence_min _ (proj1 Hwf0)). unfold as_int, u32. rewrite Z.mod_small by lia.
    by destruct (Z.ltb_spec (sqlite_sequence (db w) + 1) (2 ^ 31)); [|lia]. }
  rewrite Hid. split.
  - apply (coherent_known S ov (set_db t w)); done.
  - constructor; cbn [knownRooms set_db set_knownRooms db]; intros n r'.
    + destruct (decide (n = Room.name r)) as [->|Hne]; [|rewrite lookup_insert_ne by done; apply Hb1].
      rewrite lookup_insert_eq. intros [= <-]. rewrite Er. apply elem_of_app. right.
      by apply list_elem_of_singleton.
    + destruct (decide (n = Room.name r)) as [->|Hne]; [|rewrite lookup_insert_ne by done; apply Hb2].
      rewrite lookup_insert_eq. intros [= <-]. cbn [Room.id]. intros Hlt.
      pose proof (k_sequence_min _ (proj1 Hwf0)). lia.
Qed.
End create.

(** ** Deleting a room *)

Definition add_all (n : string) (l : list Z) (w : World) : World := foldl (λ w s, add_member n s w) w l.

Lemma insert_all_run n l w : for_each l (λ s, insert_member n s) w = (Ok tt, add_all n l w).
Proof. revert w. induction l as [|s l IH]; intros w; [done|]. apply IH. Qed.
Lemma members_of_add_all n l w m :
  members_of (add_all n l w) m = if decide (m = n) then list_to_set l ∪ members_of w n else members_of w m.
Proof.
  revert w. induction l as [|s l IH]; intros w; cbn [add_all foldl].
  - destruct (decide (m = n)) as [->|]; [set_solver|done].
  - fold (add_all n l (add_member n s w)). rewrite IH, !members_of_add.
    destruct (decide (m = n)) as [->|Hne]; [rewrite decide_True by done; set_solver|done].
Qed.
(** only the member sets change *)
Lemma add_all_fields n l w : ∃ v, add_all n l w = set_members v w.
Proof.
  revert w. induction l as [|s l IH]; intros w; [exists (members w); by destruct w|].
  destruct (IH (add_member n s w)) as [v Hv]. exists v. cbn [add_all foldl].
  fold (add_all n l (add_member n s w)). by rewrite Hv.
Qed.

Definition to_lobby (D : gset Z) : gmap Z (option string) := gset_to_gmap (Some (Room.name LOBBY)) D.
Lemma to_lobby_in D s : s ∈ D → to_lobby D !! s = Some (Some (Room.name LOBBY)).
Proof. intros H. by apply lookup_gset_to_gmap_Some. Qed.
Lemma to_lobby_out D s : s ∉ D → to_lobby D !! s = None.
Proof. intros H. by apply lookup_gset_to_gmap_None. Qed.

(** the room and its members are gone, the members are in the Lobby's set *)
Definition emptied (n : string) (w : World) : World :=
  add_all (Room.name LOBBY) (elements (members_of w n))
    (set_knownRooms (delete n (knownRooms w)) (set_members (delete n (members w)) w)).

Lemma emptied_coherent S n w :
  coherent S ∅ w → n ≠ Room.name LOBBY → coherent S (to_lobby (members_of w n)) (emptied n w).
Proof.
  intros [Hl Hn Hs Hr Hm Hf] Hne. unfold emptied. set (w0 := set_knownRooms _ _).
  assert (∀ m, members_of (add_all (Room.name LOBBY) (elements (members_of w n)) w0) m =
    if decide (m = Room.name LOBBY) then members_of w n ∪ members_of w m
    else if decide (m = n) then ∅ else members_of w m) as Hmem.
  { intros m. rewrite members_of_add_all, list_to_set_elements_L.
    assert (∀ k, members_of w0 k = if decide (k = n) then ∅ else members_of w k) as H0.
    { intros k. unfold w0, members_of. cbn [members set_knownRooms set_members].
      destruct (decide (k = n)) as [->|]; [by rewrite lookup_delete_eq|by rewrite lookup_delete_ne]. }
    rewrite !H0. destruct (decide (m = Room.name LOBBY)) as [->|]; [|done]. by rewrite decide_False. }
  destruct (add_all_fields (Room.name LOBBY) (elements (members_of w n)) w0) as [v Hv].
  rewrite Hv in *. constructor; cbn [knownRooms set_members set_knownRooms w0].
  - by rewrite lookup_delete_ne.
  - intros m r [_ Hmr]%lookup_delete_Some. by apply Hn.
  - exact Hs.
  - intros s l Hsl Hov. change (session_at _ l) with (session_at w l).
    rewrite lookup_delete_ne; [apply (Hr s l Hsl); apply lookup_empty|].
    intros Heq. apply lookup_gset_to_gmap_None in Hov. apply Hov, Hm.
    unfold expected. rewrite lookup_empty, Hsl. cbn. by rewrite Heq.
  - intros s m. rewrite Hmem. unfold expected. destruct (decide (s ∈ members_of w n)) as [Hin|Hout].
    + rewrite to_lobby_in by done.
      destruct (decide (m = Room.name LOBBY)) as [->|Hml]; [split; [done|set_solver]|].
      assert (Some (Room.name LOBBY) ≠ Some m) by congruence.
      destruct (decide (m = n)) as [->|Hmn]; [set_solver|].
      split; [|done]. intros Hin'. apply Hm in Hin, Hin'. congruence.
    + rewrite to_lobby_out by done. unfold members_of in Hmem.
      change (λ l, Room.name (room (session_at _ l))) with (λ l, Room.name (room (session_at w l))).
      specialize (Hm s m) as Hm'. unfold expected in Hm'. rewrite lookup_empty in Hm'. rewrite <-Hm'.
      destruct (decide (m = Room.name LOBBY)) as [->|Hml]; [set_solver|].
      destruct (decide (m = n)) as [->|Hmn]; [set_solver|done].
  - exact Hf.
Qed.

(** the session of a socket in the Lobby's set is set to the Lobby *)
Lemma settle_coherent S ov w s l r :
  coherent S ov w → S !! s = Some l → ov !! s = Some (Some (Room.name r)) →
  knownRooms w !! Room.name r = Some r →
  coherent S (delete s ov) (update_session l (set_s_room r) w).
Proof.
  intros [Hl Hn Hs Hroom Hm Hf] Hsl Hov Hr.
  assert (∀ s' l', S !! s' = Some l' → room (session_at (update_session l (set_s_room r) w) l') =
    if decide (s' = s) then r else room (session_at w l')) as Hat.
  { intros s' l' Hs'. rewrite session_at_update.
    destruct (Hs s l Hsl) as (o & Ho & Hos). destruct (Hs s' l' Hs') as (o' & Ho' & Hos').
    destruct (decide (s' = s)) as [->|Hne]; [rewrite decide_True by congruence; by rewrite Ho|].
    by rewrite decide_False by congruence. }
  constructor; [done|done| | | |].
  - intros s' l' Hs'. destruct (Hs s' l' Hs') as (o & Ho & Hos). unfold update_session. cbn [heap set_heap].
    destruct (decide (l' = l)) as [->|Hne]; [rewrite lookup_alter_eq, Ho; by eexists|].
    rewrite lookup_alter_ne by done. by exists o.
  - intros s' l' Hs' Hov'. rewrite (Hat s' l' Hs'). destruct (decide (s' = s)) as [->|Hne]; [done|].
    rewrite lookup_delete_ne in Hov' by done. by apply (Hroom s' l').
  - intros s' n. etransitivity; [apply Hm|]. unfold expected. destruct (decide (s' = s)) as [->|Hne].
    + rewrite Hov, lookup_delete_eq, Hsl. cbn. rewrite (Hat s l Hsl), decide_True by done. naive_solver.
    + rewrite lookup_delete_ne by done. destruct (ov !! s'); [done|].
      destruct (S !! s') as [l'|] eqn:E; [|done]. cbn. by rewrite (Hat s' l' E), decide_False.
  - intros l' Hl'. unfold update_session in *. cbn [heap set_heap next_loc] in *.
    destruct (decide (l' = l)) as [->|Hne]; [by rewrite lookup_alter_eq, (Hf l Hl')|].
    rewrite lookup_alter_ne by done. by apply Hf.
Qed.

Lemma inv_settle T S D w s l :
  inv T S (to_lobby ({[s]} ∪ D)) w → S !! s = Some l → s ∉ D →
  inv T S (to_lobby D) (update_session l (set_s_room LOBBY) w).
Proof.
  intros (Hwf & HT & Hc) Hsl Hs. split_and!; [done..|]. intros Hsm. destruct (Hc Hsm) as [Hco [Hb1 Hb2]].
  split; [|by constructor].
  assert (to_lobby D = delete s (to_lobby ({[s]} ∪ D))) as ->.
  { unfold to_lobby. rewrite gset_to_gmap_union_singleton, delete_insert_id; [done|].
    by apply lookup_gset_to_gmap_None. }
  apply settle_coherent; [done|done|apply to_lobby_in; set_solver|apply (c_lobby _ _ _ Hco)].
Qed.

Section delete.
Context {env : ServerEnv}.

Lemma to_lobby_nil : to_lobby ∅ = ∅.
Proof. apply gset_to_gmap_empty. Qed.

Lemma move_to_lobby_inv T S D i s l :
  S !! s = Some l → s ∉ D →
  triple (inv T S (to_lobby ({[s]} ∪ D))) (move_to_lobby i S s) (λ _, inv T S (to_lobby D)).
Proof.
  intros Hsl Hs. unfold move_to_lobby. rewrite Hsl.
  apply (triple_bind _ _ _ (λ _, inv T S (to_lobby D))); [|intros ?|done].
  - intros w Hw. by apply (inv_settle T S D w s l).
  - change (preserves (inv T S (to_lobby D)) (auth ← isAuthenticated l; u ← getUser l;
      when (auth && negb (is_empty (User.username u)))
        (try_catch (db_do (clearMembership (User.username u) i) ;;
                    db_do (setMembership (User.username u) (Room.id LOBBY) NODE_ID)) (λ _, mret tt)))).
    unfold isAuthenticated, getUser. solve_pres.
Qed.
Lemma move_all_inv T S i l :
  NoDup l → (∀ s, s ∈ l → is_Some (S !! s)) →
  triple (inv T S (to_lobby (list_to_set l))) (for_each l (move_to_lobby i S)) (λ _, inv T S ∅).
Proof.
  induction 1 as [|s l Hs Hnd IH]; intros Hl; cbn [for_each list_to_set].
  - intros w Hw. by rewrite <-to_lobby_nil.
  - destruct (Hl s) as [x Hx]; [set_solver|].
    apply (triple_bind _ _ _ (λ o w, match o with Ok _ => inv T S (to_lobby (list_to_set l)) w | _ => inv T S ∅ w end)).
    + intros w Hw.
      assert (total (move_to_lobby i S s)) as Htot.
      { unfold move_to_lobby, setRoom, isAuthenticated, getUser. solve_total. }
      destruct (Htot w) as [a ->]. apply (move_to_lobby_inv T S (list_to_set l) i s x); [done| |done].
      by rewrite elem_of_list_to_set.
    + intros _. apply IH. set_solver.
    + done.
Qed.

Lemma deleteRoom_big T n : preserves (big T) (deleteRoom n).
Proof.
  assert (∀ i, preserves (big T) (db_do (DatabaseManager.deleteRoom i))) as Hd.
  { intros i w (Hwf & HT & Hs). unfold run_state, db_do, zoom.
    pose proof (deleteRoom_wf i (db w) Hwf) as Hwf'.
    pose proof (deleteRoom_sequence (sqlite_sequence (db w)) i (db w) eq_refl) as Hq. unfold run_state in *.
    destruct (DatabaseManager.deleteRoom i (db w)) as [o t]. split_and!; [done..|].
    unfold small in *. cbn [db set_db snd] in *. by rewrite Hq. }
  unfold deleteRoom, listRooms, move_to_lobby, insert_member, setRoom, isAuthenticated, getUser.
  solve_pres.
Qed.

Section no_failure.
Hypothesis no_failure : ∀ n, env_db n = None.

(** the stored room goes with the known one *)
Lemma delete_known_good T n r w :
  good T T ∅ w → n ≠ Room.name LOBBY → n ≠ Room.name GENERAL → knownRooms w !! n = Some r →
  ∃ w', db_do (DatabaseManager.deleteRoom (Room.id r)) (emptied n w) = (Ok tt, w') ∧
    inv T T (to_lobby (members_of w n)) w' ∧ sessions w' = T.
Proof using no_failure.
  intros [(Hwf & HT & Hc) Hs] Hnl Hng Hr. destruct (Hc Hs) as [Hco [Hb1 Hb2]].
  pose proof (Hb1 n r Hr) as Hrow. set (w0 := emptied n w).
  destruct (add_all_fields (Room.name LOBBY) (elements (members_of w n))
    (set_knownRooms (delete n (knownRooms w)) (set_members (delete n (members w)) w))) as [v Hv].
  assert (w0 = set_members v (set_knownRooms (delete n (knownRooms w)) w)) as E0.
  { unfold w0, emptied. rewrite Hv. done. }
  destruct (deleteRoom_run no_failure (Room.id r) (db w) Hwf) as (t & Hrun & _ & _ & Er & _ & _ & _ & Eq).
  { destruct (Z.lt_ge_cases (Room.id r) 3) as [Hlt|]; [|done]. by destruct (Hb2 n r Hr Hlt). }
  { apply list_elem_of_fmap. by exists (room_to_row r). }
  exists (set_db t w0). split.
  - unfold db_do, zoom. replace (db w0) with (db w) by (by rewrite E0). by rewrite Hrun.
  - pose proof (deleteRoom_wf (Room.id r) (db w) Hwf) as Hwf'. unfold run_state in Hwf'. rewrite Hrun in Hwf'.
    split; [|by rewrite E0]. split_and!; [done|by rewrite E0|]. intros _. split.
    + eapply coherent_frame; [..|apply (emptied_coherent _ n _ Hco Hnl)]; done.
    + constructor; cbn [db set_db]; rewrite E0; cbn [knownRooms set_db set_members set_knownRooms].
      * intros n' r' [Hne Hr']%lookup_delete_Some. rewrite Er. apply list_elem_of_filter.
        split; [|by apply (Hb1 n')]. cbn [room_to_row r_id]. intros Hid.
        assert (room_to_row r' ∈ filter (λ y, r_id y = r_id (room_to_row r)) (rooms (db w))) as Hin.
        { apply list_elem_of_filter. split; [done|by apply (Hb1 n')]. }
        rewrite (filter_fmap_key r_id (rooms (db w)) (room_to_row r) (k_room_id _ (proj1 Hwf)) Hrow) in Hin.
        apply list_elem_of_singleton in Hin. apply Hne.
        rewrite <-(c_named _ _ _ Hco n r Hr), <-(c_named _ _ _ Hco n' r' Hr').
        symmetry. by apply (f_equal r_name) in Hin.
      * intros n' r' [_ Hr']%lookup_delete_Some. by apply Hb2.
Qed.

Lemma deleteRoom_inv T n : preserves (inv T T ∅) (deleteRoom n).
Proof using no_failure.
  apply triple_inv; [|apply deleteRoom_big|intros _; apply big_inv].
  intros w Hw. unfold run_state, deleteRoom.
  destruct (String.eqb n (Room.name LOBBY) || String.eqb n (Room.name GENERAL)) eqn:E; [apply Hw|].
  apply orb_false_iff in E as [Hl%String.eqb_neq Hg%String.eqb_neq].
  unfold mbind, SE_bind. unfold gets at 1. destruct (knownRooms w !! n) as [r|] eqn:Hr; [|apply Hw].
  unfold gets at 1. unfold modify at 1 2. rewrite insert_all_run.
  change (add_all _ _ _) with (emptied n w). unfold try_catch.
  destruct (delete_known_good T n r w Hw Hl Hg Hr) as (w' & Hrun & Hw' & HT').
  unfold mbind, SE_bind. rewrite Hrun. unfold mret, SE_ret at 1. cbn [negb]. unfold gets at 1. rewrite HT'.
  clear Hrun. revert w' Hw' HT'. set (sockets := elements (members_of w n)).
  intros w' Hw' HT'.
  assert (∀ s, s ∈ sockets → is_Some (T !! s)) as Hin.
  { intros s Hs%elem_of_elements. destruct Hw as [(_ & _ & Hc) Hsm]. destruct (Hc Hsm) as [Hco _].
    apply (c_member _ _ _ Hco) in Hs. unfold expected in Hs. rewrite lookup_empty in Hs.
    destruct (T !! s); [by eexists|done]. }
  pose proof (move_all_inv T T (Room.id r) sockets (NoDup_elements _) Hin w') as Hmove.
  assert (list_to_set sockets = members_of w n) as Es by apply list_to_set_elements_L.
  rewrite Es in Hmove. specialize (Hmove Hw'). unfold run_state in Hmove.
  destruct (for_each sockets _ w') as [[[]|e] w2]; cbn [snd] in *; [|done].
  clear -Hmove. revert w2 Hmove.
  change (preserves (inv T T ∅) (rooms ← listRooms;
    lobbyPush ← new_packet "server" "*" ROOM_LIST (Room.name LOBBY) (Room.serializeList rooms) 0;
    for_each sockets (λ socket, sendPacket socket lobbyPush ;; mret tt) ;; mret true)).
  unfold listRooms. solve_pres.
Qed.
End no_failure.
End delete.

(** ** Broadcasting *)

(** the sockets a broadcast writes to *)
Definition targets (w : World) (r : Room.t) (skip : Z) : list Z :=
  filter (λ s, s ≠ skip ∧ is_open w s = true) (elements (members_of w (Room.name r))).

Section broadcasting.
Context {env : ServerEnv}.

(** a trace that only grew *)
Definition traced (w : World) (sends : list NetAction) (n : nat) : World :=
  set_net (net w ++ sends) (set_reads (reads w + n) w).

Lemma traced_step w s b sends n :
  traced (sent_world s b w) sends n =
  traced w (NetSend s b (env_write (reads w)) :: sends) (S n).
Proof.
  unfold traced, sent_world. cbn [net set_net set_reads reads].
  by rewrite <-app_assoc, Nat.add_succ_r, <-Nat.add_succ_l.
Qed.

Lemma broadcast_loop_run sockets p skip ok w :
  serialize p ≠ "" →
  ∃ oks,
    broadcast_loop sockets p skip ok w =
      (Ok (ok && forallb (λ s, (s =? skip)%Z || is_open w s) sockets && forallb id oks),
       traced w (zip_with (λ s b, NetSend s (wire w p s) b)
                   (filter (λ s, s ≠ skip ∧ is_open w s = true) sockets) oks)
         (length oks)) ∧
    length oks = length (filter (λ s, s ≠ skip ∧ is_open w s = true) sockets) ∧
    Forall (λ b, ∃ n, b = env_write n) oks.
Proof.
  intros Hp. assert (is_empty (serialize p) = false) as He by (by destruct (serialize p)).
  revert ok w. induction sockets as [|s sockets IH]; intros ok w.
  - exists []. split; [|by split]. cbn. unfold traced. rewrite app_nil_r, Nat.add_0_r, !andb_true_r.
    by rewrite set_net_eta.
  - cbn [broadcast_loop forallb]. rewrite filter_cons. destruct (Z.eqb_spec s skip) as [->|Hne].
    + rewrite decide_False by tauto. apply IH.
    + cbn [orb]. unfold mbind, SE_bind. rewrite sendPacket_run, He. destruct (is_open w s) eqn:Ho; cbn [negb andb].
      * rewrite decide_True by done. set (b := env_write (reads w)).
        destruct (IH (if b then ok else false) (sent_world s (wire w p s) w)) as (oks & Hrun & Hlen & Hw).
        exists (b :: oks). cbn [zip_with length]. split; [|split; [by rewrite Hlen|constructor; [by eexists|done]]].
        change (is_open (sent_world s (wire w p s) w)) with (is_open w) in Hrun.
        change (wire (sent_world s (wire w p s) w)) with (wire w) in Hrun.
        rewrite Hrun, traced_step. fold b. cbn [forallb id]. f_equal. f_equal.
        by destruct b, ok, (forallb _ sockets), (forallb id oks).
      * rewrite decide_False by naive_solver.
        destruct (IH false w) as (oks & Hrun & Hlen). exists oks. split; [|done]. rewrite Hrun.
        by rewrite andb_false_r.
Qed.
End broadcasting.

(** * Theorems *)

(** C24. A broadcast to a room reaches its members and nobody else: it writes the packet,
    framed for the kind of client, exactly once to every member whose session is open, the
    skipped socket apart, changes nothing but the network trace, and reports whether every
    one of these members was there and every write went through. *)
Theorem broadcast_reaches_members {env : ServerEnv} r p skip w :
  serialize p ≠ "" →
  ∃ oks,
    broadcast r p skip w =
      (Ok (forallb (λ s, (s =? skip)%Z || is_open w s) (elements (members_of w (Room.name r)))
           && forallb id oks),
       traced w (zip_with (λ s ok, NetSend s (wire w p s) ok) (targets w r skip) oks) (length oks)) ∧
    length oks = length (targets w r skip) ∧
    NoDup (targets w r skip) ∧
    (∀ s, s ∈ targets w r skip ↔ s ∈ members_of w (Room.name r) ∧ s ≠ skip ∧ is_open w s = true).
Proof.
  intros Hp. unfold broadcast, mbind, SE_bind, gets.
  destruct (broadcast_loop_run (elements (members_of w (Room.name r))) p skip true w Hp) as (oks & Hrun & Hlen & _).
  exists oks. split_and!; [exact Hrun|done|apply NoDup_filter, NoDup_elements|].
  intros s. unfold targets. rewrite list_elem_of_filter, elem_of_elements. tauto.
Qed.

#[local] Existing Instance plain_server.

Lemma broadcast_reaches_members_witness :
  ∃ oks,
    broadcast GENERAL (Packet.make 1 "user" "" MESSAGE "General" "hi" 0) INVALID_SOCKET sample_state =
      (Ok (forallb id oks),
       traced sample_state
         (zip_with (λ s ok, NetSend s
            (wire sample_state (Packet.make 1 "user" "" MESSAGE "General" "hi" 0) s) ok) [7%Z] oks)
         (length oks)) ∧ length oks = 1.
Proof.
  destruct (broadcast_reaches_members GENERAL (Packet.make 1 "user" "" MESSAGE "General" "hi" 0)
    INVALID_SOCKET sample_state ltac:(by vm_compute)) as (oks & Hrun & Hlen & _).
  exists oks. split; [exact Hrun|exact Hlen].
Defined.
