(* ===== verification/GossipManager.v ===== *)
(** GossipManager (src/server/gossip_manager.cpp): the peers of this node, the log of
    events it has seen, applying an event to the database and the local clients, rumoring
    a local event, the peer protocol (HELLO, EVENT, DIGEST, PULL) and the periodic digest.

    The theorems: the log is a window of the last 256 identifiers, with exactly one stored
    event per identifier; an event is applied at most once; a digest and the pull that
    answers it transfer exactly the events the other side lacks. *)
From S2P Require Import Prelude Packet Models Codec Serializer GossipPayload DatabaseManager.
From S2P Require Import World RoomManager.
From stdpp Require Import options.

(** * Definitions *)

Definition MAX_EVENT_LOG : nat := 256.

(** host and port of [host:port] *)
Definition parseHostPort (addr : string) : option (string * Z) :=
  match rfind_char ":" addr with
  | None => None
  | Some colon =>
      if (colon =? 0)%nat || (String.length addr <=? colon + 1)%nat then None
      else
        p ← stoul (str_drop (colon + 1) addr);
        if ((p =? 0) || (65535 <? p))%Z then None
        else Some (substr 0 colon addr, u16 p)
  end.

Definition eventIdFromPacket (packet : Packet.t) : string :=
  GossipPayload.eventId (Packet.message packet).

(** ** The event log *)

(** the eviction loop of [rememberEventLocked]: while the deque is over the limit, its
    front leaves the deque, the log and the seen set *)
Fixpoint evict (fuel : nat) (g : Gossip) : Gossip :=
  match fuel, recentEventIds g with
  | S fuel, old :: rest =>
      if (MAX_EVENT_LOG <? length (recentEventIds g))%nat
      then evict fuel (set_log (seenEvents g ∖ {[old]}) rest (delete old (eventLog g)) g)
      else g
  | _, _ => g
  end.

Definition rememberEventLocked (id : string) (event : Packet.t) (g : Gossip) : Gossip :=
  let g := set_log (seenEvents g) (recentEventIds g ++ [id]) (<[id := event]> (eventLog g)) g in
  evict (length (recentEventIds g)) g.

(** [seenEvents.insert(id).second], then [rememberEventLocked]: [None] when already seen *)
Definition note_event (id : string) (event : Packet.t) (g : Gossip) : option Gossip :=
  if decide (id ∈ seenEvents g) then None
  else Some (rememberEventLocked id event
               (set_log ({[id]} ∪ seenEvents g) (recentEventIds g) (eventLog g) g)).

Fixpoint digest_go (out : string) (ids : list string) : string :=
  match ids with
  | [] => out
  | id :: ids => digest_go ((if is_empty out then out else out +:+ "|") +:+ id) ids
  end.
Definition buildDigestLocked (g : Gossip) : string := digest_go "" (recentEventIds g).

(** the identifiers of a digest this node has not seen *)
Definition missing_ids (message : string) (g : Gossip) : list string :=
  filter (λ id, id ≠ "" ∧ id ∉ seenEvents g) (getline_all "|" message).

(** the text of a pull: the identifiers joined by '|' *)
Fixpoint pull_go (i : nat) (message : string) (missing : list string) : string :=
  match missing with
  | [] => message
  | id :: missing =>
      let message := if (0 <? i)%nat then message +:+ "|" else message in
      pull_go (S i) (message +:+ id) missing
  end.
Definition pull_message (missing : list string) : string := pull_go 0 "" missing.

(** the stored events a pull asks for *)
Definition pulled_events (message : string) (g : Gossip) : list Packet.t :=
  Packet.set_type GOSSIP_EVENT <$>
  omap (λ id, if is_empty id then None else eventLog g !! id) (getline_all "|" message).

(** ** Peers *)

Definition peerSocketsLocked (g : Gossip) : list Z :=
  filter (λ fd, fd ≠ INVALID_SOCKET) (ClientEndpoint.getSocket <$> (map_to_list (clientPeers g)).*2).

Definition getClientPeers (g : Gossip) : gmap string ClientEndpoint.t :=
  filter (λ e, ClientEndpoint.isLiveClientEndpoint e.2 = true) (clientPeers g).

Fixpoint directory_go (out : string) (peers : list ClientEndpoint.t) : string :=
  match peers with
  | [] => out
  | e :: peers =>
      if negb (ClientEndpoint.isLiveClientEndpoint e) then directory_go out peers
      else
        let out := if is_empty out then out else out +:+ ";" in
        directory_go (out +:+ ClientEndpoint.serialize e) peers
  end.
Definition buildServerDirectoryLocked (g : Gossip) : string :=
  directory_go "" (map_to_list (clientPeers g)).*2.

Section with_env.
Context {env : ServerEnv}.

Definition buildServerDirectory : M string := gets (λ w, buildServerDirectoryLocked (gossip w)).

Definition notifyServerDirectoryChanged : M unit :=
  body ← buildServerDirectory;
  pushServerDirectory body INVALID_SOCKET.

Definition modify_gossip (f : Gossip → Gossip) : M unit :=
  modify (λ w, set_gossip (f (gossip w)) w).

Definition isNodeLive (nodeId : string) : M bool :=
  gets (λ w, match clientPeers (gossip w) !! nodeId with
             | None => false
             | Some e => negb (ClientEndpoint.getSocket e =? INVALID_SOCKET)%Z
             end).

Definition registerPeer (socket : Z) (nodeId host : string) (port : Z) : M bool :=
  if is_empty nodeId || String.eqb nodeId NODE_ID then mret false
  else
    existing ← gets (λ w, clientPeers (gossip w) !! nodeId);
    match existing with
    | Some _ => mret false
    | None =>
        modify_gossip (λ g, set_peers
          (<[nodeId := ClientEndpoint.ClientEndpoint nodeId host port socket]> (clientPeers g)) g) ;;
        mret true
    end.

(** the liveness of the last entry of this socket the erase loop met *)
Definition removePeer (socket : Z) : M unit :=
  removedLive ← gets (λ w,
    foldl (λ live e, if (ClientEndpoint.getSocket e =? socket)%Z
                     then ClientEndpoint.isLiveClientEndpoint e else live)
      false (map_to_list (clientPeers (gossip w))).*2);
  modify_gossip (λ g, set_outbound (delete socket (outboundAddrs g))
    (set_peers (filter (λ e, ClientEndpoint.getSocket e.2 ≠ socket) (clientPeers g)) g)) ;;
  when removedLive notifyServerDirectoryChanged.

(** ** Applying an event *)

Definition push_rooms (room : string) : M Packet.t :=
  rooms ← listRooms;
  new_packet "server" "*" ROOM_LIST room (Room.serializeList rooms) 0.

Definition apply_login (username content : string) : M bool :=
  if is_empty username || is_empty content then mret false
  else
    current ← db_do (onlineNode username);
    match current with
    | Some current =>
        if negb (String.eqb current content) then mret true
        else db_do (setOnline username content) ;; mret true
    | None => db_do (setOnline username content) ;; mret true
    end.

(** takes a session the user resumed elsewhere back to an anonymous one in the Lobby *)
Definition detach_session (username : string) (entry : Z * loc) : M unit :=
  let '(_, l) := entry in
  auth ← isAuthenticated l;
  u ← getUser l;
  if negb auth || negb (String.eqb (User.username u) username) then mret tt
  else
    setAuthenticated l false ;;
    leaveAll l ;;
    anon ← anonymousUser;
    setUser l anon ;;
    joinRoom (Room.name LOBBY) l ;;
    mret tt.

Definition apply_reconnect (username content : string) : M bool :=
  if is_empty username || is_empty content then mret false
  else
    db_do (setOnline username content) ;;
    db_do (moveMembership username content) ;;
    when (negb (String.eqb content NODE_ID))
      (all ← getSessions; for_each all (detach_session username)) ;;
    mret true.

Definition apply_logout (username : string) : M bool :=
  if is_empty username then mret false
  else
    db_do (clearOnline username) ;;
    db_do (clearAllMembership username) ;;
    mret true.

Definition apply_user_created (username content ts : string) : M bool :=
  if is_empty username || is_empty content || is_empty ts then mret false
  else
    exists_ ← db_do (userExists username);
    if negb exists_ then
      try_catch (db_do (createUser username content ts) ;; mret true) (λ _, mret false)
    else mret true.

Definition apply_room_created (event : Packet.t) (username content ts : string) : M bool :=
  let roomName := Packet.room event in
  if is_empty roomName then mret false
  else
    creator ← (if negb (is_empty username) then db_do (DatabaseManager.getUser username)
               else mret None);
    let creatorEmail := match creator with Some u => User.email u | None => "" end in
    existing ← getRoom roomName;
    ok ← (match existing with
          | None =>
              let draft := Room.Room 0 roomName (Room.stringToRoomType content)
                             (Room.stringToPrivacy ts) in
              createRoom draft creatorEmail
          | Some r =>
              when (negb (is_empty creatorEmail))
                (try_catch (db_do (addToAllowList (Room.id r) creatorEmail true))
                   (λ _, mret tt)) ;;
              mret true
          end);
    if negb ok then mret false
    else
      push ← push_rooms "";
      broadcastAll push INVALID_SOCKET ;;
      mret true.

Definition apply_acl_add (event : Packet.t) (username content : string) : M bool :=
  let roomName := Packet.room event in
  if is_empty username || is_empty roomName then mret false
  else
    room ← getRoom roomName;
    match room with
    | None => mret false
    | Some r =>
        u ← db_do (DatabaseManager.getUser username);
        match u with
        | None => mret false
        | Some u =>
            let asCreator := String.eqb content "1" in
            try_catch (db_do (addToAllowList (Room.id r) (User.email u) asCreator) ;; mret true)
              (λ _, mret false)
        end
    end.

Definition apply_room_deleted (event : Packet.t) : M bool :=
  let roomName := Packet.room event in
  if is_empty roomName then mret false
  else if String.eqb roomName (Room.name LOBBY) || String.eqb roomName (Room.name GENERAL)
  then mret false
  else
    existing ← getRoom roomName;
    ok ← (match existing with None => mret true | Some _ => deleteRoom roomName end);
    if negb ok then mret false
    else
      push ← push_rooms "";
      broadcastAll push INVALID_SOCKET ;;
      mret true.

(** sends a kicked user's session of this node back to the Lobby *)
Definition expel_session (username roomName : string) (entry : Z * loc) : M unit :=
  let '(socket, l) := entry in
  auth ← isAuthenticated l;
  u ← getUser l;
  r ← getRoomOf l;
  if negb auth || negb (String.eqb (User.username u) username) then mret tt
  else if negb (String.eqb (Room.name r) roomName) then mret tt
  else
    joinRoom (Room.name LOBBY) l ;;
    lobbyPush ← push_rooms (Room.name LOBBY);
    sendPacket socket lobbyPush ;;
    mret tt.

Definition apply_room_kick (event : Packet.t) (username : string) : M bool :=
  let roomName := Packet.room event in
  if is_empty username || is_empty roomName then mret false
  else
    room ← getRoom roomName;
    u ← db_do (DatabaseManager.getUser username);
    (match room, u with
     | Some r, Some u =>
         try_catch (db_do (removeFromAllowList (Room.id r) (User.email u))) (λ _, mret tt)
     | _, _ => mret tt
     end) ;;
    all ← getSessions;
    for_each all (expel_session username roomName) ;;
    mret true.

Definition apply_room_join (event : Packet.t) (username content ts : string) : M bool :=
  let newRoom := if is_empty (Packet.room event) then "Lobby" else Packet.room event in
  let nodeId := content in
  let prevRoom := ts in
  if is_empty username || is_empty nodeId then mret false
  else
    found ← getRoom newRoom;
    match found with
    | None => mret false
    | Some r =>
        (if negb (is_empty prevRoom) && negb (String.eqb prevRoom newRoom) then
           prev ← getRoom prevRoom;
           match prev with
           | Some p => db_do (clearMembership username (Room.id p))
           | None => mret tt
           end
         else mret tt) ;;
        u ← db_do (DatabaseManager.getUser username);
        match u with
        | None => mret true
        | Some _ => db_do (setMembership username (Room.id r) nodeId) ;; mret true
        end
    end.

Definition apply_room_leave (event : Packet.t) (username ts : string) : M bool :=
  let roomName := if negb (is_empty (Packet.room event)) then Packet.room event else ts in
  if is_empty username || is_empty roomName then mret false
  else
    room ← getRoom roomName;
    match room with
    | None => mret false
    | Some r => db_do (clearMembership username (Room.id r)) ;; mret true
    end.

Definition apply_message (event : Packet.t) (eventId username content ts : string) : M bool :=
  match stoll ts with
  | None => mret false
  | Some created =>
      let roomName := if is_empty (Packet.room event) then "Lobby" else Packet.room event in
      room ← getRoom roomName;
      match room with
      | None => mret false
      | Some r =>
          sender ← db_do (DatabaseManager.getUser username);
          match sender with
          | None => mret false
          | Some sender =>
              to ← anonymousUser;
              let msg := Message.Message sender to content created eventId in
              saved ← try_catch (b ← db_do (saveMessage msg (Room.id r)); mret (Some b))
                        (λ _, mret None);
              match saved with
              | None => mret false
              | Some inserted =>
                  when inserted
                    (push ← new_packet username "" MESSAGE roomName content 0;
                     broadcast r (Packet.set_timestamp (u64 created) push) INVALID_SOCKET ;;
                     mret tt) ;;
                  mret true
              end
          end
      end
  end.

Definition applyEvent (event : Packet.t) : M bool :=
  match GossipPayload.decode (Packet.message event) with
  | None => mret false
  | Some fields =>
      let type := GossipPayload.type fields in
      let eventId := GossipPayload.eventId_ fields in
      let username := GossipPayload.username fields in
      let content := GossipPayload.content fields in
      let ts := GossipPayload.field5 fields in
      if String.eqb type "LOGIN" then apply_login username content
      else if String.eqb type "RECONNECT" then apply_reconnect username content
      else if String.eqb type "LOGOUT" then apply_logout username
      else if String.eqb type "USER_CREATED" then apply_user_created username content ts
      else if String.eqb type "ROOM_CREATED" then apply_room_created event username content ts
      else if String.eqb type "ROOM_ACL_ADD" then apply_acl_add event username content
      else if String.eqb type "ROOM_DELETED" then apply_room_deleted event
      else if String.eqb type "ROOM_KICK" then apply_room_kick event username
      else if String.eqb type "ROOM_JOIN" then apply_room_join event username content ts
      else if String.eqb type "ROOM_LEAVE" then apply_room_leave event username ts
      else if negb (String.eqb type "MESSAGE") then mret true
      else apply_message event eventId username content ts
  end.

(** ** Rumors *)

(** a write on a peer's socket, whatever sessions there are *)
Definition peerSend (socket : Z) (packet : Packet.t) : M bool := write_packet socket packet.

(** inserts and remembers the event; false when its id was already seen *)
Definition remember (id : string) (event : Packet.t) : M bool :=
  g ← gets gossip;
  match note_event id event g with
  | None => mret false
  | Some g => modify (set_gossip g) ;; mret true
  end.

Definition rumor (event : Packet.t) : M unit :=
  let id := eventIdFromPacket event in
  if is_empty id then mret tt
  else
    let out := Packet.set_type GOSSIP_EVENT event in
    let out := if is_empty (Packet.sender out) then Packet.set_sender NODE_ID out else out in
    let out := if is_empty (Packet.receiver out) then Packet.set_receiver "*" out else out in
    fresh ← remember id out;
    if negb fresh then mret tt
    else
      applyEvent out ;;
      sockets ← gets (λ w, peerSocketsLocked (gossip w));
      for_each sockets (λ fd, peerSend fd out ;; mret tt).

(** ** The peer protocol *)

Definition hello_packet : M Packet.t :=
  hello ← new_packet NODE_ID "*" GOSSIP_HELLO "" "" 0;
  mret (Packet.set_message (SERVER_HOST +:+ ":" +:+ to_string PORT) hello).

Definition handle_hello (peerSocket : Z) (packet : Packet.t) : M bool :=
  let '(host, port) := default ("", 0%Z) (parseHostPort (Packet.message packet)) in
  accepted ← registerPeer peerSocket (Packet.sender packet) host port;
  if negb accepted then mret false
  else
    when (negb (is_empty host) && negb (port =? 0)%Z) notifyServerDirectoryChanged ;;
    mret true.

Definition handle_event (packet : Packet.t) : M unit :=
  let id := eventIdFromPacket packet in
  if is_empty id then mret tt
  else
    fresh ← remember id packet;
    if negb fresh then mret tt
    else applyEvent packet ;; mret tt.

Definition handle_digest (peerSocket : Z) (packet : Packet.t) : M unit :=
  missing ← gets (λ w, missing_ids (Packet.message packet) (gossip w));
  match missing with
  | [] => mret tt
  | _ =>
      pull ← new_packet NODE_ID (Packet.sender packet) GOSSIP_PULL "" "" 0;
      peerSend peerSocket (Packet.set_message (pull_message missing) pull) ;;
      mret tt
  end.

Definition handle_pull (peerSocket : Z) (packet : Packet.t) : M unit :=
  events ← gets (λ w, pulled_events (Packet.message packet) (gossip w));
  for_each events (λ full, peerSend peerSocket full ;; mret tt).

(** the body of the loop of [handlePeer] for one packet: the flags (registered, reject) *)
Definition handle_peer_packet (peerSocket : Z) (registered : bool) (packet : Packet.t)
    : M (bool * bool) :=
  match Packet.type packet with
  | GOSSIP_HELLO =>
      accepted ← handle_hello peerSocket packet;
      if (accepted : bool) then mret (true, false) else mret (registered, true)
  | GOSSIP_EVENT => when registered (handle_event packet) ;; mret (registered, false)
  | GOSSIP_DIGEST => when registered (handle_digest peerSocket packet) ;; mret (registered, false)
  | GOSSIP_PULL => when registered (handle_pull peerSocket packet) ;; mret (registered, false)
  | _ => mret (registered, false)
  end.

(** the packets the socket yields until a read fails *)
Fixpoint handle_peer_loop (peerSocket : Z) (registered : bool) (packets : list Packet.t)
    : M unit :=
  halted ← gets (λ w, stopped (gossip w));
  if (halted : bool) then mret tt
  else
    match packets with
    | [] => mret tt
    | packet :: packets =>
        '(registered, reject) ← handle_peer_packet peerSocket registered packet;
        if (reject : bool) then mret tt else handle_peer_loop peerSocket registered packets
    end.

(** the end of [handlePeer] *)
Definition peer_gone (peerSocket : Z) : M unit :=
  removePeer peerSocket ;;
  shouldClose ← gets (λ w, bool_decide (peerSocket ∈ openPeerSockets (gossip w)));
  modify_gossip (λ g, set_open (openPeerSockets g ∖ {[peerSocket]}) g) ;;
  when shouldClose (close_socket peerSocket).
Definition handlePeer (peerSocket : Z) (packets : list Packet.t) : M unit :=
  handle_peer_loop peerSocket false packets ;;
  peer_gone peerSocket.

(** one connection accepted on the peer port, up to the start of its handler *)
Definition accept_peer (fd : Z) : M unit :=
  modify_gossip (λ g, set_open ({[fd]} ∪ openPeerSockets g) g) ;;
  hello ← hello_packet;
  peerSend fd hello ;;
  mret tt.

(** one pass of the dial loop over the configured addresses; the sockets it opened *)
Fixpoint dial_round (addrs : list string) : M (list Z) :=
  match addrs with
  | [] => mret []
  | addr :: addrs =>
      halted ← gets (λ w, stopped (gossip w));
      if (halted : bool) then mret []
      else
        match String.compare (SERVER_HOST +:+ ":" +:+ to_string PEER_PORT) addr with
        | Lt =>
            remoteCount ← gets (λ w, length (peerSocketsLocked (gossip w)));
            if negb (bool_decide (PEERS = [])) && (length PEERS <=? remoteCount)%nat then mret []
            else
              already ← gets (λ w, existsb (λ e, String.eqb e.2 addr)
                                     (map_to_list (outboundAddrs (gossip w))));
              if (already : bool) then dial_round addrs
              else
                match parseHostPort addr with
                | None => dial_round addrs
                | Some (host, port) =>
                    n ← next_read;
                    let sock := env_connect n in
                    if (sock =? INVALID_SOCKET)%Z then dial_round addrs
                    else
                      hello ← hello_packet;
                      sent ← peerSend sock hello;
                      if negb sent then close_socket sock ;; dial_round addrs
                      else
                        modify_gossip (λ g, set_open ({[sock]} ∪ openPeerSockets g)
                          (set_outbound (<[sock := addr]> (outboundAddrs g)) g)) ;;
                        rest ← dial_round addrs;
                        mret (sock :: rest)
                end
        | _ => dial_round addrs
        end
  end.

(** one round of the anti-entropy loop *)
Definition anti_entropy_round : M unit :=
  digest ← new_packet NODE_ID "*" GOSSIP_DIGEST "" "" 0;
  message ← gets (λ w, buildDigestLocked (gossip w));
  sockets ← gets (λ w, peerSocketsLocked (gossip w));
  for_each sockets (λ fd, peerSend fd (Packet.set_message message digest) ;; mret tt).

(** what [start] does once it listens *)
Definition start : M unit :=
  modify_gossip (λ g, mkGossip false
    (<[NODE_ID := ClientEndpoint.ClientEndpoint NODE_ID SERVER_HOST PORT INVALID_SOCKET]>
       (clientPeers g))
    (outboundAddrs g) (openPeerSockets g) (seenEvents g) (recentEventIds g) (eventLog g)).

(** [stop] up to joining the threads *)
Definition stop : M unit :=
  halted ← gets (λ w, stopped (gossip w));
  if (halted : bool) then mret tt
  else
    sockets ← gets (λ w, elements (openPeerSockets (gossip w)));
    modify_gossip (λ g, mkGossip true ∅ ∅ ∅ (seenEvents g) (recentEventIds g) (eventLog g)) ;;
    for_each sockets close_socket.

End with_env.

(** * Lemmas *)

(** ** Room coherence is kept *)

Section invariant.
Context {env : ServerEnv}.

(** a loop over the sessions: every entry is one of [T] *)
Lemma with_sessions {A} T (f : list (Z * loc) → M A) :
  (∀ all, (∀ e, e ∈ all → T !! e.1 = Some e.2) → preserves (inv T T ∅) (f all)) →
  preserves (inv T T ∅) (getSessions ≫= f).
Proof.
  intros Hf w Hw. apply (Hf (map_to_list (sessions w))); [|done].
  destruct Hw as (_ & <- & _). intros [s l] He. by apply elem_of_map_to_list in He.
Qed.

(** leaving every room, something in between, and the Lobby again *)
Lemma relocate {A} T s l (between : M unit) (k : M A) :
  T !! s = Some l →
  (∀ ov, preserves (inv T T ov) between) →
  preserves (inv T T ∅) k → total between →
  preserves (inv T T ∅) (leaveAll l ;; between ;; joinRoom (Room.name LOBBY) l ;; k).
Proof.
  intros Hl Hb Hk Htot. apply (triple_bind _ _ _ (λ o w, (∃ a, o = Ok a) ∧ inv T T {[s := None]} w)).
  - intros w Hw. split; [apply leaveAll_total|by apply (leaveAll_inv T T s l)].
  - intros []. apply (triple_bind _ _ _ (λ o w, (∃ a, o = Ok a) ∧ inv T T {[s := None]} w)).
    + intros w [_ Hw]. split; [apply Htot|by apply Hb].
    + intros []. apply (triple_bind _ _ _ (λ _, inv T T ∅)); [|intros _; exact Hk|done].
      intros w [_ Hw]. by apply (joinLobby_inv T T s l).
    + intros e w [[? ?] _]. done.
  - intros e w [[? ?] _]. done.
Qed.

Lemma detach_inv T u e : T !! e.1 = Some e.2 → preserves (inv T T ∅) (detach_session u e).
Proof.
  destruct e as [s l]. cbn [fst snd]. intros Hl. unfold detach_session, isAuthenticated, getUser.
  pres_step; [pres_step|intros auth]. pres_step; [pres_step|intros u0]. destruct (_ || _); [pres_step|].
  pres_step; [pres_step|intros _].
  pose proof (relocate (A := unit) T s l (anon ← anonymousUser; setUser l anon) (mret tt) Hl) as Hr.
  intros w Hw. specialize (Hr ltac:(intros; solve_pres) ltac:(solve_pres)
    ltac:(unfold anonymousUser, next_read, setUser; intros ?; by eexists) w Hw).
  unfold run_state, mbind, SE_bind in *. destruct (leaveAll l w) as [[[]|] w1]; [|done].
  destruct (anonymousUser w1) as [[u1|] w2]; [|done]. exact Hr.
Qed.
Lemma expel_inv T u n e : T !! e.1 = Some e.2 → preserves (inv T T ∅) (expel_session u n e).
Proof.
  destruct e as [s l]. cbn [fst snd]. intros Hl.
  unfold expel_session, isAuthenticated, getUser, getRoomOf, push_rooms, listRooms. solve_pres.
Qed.
Lemma push_rooms_inv T S ov n : preserves (inv T S ov) (push_rooms n).
Proof. unfold push_rooms, listRooms. solve_pres. Qed.

Section no_failure.
Hypothesis no_failure : ∀ n, env_db n = None.

Lemma applyEvent_inv T e : preserves (inv T T ∅) (applyEvent e).
Proof using no_failure.
  pose proof (createRoom_inv no_failure T T ∅). pose proof (deleteRoom_inv no_failure T).
  pose proof (push_rooms_inv T T ∅). pose proof (detach_inv T). pose proof (expel_inv T).
  unfold applyEvent, apply_login, apply_reconnect, apply_logout, apply_user_created,
    apply_room_created, apply_acl_add, apply_room_deleted, apply_room_kick, apply_room_join,
    apply_room_leave, apply_message, getRoom.
  repeat first [ apply with_sessions; intros ? ? | pres_step ].
Qed.

Lemma remember_inv T S ov i e : preserves (inv T S ov) (remember i e).
Proof. unfold remember. solve_pres. Qed.
Lemma notify_inv T S ov : preserves (inv T S ov) notifyServerDirectoryChanged.
Proof. unfold notifyServerDirectoryChanged, buildServerDirectory. solve_pres. Qed.
Lemma peerSend_inv T S ov s p : preserves (inv T S ov) (peerSend s p).
Proof. unfold peerSend. eauto with pres. Qed.
Lemma hello_inv T S ov : preserves (inv T S ov) hello_packet.
Proof. unfold hello_packet. solve_pres. Qed.
Hint Resolve remember_inv notify_inv peerSend_inv hello_inv : pres.

Lemma rumor_inv T e : preserves (inv T T ∅) (rumor e).
Proof using no_failure. pose proof (applyEvent_inv T). unfold rumor. solve_pres. Qed.
Lemma handle_peer_packet_inv T s b p : preserves (inv T T ∅) (handle_peer_packet s b p).
Proof using no_failure.
  pose proof (applyEvent_inv T).
  unfold handle_peer_packet, handle_hello, registerPeer, handle_event, handle_digest, handle_pull,
    modify_gossip. solve_pres.
Qed.
Lemma removePeer_inv T S ov s : preserves (inv T S ov) (removePeer s).
Proof. unfold removePeer, modify_gossip. solve_pres. Qed.
Lemma peer_gone_inv T S ov s : preserves (inv T S ov) (peer_gone s).
Proof. pose proof removePeer_inv. unfold peer_gone, modify_gossip. solve_pres. Qed.
Lemma handlePeer_inv T s l : preserves (inv T T ∅) (handlePeer s l).
Proof using no_failure.
  assert (∀ b, preserves (inv T T ∅) (handle_peer_loop s b l)) as Hloop.
  { pose proof (handle_peer_packet_inv T). induction l as [|p l IH]; intros b; cbn [handle_peer_loop]; solve_pres. }
  pose proof peer_gone_inv. unfold handlePeer. solve_pres.
Qed.
Lemma accept_peer_inv T S ov s : preserves (inv T S ov) (accept_peer s).
Proof. unfold accept_peer, modify_gossip. solve_pres. Qed.
Lemma dial_round_inv T S ov l : preserves (inv T S ov) (dial_round l).
Proof. induction l as [|a l IH]; cbn [dial_round]; unfold modify_gossip; solve_pres. Qed.
Lemma anti_entropy_inv T S ov : preserves (inv T S ov) anti_entropy_round.
Proof. unfold anti_entropy_round. solve_pres. Qed.
Lemma start_inv T S ov : preserves (inv T S ov) start.
Proof. unfold start, modify_gossip. solve_pres. Qed.
Lemma stop_inv T S ov : preserves (inv T S ov) stop.
Proof. unfold stop, modify_gossip. solve_pres. Qed.
End no_failure.
End invariant.

#[export] Hint Resolve applyEvent_inv rumor_inv handle_peer_packet_inv handlePeer_inv
  peer_gone_inv accept_peer_inv dial_round_inv anti_entropy_inv start_inv stop_inv push_rooms_inv : pres.

(** ** The event log *)

(** the identifiers the log holds *)
Definition log_ids (g : Gossip) : gset string := list_to_set (recentEventIds g).

(** the three views of the log agree *)
Record log_agree (g : Gossip) : Prop := {
  lo_nodup : NoDup (recentEventIds g);
  lo_seen : seenEvents g = log_ids g;
  lo_log : ∀ id, is_Some (eventLog g !! id) ↔ id ∈ recentEventIds g;
  lo_id : ∀ id e, eventLog g !! id = Some e → eventIdFromPacket e = id ∧ id ≠ ""
}.
Definition log_ok (g : Gossip) : Prop := log_agree g ∧ length (recentEventIds g) <= MAX_EVENT_LOG.

(** the window after one more identifier *)
Definition window (ids : list string) (id : string) : list string :=
  drop (length (ids ++ [id]) - MAX_EVENT_LOG) (ids ++ [id]).

Lemma evict_done fuel g : length (recentEventIds g) <= MAX_EVENT_LOG → evict fuel g = g.
Proof.
  intros H. destruct fuel; [done|]. cbn [evict]. destruct (recentEventIds g) as [|x l] eqn:E; [done|].
  apply Nat.ltb_ge in H. by rewrite H.
Qed.

(** at most one identifier has to go *)
Lemma remember_locked_run id e g :
  length (recentEventIds g) <= MAX_EVENT_LOG →
  let ids := recentEventIds g ++ [id] in
  rememberEventLocked id e g =
  match ids with
  | old :: rest =>
      if (MAX_EVENT_LOG <? length ids)%nat
      then set_log (seenEvents g ∖ {[old]}) rest (delete old (<[id := e]> (eventLog g))) g
      else set_log (seenEvents g) ids (<[id := e]> (eventLog g)) g
  | [] => g
  end.
Proof.
  intros Hlen. cbv zeta. unfold rememberEventLocked. cbn [seenEvents recentEventIds eventLog set_log].
  assert (length (recentEventIds g ++ [id]) = S (length (recentEventIds g))) as Hl
    by (rewrite length_app; simpl; lia).
  destruct (recentEventIds g ++ [id]) as [|old rest] eqn:E; [by apply app_eq_nil in E as [_ ?]|].
  cbn [length evict recentEventIds set_log]. destruct (MAX_EVENT_LOG <? S (length rest))%nat; [|done].
  rewrite evict_done; [done|]. cbn [recentEventIds set_log]. simpl in Hl. lia.
Qed.

(** the two halves of remembering: a fresh identifier at the back, the oldest one gone *)
Definition push_event (id : string) (e : Packet.t) (g : Gossip) : Gossip :=
  set_log ({[id]} ∪ seenEvents g) (recentEventIds g ++ [id]) (<[id := e]> (eventLog g)) g.
Definition pop_event (old : string) (rest : list string) (g : Gossip) : Gossip :=
  set_log (seenEvents g ∖ {[old]}) rest (delete old (eventLog g)) g.

Lemma push_agree id e g :
  log_agree g → eventIdFromPacket e = id → id ≠ "" → id ∉ recentEventIds g →
  log_agree (push_event id e g).
Proof.
  intros [Hnd Hseen Hlog Hid] Heid Hne Hin. unfold push_event.
  constructor; cbn [recentEventIds seenEvents eventLog set_log].
  - apply NoDup_app. split_and!; [done| |apply NoDup_singleton]. by intros x Hx ->%list_elem_of_singleton.
  - rewrite Hseen. unfold log_ids. cbn [recentEventIds set_log]. rewrite list_to_set_app_L. set_solver.
  - intros x. rewrite elem_of_app, list_elem_of_singleton. destruct (decide (x = id)) as [->|Hx].
    + rewrite lookup_insert_eq. split; [by right|by eexists].
    + rewrite lookup_insert_ne by done. rewrite Hlog. naive_solver.
  - intros x e'. destruct (decide (x = id)) as [->|Hx].
    + rewrite lookup_insert_eq. by intros [= <-].
    + rewrite lookup_insert_ne by done. by apply Hid.
Qed.

Lemma pop_agree old rest g :
  log_agree g → recentEventIds g = old :: rest → log_agree (pop_event old rest g).
Proof.
  intros [Hnd Hseen Hlog Hid] E. rewrite E in Hnd. apply NoDup_cons in Hnd as [Hold Hnd].
  unfold pop_event. constructor; cbn [recentEventIds seenEvents eventLog set_log].
  - done.
  - rewrite Hseen. unfold log_ids. cbn [recentEventIds set_log]. rewrite E, list_to_set_cons.
    apply set_eq. intros x. rewrite elem_of_difference, elem_of_union, !elem_of_list_to_set. set_solver.
  - intros x. specialize (Hlog x). rewrite E, elem_of_cons in Hlog.
    destruct (decide (x = old)) as [->|Hx]; [rewrite lookup_delete_eq; split; [by intros []|done]|].
    rewrite lookup_delete_ne by done. rewrite Hlog. naive_solver.
  - intros x e' [_ Hx]%lookup_delete_Some. by apply Hid.
Qed.

Lemma note_event_run id e g :
  log_ok g →
  note_event id e g =
  if decide (id ∈ recentEventIds g) then None
  else Some match recentEventIds g ++ [id] with
            | old :: rest => if (MAX_EVENT_LOG <? length (old :: rest))%nat
                             then pop_event old rest (push_event id e g) else push_event id e g
            | [] => g
            end.
Proof.
  intros [[Hnd Hseen Hlog Hid] Hlen]. unfold note_event. rewrite Hseen.
  destruct (decide (id ∈ recentEventIds g)) as [Hin|Hin];
    [by rewrite decide_True by (by apply elem_of_list_to_set)|].
  rewrite decide_False by (by apply not_elem_of_list_to_set). f_equal.
  rewrite remember_locked_run by done. cbv zeta. cbn [recentEventIds seenEvents eventLog set_log].
  unfold push_event. rewrite Hseen.
  destruct (recentEventIds g ++ [id]) as [|old rest] eqn:E; [by apply app_eq_nil in E as [_ ?]|].
  by destruct (_ <? _)%nat.
Qed.

Lemma window_last ids id : length ids <= MAX_EVENT_LOG → id ∈ window ids id.
Proof.
  intros H. unfold window. rewrite length_app, skipn_app. apply elem_of_app. right.
  replace (length ids + length [id] - MAX_EVENT_LOG - length ids) with 0 by (unfold MAX_EVENT_LOG; simpl; lia).
  set_solver.
Qed.

Lemma note_event_ok id e g g' :
  log_ok g → eventIdFromPacket e = id → id ≠ "" → note_event id e g = Some g' →
  log_ok g' ∧ recentEventIds g' = window (recentEventIds g) id ∧ id ∉ recentEventIds g ∧
  (length (recentEventIds g) < MAX_EVENT_LOG → g' = push_event id e g).
Proof.
  intros Hok Heid Hne. rewrite note_event_run by done. case_decide as Hin; [done|].
  destruct Hok as [Hag Hlen]. pose proof (push_agree id e g Hag Heid Hne Hin) as Hpush.
  assert (length (recentEventIds g ++ [id]) = S (length (recentEventIds g))) as Hl
    by (rewrite length_app; simpl; lia).
  unfold window. rewrite Hl.
  destruct (recentEventIds g ++ [id]) as [|old rest] eqn:E; [done|].
  destruct (Nat.ltb_spec MAX_EVENT_LOG (length (old :: rest))) as [Hbig|Hsmall]; intros [= <-].
  - split_and!; [split| |done|intros Hlt; cbn [length] in *; lia].
    + by apply pop_agree.
    + cbn [recentEventIds pop_event set_log length] in *. lia.
    + replace (S (length (recentEventIds g)) - MAX_EVENT_LOG) with 1 by (cbn [length] in *; lia). reflexivity.
  - split_and!; [split| |done|done].
    + done.
    + unfold push_event. cbn [recentEventIds set_log]. rewrite E. lia.
    + replace (S (length (recentEventIds g)) - MAX_EVENT_LOG) with 0 by (cbn [length] in *; lia).
      unfold push_event. cbn [recentEventIds set_log]. exact E.
Qed.

(** ** Which operations touch the gossip state *)

Definition gossip_is (g : Gossip) (w : World) : Prop := gossip w = g.
Definition log_inv (w : World) : Prop := log_ok (gossip w).

Lemma log_ok_frame g g' :
  seenEvents g' = seenEvents g → recentEventIds g' = recentEventIds g → eventLog g' = eventLog g →
  log_ok g → log_ok g'.
Proof. destruct g, g'; simpl. intros -> -> -> [[] ?]. by split; [constructor|]. Qed.

Lemma quiet_gossip_is g : quiet (gossip_is g).
Proof. by intros w n t Hw. Qed.
Lemma quiet_log_inv : quiet log_inv.
Proof. by intros w n t Hw. Qed.
Lemma db_do_gossip_is {A} g (m : SE Db A) : preserves (gossip_is g) (db_do m).
Proof. intros w Hw. unfold run_state, run_out, db_do, zoom. by destruct (m (db w)). Qed.

#[export] Hint Resolve quiet_gossip_is quiet_log_inv db_do_gossip_is : pres.
#[export] Hint Extern 5 (preserves (gossip_is _) (modify _)) =>
  apply preserves_modify; intros ? ?; done : pres.
#[export] Hint Extern 5 (preserves log_inv (modify _)) =>
  apply preserves_modify; intros ? ?; eapply log_ok_frame; [..|eassumption]; reflexivity : pres.

(** what leaves the gossip state alone keeps every predicate of it *)
Lemma gossip_kept {A} (m : M A) :
  (∀ g, preserves (gossip_is g) m) → ∀ w, gossip (run_state m w) = gossip w.
Proof. intros H w. by apply (H (gossip w) w). Qed.
Lemma log_kept {A} (m : M A) : (∀ g, preserves (gossip_is g) m) → preserves log_inv m.
Proof. intros H w Hw. unfold log_inv. by rewrite (gossip_kept m H). Qed.

Section kept.
Context {env : ServerEnv}.

Lemma joinRoom_gossip g n l : preserves (gossip_is g) (joinRoom n l).
Proof.
  unfold joinRoom, getRoomOf, getUser, isAuthenticated, getSocket, removeSocketLocked, setRoom,
    insert_member, rollback_join, removeSocketLocked, setRoom, insert_member. solve_pres.
Qed.
Lemma leaveAll_gossip g l : preserves (gossip_is g) (leaveAll l).
Proof.
  unfold leaveAll, getRoomOf, getUser, isAuthenticated, getSocket, removeSocketLocked, setRoom. solve_pres.
Qed.
Lemma createRoom_gossip g r e : preserves (gossip_is g) (createRoom r e).
Proof. unfold createRoom. solve_pres. Qed.
Lemma deleteRoom_gossip g n : preserves (gossip_is g) (deleteRoom n).
Proof.
  unfold deleteRoom, listRooms, move_to_lobby, insert_member, setRoom, isAuthenticated, getUser. solve_pres.
Qed.
Hint Resolve joinRoom_gossip leaveAll_gossip createRoom_gossip deleteRoom_gossip : pres.

Lemma applyEvent_gossip g e : preserves (gossip_is g) (applyEvent e).
Proof.
  unfold applyEvent, apply_login, apply_reconnect, apply_logout, apply_user_created,
    apply_room_created, apply_acl_add, apply_room_deleted, apply_room_kick, apply_room_join,
    apply_room_leave, apply_message, detach_session, expel_session, push_rooms, listRooms, getRoom,
    getSessions, isAuthenticated, getUser, getRoomOf, setAuthenticated, setUser. solve_pres.
Qed.

Lemma remember_log i e : eventIdFromPacket e = i → i ≠ "" → preserves log_inv (remember i e).
Proof.
  intros Hi Hne w Hw. unfold run_state, run_out, remember, mbind, SE_bind, gets.
  destruct (note_event i e (gossip w)) as [g|] eqn:E; [|done].
  exact (proj1 (note_event_ok i e (gossip w) g Hw Hi Hne E)).
Qed.
Lemma rumor_log e : preserves log_inv (rumor e).
Proof.
  pose proof (λ e, log_kept _ (λ g, applyEvent_gossip g e)) as Happly. unfold rumor, peerSend.
  destruct (is_empty (eventIdFromPacket e)) eqn:Ei; [apply preserves_ret|]. cbv zeta.
  apply preserves_bind; [|intros b; solve_pres].
  apply remember_log; [by do 2 case_match|by destruct (eventIdFromPacket e)].
Qed.
Lemma handle_event_log p : preserves log_inv (handle_event p).
Proof.
  pose proof (λ e, log_kept _ (λ g, applyEvent_gossip g e)) as Happly. unfold handle_event.
  cbv zeta. destruct (is_empty (eventIdFromPacket p)) eqn:Ei; [apply preserves_ret|].
  apply preserves_bind; [|intros b; solve_pres].
  apply remember_log; [done|by destruct (eventIdFromPacket p)].
Qed.
Lemma handle_peer_packet_log s b p : preserves log_inv (handle_peer_packet s b p).
Proof.
  pose proof handle_event_log.
  unfold handle_peer_packet, handle_hello, registerPeer, notifyServerDirectoryChanged,
    buildServerDirectory, handle_digest, handle_pull, peerSend, modify_gossip. solve_pres.
Qed.
Lemma peer_gone_log s : preserves log_inv (peer_gone s).
Proof.
  unfold peer_gone, removePeer, notifyServerDirectoryChanged, buildServerDirectory, modify_gossip. solve_pres.
Qed.
Lemma accept_peer_log s : preserves log_inv (accept_peer s).
Proof. unfold accept_peer, hello_packet, peerSend, modify_gossip. solve_pres. Qed.
Lemma dial_round_log l : preserves log_inv (dial_round l).
Proof. induction l as [|a l IH]; cbn [dial_round]; unfold hello_packet, peerSend, modify_gossip; solve_pres. Qed.
Lemma anti_entropy_log : preserves log_inv anti_entropy_round.
Proof. unfold anti_entropy_round, peerSend. solve_pres. Qed.
Lemma start_log : preserves log_inv start.
Proof. unfold start, modify_gossip. solve_pres. Qed.
Lemma stop_log : preserves log_inv stop.
Proof. unfold stop, modify_gossip. solve_pres. Qed.
End kept.

#[export] Hint Resolve joinRoom_gossip leaveAll_gossip createRoom_gossip deleteRoom_gossip
  applyEvent_gossip log_kept rumor_log handle_event_log : pres.

(** ** Digests and pulls *)

Fixpoint join_tail (l : list string) : string :=
  match l with [] => "" | x :: l => "|" +:+ x +:+ join_tail l end.
Lemma join_with_cons x l : join_with "|" (x :: l) = x +:+ join_tail l.
Proof.
  revert x. induction l as [|y l IH]; intros x; [by rewrite str_app_nil_r|].
  change (join_with "|" (x :: y :: l)) with (x +:+ "|" +:+ join_with "|" (y :: l)). by rewrite IH.
Qed.
Lemma digest_go_tail out ids : out ≠ "" → digest_go out ids = out +:+ join_tail ids.
Proof.
  revert out. induction ids as [|x ids IH]; intros out Hne; [by rewrite str_app_nil_r|].
  cbn [digest_go join_tail]. destruct out as [|c out]; [done|]. cbn [is_empty].
  rewrite IH by done. by rewrite !str_app_assoc.
Qed.
Lemma digest_join ids : Forall (plain_piece "|") ids → digest_go "" ids = join_with "|" ids.
Proof.
  intros H. destruct ids as [|x ids]; [done|]. inversion_clear H as [|?? [Hx _] _].
  rewrite join_with_cons. cbn [digest_go is_empty]. change ("" +:+ x) with x. by apply digest_go_tail.
Qed.
Lemma pull_go_tail i out ids : pull_go (S i) out ids = out +:+ join_tail ids.
Proof.
  revert i out. induction ids as [|x ids IH]; intros i out; [by rewrite str_app_nil_r|].
  cbn [pull_go join_tail]. rewrite (IH (S i)). destruct (0 <? S i)%nat eqn:E; [|done].
  by rewrite !str_app_assoc.
Qed.
Lemma pull_join ids : pull_message ids = join_with "|" ids.
Proof. destruct ids as [|x ids]; [done|]. rewrite join_with_cons. unfold pull_message. apply (pull_go_tail 0 x). Qed.

(** what the source relies on: an identifier holds no separator *)
Definition ids_plain (g : Gossip) : Prop := Forall (plain_piece "|") (recentEventIds g).

(** the stored event of an identifier, as it is sent *)
Definition stored_event (g : Gossip) (id : string) : Packet.t :=
  Packet.set_type GOSSIP_EVENT (default Packet.empty (eventLog g !! id)).

Lemma missing_run ga gb :
  ids_plain ga → missing_ids (buildDigestLocked ga) gb = filter (λ id, id ∉ seenEvents gb) (recentEventIds ga).
Proof.
  intros Hp. unfold missing_ids, buildDigestLocked. rewrite digest_join by done.
  rewrite getline_join by done. induction Hp as [|x l [Hx _] Hl IH]; [done|].
  rewrite !filter_cons. destruct (decide (x ∉ seenEvents gb)) as [Hn|Hn].
  - rewrite decide_True by done. by rewrite IH.
  - rewrite decide_False by tauto. exact IH.
Qed.

Lemma omap_stored (g : Gossip) (ids : list string) :
  (∀ id, id ∈ ids → id ≠ "" ∧ is_Some (eventLog g !! id)) →
  Packet.set_type GOSSIP_EVENT <$> omap (λ id, if is_empty id then None else eventLog g !! id) ids =
  stored_event g <$> ids.
Proof.
  induction ids as [|x ids IH]; intros H; [done|]. cbn [omap list_omap].
  destruct (H x) as [Hx [e He]]; [set_solver|]. unfold stored_event at 1. cbn [fmap list_fmap].
  rewrite He. assert (is_empty x = false) as -> by (by destruct x). cbn [fmap list_fmap default].
  f_equal. apply IH. set_solver.
Qed.

Lemma pulled_run g (ids : list string) :
  log_ok g → Forall (plain_piece "|") ids → (∀ id, id ∈ ids → id ∈ recentEventIds g) →
  pulled_events (pull_message ids) g = stored_event g <$> ids.
Proof.
  intros [[_ _ Hlog _] _] Hp Hin. unfold pulled_events. rewrite pull_join, getline_join by done.
  apply omap_stored. intros id Hid. split; [|by apply Hlog, Hin].
  rewrite Forall_forall in Hp. by apply Hp.
Qed.

Lemma handle_event_fresh {env : ServerEnv} p w g :
  eventIdFromPacket p ≠ "" → note_event (eventIdFromPacket p) p (gossip w) = Some g →
  gossip (run_state (handle_event p) w) = g.
Proof.
  intros Hne E. unfold run_state, handle_event. cbv zeta.
  assert (is_empty (eventIdFromPacket p) = false) as -> by (by destruct (eventIdFromPacket p)).
  unfold remember, mbind, SE_bind, gets. rewrite E. unfold modify, mret, SE_ret. cbn [negb].
  pose proof (gossip_kept (applyEvent p) (λ g, applyEvent_gossip g p) (set_gossip g w)) as Hk.
  unfold run_state in Hk. by destruct (applyEvent p (set_gossip g w)) as [[]].
Qed.

(** a batch of new events that fits the window *)
Definition deliver {env : ServerEnv} (events : list Packet.t) (w : World) : World :=
  foldl (λ w e, run_state (handle_event e) w) w events.

Lemma deliver_run {env : ServerEnv} events w :
  log_ok (gossip w) →
  NoDup (eventIdFromPacket <$> events) →
  (∀ e, e ∈ events → eventIdFromPacket e ≠ "" ∧ eventIdFromPacket e ∉ recentEventIds (gossip w)) →
  length (recentEventIds (gossip w)) + length events <= MAX_EVENT_LOG →
  log_ok (gossip (deliver events w)) ∧
  recentEventIds (gossip (deliver events w)) =
    recentEventIds (gossip w) ++ (eventIdFromPacket <$> events).
Proof.
  revert w. induction events as [|e events IH]; intros w Hok Hnd Hnew Hlen.
  { split; [done|]. by rewrite app_nil_r. }
  cbn [fmap list_fmap] in Hnd. apply NoDup_cons in Hnd as [He Hnd]. cbn [length] in Hlen.
  destruct (Hnew e) as [Hne Hno]; [set_solver|].
  destruct (note_event (eventIdFromPacket e) e (gossip w)) as [g|] eqn:E.
  2: { rewrite note_event_run, decide_False in E by done. discriminate. }
  destruct (note_event_ok _ e (gossip w) g Hok eq_refl Hne E) as (Hg & _ & _ & Hpush).
  pose proof (handle_event_fresh e w g Hne E) as Hgw. cbn [deliver foldl].
  set (w1 := run_state (handle_event e) w) in *. fold (deliver events w1).
  assert (recentEventIds (gossip w1) = recentEventIds (gossip w) ++ [eventIdFromPacket e]) as Hrec.
  { rewrite Hgw, Hpush by lia. done. }
  destruct (IH w1) as [Hok' Hrec'].
  - by rewrite Hgw.
  - done.
  - intros e' He'. destruct (Hnew e') as [Hne' Hno']; [set_solver|]. split; [done|].
    rewrite Hrec, elem_of_app, list_elem_of_singleton. intros [?|Heq]; [done|].
    apply He. rewrite <-Heq. by apply list_elem_of_fmap_2.
  - rewrite Hrec, length_app. cbn [length]. lia.
  - split; [done|]. rewrite Hrec', Hrec, <-app_assoc. done.
Qed.

Lemma stored_event_id g id : log_ok g → id ∈ recentEventIds g → eventIdFromPacket (stored_event g id) = id ∧ id ≠ "".
Proof.
  intros [[_ _ Hlog Hid] _] Hin. apply Hlog in Hin as [e He]. unfold stored_event. rewrite He. cbn [default].
  by apply (Hid id e).
Qed.

(** * Theorems *)

(** C9. An event takes effect at most once while its identifier is in the log window: a repeated
    delivery then, from a peer or as a rumor of this node, changes nothing at all, the network
    trace included; a new event enters the log window before it is applied, so even an event
    whose application fails is not applied again; and applying it touches no log. *)
Theorem event_applied_once {env : ServerEnv} p w :
  log_ok (gossip w) →
  let w' := run_state (handle_event p) w in
  handle_event p w' = (Ok tt, w') ∧ rumor p w' = (Ok tt, w') ∧
  (eventIdFromPacket p ∈ recentEventIds (gossip w) → w' = w) ∧
  (eventIdFromPacket p ≠ "" → eventIdFromPacket p ∉ recentEventIds (gossip w) →
     recentEventIds (gossip w') = window (recentEventIds (gossip w)) (eventIdFromPacket p)).
Proof.
  intros Hok. cbv zeta. set (id := eventIdFromPacket p).
  assert (∀ v, log_ok (gossip v) → id ∈ recentEventIds (gossip v) ∨ id = "" →
    handle_event p v = (Ok tt, v) ∧ rumor p v = (Ok tt, v)) as Hold.
  { intros v Hv Hid. unfold handle_event, rumor. fold id. destruct (is_empty id) eqn:E; [done|].
    destruct Hid as [Hid|Hid]; [|by rewrite Hid in E].
    unfold remember, mbind, SE_bind, gets. cbv zeta. by rewrite !note_event_run, !decide_True. }
  destruct (decide (id ∈ recentEventIds (gossip w) ∨ id = "")) as [Hin|Hin].
  - destruct (Hold w Hok Hin) as [Hrun Hrumor].
    unfold run_state. rewrite Hrun. cbn [snd]. split_and!; [done..|tauto].
  - assert (id ≠ "" ∧ id ∉ recentEventIds (gossip w)) as [Hne Hno] by tauto.
    destruct (note_event id p (gossip w)) as [g|] eqn:E.
    2: { rewrite note_event_run, decide_False in E by done. discriminate. }
    destruct (note_event_ok id p (gossip w) g Hok eq_refl Hne E) as (Hg & Hwin & _ & _).
    pose proof (handle_event_fresh p w g Hne E) as Hgw.
    rewrite !Hgw. split_and!; [apply Hold; rewrite ?Hgw; [done|left]..|tauto|done];
      rewrite Hwin; apply window_last; by destruct Hok.
Qed.

(** Anti-entropy transfers exactly what is missing: when a node sends its digest and the
    other one answers with a pull, the events sent back are the stored events the other node
    has not seen, each once, in the order of the log, and none it has seen; it needs only
    that identifiers do not contain the separator. *)
Theorem digest_pull_exact ga gb :
  log_ok ga → ids_plain ga →
  pulled_events (pull_message (missing_ids (buildDigestLocked ga) gb)) ga =
  stored_event ga <$> filter (λ id, id ∉ seenEvents gb) (recentEventIds ga).
Proof.
  intros Hok Hp. rewrite missing_run by done. apply pulled_run; [done| |].
  - apply Forall_forall. intros id [_ Hid]%list_elem_of_filter.
    unfold ids_plain in Hp. rewrite Forall_forall in Hp. by apply Hp.
  - by intros id [_ Hid]%list_elem_of_filter.
Qed.

(** One digest, pull and delivery bring a node up to date: after the other node handles
    the events it is sent, and when they fit its log window, it has everything the sender
    had and kept everything it had itself, so the sender's digest asks for nothing more. *)
Theorem anti_entropy_converges {env : ServerEnv} ga wb :
  log_ok ga → ids_plain ga → log_ok (gossip wb) →
  let missing := missing_ids (buildDigestLocked ga) (gossip wb) in
  length (recentEventIds (gossip wb)) + length missing <= MAX_EVENT_LOG →
  let wb' := deliver (pulled_events (pull_message missing) ga) wb in
  log_ok (gossip wb') ∧
  recentEventIds (gossip wb') = recentEventIds (gossip wb) ++ missing ∧
  (∀ id, id ∈ recentEventIds ga → id ∈ recentEventIds (gossip wb')) ∧
  missing_ids (buildDigestLocked ga) (gossip wb') = [].
Proof.
  intros Hga Hp Hwb. cbv zeta. rewrite missing_run by done.
  set (ids := filter (λ id, id ∉ seenEvents (gossip wb)) (recentEventIds ga)). intros Hlen.
  assert (∀ id, id ∈ ids ↔ id ∈ recentEventIds ga ∧ id ∉ recentEventIds (gossip wb)) as Hids.
  { intros id. unfold ids. rewrite list_elem_of_filter, (lo_seen _ (proj1 Hwb)).
    unfold log_ids. rewrite not_elem_of_list_to_set. tauto. }
  assert (Forall (plain_piece "|") ids) as Hpi.
  { apply Forall_forall. intros id [Hin _]%Hids. unfold ids_plain in Hp. rewrite Forall_forall in Hp. by apply Hp. }
  rewrite pulled_run by (done || (intros id Hin; by apply Hids)).
  assert (eventIdFromPacket <$> (stored_event ga <$> ids) = ids) as Hback.
  { rewrite <-list_fmap_compose. rewrite <-(list_fmap_id ids) at 2. apply list_fmap_ext.
    intros i id Hi. apply (stored_event_id ga id Hga), Hids. by eapply list_elem_of_lookup_2. }
  destruct (deliver_run (stored_event ga <$> ids) wb Hwb) as [Hok Hrec].
  - rewrite Hback. apply NoDup_filter, (lo_nodup _ (proj1 Hga)).
  - intros e (id & -> & Hin)%list_elem_of_fmap. apply Hids in Hin as [Hin Hno].
    by destruct (stored_event_id ga id Hga Hin) as [-> Hne].
  - by rewrite length_fmap.
  - rewrite Hback in Hrec.
    assert (∀ id, id ∈ recentEventIds ga → id ∈ recentEventIds (gossip (deliver (stored_event ga <$> ids) wb))) as Hall.
    { intros id Hin. rewrite Hrec, elem_of_app. destruct (decide (id ∈ recentEventIds (gossip wb))); [by left|].
      right. by apply Hids. }
    split_and!; [done|done|done|]. rewrite missing_run by done. apply filter_none.
    intros id Hin Hno. apply Hno. rewrite (lo_seen _ (proj1 Hok)). unfold log_ids.
    apply elem_of_list_to_set. by apply Hall.
Qed.

(** ** Witnesses *)

#[local] Existing Instance plain_server.

Definition joined_event : Packet.t :=
  Packet.make 9 "node2" "*" GOSSIP_EVENT ""
    (GossipPayload.encode "LOGIN" "node2-LOGIN-user-9-1" "user" "node2" "9") 0.
Definition left_event : Packet.t :=
  Packet.make 9 "node2" "*" GOSSIP_EVENT ""
    (GossipPayload.encode "LOGOUT" "node2-LOGOUT-user-9-2" "user" "node2" "9") 0.
(** a node that has both events, one that has neither *)
Definition node_a : Gossip := gossip (deliver [joined_event; left_event] (boot seeded)).
Definition node_b : World := boot seeded.

Lemma boot_log_ok tables : log_ok (gossip (boot tables)).
Proof.
  split; [|unfold MAX_EVENT_LOG; simpl; lia]. constructor; simpl; [constructor|done| |done].
  intros id. rewrite lookup_empty. split; [by intros []|by intros ?%elem_of_nil].
Qed.
Lemma node_a_ok : log_ok node_a.
Proof. unfold node_a, deliver. cbn [foldl]. do 2 (apply handle_event_log). apply boot_log_ok. Qed.
Lemma node_a_plain : ids_plain node_a.
Proof.
  assert (recentEventIds node_a = ["node2-LOGIN-user-9-1"; "node2-LOGOUT-user-9-2"]) as E
    by (vm_compute; reflexivity).
  unfold ids_plain. rewrite E. by repeat constructor.
Qed.

Lemma event_applied_once_witness :
  handle_event joined_event (run_state (handle_event joined_event) node_b) =
    (Ok tt, run_state (handle_event joined_event) node_b).
Proof.
  destruct (event_applied_once joined_event node_b (boot_log_ok seeded)) as [H _]. exact H.
Defined.
Lemma digest_pull_exact_witness :
  pulled_events (pull_message (missing_ids (buildDigestLocked node_a) (gossip node_b))) node_a =
  stored_event node_a <$> filter (λ id, id ∉ seenEvents (gossip node_b)) (recentEventIds node_a).
Proof. apply (digest_pull_exact node_a (gossip node_b) node_a_ok node_a_plain). Defined.
Lemma anti_entropy_converges_witness :
  recentEventIds (gossip (deliver (pulled_events (pull_message
    (missing_ids (buildDigestLocked node_a) (gossip node_b))) node_a) node_b)) =
  ["node2-LOGIN-user-9-1"; "node2-LOGOUT-user-9-2"].
Proof.
  destruct (anti_entropy_converges node_a node_b node_a_ok node_a_plain (boot_log_ok seeded))
    as (_ & Hrec & _); [apply Nat.leb_le; vm_compute; reflexivity|].
  rewrite Hrec. vm_compute. reflexivity.
Defined.
