(* ===== verification/Cluster.v ===== *)
(** The servers as a cluster (src/server/gossip_manager.cpp on every node).

    A cluster is a list of [World]s, one per node, each with an environment of its own; node
    [i] reaches node [j] on the socket [sock i j].  [exchange i j] is one anti-entropy round
    trip made of the handlers of GossipManager.v and the bytes they write: [i] sends its digest
    to its peers, [j] reads the bytes on its socket and answers with a pull, [i] reads the pull
    and sends the events, [j] reads and applies them.  Which exchanges happen, and in which
    order, is left open.  The theorems assume that writes go through, that every two nodes are
    linked, and a [vocabulary]: at most a log window (256) of events in all, with short
    identifiers that hold no '|', and packets below the size limit.  Beyond that the code does
    not converge: an evicted event is asked for again and applied again, and an id with the
    separator is never found.

    The theorems: the logs of the nodes evolve as sets under union; once every pair of nodes
    has exchanged, in any order, all logs hold the same events.  They are applied to a cluster
    of three nodes in Replica.v. *)
From S2P Require Import Prelude Packet Models Codec Serializer GossipPayload DatabaseManager.
From S2P Require Import World RoomManager GossipManager.
From stdpp Require Import options.

(** * Definitions *)

(** the packets a peer reads from what was written to a socket *)
Definition sent_on (s : Z) (actions : list NetAction) : list Packet.t :=
  omap (λ a, match a with
             | NetSend s' bytes true => if (s' =? s)%Z then deserialize bytes else None
             | _ => None
             end) actions.
Definition outbox (s : Z) (w w' : World) : list Packet.t := sent_on s (drop (length (net w)) (net w')).

(** a registered peer's packets, one after the other *)
Definition receive {env : ServerEnv} (fd : Z) (ps : list Packet.t) (w : World) : World :=
  foldl (λ w p, run_state (handle_peer_packet fd true p) w) w ps.

(** one round trip between a node and the one on its socket [si], whose socket is [sj] *)
Definition round_trip (ei ej : ServerEnv) (si sj : Z) (wi wj : World) : World * World :=
  let wi1 := run_state (anti_entropy_round (env := ei)) wi in
  let wj1 := receive (env := ej) sj (outbox si wi wi1) wj in
  let wi2 := receive (env := ei) si (outbox sj wj wj1) wi1 in
  let wj2 := receive (env := ej) sj (outbox si wi1 wi2) wj1 in
  (wi2, wj2).

Section cluster.
Context (envs : nat → ServerEnv) (sock : nat → nat → Z).

Definition exchange (i j : nat) (c : list World) : list World :=
  match c !! i, c !! j with
  | Some wi, Some wj =>
      if decide (i = j) then c
      else let '(wi', wj') := round_trip (envs i) (envs j) (sock i j) (sock j i) wi wj in
           <[j := wj']> (<[i := wi']> c)
  | _, _ => c
  end.
Definition run_exchanges (l : list (nat * nat)) (c : list World) : list World :=
  foldl (λ c e, exchange e.1 e.2 c) c l.
End cluster.

(** * Specification *)

(** the abstract cluster: what each node knows is a set, and an exchange is a union *)
Definition union_step (e : nat * nat) (k : nat → gset string) : nat → gset string :=
  λ n, if decide (n = e.2) then k e.1 ∪ k e.2 else k n.
Definition union_run (l : list (nat * nat)) (k : nat → gset string) : nat → gset string :=
  foldl (λ k e, union_step e k) k l.

(** the events that go around: at most a log window of them, with identifiers that hold no
    separator and are not long, and packets that fit a frame *)
Record vocabulary (ev : string → Packet.t) (V : gset string) : Prop := {
  voc_size : size V <= MAX_EVENT_LOG;
  voc_plain id : id ∈ V → plain_piece "|" id;
  voc_short id : id ∈ V → (slen id <= 1000)%Z;
  voc_id id : id ∈ V → eventIdFromPacket (ev id) = id;
  voc_type id : id ∈ V → Packet.type (ev id) = GOSSIP_EVENT;
  voc_wire id : id ∈ V → Packet.wf (ev id) ∧ serialize (ev id) ≠ ""
}.
(** a node whose log holds events of the vocabulary, as they are *)
Record node_ok (ev : string → Packet.t) (V : gset string) (g : Gossip) : Prop := {
  no_log : log_ok g;
  no_ids : log_ids g ⊆ V;
  no_events id : id ∈ log_ids g → stored_event g id = ev id
}.
(** exactly one peer entry has the socket *)
Definition peer_on (s : Z) (g : Gossip) : Prop := filter (λ fd, fd = s) (peerSocketsLocked g) = [s].
Definition env_ok (env : ServerEnv) : Prop :=
  (∀ n, env_write n = true) ∧ (slen NODE_ID <= 1000)%Z.

(** * Lemmas *)

(** ** The wire *)

Lemma frame_back p : Packet.wf p → serialize p ≠ "" → deserialize (serialize p) = Some p.
Proof.
  intros Hwf. rewrite serialize_eq. destruct (Z.ltb_spec MAX_PAYLOAD_BYTES (slen (payload p))); [done|].
  intros _. by apply deserialize_frame.
Qed.

(** writing to the network, and reading the environment, is all that happened *)
Definition wrote (w : World) (l : list NetAction) (w' : World) : Prop :=
  w' = set_net (net w ++ l) (set_reads (reads w') w).
Lemma wrote_refl w : wrote w [] w.
Proof. unfold wrote. rewrite app_nil_r. by destruct w. Qed.
Lemma wrote_reads w n : wrote w [] (set_reads n w).
Proof. unfold wrote. rewrite app_nil_r. by destruct w. Qed.
Lemma wrote_trans w w1 w2 l l' : wrote w l w1 → wrote w1 l' w2 → wrote w (l ++ l') w2.
Proof. unfold wrote. intros -> ->. cbn. by rewrite <-app_assoc. Qed.
Lemma wrote_gossip w l w' : wrote w l w' → gossip w' = gossip w.
Proof. by intros ->. Qed.
Lemma outbox_wrote s w l w' : wrote w l w' → outbox s w w' = sent_on s l.
Proof. intros ->. unfold outbox. cbn. by rewrite drop_app_length. Qed.

Section writes.
Context {env : ServerEnv}.
Hypothesis writes : ∀ n, env_write n = true.

Lemma peerSend_wrote s p w :
  serialize p ≠ "" → ∃ w', peerSend s p w = (Ok true, w') ∧ wrote w [NetSend s (serialize p) true] w'.
Proof using writes.
  intros Hp. unfold peerSend, write_packet, write_bytes, next_read, modify, mbind, SE_bind, mret, SE_ret.
  destruct (is_empty (serialize p)) eqn:E; [by destruct (serialize p)|]. rewrite writes. eexists. split; [done|].
  by unfold wrote.
Qed.
Lemma send_all_wrote {A} (f : A → Z * Packet.t) l w :
  (∀ x, x ∈ l → serialize (f x).2 ≠ "") →
  ∃ w', for_each l (λ x, peerSend (f x).1 (f x).2 ;; mret tt) w = (Ok tt, w') ∧
    wrote w ((λ x, NetSend (f x).1 (serialize (f x).2) true) <$> l) w'.
Proof using writes.
  revert w. induction l as [|x l IH]; intros w Hl; cbn [for_each].
  - exists w. split; [done|apply wrote_refl].
  - destruct (peerSend_wrote (f x).1 (f x).2 w) as (w1 & Hrun & Hw1); [apply Hl; by left|].
    destruct (IH w1) as (w2 & Hrun2 & Hw2); [intros y Hy; apply Hl; by right|].
    exists w2. split.
    { erewrite bind_run; [exact Hrun2|]. by erewrite bind_run. }
    exact (wrote_trans _ _ _ _ _ Hw1 Hw2).
Qed.
Lemma sent_all s (ps : list Packet.t) :
  (∀ p, p ∈ ps → Packet.wf p ∧ serialize p ≠ "") →
  sent_on s ((λ p, NetSend s (serialize p) true) <$> ps) = ps.
Proof using Type.
  unfold sent_on. induction ps as [|p ps IH]; intros H; [done|]. cbn [fmap list_fmap omap list_omap].
  rewrite Z.eqb_refl. destruct (H p) as [Hwf Hs]; [by left|]. rewrite frame_back by done. f_equal.
  apply IH. intros q Hq. apply H. by right.
Qed.
End writes.

Lemma short_join (ids : list string) :
  Forall (λ id, slen id <= 1000)%Z ids → (slen (join_with "|" ids) <= 1001 * Z.of_nat (length ids))%Z.
Proof.
  intros H. assert (slen (join_tail ids) <= 1001 * Z.of_nat (length ids))%Z as Ht.
  { induction H as [|x l Hx Hl IH]; [done|]. cbn [join_tail length]. rewrite !slen_app. change (slen "|") with 1%Z. lia. }
  destruct ids as [|x l]; [done|]. rewrite join_with_cons. revert Ht. cbn [join_tail length]. rewrite !slen_app.
  change (slen "|") with 1%Z. lia.
Qed.
(** a packet of short fields and a text of at most a window of identifiers *)
Lemma small_packet p (ids : list string) :
  (slen (Packet.sender p) <= 1000)%Z → (slen (Packet.receiver p) <= 1000)%Z → Packet.room p = "" →
  Packet.message p = join_with "|" ids → Forall (λ id, slen id <= 1000)%Z ids → length ids <= MAX_EVENT_LOG →
  serialize p ≠ "".
Proof.
  intros Hs Hr Hroom Hm Hids Hlen. apply serialize_nonempty. unfold text_size. rewrite Hroom, Hm, slen_nil.
  pose proof (short_join ids Hids). unfold MAX_EVENT_LOG, MAX_PAYLOAD_BYTES in *. lia.
Qed.

(** ** One round trip *)

Section round_trip.
Context (ev : string → Packet.t) (V : gset string) (voc : vocabulary ev V).

Lemma node_plain g : node_ok ev V g → ids_plain g.
Proof using voc.
  intros [_ Hids _]. apply Forall_forall. intros id Hid. apply (voc_plain _ _ voc), Hids.
  by apply elem_of_list_to_set.
Qed.
Lemma node_known g id : node_ok ev V g → id ∈ recentEventIds g → id ∈ V.
Proof using Type. intros [_ Hids _] Hid. apply Hids. by apply elem_of_list_to_set. Qed.
Lemma node_short g : node_ok ev V g → Forall (λ id, slen id <= 1000)%Z (recentEventIds g).
Proof using voc. intros Hg. apply Forall_forall. intros id Hid. apply (voc_short _ _ voc). by eapply node_known. Qed.

Lemma sent_to_peer s p (l : list Z) :
  Packet.wf p → serialize p ≠ "" →
  sent_on s ((λ fd, NetSend fd (serialize p) true) <$> l) = (λ _, p) <$> filter (λ fd, fd = s) l.
Proof using Type.
  intros Hwf Hs. unfold sent_on. induction l as [|fd l IH]; [done|]. cbn [fmap list_fmap omap list_omap].
  rewrite filter_cons. destruct (Z.eqb_spec fd s) as [->|Hne].
  - rewrite decide_True by done. cbn [fmap list_fmap]. rewrite frame_back by done. by f_equal.
  - by rewrite decide_False by done.
Qed.

Section node.
Context {env : ServerEnv} (Henv : env_ok env).

Lemma digest_sent s w :
  node_ok ev V (gossip w) → peer_on s (gossip w) →
  ∃ p w' l, anti_entropy_round w = (Ok tt, w') ∧ wrote w l w' ∧ sent_on s l = [p] ∧
    Packet.type p = GOSSIP_DIGEST ∧ (slen (Packet.sender p) <= 1000)%Z ∧ Packet.message p = buildDigestLocked (gossip w).
Proof using Henv voc.
  intros Hn Hp. destruct Henv as [Hw Hid].
  set (p := Packet.set_message (buildDigestLocked (gossip w))
    (Packet.make (env_time (reads w)) NODE_ID "*" GOSSIP_DIGEST "" "" 0)).
  assert (Packet.wf p) as Hwf.
  { split; [|by unfold in_int; cbn; lia]. cbn. unfold in_u64, u64. apply Z.mod_pos_bound. lia. }
  assert (serialize p ≠ "") as Hs.
  { apply (small_packet p (recentEventIds (gossip w))); try done.
    - cbn. unfold buildDigestLocked. apply digest_join, node_plain, Hn.
    - by apply node_short.
    - destruct Hn as [[_ Hl] _ _]. exact Hl. }
  set (w1 := set_reads (S (reads w)) w).
  destruct (send_all_wrote Hw (λ fd, (fd, p)) (peerSocketsLocked (gossip w)) w1) as (w' & Hrun & Hwr); [done|].
  exists p, w', ((λ fd, NetSend fd (serialize p) true) <$> peerSocketsLocked (gossip w)).
  split; [exact Hrun|]. split; [exact (wrote_trans _ _ _ _ _ (wrote_reads w _) Hwr)|].
  split; [rewrite sent_to_peer by done; by rewrite Hp|done].
Qed.

(** the pull asks for what is missing, and nothing is sent when nothing is *)
Lemma pull_sent s p w gi :
  node_ok ev V gi → Packet.type p = GOSSIP_DIGEST → (slen (Packet.sender p) <= 1000)%Z →
  Packet.message p = buildDigestLocked gi →
  let missing := filter (λ id, id ∉ seenEvents (gossip w)) (recentEventIds gi) in
  ∃ w' l, run_state (handle_peer_packet s true p) w = w' ∧ wrote w l w' ∧
    match missing with
    | [] => sent_on s l = []
    | _ => ∃ q, sent_on s l = [q] ∧ Packet.type q = GOSSIP_PULL ∧ Packet.message q = pull_message missing
    end.
Proof using Henv voc.
  intros Hn Ht Hsnd Hm missing. destruct Henv as [Hw Hid]. unfold handle_peer_packet. rewrite Ht. unfold run_state, when.
  unfold handle_digest, gets, mbind, SE_bind. rewrite Hm, missing_run by (by apply node_plain). fold missing.
  destruct missing as [|id ids] eqn:E.
  { exists w, []. split; [done|]. split; [apply wrote_refl|done]. }
  set (q := Packet.set_message (pull_message (id :: ids))
    (Packet.make (env_time (reads w)) NODE_ID (Packet.sender p) GOSSIP_PULL "" "" 0)).
  assert (Packet.wf q) as Hwf.
  { split; [|by unfold in_int; cbn; lia]. cbn. unfold in_u64, u64. apply Z.mod_pos_bound. lia. }
  assert (missing ⊆ recentEventIds gi) as Hsub by (unfold missing; intros x; rewrite list_elem_of_filter; tauto).
  assert (serialize q ≠ "") as Hs.
  { apply (small_packet q (id :: ids)); try done.
    - apply pull_join.
    - rewrite <-E. apply Forall_forall. intros x Hx. pose proof (node_short _ Hn) as H. rewrite Forall_forall in H. apply H, Hsub, Hx.
    - rewrite <-E. destruct Hn as [[_ Hl] _ _]. etrans; [|exact Hl]. apply length_filter. }
  destruct (peerSend_wrote Hw s q (set_reads (S (reads w)) w) Hs) as (w' & Hrun & Hwr).
  exists w', [NetSend s (serialize q) true]. split.
  { unfold new_packet, time_now, World.next_read, mbind, SE_bind, mret, SE_ret. fold q. by rewrite Hrun. }
  split; [exact (wrote_trans _ _ _ _ _ (wrote_reads w _) Hwr)|].
  exists q. split; [|done]. unfold sent_on. cbn. by rewrite Z.eqb_refl, frame_back.
Qed.

Lemma events_sent s q w (ids : list string) :
  node_ok ev V (gossip w) → Packet.type q = GOSSIP_PULL → Packet.message q = pull_message ids →
  (∀ id, id ∈ ids → id ∈ recentEventIds (gossip w)) →
  ∃ w' l, run_state (handle_peer_packet s true q) w = w' ∧ wrote w l w' ∧ sent_on s l = ev <$> ids.
Proof using Henv voc.
  intros Hn Ht Hm Hids. destruct Henv as [Hw _].
  assert (stored_event (gossip w) <$> ids = ev <$> ids) as Hev.
  { apply list_fmap_ext. intros i id Hi. apply Hn. apply elem_of_list_to_set, Hids. by eapply list_elem_of_lookup_2. }
  assert (∀ e, e ∈ ev <$> ids → Packet.wf e ∧ serialize e ≠ "") as Hwire.
  { intros e (id & -> & Hid)%list_elem_of_fmap. apply (voc_wire _ _ voc). by eapply node_known, Hids. }
  destruct (send_all_wrote Hw (λ e, (s, e)) (ev <$> ids) w) as (w' & Hrun & Hwr); [intros e He; by apply Hwire|].
  exists w', ((λ e, NetSend s (serialize e) true) <$> (ev <$> ids)). split; [|split; [exact Hwr|by apply sent_all]].
  unfold handle_peer_packet. rewrite Ht. unfold run_state, when, handle_pull, gets, mbind, SE_bind. rewrite Hm, pulled_run, Hev.
  - cbn [fst snd] in Hrun. change (for_each (ev <$> ids) (λ e, peerSend s e ;; mret tt) w = (Ok tt, w')) in Hrun.
    unfold mbind, SE_bind in Hrun. by rewrite Hrun.
  - apply Hn.
  - apply Forall_forall. intros id Hid. apply (voc_plain _ _ voc). by eapply node_known, Hids.
  - exact Hids.
Qed.

Lemma receive_events s es w :
  (∀ e, e ∈ es → Packet.type e = GOSSIP_EVENT) → receive s es w = deliver es w.
Proof using Type.
  revert w. induction es as [|e es IH]; intros w He; [done|]. cbn [receive deliver foldl].
  assert (run_state (handle_peer_packet s true e) w = run_state (handle_event e) w) as ->.
  { unfold handle_peer_packet. rewrite (He e) by left. unfold run_state, when, mbind, SE_bind. by destruct (handle_event e w) as [[]]. }
  apply IH. intros x Hx. apply He. by right.
Qed.
End node.

Lemma round_trip_run ei ej si sj wi wj :
  env_ok ei → env_ok ej → node_ok ev V (gossip wi) → peer_on si (gossip wi) →
  let missing := filter (λ id, id ∉ seenEvents (gossip wj)) (recentEventIds (gossip wi)) in
  ∃ li lj w0, wrote wi li (round_trip ei ej si sj wi wj).1 ∧ wrote wj lj w0 ∧
    (round_trip ei ej si sj wi wj).2 = deliver (env := ej) (ev <$> missing) w0.
Proof using voc.
  intros Hei Hej Hn Hp missing. unfold round_trip.
  destruct (digest_sent (env := ei) Hei si wi Hn Hp) as (p & wi1 & l1 & Hr1 & Hw1 & Hs1 & Ht & Hsnd & Hm).
  cbv zeta. assert (run_state (anti_entropy_round (env := ei)) wi = wi1) as -> by (unfold run_state; by rewrite Hr1).
  rewrite (outbox_wrote _ _ _ _ Hw1), Hs1. cbn [receive foldl].
  destruct (pull_sent (env := ej) Hej sj p wj (gossip wi) Hn Ht Hsnd Hm) as (wj1 & l2 & -> & Hw2 & Hs2).
  rewrite (outbox_wrote _ _ _ _ Hw2). fold missing in Hs2.
  assert (∀ id, id ∈ missing → id ∈ recentEventIds (gossip wi1)) as Hsub.
  { rewrite (wrote_gossip _ _ _ Hw1). unfold missing. intros id [_ Hid]%list_elem_of_filter. exact Hid. }
  destruct missing as [|id ids] eqn:E.
  - rewrite Hs2. cbn [receive foldl fst snd]. rewrite (outbox_wrote _ _ _ _ (wrote_refl wi1)). exists l1, l2, wj1. by split_and!.
  - destruct Hs2 as (q & -> & Hq & Hqm). cbn [receive foldl].
    assert (node_ok ev V (gossip wi1)) as Hn1 by (by rewrite (wrote_gossip _ _ _ Hw1)).
    destruct (events_sent (env := ei) Hei si q wi1 (id :: ids) Hn1 Hq Hqm Hsub) as (wi2 & l3 & -> & Hw3 & Hs3).
    rewrite (outbox_wrote _ _ _ _ Hw3), Hs3. cbn [fst snd].
    exists (l1 ++ l3), l2, wj1. split; [exact (wrote_trans _ _ _ _ _ Hw1 Hw3)|]. split; [done|].
    apply receive_events. intros e (x & -> & Hx)%list_elem_of_fmap. apply (voc_type _ _ voc).
    apply (node_known (gossip wi1)); [done|]. by apply Hsub.
Qed.

(** the log after new events of the vocabulary *)
Lemma deliver_ids {env : ServerEnv} ids w :
  node_ok ev V (gossip w) → (∀ id, id ∈ ids → id ∈ V ∧ id ∉ recentEventIds (gossip w)) → NoDup ids →
  let g' := gossip (deliver (ev <$> ids) w) in
  node_ok ev V g' ∧ recentEventIds g' = recentEventIds (gossip w) ++ ids ∧ clientPeers g' = clientPeers (gossip w).
Proof using voc.
  revert w. induction ids as [|id ids IH]; intros w Hn Hids Hnd; cbv zeta.
  { cbn. by rewrite app_nil_r. }
  destruct (Hids id) as [HV Hno]; [by left|]. apply NoDup_cons in Hnd as [Hid Hnd].
  set (g := gossip w) in *. pose proof (no_log _ _ _ Hn) as Hok.
  pose proof (voc_id _ _ voc id HV) as Heid. destruct (voc_plain _ _ voc id HV) as [Hne _].
  assert (length (recentEventIds g) < MAX_EVENT_LOG) as Hlen.
  { apply Nat.lt_le_trans with (length (recentEventIds g ++ [id])); [rewrite length_app; cbn; lia|].
    etrans; [|exact (voc_size _ _ voc)]. rewrite <-(size_list_to_set (C := gset string)).
    - apply subseteq_size. intros x. rewrite elem_of_list_to_set, elem_of_app, list_elem_of_singleton.
      intros [Hx| ->]; [by eapply node_known|done].
    - apply NoDup_app. split_and!; [apply Hok|intros x Hx ->%list_elem_of_singleton; done|apply NoDup_singleton]. }
  destruct (note_event id (ev id) g) as [g1|] eqn:E.
  2: { rewrite note_event_run, decide_False in E by done. discriminate. }
  destruct (note_event_ok id (ev id) g g1 Hok Heid Hne E) as (Hok1 & _ & _ & Hpush). specialize (Hpush Hlen).
  pose proof (handle_event_fresh (ev id) w g1) as Hg1. rewrite Heid in Hg1. specialize (Hg1 Hne E).
  cbn [fmap list_fmap deliver foldl]. set (w1 := run_state (handle_event (ev id)) w) in *.
  assert (recentEventIds g1 = recentEventIds g ++ [id]) as Hrec by (by rewrite Hpush).
  destruct (IH w1) as (Hn' & Hr' & Hc'); [| |done|].
  - rewrite Hg1. split; [done| |].
    + unfold log_ids. rewrite Hrec. intros x. rewrite elem_of_list_to_set, elem_of_app, list_elem_of_singleton.
      intros [Hx| ->]; [by eapply node_known|done].
    + intros x Hx. unfold log_ids in Hx. rewrite Hrec in Hx. unfold stored_event. rewrite Hpush. cbn [push_event eventLog set_log].
      destruct (decide (x = id)) as [->|Hxn].
      * rewrite lookup_insert_eq. cbn [default]. pose proof (voc_type _ _ voc id HV) as Ht. destruct (ev id). cbn in *. by subst.
      * rewrite lookup_insert_ne by done. apply (no_events _ _ _ Hn). unfold log_ids. set_solver.
  - intros x Hx. destruct (Hids x) as [HxV Hxno]; [by right|]. split; [done|]. rewrite Hg1, Hrec, elem_of_app, list_elem_of_singleton.
    intros [?| ->]; done.
  - unfold deliver in *. split; [done|]. rewrite Hr', Hc', Hg1, Hrec, Hpush. split; [by rewrite <-app_assoc|done].
Qed.
End round_trip.

(** ** The cluster *)

Lemma union_step_mono e k n : k n ⊆ union_step e k n.
Proof. unfold union_step. case_decide as He; [subst; set_solver|done]. Qed.
Lemma union_run_mono l k n : k n ⊆ union_run l k n.
Proof.
  revert k. induction l as [|e l IH]; intros k; [done|]. etrans; [apply (union_step_mono e)|apply IH].
Qed.
(** an exchange carries over what the first node knew when it happened *)
Lemma union_run_reaches l k m n : (m, n) ∈ l → k m ⊆ union_run l k n.
Proof.
  revert k. induction l as [|e l IH]; intros k Hin; [by apply elem_of_nil in Hin|].
  apply elem_of_cons in Hin as [<-|Hin].
  - etrans; [|apply (union_run_mono l (union_step (m, n) k))]. unfold union_step. cbn. rewrite decide_True by done. cbn. set_solver.
  - etrans; [apply (union_step_mono e)|]. by apply (IH (union_step e k)).
Qed.
(** nothing comes from outside *)
Lemma union_run_bounded l k n (N : nat) id :
  Forall (λ e, e.1 < N ∧ e.2 < N) l → n < N → id ∈ union_run l k n → ∃ m, m < N ∧ id ∈ k m.
Proof.
  intros Hl Hn. revert k. induction Hl as [|e l He Hl IH]; intros k Hid; [eauto|].
  destruct (IH (union_step e k) Hid) as (m & Hm & Hmid). unfold union_step in Hmid. case_decide; [|eauto].
  apply elem_of_union in Hmid as [?|?]; [exists e.1|exists e.2]; (split; [apply He|done]).
Qed.

Section refinement.
Context (envs : nat → ServerEnv) (sock : nat → nat → Z).
Context (ev : string → Packet.t) (V : gset string) (voc : vocabulary ev V).
Hypothesis envs_ok : ∀ i, env_ok (envs i).

(** what an invariant of the nodes needs *)
Class NodeInvariant (P : nat → World → Prop) : Prop := {
  inv_wrote i w l w' : wrote w l w' → P i w → P i w';
  inv_deliver i w ids :
    node_ok ev V (gossip w) → (∀ id, id ∈ ids → id ∈ V ∧ id ∉ recentEventIds (gossip w)) → NoDup ids →
    P i w → P i (deliver (env := envs i) (ev <$> ids) w)
}.

(** every node is well, linked with every other, and has [P] *)
Definition cluster_ok (P : nat → World → Prop) (c : list World) : Prop :=
  ∀ i w, c !! i = Some w →
    node_ok ev V (gossip w) ∧ P i w ∧ ∀ j, j ≠ i → j < length c → peer_on (sock i j) (gossip w).
Definition knows (c : list World) (i : nat) : gset string :=
  match c !! i with Some w => log_ids (gossip w) | None => ∅ end.

Lemma exchange_ok P i j c :
  NodeInvariant P → cluster_ok P c → i < length c → j < length c →
  let c' := exchange envs sock i j c in
  length c' = length c ∧ cluster_ok P c' ∧ ∀ n, knows c' n = union_step (i, j) (knows c) n.
Proof using envs_ok voc.
  intros HP Hc [wi Hi]%lookup_lt_is_Some_2 [wj Hj]%lookup_lt_is_Some_2. unfold exchange. rewrite Hi, Hj.
  destruct (decide (i = j)) as [->|Hij].
  { cbv zeta. split; [done|]. split; [done|]. intros n. unfold union_step. cbn [fst snd]. case_decide; [subst n; set_solver|done]. }
  destruct (Hc i wi Hi) as (Hni & HPi & Hpi). destruct (Hc j wj Hj) as (Hnj & HPj & Hpj).
  pose proof (lookup_lt_Some _ _ _ Hj) as Hjlen.
  destruct (round_trip_run ev V voc (envs i) (envs j) (sock i j) (sock j i) wi wj (envs_ok i) (envs_ok j) Hni
    (Hpi j (not_eq_sym Hij) Hjlen)) as (li & lj & w0 & Hwi & Hwj & Hdel).
  set (missing := filter _ _) in Hdel.
  destruct (round_trip _ _ _ _ wi wj) as [wi' wj'] eqn:Ert. cbn [fst snd] in Hwi, Hdel. cbv zeta.
  assert (gossip w0 = gossip wj) as Hg0 by exact (wrote_gossip _ _ _ Hwj).
  assert (∀ id, id ∈ missing ↔ id ∈ recentEventIds (gossip wi) ∧ id ∉ recentEventIds (gossip wj)) as Hmiss.
  { intros id. unfold missing. rewrite list_elem_of_filter, (lo_seen _ (proj1 (no_log _ _ _ Hnj))). unfold log_ids.
    rewrite not_elem_of_list_to_set. tauto. }
  assert (NoDup missing) as Hnd by (apply NoDup_filter, (no_log _ _ _ Hni)).
  assert (∀ id, id ∈ missing → id ∈ V ∧ id ∉ recentEventIds (gossip w0)) as Hfresh.
  { intros id [Hid Hno]%Hmiss. rewrite Hg0. split; [by apply (node_known ev V (gossip wi))|done]. }
  assert (node_ok ev V (gossip w0)) as Hn0 by (by rewrite Hg0).
  destruct (deliver_ids ev V voc (env := envs j) missing w0 Hn0 Hfresh Hnd) as (Hn' & Hr' & Hp'). rewrite <-Hdel in Hn', Hr', Hp'. rewrite Hg0 in Hr', Hp'.
  assert (P j wj') as HPj'.
  { rewrite Hdel. apply (inv_deliver j w0 missing); [done..|]. eapply inv_wrote; [exact Hwj|done]. }
  assert (P i wi') as HPi' by (by eapply inv_wrote).
  split; [by rewrite !length_insert|]. split.
  - intros n w Hn. rewrite !length_insert. destruct (decide (n = j)) as [->|Hnj'].
    + rewrite list_lookup_insert_eq in Hn by (by rewrite length_insert). injection Hn as <-.
      split_and!; [done|done|]. intros k Hk Hlen. unfold peer_on, peerSocketsLocked. rewrite Hp'. by apply Hpj.
    + rewrite list_lookup_insert_ne in Hn by done. destruct (decide (n = i)) as [->|Hni'].
      * rewrite list_lookup_insert_eq in Hn by (by eapply lookup_lt_Some). injection Hn as <-.
        rewrite (wrote_gossip _ _ _ Hwi). by split_and!.
      * rewrite list_lookup_insert_ne in Hn by done. by apply Hc.
  - intros n. unfold knows, union_step. cbn [fst snd]. case_decide as Hn; [subst n|].
    + rewrite list_lookup_insert_eq by (by rewrite length_insert). rewrite Hi, Hj. unfold log_ids. rewrite Hr', list_to_set_app_L.
      apply set_eq. intros x. rewrite !elem_of_union, !elem_of_list_to_set, Hmiss.
      destruct (decide (x ∈ recentEventIds (gossip wj))); tauto.
    + rewrite list_lookup_insert_ne by done. destruct (decide (n = i)) as [->|Hni'].
      * rewrite list_lookup_insert_eq by (by eapply lookup_lt_Some). by rewrite Hi, (wrote_gossip _ _ _ Hwi).
      * by rewrite list_lookup_insert_ne.
Qed.

Lemma exchanges_ok P l c :
  NodeInvariant P → cluster_ok P c → Forall (λ e, e.1 < length c ∧ e.2 < length c) l →
  let c' := run_exchanges envs sock l c in
  length c' = length c ∧ cluster_ok P c' ∧ ∀ n, n < length c → knows c' n = union_run l (knows c) n.
Proof using envs_ok voc.
  intros HP. revert c. induction l as [|e l IH]; intros c Hc Hl; [done|]. apply Forall_cons in Hl as [[H1 H2] Hl].
  destruct (exchange_ok P e.1 e.2 c HP Hc H1 H2) as (Hlen & Hc1 & Hk1). cbv zeta. cbn [run_exchanges foldl].
  destruct (IH (exchange envs sock e.1 e.2 c) Hc1) as (Hlen' & Hc' & Hk'); [by rewrite Hlen|].
  split; [etrans; [exact Hlen'|exact Hlen]|]. split; [exact Hc'|]. intros n Hn.
  etrans; [apply Hk'; by rewrite Hlen|]. cbn [union_run foldl]. change (foldl ?f ?k l) with (union_run l k). destruct e as [i j]. cbn [fst snd] in *.
  assert (∀ l' k k', (∀ n, k n = k' n) → ∀ n, union_run l' k n = union_run l' k' n) as Hext.
  { clear. intros l'. induction l' as [|e l' IH]; intros k k' H n; [apply H|]. cbn. apply IH. intros m. unfold union_step.
    by rewrite !H. }
  by apply Hext.
Qed.
End refinement.

(** everything the nodes know between them *)
Definition all_ids (c : list World) : gset string := ⋃ ((λ w, log_ids (gossip w)) <$> c).
(** every node has sent a digest to every other *)
Definition full_mesh (n : nat) (l : list (nat * nat)) : Prop :=
  Forall (λ e, e.1 < n ∧ e.2 < n) l ∧ ∀ i j, i < n → j < n → i ≠ j → (i, j) ∈ l.

Lemma union_full_mesh l c n :
  full_mesh (length c) l → n < length c → union_run l (knows c) n = all_ids c.
Proof.
  intros [Hr Hall] Hn. apply set_eq. intros id. unfold all_ids. rewrite elem_of_union_list. split.
  - intros Hid. destruct (union_run_bounded _ _ _ _ _ Hr Hn Hid) as (m & [w Hw]%lookup_lt_is_Some_2 & Hm).
    unfold knows in Hm. rewrite Hw in Hm. exists (log_ids (gossip w)). split; [|done].
    apply list_elem_of_fmap. exists w. split; [done|by eapply list_elem_of_lookup_2].
  - intros (X & (w & -> & [m Hm]%list_elem_of_lookup_1)%list_elem_of_fmap & Hid).
    assert (id ∈ knows c m) as Hk by (unfold knows; by rewrite Hm).
    destruct (decide (m = n)) as [->|Hne]; [by apply (union_run_mono l)|].
    apply (union_run_reaches l (knows c) m n); [apply Hall; [by eapply lookup_lt_Some|done..]|done].
Qed.

#[export] Instance true_invariant envs ev V : NodeInvariant envs ev V (λ _ _, True).
Proof. by constructor. Qed.

(** * Theorems *)


