(* ===== verification/Replica.v ===== *)
(** The message tables of the cluster as replicas (apply_message of
    src/server/gossip_manager.cpp, saveMessage and loadHistory of
    src/database/database_manager.cpp, on every node).

    The nodes share the users and know the rooms of the messages that go around, each under a
    room id of its own.  The logs hold chat messages and any other events, sign-ins, moves,
    invitations and kicks among them, but none that makes an account or makes or deletes a
    room.  [replica] says what a node's message table holds, whatever the order the events
    came in: the messages of a common past and one row for each message event of its log.  It
    is an invariant of the exchanges of Cluster.v, so nodes with the same events hold the same
    messages.

    The theorem: once every pair of nodes has exchanged, every node returns the same history
    for a room, when no two of its messages have the same time; messages of the same second
    may stand in another order, as loadHistory orders by nothing else.  It stands under the
    conditions of Cluster.v and a storage that does not fail; no event of the kind covered
    makes its handler throw ([event_returns]). *)
From S2P Require Import Prelude Packet Models Codec Serializer GossipPayload DatabaseManager.
From S2P Require Import World RoomManager GossipManager Cluster.
From stdpp Require Import options.

(** * Specification *)

(** what a message event says *)
Record Chat := mkChat { c_room : string; c_from : UserRow; c_content : string; c_created : Z }.
Definition carries (p : Packet.t) (id : string) (c : Chat) : Prop :=
  ∃ f, GossipPayload.decode (Packet.message p) = Some f ∧
    GossipPayload.type f = "MESSAGE" ∧ GossipPayload.eventId_ f = id ∧
    GossipPayload.username f = u_username (c_from c) ∧ GossipPayload.content f = c_content c ∧
    stoll (GossipPayload.field5 f) = Some (c_created c) ∧
    (if is_empty (Packet.room p) then "Lobby" else Packet.room p) = c_room c.

(** a row without what differs between nodes: the room id and the origin *)
Record Line := mkLine { l_id : string; l_user : string; l_email : string; l_content : string; l_created : Z }.
Definition line (m : MessageRow) : Line :=
  mkLine (m_id m) (m_sender_username m) (m_sender_email m) (m_content m) (m_created_at m).
Definition chat_line (id : string) (c : Chat) : Line :=
  mkLine id (text (u_username (c_from c))) (text (u_email (c_from c))) (c_content c) (c_created c).

(** the kind of an event; an event is a chat message or something else *)
Definition event_type (p : Packet.t) : option string := GossipPayload.type <$> GossipPayload.decode (Packet.message p).
Definition says (p : Packet.t) : Prop := event_type p = Some "MESSAGE".
#[export] Instance says_dec p : Decision (says p).
Proof. unfold says. apply _. Defined.
(** the events that make an account, or make or delete a room *)
Definition founding (p : Packet.t) : Prop :=
  event_type p ∈ [Some "USER_CREATED"; Some "ROOM_CREATED"; Some "ROOM_DELETED"].

Section spec.
Context (ev : string → Packet.t) (V : gset string).
(** the messages of the events, the users all nodes have, and the past they share *)
Context (chat : string → Chat) (U : list UserRow) (past : string → list Line).

(** a message is by one of the users; the other events may be anything but founding *)
Definition chats_ok : Prop :=
  ∀ id, id ∈ V → ¬ founding (ev id) ∧
    (says (ev id) → carries (ev id) id (chat id) ∧ c_from (chat id) ∈ U ∧
       text (u_email (c_from (chat id))) = u_email (c_from (chat id))).

(** a message of the room, from the past or from one of the events [ids] *)
Definition in_room (ids : gset string) (name : string) (l : Line) : Prop :=
  l ∈ past name ∨ ∃ id, id ∈ ids ∧ says (ev id) ∧ c_room (chat id) = name ∧ l = chat_line id (chat id).

Record replica (w : World) : Prop := {
  rp_keys : keys (db w);
  rp_foreign : foreign_keys (db w) = true;
  rp_users : users (db w) ≡ₚ U;
  rp_rooms name r : knownRooms w !! name = Some r →
    ∃ row, row ∈ rooms (db w) ∧ r_id row = Room.id r ∧ r_name row = name;
  rp_known id : id ∈ V → says (ev id) → is_Some (knownRooms w !! c_room (chat id));
  rp_fresh m : m ∈ messages (db w) → m_id m ∈ V → m_id m ∈ log_ids (gossip w);
  rp_range m : m ∈ messages (db w) → (- 2 ^ 63 <= m_created_at m < 2 ^ 63)%Z;
  rp_lines name r l : knownRooms w !! name = Some r →
    l ∈ line <$> filter (λ m, m_room_id m = Room.id r) (messages (db w)) ↔
    in_room (log_ids (gossip w)) name l
}.
End spec.

(** * Lemmas *)

Lemma calm_kind p t :
  event_type p = Some t → t ∉ ["USER_CREATED"; "ROOM_CREATED"; "ROOM_DELETED"] → ¬ founding p.
Proof.
  unfold founding. intros -> Hn Ht. apply Hn. rewrite !elem_of_cons in Ht. rewrite !elem_of_cons.
  destruct Ht as [[= ->]|[[= ->]|[[= ->]|[]%elem_of_nil]]]; tauto.
Qed.
Lemma stoll_range s z : stoll s = Some z → (- 2 ^ 63 <= z < 2 ^ 63)%Z.
Proof.
  unfold stoll, sto_signed, mbind, option_bind. destruct (read_numeral s) as [[neg m]|]; [|done].
  cbv zeta. destruct (_ && _) eqn:E; [|done]. intros [= <-]. lia.
Qed.

(** known rooms with the same id have the same name *)
Lemma room_id_name ev V chat U past w n1 n2 r1 r2 :
  replica ev V chat U past w → knownRooms w !! n1 = Some r1 → knownRooms w !! n2 = Some r2 →
  Room.id r1 = Room.id r2 → n1 = n2.
Proof.
  intros Hr H1 H2 Hid. destruct (rp_rooms _ _ _ _ _ _ Hr _ _ H1) as (row1 & Hin1 & Hi1 & <-).
  destruct (rp_rooms _ _ _ _ _ _ Hr _ _ H2) as (row2 & Hin2 & Hi2 & <-).
  f_equal. pose proof (k_room_id _ (rp_keys _ _ _ _ _ _ Hr)) as Hnd.
  apply list_elem_of_lookup_1 in Hin1 as [i Hi], Hin2 as [j Hj].
  assert (i = j) as ->; [|congruence].
  eapply (NoDup_lookup (r_id <$> rooms (db w)) i j (Room.id r1)); [done|..]; rewrite list_lookup_fmap.
  - by rewrite Hi, <-Hi1.
  - by rewrite Hj, Hid, <-Hi2.
Qed.

Section apply.
Context {env : ServerEnv}.

Lemma total_chat_broadcast r p k : total (broadcast r p k).
Proof.
  assert (∀ l b, total (broadcast_loop l p k b)) as Hl.
  { induction l as [|s l IH]; intros b; cbn [broadcast_loop]; [apply total_ret|].
    pose proof (total_sendPacket s p). solve_total; apply IH. }
  unfold broadcast. solve_total.
Qed.
Hypothesis no_failure : ∀ n, env_db n = None.
Context (ev : string → Packet.t) (V : gset string) (voc : vocabulary ev V).
Context (chat : string → Chat) (U : list UserRow) (past : string → list Line).
Hypothesis chats : chats_ok ev V chat U.
Notation replica := (replica ev V chat U past).

(** what a node sends to the members of the room *)
Definition chat_push (c : Chat) : Packet.t :=
  Packet.Packet MESSAGE (u_username (c_from c)) "" (c_room c) (c_content c) (u64 (c_created c)) 0.
Definition chat_row (id : string) (r : Room.t) (c : Chat) : MessageRow :=
  mkMessageRow id (Room.id r) (text (u_username (c_from c))) (text (u_email (c_from c))) (c_content c) (c_created c) NODE_ID.

(** a message that is not stored yet is stored and then broadcast, whatever the log says *)
Lemma apply_chat id r w g f :
  replica w → id ∈ V → id ∉ recentEventIds (gossip w) → knownRooms w !! c_room (chat id) = Some r →
  GossipPayload.username f = u_username (c_from (chat id)) → GossipPayload.content f = c_content (chat id) →
  stoll (GossipPayload.field5 f) = Some (c_created (chat id)) →
  (if is_empty (Packet.room (ev id)) then "Lobby" else Packet.room (ev id)) = c_room (chat id) →
  c_from (chat id) ∈ U → text (u_email (c_from (chat id))) = u_email (c_from (chat id)) →
  ∃ n, apply_message (ev id) id (GossipPayload.username f) (GossipPayload.content f) (GossipPayload.field5 f) (set_gossip g w) =
    (Ok true, run_state (broadcast r (chat_push (chat id)) INVALID_SOCKET)
       (set_reads n (set_db (set_messages (messages (db w) ++ [chat_row id r (chat id)])
          (next_statement (next_statement (db w)))) (set_gossip g w)))).
Proof using no_failure.
  intros Hr HV Hno Hroom Husr Hcont Hts Hrm HU Hem. set (c := chat id) in *. set (w1 := set_gossip g w).
  set (d1 := set_messages (messages (db w) ++ [chat_row id r c]) (next_statement (next_statement (db w)))).
  unfold apply_message. rewrite Hts. cbv beta iota zeta. rewrite Hrm.
  assert (is_empty (c_room c) = false) as Hre by (rewrite <-Hrm; by destruct (Packet.room (ev id))).
  erewrite bind_run by reflexivity. change (knownRooms w1) with (knownRooms w). rewrite Hre, Hroom.
  assert (c_from c ∈ users (db w)) as Hin by (by rewrite (rp_users _ _ _ _ _ _ Hr)).
  pose proof (getUser_run no_failure (c_from c) (db w) (rp_keys _ _ _ _ _ _ Hr) Hin) as Hget. rewrite <-Husr in Hget.
  erewrite bind_run by (unfold db_do, zoom; change (db w1) with (db w); rewrite Hget; reflexivity).
  cbv beta iota. erewrite bind_run by reflexivity. rewrite Husr.
  match goal with |- context [saveMessage ?m _] => set (msg := m) end.
  match goal with |- ∃ n, (_ ≫= _) ?q = _ => set (w3 := q) end.
  assert (id ∉ m_id <$> messages (db w)) as Hnew.
  { intros (m & -> & Hm)%list_elem_of_fmap. apply Hno. pose proof (rp_fresh _ _ _ _ _ _ Hr m Hm HV) as Hl.
    by apply elem_of_list_to_set in Hl. }
  assert (Room.id r ∈ r_id <$> rooms (db w)) as Hrid.
  { destruct (rp_rooms _ _ _ _ _ _ Hr _ _ Hroom) as (row & Hrow & <- & _). by apply list_elem_of_fmap_2. }
  assert (u_email (c_from c) ∈ u_email <$> users (db w)) as Hmail by (by apply list_elem_of_fmap_2).
  pose proof (saveMessage_run no_failure msg (Room.id r) (next_statement (db w))) as Hsave.
  cbn [next_statement messages rooms users foreign_keys] in Hsave.
  change (Message.id msg) with id in Hsave. change (User.email (Message.from msg)) with (text (u_email (c_from c))) in Hsave.
  rewrite Hem, (bool_decide_eq_false_2 _ Hnew), (rp_foreign _ _ _ _ _ _ Hr), (bool_decide_eq_true_2 _ Hrid),
    (bool_decide_eq_true_2 _ Hmail) in Hsave. cbn [negb orb andb] in Hsave.
  assert (message_row msg (Room.id r) = chat_row id r c) as Hrow by (unfold message_row, chat_row; by rewrite <-Hcont).
  rewrite Hrow in Hsave.
  erewrite bind_run; [|unfold try_catch, db_do, zoom, mbind, SE_bind; change (db w3) with (next_statement (db w));
    rewrite Hsave; reflexivity].
  cbv beta iota. unfold when. rewrite Hcont.
  destruct (total_chat_broadcast r (chat_push c) INVALID_SOCKET (set_reads (S (reads w3)) (set_db d1 w1))) as [b Hb].
  exists (S (reads w3)). erewrite bind_run; [reflexivity|]. erewrite bind_run by reflexivity.
  erewrite bind_run; [reflexivity|]. unfold run_out, run_state in *.
  change (broadcast r _ INVALID_SOCKET _) with (broadcast r (chat_push c) INVALID_SOCKET (set_reads (S (reads w3)) (set_db d1 w1))).
  destruct (broadcast r _ _ _). cbn in *. by rewrite Hb.
Qed.

(** applying a new message event adds its row and then broadcasts it *)
Definition stored_chat (id : string) (r : Room.t) (g : Gossip) (n : nat) (w : World) : World :=
  set_reads n (set_db (set_messages (messages (db w) ++ [chat_row id r (chat id)])
    (next_statement (next_statement (db w)))) (set_gossip g w)).
Lemma chat_event id r w :
  node_ok ev V (gossip w) → replica w → id ∈ V → says (ev id) → id ∉ recentEventIds (gossip w) →
  knownRooms w !! c_room (chat id) = Some r →
  ∃ g n, remember id (ev id) w = (Ok true, set_gossip g w) ∧
    applyEvent (ev id) (set_gossip g w) =
      (Ok true, run_state (broadcast r (chat_push (chat id)) INVALID_SOCKET) (stored_chat id r g n w)).
Proof using no_failure chats.
  intros Hn Hr HV Hsay Hno Hroom. destruct (proj2 (chats id HV) Hsay) as ((f & Hdec & Hty & Heid & Husr & Hcont & Hts & Hrm) & HU & Hem).
  destruct (note_event id (ev id) (gossip w)) as [g|] eqn:E.
  2: { rewrite note_event_run, decide_False in E by (done || apply Hn). discriminate. }
  destruct (apply_chat id r w g f Hr HV Hno Hroom Husr Hcont Hts Hrm HU Hem) as [n Hrun]. exists g, n. split.
  - unfold remember, mbind, SE_bind, gets. by rewrite E.
  - unfold applyEvent. rewrite Hdec. cbv zeta. rewrite Hty, Heid. exact Hrun.
Qed.
Lemma chat_broadcast id r w :
  node_ok ev V (gossip w) → replica w → id ∈ V → says (ev id) → id ∉ recentEventIds (gossip w) →
  knownRooms w !! c_room (chat id) = Some r →
  ∃ g n, handle_event (ev id) w =
    (Ok tt, run_state (broadcast r (chat_push (chat id)) INVALID_SOCKET) (stored_chat id r g n w)).
Proof using no_failure voc chats.
  intros Hn Hr HV Hsay Hno Hroom. destruct (chat_event id r w Hn Hr HV Hsay Hno Hroom) as (g & n & Hrem & Happ). exists g, n.
  destruct (voc_plain _ _ voc id HV) as [Hne _]. unfold handle_event. cbv zeta. rewrite (voc_id _ _ voc id HV).
  assert (is_empty id = false) as -> by (by destruct id). erewrite bind_run by exact Hrem. cbn [negb]. by erewrite bind_run.
Qed.

(** so it touches no other table *)
Lemma chat_applied id r w :
  node_ok ev V (gossip w) → replica w → id ∈ V → says (ev id) → id ∉ recentEventIds (gossip w) →
  knownRooms w !! c_room (chat id) = Some r →
  let w' := run_state (handle_event (ev id)) w in
  knownRooms w' = knownRooms w ∧
  db w' = set_messages (messages (db w) ++ [chat_row id r (chat id)]) (next_statement (next_statement (db w))).
Proof using no_failure voc chats.
  intros Hn Hr HV Hsay Hno Hroom. destruct (chat_broadcast id r w Hn Hr HV Hsay Hno Hroom) as (g & n & Hrun).
  unfold run_state at 1. rewrite Hrun. cbn [snd].
  set (J := λ v : World, knownRooms v = knownRooms w ∧ db v = db (stored_chat id r g n w)).
  assert (quiet J) as HJ by (by intros v n' t' [? ?]). by apply (quiet_broadcast J _ _ _ HJ).
Qed.

(** so it keeps the replica *)
Lemma replica_chat id w :
  node_ok ev V (gossip w) → replica w → id ∈ V → says (ev id) → id ∉ recentEventIds (gossip w) →
  replica (run_state (handle_event (ev id)) w).
Proof using no_failure voc chats.
  intros Hn Hr HV Hsay Hno. destruct (rp_known _ _ _ _ _ _ Hr id HV Hsay) as [r Hroom].
  destruct (chat_applied id r w Hn Hr HV Hsay Hno Hroom) as [Hk Hd].
  destruct (deliver_ids ev V voc [id] w Hn) as (Hn' & Hrec & _); [by intros x ->%list_elem_of_singleton|apply NoDup_singleton|].
  cbn [fmap list_fmap deliver foldl] in Hn', Hrec. set (w' := run_state (handle_event (ev id)) w) in *.
  assert (log_ids (gossip w') = {[id]} ∪ log_ids (gossip w)) as Hlog.
  { unfold log_ids. rewrite Hrec, list_to_set_app_L. set_solver. }
  assert (id ∉ m_id <$> messages (db w)) as Hnew.
  { intros (m & Hid & Hm)%list_elem_of_fmap. rewrite Hid in *. apply Hno. pose proof (rp_fresh _ _ _ _ _ _ Hr m Hm HV) as Hl.
    by apply elem_of_list_to_set in Hl. }
  destruct (proj2 (chats id HV) Hsay) as ((f & _ & _ & _ & _ & _ & Hts & _) & _ & _). apply stoll_range in Hts.
  assert (∀ m, m ∈ messages (db w') → m ∈ messages (db w) ∨ m_id m = id ∧ m_created_at m = c_created (chat id)) as Hcases.
  { rewrite Hd. cbn. intros m [Hm| ->%list_elem_of_singleton]%elem_of_app; [by left|by right]. }
  constructor.
  - destruct (rp_keys _ _ _ _ _ _ Hr). rewrite Hd. constructor; try done. cbn. by apply NoDup_fmap_snoc.
  - rewrite Hd. apply Hr.
  - rewrite Hd. apply Hr.
  - rewrite Hk, Hd. apply Hr.
  - rewrite Hk. apply Hr.
  - rewrite Hlog. intros m [Hm|[-> _]]%Hcases Hv; [|set_solver]. apply elem_of_union_r. by apply (rp_fresh _ _ _ _ _ _ Hr m).
  - intros m [Hm|[_ ->]]%Hcases; [by apply Hr|done].
  - intros name r' l. rewrite Hk, Hlog. intros Hr'. rewrite Hd. cbn [messages set_messages].
    rewrite filter_app, fmap_app, elem_of_app, (rp_lines _ _ _ _ _ _ Hr name r' l Hr'), filter_cons, filter_nil.
    change (m_room_id (chat_row id r (chat id))) with (Room.id r). unfold in_room. destruct (decide (Room.id r = Room.id r')) as [Heq|Hneq].
    + assert (c_room (chat id) = name) as Hname by (by eapply room_id_name). cbn [fmap list_fmap].
      change (line (chat_row id r (chat id))) with (chat_line id (chat id)). rewrite list_elem_of_singleton.
      split; [intros [[?|(x & Hx & ? & ? & ?)]| ->]|intros [?|(x & [->%elem_of_singleton|Hx]%elem_of_union & ? & ? & ?)]].
      * by left.
      * right. exists x. set_solver.
      * right. exists id. by split; [set_solver|].
      * by left; left.
      * by right.
      * left. right. by exists x.
    + assert (c_room (chat id) ≠ name) as Hname by (intros <-; congruence). cbn [fmap list_fmap].
      split; [intros [[?|(x & Hx & ? & ? & ?)]|?%elem_of_nil]; [by left|right; exists x; set_solver|done]|].
      intros [?|(x & [->%elem_of_singleton|Hx]%elem_of_union & ? & ? & ?)]; [by left; left|done|left; right; by exists x].
Qed.
(** *** The other events *)

(** the tables and rooms a replica is about *)
Definition core (d0 : Db) (d : Db) : Prop :=
  users d = users d0 ∧ rooms d = rooms d0 ∧ messages d = messages d0 ∧ foreign_keys d = foreign_keys d0 ∧
  (keys d0 → keys d).
Definition calm_since (w0 w : World) : Prop := knownRooms w = knownRooms w0 ∧ core (db w0) (db w).
Lemma calm_replica w0 w :
  calm_since w0 w → replica w0 → log_ids (gossip w0) ⊆ log_ids (gossip w) →
  (∀ id, id ∈ log_ids (gossip w) → says (ev id) → id ∈ log_ids (gossip w0)) → replica w.
Proof using Type.
  intros (Hk & Hu & Hr & Hm & Hf & Hkeys) [] Hsub Hsay. constructor; rewrite ?Hk, ?Hu, ?Hr, ?Hm, ?Hf; auto.
  intros name r l Hn. rewrite rp_lines0 by done. unfold in_room. naive_solver.
Qed.
Lemma quiet_calm w0 : quiet (calm_since w0).
Proof using Type. by intros w n t Hw. Qed.

(** statements on the presence, membership and allow tables *)
Definition calm_op {A} (m : SE Db A) : Prop := ∀ d0, preserves (core d0) m.
Lemma core_next d0 d : core d0 d → core d0 (next_statement d).
Proof using Type. intros (? & ? & ? & ? & Hk). split_and!; try done. intros Hk0. by apply keys_next, Hk. Qed.
Lemma calm_query f : calm_op (query f).
Proof using Type. intros d0. by apply preserves_query, core_next. Qed.
Lemma calm_execute ex f :
  stmt_ok f → (∀ d n d', f d = inr (n, d') → users d' = users d ∧ rooms d' = rooms d ∧ messages d' = messages d) →
  calm_op (run_statement ex f).
Proof using Type.
  intros Hok Hf d0. apply preserves_execute; [apply core_next|]. intros d n d' (Hu & Hr & Hm & Hfk & Hk) Hrun.
  unfold core. destruct (Hf d n d' Hrun) as (-> & -> & ->), (Hok d n d' Hrun) as (-> & Hk' & _). split_and!; auto.
Qed.
Ltac calm :=
  unfold DatabaseManager.getUser, userFromRow, setOnline, moveMembership, clearOnline, clearAllMembership, clearMembership,
    setMembership, addToAllowList, removeFromAllowList, onlineNode; intros d0;
  repeat first [pres_step | apply calm_query | apply calm_execute; [solve [eauto with pres nocore]|]];
  try (intros;
  unfold sql_set_online, sql_move_membership, sql_clear_online, sql_clear_all_membership, sql_clear_membership,
    delete_membership, sql_set_membership, sql_add_user_allow_list, sql_remove_user_allow_list in *;
  repeat case_match; simplify_eq; done).
Lemma calm_getUser u : calm_op (DatabaseManager.getUser u).
Proof using Type. calm. Qed.
Lemma calm_onlineNode u : calm_op (onlineNode u).
Proof using Type. calm. Qed.
Lemma calm_setOnline u n : calm_op (setOnline u n).
Proof using Type. calm. Qed.
Lemma calm_clearOnline u : calm_op (clearOnline u).
Proof using Type. calm. Qed.
Lemma calm_moveMembership u n : calm_op (moveMembership u n).
Proof using Type. calm. Qed.
Lemma calm_setMembership u r n : calm_op (setMembership u r n).
Proof using Type. calm. Qed.
Lemma calm_clearMembership u r : calm_op (clearMembership u r).
Proof using Type. calm. Qed.
Lemma calm_clearAll u : calm_op (clearAllMembership u).
Proof using Type. calm. Qed.
Lemma calm_addToAllowList r e c : calm_op (addToAllowList r e c).
Proof using Type. calm. Qed.
Lemma calm_removeFromAllowList r e : calm_op (removeFromAllowList r e).
Proof using Type. calm. Qed.
Lemma calm_db_do {A} w0 (m : SE Db A) : calm_op m → preserves (calm_since w0) (db_do m).
Proof using Type.
  intros Hm w [Hk Hd]. specialize (Hm _ (db w) Hd). unfold run_state, run_out, db_do, zoom in *. by destruct (m (db w)).
Qed.
Hint Resolve quiet_calm calm_getUser calm_onlineNode calm_setOnline calm_clearOnline calm_moveMembership calm_setMembership
  calm_clearMembership calm_clearAll calm_addToAllowList calm_removeFromAllowList calm_db_do : pres.
Hint Extern 5 (preserves (calm_since _) (modify _)) => apply preserves_modify; intros ? ?; assumption : pres.

Lemma calm_joinRoom w0 n l : preserves (calm_since w0) (joinRoom n l).
Proof using Type.
  unfold joinRoom, getRoomOf, getUser, isAuthenticated, getSocket, rollback_join, removeSocketLocked, insert_member, setRoom.
  solve_pres.
Qed.
Lemma calm_leaveAll w0 l : preserves (calm_since w0) (leaveAll l).
Proof using Type. unfold leaveAll, getRoomOf, getUser, isAuthenticated, getSocket, removeSocketLocked, setRoom. solve_pres. Qed.
Hint Resolve calm_joinRoom calm_leaveAll : pres.
(** an event that is neither a message nor founding leaves the tables and the rooms *)
Lemma calm_applyEvent w0 e : ¬ founding e → ¬ says e → preserves (calm_since w0) (applyEvent e).
Proof using Type.
  clear no_failure voc chats. unfold founding, says, event_type, applyEvent. destruct (GossipPayload.decode _) as [f|]; [|solve_pres].
  cbn [fmap option_fmap option_map]. intros Hf Hs. cbv zeta.
  assert (String.eqb (GossipPayload.type f) "USER_CREATED" = false ∧ String.eqb (GossipPayload.type f) "ROOM_CREATED" = false ∧
    String.eqb (GossipPayload.type f) "ROOM_DELETED" = false ∧ String.eqb (GossipPayload.type f) "MESSAGE" = false)
    as (-> & -> & -> & ->).
  { split_and!; apply String.eqb_neq; intros E; rewrite E in *; [apply Hf; set_solver..|by apply Hs]. }
  cbn [negb]. unfold apply_login, apply_reconnect, apply_logout, apply_acl_add, apply_room_kick, apply_room_join, apply_room_leave,
    detach_session, expel_session, push_rooms, listRooms, getRoom, getSessions, isAuthenticated, getUser, getRoomOf,
    setAuthenticated, setUser. solve_pres.
Qed.
Lemma calm_event e w0 : ¬ founding e → ¬ says e → preserves (calm_since w0) (handle_event e).
Proof using Type. intros Hf Hs. pose proof (calm_applyEvent w0 e Hf Hs). unfold handle_event, remember. cbv zeta. solve_pres. Qed.

(** and no event makes its handler throw *)
Lemma joined_returns w0 e u c ts : replica w0 → runs (calm_since w0) (apply_room_join e u c ts) (λ _ _, True).
Proof using no_failure.
  pose proof (total_clearMembership no_failure). pose proof (@total_db_do).
  intros Hr. unfold apply_room_join. cbv zeta. destruct (_ || _); [by apply runs_ret|].
  apply (runs_bind _ _ _ (λ o w, calm_since w0 w ∧ ∀ r, o = Some r → ∃ row, row ∈ rooms (db w0) ∧ r_id row = Room.id r)).
  { intros w Hw. eexists _, w. split; [reflexivity|]. split; [done|]. intros r. rewrite (proj1 Hw). intros Hk.
    destruct (rp_rooms _ _ _ _ _ _ Hr _ _ Hk) as (row & ? & ? & _). eauto. }
  intros [r|]; [|by apply runs_ret]. intros w [Hw Hroom]. destruct (Hroom r eq_refl) as (row & Hrow & Hid). clear Hroom.
  revert w Hw. apply runs_frame; [unfold getRoom; solve_total|unfold getRoom; solve_pres|intros []].
  intros w Hw. unfold mbind at 1, SE_bind at 1. unfold db_do at 1, zoom at 1, DatabaseManager.getUser at 1, mbind at 1, SE_bind at 1.
  rewrite query_run by done. unfold sql_get_user. cbn [next_statement users].
  destruct (filter _ (users (db w))) as [|x rest] eqn:E; [by eexists _, _|]. apply filter_head in E as [Hx Hin].
  unfold mbind, SE_bind, db_do, zoom, setMembership, mbind, SE_bind. cbn [fmap list_fmap userFromRow mret SE_ret].
  cbv beta iota. cbn [db set_db].
  rewrite execute_run by done. unfold sql_set_membership. cbn [next_statement users rooms foreign_keys].
  rewrite (bool_decide_eq_true_2 (u ∈ _)) by (rewrite <-Hx; by apply list_elem_of_fmap_2).
  rewrite (bool_decide_eq_true_2 (Room.id r ∈ _)) by (destruct Hw as (_ & _ & -> & _); rewrite <-Hid; by apply list_elem_of_fmap_2).
  rewrite andb_false_r. by eexists _, _.
Qed.
Lemma calm_returns w0 e : replica w0 → ¬ founding e → ¬ says e → ∃ w', handle_event e w0 = (Ok tt, w').
Proof using no_failure.
  clear voc chats. intros Hr Hf Hs. assert (runs (calm_since w0) (handle_event e) (λ _ _, True)) as Hruns.
  2: { destruct (Hruns w0) as ([] & w' & Hrun & _); [by split_and!|by exists w']. }
  unfold handle_event. cbv zeta. destruct (is_empty _); [by apply runs_ret|].
  apply runs_frame; [unfold remember; solve_total|unfold remember; solve_pres|intros fresh].
  destruct (negb fresh); [by apply runs_ret|]. apply (runs_bind _ _ _ (λ _ _, True)); [|intros; by apply runs_ret].
  pose proof (total_setOnline no_failure). pose proof (total_onlineNode no_failure). pose proof (total_getUser no_failure).
  pose proof (total_moveMembership no_failure). pose proof (total_clearOnline no_failure). pose proof (@total_db_do).
  pose proof (total_clearAllMembership no_failure). pose proof (total_clearMembership no_failure).
  revert Hf Hs. unfold founding, says, event_type, applyEvent. destruct (GossipPayload.decode _) as [f|]; [|intros; by apply runs_ret].
  cbn [fmap option_fmap option_map]. intros Hf Hs. cbv zeta.
  assert (String.eqb (GossipPayload.type f) "USER_CREATED" = false ∧ String.eqb (GossipPayload.type f) "ROOM_CREATED" = false ∧
    String.eqb (GossipPayload.type f) "ROOM_DELETED" = false ∧ String.eqb (GossipPayload.type f) "MESSAGE" = false)
    as (-> & -> & -> & ->).
  { split_and!; apply String.eqb_neq; intros Et; rewrite Et in *; [apply Hf; set_solver..|by apply Hs]. }
  cbn [negb]. destruct (String.eqb _ "LOGIN"); [|destruct (String.eqb _ "RECONNECT"); [|destruct (String.eqb _ "LOGOUT");
    [|destruct (String.eqb _ "ROOM_ACL_ADD"); [|destruct (String.eqb _ "ROOM_KICK"); [|destruct (String.eqb _ "ROOM_JOIN");
    [by apply joined_returns|destruct (String.eqb _ "ROOM_LEAVE")]]]]]].
  all: apply (runs_weaken (λ _, True) _ _ (λ _ _, True)); [done|done|].
  all: apply (runs_total (λ _, True)); [|done].
  all: unfold apply_login, apply_reconnect, apply_logout, apply_acl_add, apply_room_kick, apply_room_leave,
    detach_session, expel_session, push_rooms, listRooms, getRoom, getSessions, isAuthenticated, getUser, getRoomOf,
    setAuthenticated, setUser, anonymousUser; solve_total.
Qed.

Lemma event_returns id w :
  node_ok ev V (gossip w) → replica w → id ∈ V → id ∉ recentEventIds (gossip w) →
  ∃ w', handle_event (ev id) w = (Ok tt, w').
Proof using no_failure voc chats.
  intros Hn Hr HV Hno. destruct (decide (says (ev id))) as [Hsay|Hsay].
  - destruct (rp_known _ _ _ _ _ _ Hr id HV Hsay) as [r Hroom].
    destruct (chat_broadcast id r w Hn Hr HV Hsay Hno Hroom) as (g & n & Hrun). by eexists.
  - apply calm_returns; [done|apply (proj1 (chats id HV))|done].
Qed.

(** so every event keeps the replica *)
Lemma replica_step id w :
  node_ok ev V (gossip w) → replica w → id ∈ V → id ∉ recentEventIds (gossip w) →
  replica (run_state (handle_event (ev id)) w).
Proof using no_failure voc chats.
  intros Hn Hr HV Hno. destruct (decide (says (ev id))) as [Hsay|Hsay]; [by apply replica_chat|].
  destruct (deliver_ids ev V voc [id] w Hn) as (Hn' & Hrec & _); [by intros x ->%list_elem_of_singleton|apply NoDup_singleton|].
  cbn [fmap list_fmap deliver foldl] in Hn', Hrec.
  assert (log_ids (gossip (run_state (handle_event (ev id)) w)) = {[id]} ∪ log_ids (gossip w)) as Hlog.
  { unfold log_ids. rewrite Hrec, list_to_set_app_L. set_solver. }
  apply (calm_replica w); [|done|rewrite Hlog; set_solver|rewrite Hlog].
  - apply (calm_event (ev id) w); [apply (proj1 (chats id HV))|done|]. by split_and!.
  - intros x [->%elem_of_singleton|Hx]%elem_of_union Hs; done.
Qed.
Lemma replica_deliver ids w :
  node_ok ev V (gossip w) → (∀ id, id ∈ ids → id ∈ V ∧ id ∉ recentEventIds (gossip w)) → NoDup ids →
  replica w → replica (deliver (ev <$> ids) w).
Proof using no_failure voc chats.
  revert w. induction ids as [|id ids IH]; intros w Hn Hids Hnd Hr; [done|].
  destruct (Hids id) as [HV Hno]; [by left|]. apply NoDup_cons in Hnd as [Hid Hnd].
  destruct (deliver_ids ev V voc [id] w Hn) as (Hn' & Hrec & _); [by intros x ->%list_elem_of_singleton|apply NoDup_singleton|].
  cbn [fmap list_fmap deliver foldl] in *. apply IH; [exact Hn'| |done|by apply replica_step].
  intros x Hx. destruct (Hids x) as [HxV Hxno]; [by right|]. split; [done|]. rewrite Hrec, elem_of_app, list_elem_of_singleton.
  intros [?| ->]; done.
Qed.
Lemma replica_wrote w l w' : wrote w l w' → replica w → replica w'.
Proof using Type. intros -> []. by constructor. Qed.
End apply.

(** ** History *)

Definition later (a b : Line) : Prop := (l_created b <= l_created a)%Z.
(** the message a reader gets for a line *)
Definition line_message (U : list UserRow) (l : Line) : Message.t :=
  Message.Message
    (User.User (text (l_user l)) (text (l_email l))
      (User.stringToType (text (match filter (λ u, u_email u = l_email l) U with u :: _ => u_type u | [] => "GUEST" end))))
    (User.User "" "" User.GUEST) (text (l_content l)) (l_created l) (text (l_id l)).

Lemma filter_key {A B} `{EqDecision B} (f : A → B) (l l' : list A) k :
  NoDup (f <$> l) → l ≡ₚ l' → filter (λ x, f x = k) l = filter (λ x, f x = k) l'.
Proof.
  intros Hnd Hp. assert (filter (λ x, f x = k) l ≡ₚ filter (λ x, f x = k) l') as Hf by (by rewrite Hp).
  assert (length (filter (λ x, f x = k) l) <= 1) as Hlen.
  { clear -Hnd. induction l as [|x l IH]; [cbn; lia|]. rewrite fmap_cons in Hnd. apply NoDup_cons in Hnd as [Hx Hnd].
    rewrite filter_cons. case_decide as Hk; [|by apply IH]. cbn. rewrite filter_none; [cbn; lia|].
    intros y Hy Hyk. apply Hx. rewrite Hk, <-Hyk. by apply list_elem_of_fmap_2. }
  destruct (filter _ l) as [|x [|y ys]]; cbn in Hlen; [by apply Permutation_nil_l in Hf| |lia].
  by apply Permutation_singleton_l in Hf.
Qed.
Lemma row_line U db m :
  keys db → users db ≡ₚ U → row_message db m = line_message U (line m).
Proof.
  intros Hk Hu. unfold row_message, line_message, sender_type. cbn [line l_user l_email l_content l_created l_id].
  by rewrite (filter_key u_email (users db) U _ (k_email _ Hk) Hu).
Qed.

Lemma fmap_sorted {A B} (R : A → A → Prop) (S : B → B → Prop) (f : A → B) l :
  (∀ x y, R x y → S (f x) (f y)) → StronglySorted R l → StronglySorted S (f <$> l).
Proof.
  intros Hf. induction 1 as [|x l Hl IH Hx]; [constructor|]. rewrite fmap_cons. constructor; [done|].
  apply Forall_fmap. eapply Forall_impl; [exact Hx|]. intros y. apply Hf.
Qed.

(** what a node returns for a room *)
Lemma history_run {env : DbEnv} ev V chat U past w name r :
  (∀ n, env_db n = None) → replica ev V chat U past w → knownRooms w !! name = Some r →
  ∃ ls, loadHistory (Room.id r) (db w) = (Ok (line_message U <$> take 100 ls), next_statement (db w)) ∧
    NoDup ls ∧ StronglySorted later ls ∧ ∀ l, l ∈ ls ↔ in_room ev chat past (log_ids (gossip w)) name l.
Proof.
  intros Hdb Hr Hroom. set (rows := filter (λ m, m_room_id m = Room.id r) (messages (db w))).
  destruct (newer_sorted rows) as [Hs Hp]. exists (line <$> merge_sort newer rows). split_and!.
  - unfold loadHistory, mbind, SE_bind. rewrite query_run by done. unfold sql_load_history. cbn [next_statement messages]. fold rows.
    rewrite from_rows_messages.
    + f_equal. f_equal. rewrite <-fmap_take, <-list_fmap_compose. apply list_fmap_ext. intros i m _. unfold compose. cbn.
      apply (row_line U (next_statement (db w))); [by destruct (rp_keys _ _ _ _ _ _ Hr)|apply (rp_users _ _ _ _ _ _ Hr)].
    + intros m Hm. assert (m ∈ rows) as Hin by (rewrite <-Hp; eapply subseteq_take; exact Hm).
      apply list_elem_of_filter in Hin as [_ Hin]. by apply Hr.
  - rewrite Hp. pose proof (NoDup_fmap_filter m_id (λ m, m_room_id m = Room.id r) _ (k_message _ (rp_keys _ _ _ _ _ _ Hr))) as Hnd.
    fold rows in Hnd. apply (NoDup_fmap_1 l_id). by rewrite <-list_fmap_compose.
  - apply (fmap_sorted newer later); [intros x y H; exact H|exact Hs].
  - intros l. rewrite Hp. apply (rp_lines _ _ _ _ _ _ Hr name r l Hroom).
Qed.

#[export] Instance replica_invariant envs ev V chat U past :
  (∀ i n, env_db (DbEnv := srv_db (ServerEnv := envs i)) n = None) → vocabulary ev V → chats_ok ev V chat U →
  NodeInvariant envs ev V (λ _ w, replica ev V chat U past w).
Proof.
  intros Hdb Hvoc Hchats. constructor.
  - intros i w l w'. apply replica_wrote.
  - intros i w ids. by apply replica_deliver.
Qed.

(** * Theorems *)

(** C4. All nodes tell the same history: the nodes of a cluster share a past, the users and
    the rooms of the messages, and each has applied some events, chat messages and others, in
    any order and under room ids of its own.  Once every pair of nodes has exchanged, any two
    nodes load for a room the newest hundred of the messages of the past and of every event
    any node had, none lost and none twice, newest first; if no two of them have the same
    time, they return the very same list.  Taken up to here: no event makes an account or
    makes or deletes a room; at most 256 events go around in all, with short ids without '|'
    and packets that fit a frame; every two nodes are linked; writes and statements never
    fail. *)
Theorem history_converges envs sock ev V chat U past l c :
  vocabulary ev V → chats_ok ev V chat U → (∀ i, env_ok (envs i)) →
  (∀ i n, env_db (DbEnv := srv_db (ServerEnv := envs i)) n = None) →
  cluster_ok sock ev V (λ _ w, replica ev V chat U past w) c → full_mesh (length c) l →
  let c' := run_exchanges envs sock l c in
  ∀ name i j wi wj ri rj,
    c' !! i = Some wi → c' !! j = Some wj →
    knownRooms wi !! name = Some ri → knownRooms wj !! name = Some rj →
  ∃ li lj,
    loadHistory (env := srv_db (ServerEnv := envs i)) (Room.id ri) (db wi) =
      (Ok (line_message U <$> take 100 li), next_statement (db wi)) ∧
    loadHistory (env := srv_db (ServerEnv := envs j)) (Room.id rj) (db wj) =
      (Ok (line_message U <$> take 100 lj), next_statement (db wj)) ∧
    NoDup li ∧ (∀ x, x ∈ li ↔ in_room ev chat past (all_ids c) name x) ∧ StronglySorted later li ∧ li ≡ₚ lj ∧
    ((∀ x y, x ∈ li → y ∈ li → l_created x = l_created y → x = y) → li = lj).
Proof.
  intros Hvoc Hchats Henvs Hdb Hc Hl.
  destruct (exchanges_ok envs sock ev V Hvoc Henvs _ l c (replica_invariant envs ev V chat U past Hdb Hvoc Hchats) Hc (proj1 Hl))
    as (Hlen & Hc' & Hk). cbv zeta. set (c' := run_exchanges envs sock l c) in *.
  intros name i j wi wj ri rj Hi Hj Hri Hrj.
  assert (∀ n w, c' !! n = Some w → log_ids (gossip w) = all_ids c) as Hall.
  { intros n w Hn. assert (n < length c) as Hlt by (rewrite <-Hlen; by eapply lookup_lt_Some).
    rewrite <-(union_full_mesh l c n Hl Hlt), <-(Hk n Hlt). unfold knows. by rewrite Hn. }
  destruct (Hc' i wi Hi) as (_ & Hrepi & _), (Hc' j wj Hj) as (_ & Hrepj & _).
  destruct (history_run ev V chat U past wi name ri (Hdb i) Hrepi Hri) as (li & Hrun & Hnd & Hs & Hin).
  destruct (history_run ev V chat U past wj name rj (Hdb j) Hrepj Hrj) as (lj & Hrun' & Hnd' & Hs' & Hin').
  rewrite (Hall i wi Hi) in Hin. rewrite (Hall j wj Hj) in Hin'.
  assert (li ≡ₚ lj) as Hperm by (apply NoDup_Permutation; [done..|]; intros x; by rewrite Hin, Hin').
  exists li, lj. split_and!; [done..|]. intros Hdist. apply (StronglySorted_unique_strong later); [|done..].
  intros x y Hx Hy Hxy Hyx. apply Hdist; [done|by rewrite Hperm|unfold later in *; lia].
Qed.

(** * Witnesses *)

(** three nodes with the seeded tables; the first two have a message each, in the same room,
    and on the second a user signed in *)
Definition node_env (i : nat) : ServerEnv := {|
  srv_db := {| db_argon2 := plain_argon2; env_db := λ _, None; env_salt := λ _, "salt";
               NODE_ID := match i with 0 => "node0" | 1 => "node1" | _ => "node2" end |};
  SERVER_HOST := "127.0.0.1"; PORT := 5050;
  env_time n := (1726000000 + Z.of_nat (100 * i + n))%Z; env_steady n := Z.of_nat n; env_rand n := Z.of_nat n;
  env_write _ := true; env_connect _ := 1000%Z; env_listening _ := true; PEER_PORT := 6050; PEERS := [] |}.
Definition node_sock (i j : nat) : Z := (100 * Z.of_nat i + Z.of_nat j)%Z.
Definition said_event (id what ts : string) : Packet.t :=
  Packet.make 9 "node" "*" GOSSIP_EVENT "General" (GossipPayload.encode "MESSAGE" id "user" what ts) 0.
Definition sample_ev (id : string) : Packet.t :=
  if String.eqb id "a" then said_event "a" "hello" "1726000005"
  else if String.eqb id "b" then said_event "b" "hi" "1726000003"
  else Packet.make 9 "node" "*" GOSSIP_EVENT "" (GossipPayload.encode "LOGIN" "in" "user" "node1" "1726000001") 0.
Definition sample_chat (id : string) : Chat :=
  if String.eqb id "a" then mkChat "General" seeded_user "hello" 1726000005
  else mkChat "General" seeded_user "hi" 1726000003.
Definition sample_V : gset string := {["a"; "b"; "in"]}.
Definition no_past (_ : string) : list Line := [].
Definition sample_users : list UserRow := users seeded.

Definition peers_of (i : nat) : gmap string ClientEndpoint.t :=
  list_to_map ((λ j, ("peer" +:+ to_string (Z.of_nat j),
    ClientEndpoint.ClientEndpoint "peer" "host" 5050 (node_sock i j))) <$> filter (λ j, j ≠ i) [0; 1; 2]).
Definition fresh_node (i : nat) : World :=
  let w := run_state (@RoomManager_init (node_env i)) (boot seeded) in
  set_gossip (mkGossip false (peers_of i) ∅ ∅ ∅ [] ∅) w.
(** a node, or a node that has applied one event *)
Definition sample_node (i : nat) (ids : list string) : World := deliver (env := node_env i) (sample_ev <$> ids) (fresh_node i).
Definition sample_cluster : list World := [sample_node 0 ["a"]; sample_node 1 ["in"; "b"]; sample_node 2 []].
Definition every_pair : list (nat * nat) := [(2, 1); (0, 2); (1, 0); (0, 1); (1, 2); (2, 0)].

(** the third node ends with both messages, newest first *)
Example third_node_catches_up :
  (λ w, match run_out (loadHistory (env := srv_db (ServerEnv := node_env 2)) 2) (db w) with
        | Ok l => Message.content <$> l | Throw _ => [] end) <$>
    (run_exchanges node_env node_sock every_pair sample_cluster !! 2) = Some ["hello"; "hi"].
Proof. vm_compute. reflexivity. Qed.

Lemma sample_vocabulary : vocabulary sample_ev sample_V.
Proof.
  assert (∀ id, id ∈ sample_V → id = "a" ∨ id = "b" ∨ id = "in") as Hc by (unfold sample_V; set_solver).
  constructor; [vm_compute; lia|intros id [->|[->| ->]]%Hc; vm_compute; repeat split; try done..];
    try (intros H; discriminate H).
Qed.
Lemma sample_chats : chats_ok sample_ev sample_V sample_chat sample_users.
Proof.
  assert (∀ id, id ∈ sample_V → id = "a" ∨ id = "b" ∨ id = "in") as Hc by (unfold sample_V; set_solver).
  intros id Hid. split.
  { destruct (Hc id Hid) as [->|[->| ->]]; [apply (calm_kind _ "MESSAGE")|apply (calm_kind _ "MESSAGE")|apply (calm_kind _ "LOGIN")];
      first [vm_compute; reflexivity|by rewrite !elem_of_cons; intros [?|[?|[?|?%elem_of_nil]]]]. }
  destruct (Hc id Hid) as [->|[->| ->]]; intros Hsay; [..|discriminate Hsay];
    (split; [eexists; split; [vm_compute; reflexivity|repeat split; reflexivity]|]); (split; [right; left|reflexivity]).
Qed.
Lemma node_env_ok i : env_ok (node_env i).
Proof. split; [done|]. destruct i as [|[|i]]; vm_compute; discriminate. Qed.

Lemma fresh_node_ok ev V i : node_ok ev V (gossip (fresh_node i)).
Proof.
  split; [|done|done]. split; [|unfold MAX_EVENT_LOG; cbn; lia]. constructor; cbn; try done.
  - constructor.
  - intros id. rewrite lookup_empty. split; [by intros []|by intros ?%elem_of_nil].
Qed.
Lemma fresh_node_rooms i n r : knownRooms (fresh_node i) !! n = Some r → r = LOBBY ∧ n = "Lobby" ∨ r = GENERAL ∧ n = "General".
Proof.
  assert (knownRooms (fresh_node i) = {["Lobby" := LOBBY; "General" := GENERAL]}) as -> by (vm_compute; reflexivity).
  rewrite lookup_insert_Some. intros [[<- <-]|[_ [<- <-]%lookup_singleton_Some]]; tauto.
Qed.
Lemma fresh_node_tables i : ∃ n, db (fresh_node i) = Nat.iter n next_statement seeded.
Proof. exists 1. vm_compute. reflexivity. Qed.
Lemma fresh_node_replica ev V chat i :
  (∀ id, id ∈ V → c_room (chat id) = "General") → replica ev V chat sample_users no_past (fresh_node i).
Proof.
  intros Hrooms.
  destruct (fresh_node_tables i) as [n Hd].
  assert (∀ n, users (Nat.iter n next_statement seeded) = users seeded ∧ rooms (Nat.iter n next_statement seeded) = rooms seeded ∧
    messages (Nat.iter n next_statement seeded) = [] ∧ foreign_keys (Nat.iter n next_statement seeded) = true ∧
    keys (Nat.iter n next_statement seeded)) as Ht.
  { clear. induction n as [|n (?&?&?&?&Hk)]; [split_and!; try done; apply init_wf|]. cbn. split_and!; try done. destruct Hk. by constructor. }
  destruct (Ht n) as (Hu & Hr & Hm & Hf & Hk). constructor; rewrite ?Hd, ?Hu, ?Hr, ?Hm, ?Hf; try done.
  - intros name r [[-> ->]|[-> ->]]%fresh_node_rooms.
    + exists (mkRoomRow 1 "Lobby" "Lobby" "PUBLIC"). split; [left|by split].
    + exists (mkRoomRow 2 "General" "Other" "PUBLIC"). split; [right; left|by split].
  - intros id Hid. rewrite (Hrooms id Hid). eexists. vm_compute. reflexivity.
  - by intros m ?%elem_of_nil.
  - by intros m ?%elem_of_nil.
  - intros name r l _. rewrite filter_nil. cbn [fmap list_fmap]. unfold in_room, no_past. split; [by intros ?%elem_of_nil|].
    intros [?%elem_of_nil|(id & Hid & _)]; [done|]. by apply not_elem_of_empty in Hid.
Qed.

Lemma sample_node_ok i ids :
  i < 3 → (∀ id, id ∈ ids → id ∈ sample_V) → NoDup ids →
  node_ok sample_ev sample_V (gossip (sample_node i ids)) ∧
  replica sample_ev sample_V sample_chat sample_users no_past (sample_node i ids) ∧
  clientPeers (gossip (sample_node i ids)) = peers_of i.
Proof.
  intros Hi Hids Hnd.
  assert (∀ id, id ∈ ids → id ∈ sample_V ∧ id ∉ recentEventIds (gossip (fresh_node i))) as Hf.
  { intros id Hid. split; [by apply Hids|]. apply not_elem_of_nil. }
  destruct (deliver_ids sample_ev sample_V sample_vocabulary (env := node_env i) ids (fresh_node i) (fresh_node_ok _ _ i) Hf Hnd)
    as (Hn & _ & Hp).
  split; [exact Hn|]. split; [|exact Hp].
  apply (replica_deliver (env := node_env i) (λ _, eq_refl) sample_ev sample_V sample_vocabulary sample_chat sample_users no_past
    sample_chats ids); [by apply fresh_node_ok|done|done|apply fresh_node_replica].
  intros id _. unfold sample_chat. by destruct (String.eqb id "a").
Qed.
Lemma sample_cluster_ok (P : nat → World → Prop) :
  (∀ i w, replica sample_ev sample_V sample_chat sample_users no_past w → P i w) →
  cluster_ok node_sock sample_ev sample_V P sample_cluster.
Proof.
  intros HP i w Hw.
  assert (∃ ids, i < 3 ∧ w = sample_node i ids ∧ (∀ id, id ∈ ids → id ∈ sample_V) ∧ NoDup ids) as (ids & Hi & -> & Hv & Hnd).
  { assert (∀ id, id = "a" ∨ id = "b" ∨ id = "in" → id ∈ sample_V) as Hv by (unfold sample_V; set_solver).
    unfold sample_cluster in Hw. destruct i as [|[|[|i]]]; cbn [lookup list_lookup] in Hw; [..|discriminate Hw]; apply (inj Some) in Hw as <-;
      [exists ["a"]|exists ["in"; "b"]|exists []]; (split; [lia|]); (split; [reflexivity|]); (split; [|apply (bool_decide_unpack _); vm_compute; exact I]).
    - intros id ->%list_elem_of_singleton. apply Hv. by left.
    - intros id [->|[->|?%elem_of_nil]%elem_of_cons]%elem_of_cons; [apply Hv; tauto..|done].
    - by intros id ?%elem_of_nil. }
  destruct (sample_node_ok i ids Hi Hv Hnd) as (Hn & Hr & Hp). split_and!; [done|by apply HP|].
  intros j Hj Hjl. unfold peer_on, peerSocketsLocked. rewrite Hp. cbn in Hjl.
  destruct i as [|[|[|]]], j as [|[|[|]]]; try lia; vm_compute; reflexivity.
Qed.
Lemma every_pair_mesh : full_mesh (length sample_cluster) every_pair.
Proof.
  split; [repeat constructor; cbn; lia|]. intros i j Hi Hj Hij. cbn in Hi, Hj.
  destruct i as [|[|[|]]], j as [|[|[|]]]; try lia; unfold every_pair; set_solver.
Qed.



Lemma history_converges_witness :
  let c' := run_exchanges node_env node_sock every_pair sample_cluster in
  ∃ wi wj, c' !! 0 = Some wi ∧ c' !! 2 = Some wj ∧ ∃ li lj,
    loadHistory (env := srv_db (ServerEnv := node_env 0)) 2 (db wi) =
      (Ok (line_message sample_users <$> take 100 li), next_statement (db wi)) ∧
    loadHistory (env := srv_db (ServerEnv := node_env 2)) 2 (db wj) =
      (Ok (line_message sample_users <$> take 100 lj), next_statement (db wj)) ∧
    li ≡ₚ lj.
Proof.
  assert (((λ w, knownRooms w !! "General") <$> run_exchanges node_env node_sock every_pair sample_cluster !! 0) = Some (Some GENERAL) ∧
    ((λ w, knownRooms w !! "General") <$> run_exchanges node_env node_sock every_pair sample_cluster !! 2) = Some (Some GENERAL))
    as [H0 H2] by (vm_compute; split; reflexivity).
  cbv zeta. set (c' := run_exchanges node_env node_sock every_pair sample_cluster) in *.
  destruct (c' !! 0) as [wi|] eqn:Hi; [|discriminate H0]. destruct (c' !! 2) as [wj|] eqn:Hj; [|discriminate H2].
  injection H0 as H0. injection H2 as H2.
  destruct (history_converges node_env node_sock sample_ev sample_V sample_chat sample_users no_past every_pair sample_cluster
    sample_vocabulary sample_chats node_env_ok (λ _ _, eq_refl)
    (sample_cluster_ok (λ _ w, replica sample_ev sample_V sample_chat sample_users no_past w) (λ _ _ H, H)) every_pair_mesh
    "General" 0 2 wi wj GENERAL GENERAL Hi Hj H0 H2) as (li & lj & Hli & Hlj & _ & _ & _ & Hp & _).
  exists wi, wj. split; [reflexivity|]. split; [reflexivity|]. exists li, lj. split; [exact Hli|]. split; [exact Hlj|]. exact Hp.
Defined.
