(* ===== verification/PacketProcessor.v ===== *)
(** PacketProcessor (src/server/packet_processor.cpp): what the server does with one packet
    of a client, one definition per packet type, and the helpers that turn a local change
    into a gossip event.  A handler maps the prepared response to the filled-in one; its
    [try]/[catch] clauses are [try_catch] with the same classes of exceptions.

    The theorems: every request gets one answer with the right envelope and a documented
    response code, and no exception leaves [processPacket] except out of LOGOUT; gossip and
    push types are refused on the client port; deleting, kicking, inviting and entering a
    private room need the right they should need, and a refused request changes nothing. *)
From S2P Require Import Prelude Packet Models GossipPayload DatabaseManager World RoomManager.
From S2P Require Import GossipManager.
From stdpp Require Import options.

(** * Definitions *)

Section with_env.
Context {env : ServerEnv}.

(** ** Events *)

(** [NODE_ID-kind-username-time-seq] *)
Definition event_id (kind username : string) (time seq : Z) : string :=
  NODE_ID +:+ "-" +:+ kind +:+ "-" +:+ username +:+ "-" +:+ to_string time +:+ "-" +:+
  to_string seq.

Definition makeEventId (kind username : string) : M string :=
  time ← time_now;
  modify (λ w, set_presenceSeq (u64 (nextPresenceSeq w + 1)) w) ;;
  seq ← gets nextPresenceSeq;
  mret (event_id kind username time seq).

(** [ConnectionManager::rumor] *)
Definition connections_rumor (event : Packet.t) : M unit :=
  present ← gets gossip_set;
  when present (rumor event).

Definition rumorEvent (type username content field5 room : string) : M unit :=
  eventId ← makeEventId type username;
  let payload := GossipPayload.encode type eventId username content field5 in
  event ← new_packet NODE_ID "*" GOSSIP_EVENT room payload 0;
  connections_rumor event.

Definition rumorPresence (kind username : string) : M unit :=
  ts ← time_now;
  rumorEvent kind username NODE_ID (to_string ts) "".
Definition rumorUserCreated (username passwordHash email : string) : M unit :=
  rumorEvent "USER_CREATED" username passwordHash email "".
Definition rumorRoomJoin (username newRoom prevRoom : string) : M unit :=
  rumorEvent "ROOM_JOIN" username NODE_ID prevRoom newRoom.
Definition rumorMessage (username content room : string) : M unit :=
  ts ← time_now;
  rumorEvent "MESSAGE" username content (to_string ts) room.
Definition rumorRoomCreated (username : string) (r : Room.t) : M unit :=
  rumorEvent "ROOM_CREATED" username (Room.roomTypeToString (Room.type r))
    (Room.privacyToString (Room.privacy r)) (Room.name r).
Definition rumorAclAdd (username roomName : string) (creator : bool) : M unit :=
  rumorEvent "ROOM_ACL_ADD" username (if creator then "1" else "0") "" roomName.
Definition rumorRoomKick (username roomName : string) : M unit :=
  rumorEvent "ROOM_KICK" username NODE_ID "" roomName.
Definition rumorRoomDeleted (username roomName : string) : M unit :=
  rumorEvent "ROOM_DELETED" username NODE_ID "" roomName.

(** ** Helpers *)

Definition encodeRoomDirectory : M string :=
  rooms ← listRooms; mret (Room.serializeList rooms).

Definition pushRoomDirectory (skipSocket : Z) : M unit :=
  body ← encodeRoomDirectory;
  push ← new_packet "server" "*" ROOM_LIST "" body 0;
  broadcastAll push skipSocket ;;
  mret tt.

Definition newline : string := String (byte_of_Z 10) "".

(** oldest first: the list is walked backwards *)
Definition encodeHistory (messages : list Message.t) : string :=
  foldl (λ out m, out +:+ "[" +:+ User.username (Message.from m) +:+ "][" +:+
    to_string (Message.timestamp m) +:+ "] " +:+ Message.content m +:+ newline) "" (reverse messages).

Definition isAdmin (l : loc) : M bool :=
  auth ← isAuthenticated l;
  if negb auth then mret false
  else u ← getUser l; mret (match User.user_type u with User.ADMIN => true | _ => false end).

Definition answer (code : Z) (message : string) (response : Packet.t) : Packet.t :=
  Packet.set_message message (Packet.set_code code response).
Definition denyForbidden (response : Packet.t) (message : string) : Packet.t :=
  answer FORBIDDEN message response.

(** the first authenticated session of that name *)
Definition findSessionByUsername (username : string) : M (option loc) :=
  gets (λ w,
    snd <$> (snd <$> list_find (λ e : Z * loc,
      authenticated (session_at w e.2) = true ∧ User.username (user (session_at w e.2)) = username)
      (map_to_list (sessions w)))).

Definition pushLobbyTo (socket : Z) : M unit :=
  body ← encodeRoomDirectory;
  push ← new_packet "server" "*" ROOM_LIST (Room.name LOBBY) body 0;
  sendPacket socket push ;;
  mret tt.

(** [ConnectionManager::refreshServerDirectory] *)
Definition refreshServerDirectory (only : Z) : M unit :=
  present ← gets gossip_set;
  if negb present then mret tt
  else body ← buildServerDirectory; pushServerDirectory body only.

(** [packet.room.empty() ? LOBBY : packet.room] and the same with the session's room *)
Definition or_lobby (name : string) : string := if is_empty name then Room.name LOBBY else name.
Definition or_current (name : string) (l : loc) : M string :=
  r ← getRoomOf l; mret (if is_empty name then Room.name r else name).

(** ** The cases of processPacket *)

Definition process_heartbeat (response : Packet.t) : M Packet.t :=
  mret (answer SUCCESS "pong" response).

Definition process_unsupported (response : Packet.t) : M Packet.t :=
  mret (answer ERROR "unsupported on client port" response).

(** what LOGIN and REGISTER share after the session has its user *)
Definition enter_as (u : User.t) (prevRoom : string) (l : loc) (response : Packet.t) : M Packet.t :=
  setUser l u ;;
  setAuthenticated l true ;;
  joinRoom (Room.name LOBBY) l ;;
  rumorPresence "LOGIN" (User.username u) ;;
  rumorRoomJoin (User.username u) (Room.name LOBBY) prevRoom ;;
  body ← encodeRoomDirectory;
  socket ← getSocket l;
  let response := Packet.set_room body (answer SUCCESS (User.serialize u) response) in
  refreshServerDirectory socket ;;
  mret response.

Definition process_login (packet : Packet.t) (l : loc) (response : Packet.t) : M Packet.t :=
  try_catch
    (dbResult ← db_do (loginUser (Packet.sender packet) (Packet.message packet));
     match dbResult with
     | inr error => mret (answer ERROR error response)
     | inl u =>
         here ← hasSession u;
         online ← (if (here : bool) then mret true else db_do (isUserOnline (User.username u)));
         if (online : bool) then mret (answer ERROR "user already logged in" response)
         else
           prev ← getRoomOf l;
           enter_as u (Room.name prev) l response
     end)
    (λ _, mret (answer INTERNAL_SERVER_ERROR "login failed" response)).

(** [ConnectionManager::isNodeLive] *)
Definition connections_isNodeLive (nodeId : string) : M bool :=
  present ← gets gossip_set;
  if (present : bool) then isNodeLive nodeId else mret false.

(** whether the node that holds the presence row still serves the user *)
Definition owner_live (u : User.t) : M bool :=
  node ← db_do (onlineNode (User.username u));
  match node with
  | None => mret false
  | Some node => if String.eqb node NODE_ID then hasSession u else connections_isNodeLive node
  end.

(** the room a resumed session may enter: whether it is closed to this user *)
Definition private_blocked (u : User.t) (found : option Room.t) (l : loc) : M bool :=
  match found with
  | None => mret false
  | Some r =>
      match Room.privacy r with
      | Room.PUBLIC => mret false
      | Room.PRIVATE =>
          admin ← isAdmin l;
          if (admin : bool) then mret false
          else allowed ← db_do (isAllowed (Room.id r) (User.email u)); mret (negb allowed)
      end
  end.

(** joins the requested room when it exists and is open, the Lobby otherwise; the name of
    the room the client is told it is in *)
Definition resume_room (u : User.t) (requested : string) (l : loc) : M string :=
  found ← getRoom requested;
  blocked ← private_blocked u found l;
  ok ← (match found with
        | Some _ => if negb blocked then joinRoom requested l else mret false
        | None => mret false
        end);
  if (ok : bool) then mret requested
  else joinRoom (Room.name LOBBY) l ;; mret (Room.name LOBBY).

Definition process_reconnect (packet : Packet.t) (l : loc) (response : Packet.t) : M Packet.t :=
  try_catch
    (found ← db_do (DatabaseManager.getUser (Packet.sender packet));
     match found with
     | None => mret (answer ERROR "unknown user" response)
     | Some u =>
         let username := User.username u in
         node ← db_do (onlineNode username);
         match node with
         | None => mret (answer ERROR "not logged in" response)
         | Some _ =>
             ownerLive ← owner_live u;
             here ← hasSession u;
             refused ← (if (here : bool) then mret true
                        else claim ← db_do (canClaimPresence username ownerLive); mret (negb claim));
             if (refused : bool) then mret (answer ERROR "user already logged in" response)
             else
               prev ← getRoomOf l;
               setUser l u ;;
               setAuthenticated l true ;;
               db_do (setOnline username NODE_ID) ;;
               db_do (moveMembership username NODE_ID) ;;
               joined ← resume_room u (or_lobby (Packet.room packet)) l;
               when (negb (String.eqb joined (Room.name LOBBY)))
                 (joinedRoom ← getRoom joined;
                  match joinedRoom with
                  | Some r =>
                      match Room.privacy r with
                      | Room.PUBLIC => db_do (addToAllowList (Room.id r) (User.email u) false)
                      | Room.PRIVATE => mret tt
                      end
                  | None => mret tt
                  end) ;;
               rumorPresence "RECONNECT" username ;;
               rumorRoomJoin username joined (Room.name prev) ;;
               body ← encodeRoomDirectory;
               socket ← getSocket l;
               let response := Packet.set_room body (answer SUCCESS (User.serialize u) response) in
               refreshServerDirectory socket ;;
               mret response
         end
     end)
    (λ _, mret (answer INTERNAL_SERVER_ERROR "reconnect failed" response)).

Definition process_register (packet : Packet.t) (l : loc) (response : Packet.t) : M Packet.t :=
  try_catch
    (taken ← db_do (userExists (Packet.sender packet));
     if (taken : bool) then mret (answer ERROR "user already exists" response)
     else
       let username := Packet.sender packet in
       let password := Packet.message packet in
       let email := Packet.room packet in
       if is_empty username || is_empty password || is_empty email
       then mret (answer ERROR "missing username, password, or email" response)
       else
         hashedPassword ← db_do (hash_now password);
         u ← db_do (createUser username hashedPassword email);
         rumorUserCreated (User.username u) hashedPassword email ;;
         prev ← getRoomOf l;
         enter_as u (Room.name prev) l response)
    (λ e, mret
       (match e with
        | ConstraintError what => answer ERROR what response
        | _ => answer INTERNAL_SERVER_ERROR ("register failed: " +:+ exn_what e) response
        end)).

(** no [try] here: what leaves the rumor leaves the handler *)
Definition process_logout (l : loc) (response : Packet.t) : M Packet.t :=
  wasAuth ← isAuthenticated l;
  u ← getUser l;
  let username := User.username u in
  leaveAll l ;;
  setAuthenticated l false ;;
  anon ← anonymousUser;
  setUser l anon ;;
  joinRoom (Room.name LOBBY) l ;;
  when (wasAuth && negb (is_empty username)) (rumorPresence "LOGOUT" username) ;;
  mret (answer SUCCESS "logged out" response).

Definition process_message (packet : Packet.t) (l : loc) (response : Packet.t) : M Packet.t :=
  if is_empty (Packet.message packet) then mret (answer ERROR "empty message" response)
  else
    try_catch
      (u ← getUser l;
       r ← getRoomOf l;
       auth ← isAuthenticated l;
       (if (auth : bool) then rumorMessage (User.username u) (Packet.message packet) (Room.name r)
        else
          push ← new_packet (User.username u) "" MESSAGE (Room.name r) (Packet.message packet) 0;
          broadcast r push INVALID_SOCKET ;; mret tt) ;;
       mret (answer SUCCESS "ok" response))
      (λ e, mret (answer INTERNAL_SERVER_ERROR ("send failed: " +:+ exn_what e) response)).

Definition process_room_join (packet : Packet.t) (l : loc) (response : Packet.t) : M Packet.t :=
  try_catch
    (let roomName := or_lobby (Packet.room packet) in
     found ← getRoom roomName;
     match found with
     | None => mret (answer NOT_FOUND ("unknown room: " +:+ roomName) response)
     | Some r =>
         u ← getUser l;
         let email := User.email u in
         admin ← isAdmin l;
         auth ← isAuthenticated l;
         denied ← (match Room.privacy r with
                   | Room.PUBLIC => mret false
                   | Room.PRIVATE =>
                       if (admin : bool) then mret false
                       else if negb auth then mret true
                       else allowed ← db_do (isAllowed (Room.id r) email); mret (negb allowed)
                   end);
         if (denied : bool) then mret (answer ERROR ("not allowed to join " +:+ roomName) response)
         else
           prev ← getRoomOf l;
           joined ← joinRoom roomName l;
           if negb joined then mret (answer ERROR ("failed to join " +:+ roomName) response)
           else
             match Room.privacy r with
             | Room.PUBLIC => when auth (db_do (addToAllowList (Room.id r) email false))
             | Room.PRIVATE => mret tt
             end ;;
             when auth (rumorRoomJoin (User.username u) roomName (Room.name prev)) ;;
             mret (Packet.set_room roomName (answer SUCCESS ("joined " +:+ roomName) response))
     end)
    (λ e, mret (answer INTERNAL_SERVER_ERROR ("join failed: " +:+ exn_what e) response)).

Definition process_room_leave (l : loc) (response : Packet.t) : M Packet.t :=
  try_catch
    (prev ← getRoomOf l;
     joined ← joinRoom (Room.name LOBBY) l;
     if negb joined then mret (answer ERROR "failed to leave room" response)
     else
       auth ← isAuthenticated l;
       u ← getUser l;
       when auth (rumorRoomJoin (User.username u) (Room.name LOBBY) (Room.name prev)) ;;
       mret (Packet.set_room (Room.name LOBBY)
               (answer SUCCESS "left room, back in Lobby" response)))
    (λ e, mret (answer INTERNAL_SERVER_ERROR ("leave failed: " +:+ exn_what e) response)).

Definition process_room_create (packet : Packet.t) (l : loc) (response : Packet.t) : M Packet.t :=
  auth ← isAuthenticated l;
  if negb auth then mret (answer ERROR "not authenticated" response)
  else
    try_catch
      (let roomName := Packet.room packet in
       if is_empty roomName then mret (answer ERROR "missing room name" response)
       else
         let privacy := if negb (is_empty (Packet.message packet))
                        then Room.stringToPrivacy (Packet.message packet) else Room.PUBLIC in
         u ← getUser l;
         ok ← createRoom (Room.Room 0 roomName Room.OTHER privacy) (User.email u);
         if negb ok then mret (answer ERROR "room already exists or create failed" response)
         else
           created ← getRoom roomName;
           match created with
           | None => mret (answer INTERNAL_SERVER_ERROR "create failed" response)
           | Some created =>
               rumorRoomCreated (User.username u) created ;;
               pushRoomDirectory INVALID_SOCKET ;;
               mret (Packet.set_room roomName (answer SUCCESS (Room.serialize created) response))
           end)
      (λ _, mret (answer INTERNAL_SERVER_ERROR "create failed" response)).

(** the common shape of the catch clauses of ROOM_INVITE and ROOM_KICK *)
Definition constraint_or (what : string) (response : Packet.t) (e : exn) : M Packet.t :=
  mret (match e with
        | ConstraintError w => answer ERROR w response
        | _ => answer INTERNAL_SERVER_ERROR what response
        end).

(** admin, or the creator on the room's allow list *)
Definition may_manage (r : Room.t) (l : loc) : M bool :=
  admin ← isAdmin l;
  if (admin : bool) then mret true
  else u ← getUser l; db_do (isAllowListCreator (Room.id r) (User.email u)).

Definition process_room_invite (packet : Packet.t) (l : loc) (response : Packet.t) : M Packet.t :=
  auth ← isAuthenticated l;
  if negb auth then mret (answer ERROR "not authenticated" response)
  else
    try_catch
      (roomName ← or_current (Packet.room packet) l;
       let inviteeUsername := Packet.message packet in
       if is_empty roomName || is_empty inviteeUsername
       then mret (answer ERROR "missing room or invitee username" response)
       else
         found ← getRoom roomName;
         match found with
         | None => mret (answer NOT_FOUND ("unknown room: " +:+ roomName) response)
         | Some r =>
             admin ← isAdmin l;
             if bool_decide (Room.privacy r ≠ Room.PRIVATE) && negb admin
             then mret (answer ERROR "invite only allowed for private rooms" response)
             else
               allowed ← may_manage r l;
               if negb allowed
               then mret (denyForbidden response "only the room creator or an admin can invite")
               else
                 invitee ← db_do (DatabaseManager.getUser inviteeUsername);
                 match invitee with
                 | None => mret (answer NOT_FOUND ("unknown user: " +:+ inviteeUsername) response)
                 | Some invitee =>
                     db_do (addToAllowList (Room.id r) (User.email invitee) false) ;;
                     rumorAclAdd inviteeUsername roomName false ;;
                     mret (answer SUCCESS ("invited " +:+ inviteeUsername)
                             (Packet.set_room roomName response))
                 end
         end)
      (constraint_or "invite failed" response).

Definition process_room_delete (packet : Packet.t) (l : loc) (response : Packet.t) : M Packet.t :=
  admin ← isAdmin l;
  if negb admin then mret (denyForbidden response "admin required")
  else
    try_catch
      (roomName ← or_current (Packet.room packet) l;
       if is_empty roomName then mret (answer ERROR "missing room name" response)
       else if String.eqb roomName (Room.name LOBBY) || String.eqb roomName (Room.name GENERAL)
       then mret (answer ERROR "cannot delete Lobby or General" response)
       else
         deleted ← deleteRoom roomName;
         if negb deleted then mret (answer ERROR "unknown room or delete failed" response)
         else
           u ← getUser l;
           rumorRoomDeleted (User.username u) roomName ;;
           pushRoomDirectory INVALID_SOCKET ;;
           mret (answer SUCCESS ("deleted " +:+ roomName)
                   (Packet.set_room (Room.name LOBBY) response)))
      (λ _, mret (answer INTERNAL_SERVER_ERROR "delete failed" response)).

(** the part of ROOM_KICK that moves a session of this node *)
Definition kick_local (targetUsername roomName : string) : M unit :=
  targetSession ← findSessionByUsername targetUsername;
  match targetSession with
  | None => mret tt
  | Some t =>
      r ← getRoomOf t;
      when (String.eqb (Room.name r) roomName)
        (joinRoom (Room.name LOBBY) t ;;
         rumorRoomJoin targetUsername (Room.name LOBBY) roomName ;;
         socket ← getSocket t;
         pushLobbyTo socket)
  end.

Definition process_room_kick (packet : Packet.t) (l : loc) (response : Packet.t) : M Packet.t :=
  auth ← isAuthenticated l;
  if negb auth then mret (answer ERROR "not authenticated" response)
  else
    try_catch
      (roomName ← or_current (Packet.room packet) l;
       let targetUsername := Packet.message packet in
       u ← getUser l;
       if is_empty roomName || is_empty targetUsername
       then mret (answer ERROR "missing room or username" response)
       else if String.eqb roomName (Room.name LOBBY)
       then mret (answer ERROR "cannot kick from Lobby" response)
       else if String.eqb targetUsername (User.username u)
       then mret (answer ERROR "cannot kick yourself" response)
       else
         found ← getRoom roomName;
         match found with
         | None => mret (answer NOT_FOUND ("unknown room: " +:+ roomName) response)
         | Some r =>
             allowed ← may_manage r l;
             if negb allowed
             then mret (denyForbidden response "only the room creator or an admin can kick")
             else
               target ← db_do (DatabaseManager.getUser targetUsername);
               match target with
               | None => mret (answer NOT_FOUND ("unknown user: " +:+ targetUsername) response)
               | Some target =>
                   db_do (removeFromAllowList (Room.id r) (User.email target)) ;;
                   kick_local targetUsername roomName ;;
                   rumorRoomKick targetUsername roomName ;;
                   mret (answer SUCCESS ("kicked " +:+ targetUsername)
                           (Packet.set_room roomName response))
               end
         end)
      (constraint_or "kick failed" response).

Definition process_load_history (packet : Packet.t) (l : loc) (response : Packet.t) : M Packet.t :=
  try_catch
    (roomName ← or_current (Packet.room packet) l;
     found ← getRoom roomName;
     match found with
     | None => mret (answer NOT_FOUND ("unknown room: " +:+ roomName) response)
     | Some r =>
         history ← db_do (loadHistory (Room.id r));
         mret (answer SUCCESS (encodeHistory history) (Packet.set_room roomName response))
     end)
    (λ e, mret (answer INTERNAL_SERVER_ERROR ("load history failed: " +:+ exn_what e) response)).

Definition process_update_user (packet : Packet.t) (l : loc) (response : Packet.t) : M Packet.t :=
  auth ← isAuthenticated l;
  if negb auth then mret (answer ERROR "not authenticated" response)
  else
    try_catch
      (u ← getUser l;
       let newUsername := Packet.sender packet in
       let newPassword := Packet.message packet in
       let email := Packet.room packet in
       if is_empty newUsername || is_empty email
       then mret (answer ERROR "missing username or email" response)
       else
         updated ← db_do (updateUser (User.username u) newUsername newPassword email);
         setUser l updated ;;
         mret (answer SUCCESS (User.serialize updated) response))
      (λ e, mret (answer ERROR (exn_what e) response)).

Definition process_unknown (response : Packet.t) : M Packet.t :=
  mret (answer ERROR "unknown packet type" response).

(** the response before the switch: the packet itself, stamped and turned around *)
Definition prepare (packet : Packet.t) : M Packet.t :=
  now ← time_now;
  mret (Packet.set_receiver (Packet.sender packet)
          (Packet.set_sender "server" (Packet.set_timestamp (u64 now) packet))).

Definition processPacket (packet : Packet.t) (l : loc) : M Packet.t :=
  response ← prepare packet;
  match Packet.type packet with
  | HEARTBEAT => process_heartbeat response
  | GOSSIP_HELLO | GOSSIP_EVENT | GOSSIP_DIGEST | GOSSIP_PULL => process_unsupported response
  | ROOM_LIST | SERVER_DIRECTORY => process_unsupported response
  | LOGIN => process_login packet l response
  | RECONNECT => process_reconnect packet l response
  | REGISTER => process_register packet l response
  | LOGOUT => process_logout l response
  | MESSAGE => process_message packet l response
  | ROOM_JOIN => process_room_join packet l response
  | ROOM_LEAVE => process_room_leave l response
  | ROOM_CREATE => process_room_create packet l response
  | ROOM_INVITE => process_room_invite packet l response
  | ROOM_DELETE => process_room_delete packet l response
  | ROOM_KICK => process_room_kick packet l response
  | LOAD_MESSAGE_HISTORY => process_load_history packet l response
  | UPDATE_USER => process_update_user packet l response
  | DEFAULT => process_unknown response
  end.

End with_env.

(** * Lemmas *)

(** ** Room coherence is kept by every case *)

Section invariant.
Context {env : ServerEnv}.
Hypothesis no_failure : ∀ n, env_db n = None.

Lemma rumorEvent_inv T t u c f r : preserves (inv T T ∅) (rumorEvent t u c f r).
Proof using no_failure.
  pose proof (rumor_inv no_failure T). unfold rumorEvent, makeEventId, connections_rumor. solve_pres.
Qed.
Hint Resolve rumorEvent_inv : pres.
Lemma rumorPresence_inv T k u : preserves (inv T T ∅) (rumorPresence k u).
Proof using no_failure. unfold rumorPresence. solve_pres. Qed.
Lemma rumorMessage_inv T u c r : preserves (inv T T ∅) (rumorMessage u c r).
Proof using no_failure. unfold rumorMessage. solve_pres. Qed.
Lemma encodeRoomDirectory_inv T S ov : preserves (inv T S ov) encodeRoomDirectory.
Proof. unfold encodeRoomDirectory, listRooms. solve_pres. Qed.
Lemma pushRoomDirectory_inv T S ov k : preserves (inv T S ov) (pushRoomDirectory k).
Proof. pose proof encodeRoomDirectory_inv. unfold pushRoomDirectory. solve_pres. Qed.
Lemma pushLobbyTo_inv T S ov k : preserves (inv T S ov) (pushLobbyTo k).
Proof. pose proof encodeRoomDirectory_inv. unfold pushLobbyTo. solve_pres. Qed.
Lemma refresh_inv T S ov s : preserves (inv T S ov) (refreshServerDirectory s).
Proof. unfold refreshServerDirectory, buildServerDirectory. solve_pres. Qed.
Lemma isAdmin_inv T S ov l : preserves (inv T S ov) (isAdmin l).
Proof. unfold isAdmin, isAuthenticated, getUser. solve_pres. Qed.
Lemma may_manage_inv T S ov r l : preserves (inv T S ov) (may_manage r l).
Proof. pose proof isAdmin_inv. unfold may_manage, getUser. solve_pres. Qed.
Hint Resolve rumorPresence_inv rumorMessage_inv encodeRoomDirectory_inv pushRoomDirectory_inv
  pushLobbyTo_inv refresh_inv isAdmin_inv may_manage_inv : pres.

(** a session found by name is one of the map *)
Lemma with_found {A} T u (f : option loc → M A) :
  (∀ t, (∀ l, t = Some l → ∃ s, T !! s = Some l) → preserves (inv T T ∅) (f t)) →
  preserves (inv T T ∅) (findSessionByUsername u ≫= f).
Proof.
  intros Hf w Hw. refine (Hf _ _ w Hw). destruct Hw as (_ & <- & _). intros l Hl.
  destruct (list_find _ _) as [[i [s l']]|] eqn:E; simplify_eq/=.
  apply list_find_Some in E as (E & _). apply list_elem_of_lookup_2, elem_of_map_to_list in E. eauto.
Qed.

Lemma kick_local_inv T u n : preserves (inv T T ∅) (kick_local u n).
Proof using no_failure.
  unfold kick_local. apply with_found. intros [l|] Hl; [|pres_step].
  destruct (Hl l eq_refl) as [s Hs]. unfold getRoomOf, rumorRoomJoin, getSocket. solve_pres.
Qed.

Context (T : gmap Z loc) (s : Z) (l : loc) (Hl : T !! s = Some l).

Lemma enter_as_inv u p r : preserves (inv T T ∅) (enter_as u p l r).
Proof using no_failure Hl. unfold enter_as, rumorRoomJoin, getSocket. solve_pres. Qed.
Lemma resume_room_inv u n : preserves (inv T T ∅) (resume_room u n l).
Proof using no_failure Hl.
  unfold resume_room, private_blocked, getRoom. solve_pres.
Qed.
Lemma process_logout_inv r : preserves (inv T T ∅) (process_logout l r).
Proof using no_failure Hl.
  unfold process_logout, isAuthenticated, getUser. pres_step; [pres_step|intros b].
  pres_step; [pres_step|intros u]. cbv zeta. set (k := when _ _ ;; _).
  assert (preserves (inv T T ∅) k) as Hk by (unfold k; solve_pres). clearbody k.
  pose proof (relocate T s l (setAuthenticated l false ;; anon ← anonymousUser; setUser l anon) k Hl
    ltac:(intros; solve_pres) Hk
    ltac:(unfold setAuthenticated, anonymousUser, next_read, setUser; intros ?; by eexists)) as Hr.
  intros w Hw. specialize (Hr w Hw). unfold run_state, mbind, SE_bind in *.
  destruct (leaveAll l w) as [[[]|] w1]; [|done]. destruct (setAuthenticated l false w1) as [[[]|] w2]; [|done].
  destruct (anonymousUser w2) as [[u1|] w3]; [|done]. exact Hr.
Qed.

Lemma processPacket_inv p : preserves (inv T T ∅) (processPacket p l).
Proof using no_failure Hl.
  pose proof enter_as_inv. pose proof resume_room_inv. pose proof process_logout_inv.
  pose proof (kick_local_inv T). pose proof (createRoom_inv no_failure T T ∅).
  pose proof (deleteRoom_inv no_failure T). pose proof (safe_updateUser no_failure).
  unfold processPacket, prepare. pres_step; [solve_pres|intros r].
  destruct (Packet.type p);
    unfold process_heartbeat, process_unsupported, process_unknown, process_login, process_register,
      process_reconnect, process_message, process_room_join, process_room_leave, process_room_create,
      process_room_invite, process_room_delete, process_room_kick, process_load_history,
      process_update_user, constraint_or, or_current, owner_live, getRoom, getRoomOf, getUser,
      isAuthenticated, hasSession, connections_isNodeLive, isNodeLive, rumorUserCreated, rumorRoomJoin, rumorRoomCreated,
      rumorAclAdd, rumorRoomKick, rumorRoomDeleted, getSocket; cbv zeta; solve_pres.
Qed.
End invariant.

(** ** The shape of the answers *)

Definition response_codes : list Z := [SUCCESS; ERROR; FORBIDDEN; NOT_FOUND; INTERNAL_SERVER_ERROR].
(** turned around and stamped, the type still the request's *)
Definition prepared (packet response : Packet.t) : Prop :=
  Packet.sender response = "server" ∧ Packet.receiver response = Packet.sender packet ∧
  Packet.type response = Packet.type packet ∧ in_u64 (Packet.timestamp response).
Definition envelope (packet response : Packet.t) : Prop :=
  prepared packet response ∧ Packet.responseCode response ∈ response_codes.

Lemma envelope_answer p r c m : prepared p r → c ∈ response_codes → envelope p (answer c m r).
Proof. by intros (? & ? & ? & ?) Hc. Qed.
Lemma envelope_room p r x : envelope p r → envelope p (Packet.set_room x r).
Proof. by intros ((? & ? & ? & ?) & Hc). Qed.
Lemma prepared_room p r x : prepared p r → prepared p (Packet.set_room x r).
Proof. by intros (? & ? & ? & ?). Qed.
Lemma codes_mem c : existsb (Z.eqb c) response_codes = true → c ∈ response_codes.
Proof.
  intros (x & Hx & Heq)%existsb_exists. apply Z.eqb_eq in Heq as ->. by apply list_elem_of_In.
Qed.

Ltac solve_envelope :=
  unfold denyForbidden;
  repeat first [apply envelope_room | match goal with |- envelope _ (match ?e with _ => _ end) => destruct e end
               | apply envelope_answer; [repeat apply prepared_room; assumption|by apply codes_mem]].

Section answers.
Context {env : ServerEnv} (packet : Packet.t) (l : loc) (response : Packet.t)
  (Hr : prepared packet response).

Lemma answer_login : always (process_login packet l response) (envelope packet).
Proof using Hr. unfold process_login, enter_as. solve_result; solve_envelope. Qed.
Lemma answer_reconnect : always (process_reconnect packet l response) (envelope packet).
Proof using Hr. unfold process_reconnect. solve_result; solve_envelope. Qed.
Lemma answer_register : always (process_register packet l response) (envelope packet).
Proof using Hr. unfold process_register, enter_as. solve_result; solve_envelope. Qed.
Lemma answer_logout : yields (process_logout l response) (envelope packet).
Proof using Hr. unfold process_logout. solve_result; solve_envelope. Qed.
Lemma answer_message : always (process_message packet l response) (envelope packet).
Proof using Hr. unfold process_message. solve_result; solve_envelope. Qed.
Lemma answer_room_join : always (process_room_join packet l response) (envelope packet).
Proof using Hr. unfold process_room_join. solve_result; solve_envelope. Qed.
Lemma answer_room_leave : always (process_room_leave l response) (envelope packet).
Proof using Hr. unfold process_room_leave. solve_result; solve_envelope. Qed.
Lemma answer_room_create : always (process_room_create packet l response) (envelope packet).
Proof using Hr. unfold process_room_create, isAuthenticated. solve_result; solve_envelope. Qed.
Lemma answer_room_invite : always (process_room_invite packet l response) (envelope packet).
Proof using Hr. unfold process_room_invite, isAuthenticated, constraint_or. solve_result; solve_envelope. Qed.
Lemma answer_room_delete : always (process_room_delete packet l response) (envelope packet).
Proof using Hr. unfold process_room_delete, isAdmin, isAuthenticated, getUser. solve_result; solve_envelope. Qed.
Lemma answer_room_kick : always (process_room_kick packet l response) (envelope packet).
Proof using Hr. unfold process_room_kick, isAuthenticated, constraint_or. solve_result; solve_envelope. Qed.
Lemma answer_load_history : always (process_load_history packet l response) (envelope packet).
Proof using Hr. unfold process_load_history. solve_result; solve_envelope. Qed.
Lemma answer_update_user : always (process_update_user packet l response) (envelope packet).
Proof using Hr. unfold process_update_user, isAuthenticated. solve_result; solve_envelope. Qed.
End answers.

(** ** Event identifiers *)

Lemma event_id_inj {env : ServerEnv} k u t n k' u' t' n' :
  (0 <= n)%Z → (0 <= n')%Z → event_id k u t n = event_id k' u' t' n' → n = n'.
Proof.
  intros Hn Hn'. unfold event_id. intros H. apply to_string_inj.
  apply (last_piece_inj "-" (NODE_ID +:+ "-" +:+ k +:+ "-" +:+ u +:+ "-" +:+ to_string t)
    (NODE_ID +:+ "-" +:+ k' +:+ "-" +:+ u' +:+ "-" +:+ to_string t')).
  - by apply digits_neq, to_string_nonneg.
  - by apply digits_neq, to_string_nonneg.
  - rewrite !str_app_assoc. exact H.
Qed.

(** * Theorems *)

(** C11. Every request gets one answer: whatever the packet, the session and the state of
    the server, storage failures included, processing it lets no exception out, except
    possibly for LOGOUT, and the answer comes from the server, is addressed to the name the
    request carried, keeps its type, is stamped with the clock, and carries one of the five
    documented response codes. *)
Theorem every_request_answered {env : ServerEnv} packet l w :
  match processPacket packet l w with
  | (Ok response, _) => envelope packet response
  | (Throw _, _) => Packet.type packet = LOGOUT
  end.
Proof.
  unfold processPacket, mbind, SE_bind. unfold prepare, time_now, mbind, SE_bind, next_read. cbn [mret SE_ret].
  set (w1 := set_reads _ w). set (response := Packet.set_receiver _ _).
  assert (prepared packet response) as Hr.
  { split_and!; [done..|]. unfold response, in_u64, u64. cbn. apply Z.mod_pos_bound. lia. }
  assert (∀ m : M Packet.t, always m (envelope packet) →
    match m w1 with
    | (Ok response, _) => envelope packet response
    | (Throw _, _) => Packet.type packet = LOGOUT
    end) as Halways.
  { intros m Hm. destruct (Hm w1) as (a & Ha & HQ). unfold run_out in Ha.
    destruct (m w1) as [o w2]. simpl in Ha. by subst o. }
  pose proof (answer_logout packet l response Hr w1) as Hlogout. unfold run_out in Hlogout.
  destruct (Packet.type packet) eqn:Ety;
    try (apply Halways;
         first [by apply answer_login|by apply answer_reconnect|by apply answer_register
               |by apply answer_message|by apply answer_room_join|by apply answer_room_leave
               |by apply answer_room_create|by apply answer_room_invite|by apply answer_room_delete
               |by apply answer_room_kick|by apply answer_load_history|by apply answer_update_user
               |apply always_ret; solve_envelope]).
  destruct (process_logout l response w1) as [[r|e] w2]; [by apply Hlogout|done].
Qed.

(** ** The access policy *)

Definition is_admin (o : ClientSession) : bool :=
  authenticated o && match User.user_type (user o) with User.ADMIN => true | _ => false end.

(** what is refused whatever the tables say: the code of the refusal *)
Definition refused (o : ClientSession) (t : PacketType) : option Z :=
  match t with
  | GOSSIP_HELLO | GOSSIP_EVENT | GOSSIP_DIGEST | GOSSIP_PULL | ROOM_LIST | SERVER_DIRECTORY
  | DEFAULT => Some ERROR
  | ROOM_CREATE | ROOM_INVITE | ROOM_KICK | UPDATE_USER =>
      if authenticated o then None else Some ERROR
  | ROOM_DELETE => if is_admin o then None else Some FORBIDDEN
  | _ => None
  end.

Ltac refusal := eexists; split; [reflexivity|split; [reflexivity|solve_envelope]].

(** C33. What a client may not ask for is refused without effect: gossip and push packets on
    the client port, room management and profile changes from a session that has not logged
    in, room deletion from anyone but an admin.  The answer has the documented code, and the
    state after it is the state before it, but for the one reading of the clock. *)
Theorem refused_without_effect {env : ServerEnv} packet l w code :
  refused (session_at w l) (Packet.type packet) = Some code →
  ∃ response, processPacket packet l w = (Ok response, set_reads (S (reads w)) w) ∧
    Packet.responseCode response = code ∧ envelope packet response.
Proof.
  intros Href. unfold processPacket, mbind, SE_bind. unfold prepare, time_now, mbind, SE_bind, next_read.
  cbn [mret SE_ret]. set (w1 := set_reads _ w). set (response := Packet.set_receiver _ _).
  assert (prepared packet response) as Hr.
  { split_and!; [done..|]. unfold response, in_u64, u64. cbn. apply Z.mod_pos_bound. lia. }
  assert (session_at w1 l = session_at w l) as Hat by done.
  unfold refused, is_admin in Href. rewrite <-Hat in Href.
  destruct (Packet.type packet); try done; simplify_eq; try refusal;
    unfold process_room_create, process_room_invite, process_room_kick, process_update_user,
      process_room_delete, isAdmin, isAuthenticated, getUser, gets, mbind, SE_bind;
    destruct (authenticated (session_at w1 l)); cbn [negb andb] in *; simplify_eq; try refusal.
  all: destruct (User.user_type (user (session_at w1 l))); simplify_eq; refusal.
Qed.

(** may this session manage the room, invite to it and kick from it *)
Definition manages (o : ClientSession) (r : Room.t) (tables : Db) : Prop :=
  is_admin o = true ∨ creator_of (Room.id r) (User.email (user o)) tables.

(** nothing but the clock and the statement counter moved *)
Definition untouched (w w' : World) : Prop :=
  ∃ d, w' = set_db d (set_reads (S (reads w)) w) ∧ (d = db w ∨ d = next_statement (db w)).

Lemma untouched_same w : untouched w (set_reads (S (reads w)) w).
Proof. exists (db w). split; [by destruct w|by left]. Qed.

Section managers.
Context {env : ServerEnv}.

Lemma isAdmin_run l w : isAdmin l w = (Ok (is_admin (session_at w l)), w).
Proof.
  unfold isAdmin, is_admin, isAuthenticated, getUser, gets, mbind, SE_bind.
  by destruct (authenticated (session_at w l)).
Qed.
Lemma may_manage_run r l w :
  ¬ manages (session_at w l) r (db w) →
  ∃ o w', may_manage r l w = (o, w') ∧ (∀ b, o = Ok b → b = false) ∧
    w' = set_db (next_statement (db w)) w.
Proof.
  intros Hno. unfold may_manage, mbind, SE_bind. rewrite isAdmin_run.
  destruct (is_admin (session_at w l)) eqn:Ha; [by destruct Hno; left|].
  unfold getUser, gets, db_do, zoom.
  destruct (isCreator_cases (Room.id r) (User.email (user (session_at w l))) (db w)) as (o & -> & Ho).
  exists o, (set_db (next_statement (db w)) w). split_and!; [done| |done]. intros b ->.
  rewrite Ho. apply bool_decide_eq_false_2. intros Hc. by apply Hno; right.
Qed.

(** the name a request refers to *)
Definition target_room (packet : Packet.t) (o : ClientSession) : string :=
  if is_empty (Packet.room packet) then Room.name (room o) else Packet.room packet.
End managers.

(** a branch that answers with one of the failure codes *)
Definition failure_codes : list Z := [ERROR; FORBIDDEN; NOT_FOUND; INTERNAL_SERVER_ERROR].
Ltac failed :=
  eexists _, _; split; [reflexivity|split; [assumption|by apply (bool_decide_unpack _); vm_compute]].

(** C13. Only an admin or the recorded creator of a room invites to it and kicks from it: a
    request of a logged-in session that is neither is answered with one of the failure
    codes, and changes nothing, the allow lists, the members and the network included. *)
Theorem room_managers_only {env : ServerEnv} packet l w :
  Packet.type packet = ROOM_INVITE ∨ Packet.type packet = ROOM_KICK →
  let o := session_at w l in
  authenticated o = true →
  (∀ r, knownRooms w !! target_room packet o = Some r → ¬ manages o r (db w)) →
  ∃ response w', processPacket packet l w = (Ok response, w') ∧ untouched w w' ∧
    Packet.responseCode response ∈ failure_codes.
Proof.
  intros Hty o Hauth Hno. unfold processPacket, mbind at 1, SE_bind at 1.
  unfold prepare, time_now, mbind, SE_bind, next_read. cbn [mret SE_ret].
  set (w1 := set_reads _ w). set (response := Packet.set_receiver _ _).
  assert (untouched w w1) as Hsame by apply untouched_same.
  assert (∀ r, knownRooms w1 !! target_room packet o = Some r → ∃ c w', may_manage r l w1 = (c, w') ∧
    (∀ b, c = Ok b → b = false) ∧ untouched w w') as Hmanage.
  { intros r Hr. destruct (may_manage_run r l w1 (Hno r Hr)) as (c & w' & Hrun & Hc & ->).
    exists c, (set_db (next_statement (db w1)) w1). split_and!; [done|done|].
    exists (next_statement (db w)). split; [done|by right]. }
  set (n := target_room packet o) in *.
  destruct Hty as [Hty|Hty]; rewrite Hty; unfold process_room_invite, process_room_kick,
    isAuthenticated, or_current, getRoomOf, getUser, getRoom, try_catch, mbind, SE_bind, gets, mret, SE_ret;
    cbv beta iota; change (session_at w1 l) with o; rewrite Hauth; cbn [negb];
    cbv beta iota; change (session_at w1 l) with o;
    change (if is_empty (Packet.room packet) then Room.name (room o) else Packet.room packet) with n;
    destruct (is_empty n) eqn:En; cbn [orb]; [failed| |failed|].
  - destruct (is_empty (Packet.message packet)); [failed|].
    destruct (knownRooms w1 !! n) as [r|] eqn:Hr; [|failed]. rewrite isAdmin_run.
    destruct (_ && _); [failed|]. destruct (Hmanage r eq_refl) as (c & w' & -> & Hc & Hw').
    destruct c as [b|e]; [rewrite (Hc b eq_refl); failed|]. destruct e; failed.
  - destruct (is_empty (Packet.message packet)); [failed|].
    destruct (String.eqb n (Room.name LOBBY)); [failed|].
    destruct (String.eqb (Packet.message packet) (User.username (user o))); [failed|].
    destruct (knownRooms w1 !! n) as [r|] eqn:Hr; [|failed].
    destruct (Hmanage r eq_refl) as (c & w' & -> & Hc & Hw').
    destruct c as [b|e]; [rewrite (Hc b eq_refl); failed|]. destruct e; failed.
Qed.

(** ** Where a session may end up *)

(** every known room is known by its name *)
Definition keyed (w : World) : Prop := ∀ n r, knownRooms w !! n = Some r → Room.name r = n.
(** the session is in the room [n] or in the Lobby *)
Definition near (n : string) (r : Room.t) : Prop := Room.name r = n ∨ Room.name r = Room.name LOBBY.
Definition kept_near (l : loc) (n : string) (w : World) : Prop := keyed w ∧ near n (room (session_at w l)).

Lemma placed_frame l n w w' :
  heap w' = heap w → knownRooms w' = knownRooms w → kept_near l n w → kept_near l n w'.
Proof. unfold kept_near, keyed, session_at. by intros -> ->. Qed.
Lemma quiet_placed l n : quiet (kept_near l n).
Proof. by intros w k t Hw. Qed.
Lemma db_do_placed {env : ServerEnv} {A} l n (m : SE Db A) : preserves (kept_near l n) (db_do m).
Proof. intros w Hw. unfold run_state, db_do, zoom. by destruct (m (db w)). Qed.
Lemma placed_update l n l' f w :
  (∀ o, near n (room o) → near n (room (f o))) → kept_near l n w → kept_near l n (update_session l' f w).
Proof.
  intros Hf [Hk Hn]. split; [done|]. rewrite session_at_update. case_decide as Hd; [|done]. subst l'.
  unfold session_at in Hn. destruct (heap w !! l); [by apply Hf|done].
Qed.
Lemma placed_known l n w k :
  (∀ m r, k !! m = Some r → Room.name r = m) → kept_near l n w → kept_near l n (set_knownRooms k w).
Proof. by intros Hk [_ Hn]. Qed.
#[export] Hint Resolve quiet_placed db_do_placed : pres.
#[export] Hint Extern 5 (preserves (kept_near _ _) (modify _)) =>
  apply preserves_modify; intros ? ?;
  first [eapply placed_frame; [..|eassumption]; reflexivity
        |apply placed_update; [by intros []|done]] : pres.

Section placing.
Context {env : ServerEnv} (l : loc) (n : string).
Notation P := (kept_near l n).

Lemma setRoom_placed l' r : l' ≠ l ∨ near n r → preserves P (setRoom l' r).
Proof.
  intros Hr. apply preserves_modify. intros w Hw. destruct Hr as [Hne|Hr]; [|by apply placed_update].
  destruct Hw as [Hk Hn]. split; [done|]. rewrite session_at_update. by rewrite decide_False.
Qed.
Lemma removeSocketLocked_placed s m : preserves P (removeSocketLocked s m).
Proof. unfold removeSocketLocked. solve_pres. Qed.
Lemma insert_member_placed m s : preserves P (insert_member m s).
Proof. unfold insert_member. solve_pres. Qed.
Hint Resolve removeSocketLocked_placed insert_member_placed : pres.
(** a known room found under a name, when the session may be in a room of that name *)
Lemma with_known {B} m (k : option Room.t → M B) l' :
  l' ≠ l ∨ m = n ∨ m = Room.name LOBBY →
  (∀ o, (∀ r, o = Some r → l' ≠ l ∨ near n r) → preserves P (k o)) →
  preserves P (o ← gets (λ w, knownRooms w !! m); k o).
Proof.
  intros Hm Hk w Hw. change (P (run_state (k (knownRooms w !! m)) w)). eapply Hk; [|exact Hw]. intros r Hr.
  destruct Hm as [?|Hm]; [by left|]. right. unfold near. by rewrite (proj1 Hw _ _ Hr).
Qed.
Lemma rollback_placed s m p l' :
  l' ≠ l ∨ p = n ∨ p = Room.name LOBBY → preserves P (rollback_join s m p l').
Proof.
  intros Hp. unfold rollback_join. pres_step; [solve_pres|intros _]. apply (with_known _ _ l' Hp).
  intros [r|] Hr; (pres_step; [apply setRoom_placed|solve_pres]); [by apply Hr|]. right. by right.
Qed.
Lemma join_lobby_placed l' : preserves P (joinRoom (Room.name LOBBY) l').
Proof.
  intros w Hw. set (p := Room.name (room (session_at w l'))).
  assert (l' ≠ l ∨ p = n ∨ p = Room.name LOBBY) as Hp.
  { destruct (decide (l' = l)) as [->|]; [right; apply (proj2 Hw)|by left]. }
  revert w p Hw Hp.
  assert (∀ p r u b s, l' ≠ l ∨ p = n ∨ p = Room.name LOBBY →
    preserves P (found ← gets (λ w, knownRooms w !! Room.name LOBBY);
      match found with
      | None => mret false
      | Some r' => removeSocketLocked s p ;; setRoom l' r' ;; insert_member (Room.name LOBBY) s ;;
          if (b : bool) then
            try_catch (when (negb (r =? Room.id r')%Z) (db_do (clearMembership u r)) ;;
                       db_do (setMembership u (Room.id r') NODE_ID) ;; mret true)
              (λ _, rollback_join s (Room.name LOBBY) p l' ;; mret false)
          else mret true
      end)) as Hrest.
  { intros p r u b s Hp. apply (with_known _ _ l'); [by right; right|]. intros [r'|] Hr; [|solve_pres].
    pose proof (rollback_placed s (Room.name LOBBY) p l' Hp). pose proof (setRoom_placed l' r' (Hr r' eq_refl)). solve_pres. }
  intros w p Hw Hp. set (o := session_at w l') in *.
  exact (Hrest p (Room.id (room o)) (User.username (user o)) (authenticated o) (clientSocket o) Hp w Hw).
Qed.
Lemma leaveAll_placed l' : preserves P (leaveAll l').
Proof.
  assert (preserves P (setRoom l' LOBBY)) by (apply setRoom_placed; right; by right).
  unfold leaveAll, getRoomOf, getUser, isAuthenticated, getSocket. solve_pres.
Qed.
Lemma createRoom_placed r e : preserves P (createRoom r e).
Proof.
  unfold createRoom. pres_step; [solve_pres|intros [?|]]; [solve_pres|].
  apply preserves_catch; [|intros; solve_pres]. pres_step; [solve_pres|intros c]. pres_step; [|solve_pres].
  apply preserves_modify. intros w Hw. apply placed_known; [|done]. intros m r'. unfold emplace_room.
  destruct (knownRooms w !! Room.name c) eqn:E; [apply (proj1 Hw)|].
  intros [[<- <-]|[_ Hr]]%lookup_insert_Some; [done|by apply (proj1 Hw)].
Qed.
Lemma deleteRoom_placed m : preserves P (deleteRoom m).
Proof.
  assert (∀ i f s, preserves P (move_to_lobby i f s)) as Hmove.
  { intros i f s. unfold move_to_lobby, isAuthenticated, getUser. destruct (f !! s) as [l'|]; [|solve_pres].
    assert (preserves P (setRoom l' LOBBY)) by (apply setRoom_placed; right; by right). solve_pres. }
  unfold deleteRoom, listRooms. destruct (_ || _); [solve_pres|]. pres_step; [solve_pres|intros [r|]]; [|solve_pres].
  cbv zeta. do 2 (pres_step; [solve_pres|intros ?]). pres_step; [|solve_pres].
  apply preserves_modify. intros w Hw. apply placed_known; [|done]. intros k r' [_ Hr]%lookup_delete_Some.
  by apply (proj1 Hw).
Qed.
Hint Resolve join_lobby_placed leaveAll_placed createRoom_placed deleteRoom_placed : pres.
Lemma applyEvent_placed e : preserves P (applyEvent e).
Proof.
  unfold applyEvent, apply_login, apply_reconnect, apply_logout, apply_user_created,
    apply_room_created, apply_acl_add, apply_room_deleted, apply_room_kick, apply_room_join,
    apply_room_leave, apply_message, detach_session, expel_session, push_rooms, listRooms, getRoom,
    getSessions, isAuthenticated, getUser, getRoomOf, setAuthenticated, setUser. solve_pres.
Qed.
Lemma rumorEvent_placed t u c f r : preserves P (rumorEvent t u c f r).
Proof.
  pose proof applyEvent_placed. unfold rumorEvent, makeEventId, connections_rumor, rumor, remember, peerSend.
  cbv zeta. solve_pres.
Qed.
End placing.
#[export] Hint Resolve rumorEvent_placed join_lobby_placed : pres.

(** ** Resuming a session *)

Section resuming.
Context {env : ServerEnv} (packet : Packet.t) (l : loc) (response : Packet.t) (n : string) (r : Room.t).
Hypothesis private_room : Room.privacy r = Room.PRIVATE.
Notation asked := (or_lobby (Packet.room packet)).

(** the state while a reconnect is checked: the room and the allow lists are as at its start *)
Definition resuming (d : Db) (w : World) : Prop :=
  kept_near l n w ∧ knownRooms w !! asked = Some r ∧ allow_list (db w) = allow_list d.
Definition resuming_as (d : Db) (u : User.t) (w : World) : Prop :=
  resuming d w ∧ (user (session_at w l) = u ∨ heap w !! l = None).

Definition lists_kept {A} (m : SE Db A) : Prop := ∀ L, preserves (λ d, allow_list d = L) m.
Lemma resuming_db {A} d (m : SE Db A) : lists_kept m → preserves (resuming d) (db_do m).
Proof.
  intros Hm w (Hp & Hk & Ha). specialize (Hm _ (db w) Ha). unfold run_out, run_state, db_do, zoom in *.
  destruct (m (db w)). by split_and!.
Qed.
Lemma resuming_as_db {A} d u (m : SE Db A) : lists_kept m → preserves (resuming_as d u) (db_do m).
Proof.
  intros Hm w [Hw Hu]. pose proof (resuming_db d m Hm w Hw) as H. unfold run_out, run_state, db_do, zoom in *.
  by destruct (m (db w)).
Qed.
Lemma kept_getUser u : lists_kept (DatabaseManager.getUser u).
Proof. intros L. unfold DatabaseManager.getUser. solve_pres; by apply preserves_query. Qed.
Lemma kept_onlineNode u : lists_kept (onlineNode u).
Proof. intros L. unfold onlineNode. solve_pres; by apply preserves_query. Qed.
Lemma kept_claim u b : lists_kept (canClaimPresence u b).
Proof. intros L. unfold canClaimPresence. pose proof (kept_onlineNode u L). solve_pres. Qed.
Lemma kept_setOnline u k : lists_kept (setOnline u k).
Proof.
  intros L. unfold setOnline. pres_step; [|solve_pres]. apply preserves_execute; [done|].
  intros d m d' Hd. unfold sql_set_online. repeat case_match; intros; simplify_eq; done.
Qed.
Lemma kept_moveMembership u k : lists_kept (moveMembership u k).
Proof.
  intros L. unfold moveMembership. pres_step; [|solve_pres]. apply preserves_execute; [done|].
  intros d m d' Hd. unfold sql_move_membership. repeat case_match; intros; simplify_eq; done.
Qed.
Hint Resolve resuming_db resuming_as_db kept_getUser kept_onlineNode kept_claim kept_setOnline
  kept_moveMembership : pres.

Lemma resuming_reads d k w : resuming d w → resuming d (set_reads k w).
Proof. done. Qed.
Lemma setUser_resuming d u : triple (resuming d) (setUser l u) (λ _, resuming_as d u).
Proof.
  intros w (Hp & Hk & Ha). unfold run_state, setUser, modify. cbn [snd]. split.
  - split_and!; [|done|done]. by apply placed_update; [intros []|].
  - rewrite session_at_update. rewrite decide_True by done. unfold update_session. cbn [heap set_heap].
    rewrite lookup_alter_eq. destruct (heap w !! l) as [o|]; [by left|by right].
Qed.
Lemma setAuthenticated_resuming d u : preserves (resuming_as d u) (setAuthenticated l true).
Proof.
  intros w [(Hp & Hk & Ha) Hu]. unfold run_state, setAuthenticated, modify. cbn [snd]. split.
  - split_and!; [|done|done]. by apply placed_update; [intros []|].
  - rewrite session_at_update. rewrite decide_True by done. unfold update_session. cbn [heap set_heap].
    rewrite lookup_alter_eq. unfold session_at in Hu. destruct (heap w !! l) as [o|]; [left; cbn|by right].
    by destruct Hu.
Qed.

(** a user kept out of the room goes to the Lobby, or nowhere *)
Lemma resume_room_placed d u :
  User.user_type u ≠ User.ADMIN → ¬ on_list (Room.id r) (User.email u) d →
  triple (resuming_as d u) (resume_room u asked l) (λ _, kept_near l n).
Proof using private_room.
  intros Hu Hno w [(Hw & Hr & Ha) Hs].
  assert ((if is_empty asked then Room.name LOBBY else asked) = asked) as Hn.
  { unfold or_lobby. by destruct (is_empty (Packet.room packet)) eqn:E; [|rewrite E]. }
  assert (is_admin (session_at w l) = false) as Hadm.
  { destruct Hs as [Hs|Hs]; [|unfold session_at; by rewrite Hs]. unfold is_admin. rewrite Hs.
    destruct (authenticated _); [|done]. by destruct (User.user_type u). }
  unfold run_out, run_state, resume_room, private_blocked, getRoom, mbind, SE_bind, gets, mret, SE_ret.
  cbv beta iota. rewrite Hn, Hr, private_room, isAdmin_run, Hadm. unfold db_do, zoom.
  destruct (isAllowed_cases (Room.id r) (User.email u) (db w)) as (c & -> & Hc).
  destruct c as [b|e]; [|exact Hw]. rewrite Hc, bool_decide_eq_false_2 by (unfold on_list; by rewrite Ha).
  cbn [negb].
  assert (preserves (kept_near l n) (joinRoom (Room.name LOBBY) l ;; mret (Room.name LOBBY))) as Hj by solve_pres.
  exact (Hj (set_db (next_statement (db w)) w) Hw).
Qed.

Lemma reconnect_placed w :
  kept_near l n w → knownRooms w !! asked = Some r →
  (∀ u, run_out (DatabaseManager.getUser (Packet.sender packet)) (db w) = Ok (Some u) →
     User.user_type u ≠ User.ADMIN ∧ ¬ on_list (Room.id r) (User.email u) (db w)) →
  kept_near l n (run_state (process_reconnect packet l response) w).
Proof using private_room.
  intros Hw Hr Hnobody.
  enough (triple (eq w) (process_reconnect packet l response) (λ _, kept_near l n)) as H by exact (H w eq_refl).
  unfold process_reconnect. apply (triple_catch _ (kept_near l n)); [|intros e; apply preserves_ret].
  apply (triple_bind _ _ _ (λ o w', resuming (db w) w' ∧
    ∀ u, o = Ok (Some u) → User.user_type u ≠ User.ADMIN ∧ ¬ on_list (Room.id r) (User.email u) (db w))).
  { intros ? <-. split.
    - apply (resuming_db (db w)); [apply kept_getUser|by split_and!].
    - unfold run_out, db_do, zoom in *. destruct (DatabaseManager.getUser _ _). cbn in *. naive_solver. }
  2: by intros e w' [[? _] _].
  intros [u|]; [|by intros w' [[? _] _]].
  assert (∀ w', resuming (db w) w' → kept_near l n w') as Hres by (by intros w' [? _]).
  intros w' [Hw' Hu]. revert w' Hw'. destruct (Hu u eq_refl) as [Hu1 Hu2]. cbv zeta.
  apply triple_step; [done|solve_pres|intros node]. destruct node as [node|]; [|by intros w' [? _]].
  apply triple_step; [done|unfold owner_live, hasSession, connections_isNodeLive, isNodeLive; solve_pres|intros live].
  apply triple_step; [done|unfold hasSession; solve_pres|intros here].
  apply triple_step; [done|solve_pres|intros refused]. destruct refused; [by intros w' [? _]|].
  apply triple_step; [done|unfold getRoomOf; solve_pres|intros prev].
  apply (triple_bind _ _ _ (λ _, resuming_as (db w) u)); [| |by intros e w' [[? _] _]].
  { apply setUser_resuming. }
  intros []. apply triple_step; [by intros w' [[? _] _]|apply setAuthenticated_resuming|intros _].
  do 2 (apply triple_step; [by intros w' [[? _] _]|solve_pres|intros _]).
  apply (triple_bind _ _ _ (λ _, kept_near l n)); [by apply resume_room_placed| |done].
  intros joined. match goal with |- triple ?I ?m _ => change (preserves I m) end.
  unfold getRoom, rumorPresence, rumorRoomJoin, encodeRoomDirectory, listRooms, getSocket,
    refreshServerDirectory, buildServerDirectory. solve_pres.
Qed.
End resuming.

(** may this session enter the room *)
Definition admitted (o : ClientSession) (r : Room.t) (tables : Db) : Prop :=
  Room.privacy r = Room.PUBLIC ∨ is_admin o = true ∨
  authenticated o = true ∧ on_list (Room.id r) (User.email (user o)) tables.

(** C12. A private room is closed to whoever is neither an admin nor on its allow list.  A
    request to join it by such a session is answered with an error and changes nothing.  A
    reconnect that asks for it, by the name of a user who is neither, ends with the session
    in the Lobby or in the room it was in before, whatever happens on the way, failures of
    the storage included. *)
Theorem private_rooms_closed {env : ServerEnv} packet l w r :
  knownRooms w !! or_lobby (Packet.room packet) = Some r → Room.privacy r = Room.PRIVATE →
  (Packet.type packet = ROOM_JOIN → ¬ admitted (session_at w l) r (db w) →
   ∃ response w', processPacket packet l w = (Ok response, w') ∧ untouched w w' ∧
     Packet.responseCode response ∈ failure_codes) ∧
  (Packet.type packet = RECONNECT → keyed w →
   (∀ u, run_out (DatabaseManager.getUser (Packet.sender packet)) (db w) = Ok (Some u) →
      User.user_type u ≠ User.ADMIN ∧ ¬ on_list (Room.id r) (User.email u) (db w)) →
   let before := Room.name (room (session_at w l)) in
   let after := Room.name (room (session_at (run_state (processPacket packet l) w) l)) in
   after = before ∨ after = Room.name LOBBY).
Proof.
  intros Hr Hpriv. set (n := or_lobby (Packet.room packet)) in *.
  assert ((if is_empty n then Room.name LOBBY else n) = n) as Hn.
  { unfold n, or_lobby. by destruct (is_empty (Packet.room packet)) eqn:E; [|rewrite E]. }
  split.
  - intros Hty Hno. set (o := session_at w l) in *.
    assert (is_admin o = false) as Hadm.
    { destruct (is_admin o) eqn:E; [|done]. destruct Hno. by right; left. }
    unfold processPacket, mbind at 1, SE_bind at 1. rewrite Hty.
    unfold prepare, time_now, mbind at 1 2, SE_bind at 1 2, next_read. cbn [mret SE_ret].
    set (w1 := set_reads _ w). set (response := Packet.set_receiver _ _).
    assert (untouched w w1) as Hsame by apply untouched_same.
    unfold process_room_join, isAuthenticated, getUser, getRoom, try_catch, mbind, SE_bind, gets, mret, SE_ret.
    cbv beta iota zeta. fold n. rewrite Hn. change (knownRooms w1) with (knownRooms w). rewrite Hr.
    rewrite isAdmin_run. change (session_at w1 l) with o. rewrite Hadm, Hpriv.
    destruct (authenticated o) eqn:Ha; cbn [negb]; [|failed].
    unfold db_do, zoom. change (db w1) with (db w).
    destruct (isAllowed_cases (Room.id r) (User.email (user o)) (db w)) as (c & -> & Hc).
    assert (untouched w (set_db (next_statement (db w)) w1)) as Hw1 by (exists (next_statement (db w)); auto).
    destruct c as [b|e]; [|failed]. rewrite Hc, bool_decide_eq_false_2; [failed|].
    intros Hon. apply Hno. by right; right.
  - intros Hty Hkeyed Hnobody. cbv zeta.
    assert (kept_near l (Room.name (room (session_at w l))) w) as Hw by (split; [done|by left]).
    unfold run_state, processPacket, mbind at 1, SE_bind at 1. rewrite Hty.
    unfold prepare, time_now, mbind at 1 2, SE_bind at 1 2, next_read. cbn [mret SE_ret].
    set (w1 := set_reads _ w). set (response := Packet.set_receiver _ _).
    exact (proj2 (reconnect_placed packet l response _ r Hpriv w1 Hw Hr Hnobody)).
Qed.

(** The identifiers this node gives its events are distinct, whatever the events say:
    each one advances the 64-bit counter, and two identifiers drawn at different values of
    the counter differ, so a name or a kind that contains the separator cannot make one
    event pass for another. *)
Theorem event_ids_distinct {env : ServerEnv} kind user kind' user' w w' :
  ∃ i i' w1 w1', makeEventId kind user w = (Ok i, w1) ∧ makeEventId kind' user' w' = (Ok i', w1') ∧
    nextPresenceSeq w1 = u64 (nextPresenceSeq w + 1) ∧
    nextPresenceSeq w1' = u64 (nextPresenceSeq w' + 1) ∧
    (i = i' → nextPresenceSeq w1 = nextPresenceSeq w1') ∧
    (in_u64 (nextPresenceSeq w) → in_u64 (nextPresenceSeq w') →
     nextPresenceSeq w ≠ nextPresenceSeq w' → i ≠ i').
Proof.
  unfold makeEventId, time_now, next_read, mbind, SE_bind, modify, gets, mret, SE_ret.
  cbn [nextPresenceSeq set_presenceSeq set_reads].
  assert (∀ z, (0 <= u64 z)%Z) as Hpos by (intros z; apply Z.mod_pos_bound; lia).
  do 4 eexists. split_and!; [reflexivity..| |].
  - apply event_id_inj; apply Hpos.
  - unfold in_u64. intros H1 H2 Hne Heq. apply event_id_inj in Heq; [|apply Hpos..]. apply Hne.
    unfold u64 in Heq. Z.div_mod_to_equations. lia.
Qed.

(** ** Witnesses *)

#[local] Existing Instance plain_server.

Lemma refused_without_effect_witness :
  ∃ response, processPacket (Packet.make 5 "user" "" ROOM_DELETE "QA" "" 0) 0 sample_state =
      (Ok response, set_reads 1 sample_state) ∧ Packet.responseCode response = FORBIDDEN.
Proof.
  destruct (refused_without_effect (Packet.make 5 "user" "" ROOM_DELETE "QA" "" 0) 0 sample_state FORBIDDEN
    ltac:(by vm_compute)) as (r & Hrun & Hc & _). exists r. split; [exact Hrun|exact Hc].
Defined.
Lemma room_managers_only_witness :
  ∃ response w', processPacket (Packet.make 5 "user" "" ROOM_KICK "QA" "admin" 0) 0 sample_state =
      (Ok response, w') ∧ untouched sample_state w' ∧ Packet.responseCode response ∈ failure_codes.
Proof.
  apply (room_managers_only (Packet.make 5 "user" "" ROOM_KICK "QA" "admin" 0) 0 sample_state).
  - by right.
  - by vm_compute.
  - intros r Hr. assert (r = QA_ROOM) as ->.
    { vm_compute in Hr. injection Hr as <-. reflexivity. }
    intros [Hadm|Hc]; [vm_compute in Hadm; discriminate|].
    assert (bool_decide (creator_of (Room.id QA_ROOM) "user@example.com" busy) = true) as Hb
      by (apply bool_decide_eq_true_2; exact Hc). vm_compute in Hb. discriminate.
Defined.
(** the user's link was lost and a new one opened: nobody is signed in on it yet *)
Definition link_lost : World := run_state (setAuthenticated 0 false) sample_state.
Definition back_to_QA : Packet.t := Packet.make 5 "user" "" RECONNECT "QA" "" 0.
Example resumes_in_lobby :
  let w' := run_state (processPacket back_to_QA 0) link_lost in
  authenticated (session_at w' 0) = true ∧ Room.name (room (session_at link_lost 0)) = "General" ∧
  Room.name (room (session_at w' 0)) = "Lobby".
Proof. vm_compute. split_and!; reflexivity. Qed.
Lemma private_rooms_closed_witness :
  (∃ response w', processPacket (Packet.make 5 "user" "" ROOM_JOIN "QA" "" 0) 0 sample_state =
      (Ok response, w') ∧ untouched sample_state w' ∧ Packet.responseCode response ∈ failure_codes) ∧
  let after := Room.name (room (session_at (run_state (processPacket back_to_QA 0) link_lost) 0)) in
  after = "General" ∨ after = "Lobby".
Proof.
  assert (¬ on_list (Room.id QA_ROOM) "user@example.com" busy) as Hoff.
  { intros H. assert (bool_decide (on_list (Room.id QA_ROOM) "user@example.com" busy) = true) as Hb
      by (apply bool_decide_eq_true_2; exact H). vm_compute in Hb. discriminate. }
  split.
  - apply (private_rooms_closed (Packet.make 5 "user" "" ROOM_JOIN "QA" "" 0) 0 sample_state QA_ROOM);
      [vm_compute; reflexivity|reflexivity|reflexivity|].
    intros [H|[H|[_ H]]]; [vm_compute in H; discriminate..|exact (Hoff H)].
  - apply (private_rooms_closed back_to_QA 0 link_lost QA_ROOM);
      [vm_compute; reflexivity|reflexivity|reflexivity| |].
    + intros n r Hr. unfold link_lost, sample_state, run_state, setAuthenticated, modify in Hr. cbn [snd knownRooms update_session set_heap] in Hr.
      apply lookup_insert_Some in Hr as [[<- <-]|[_ Hr]]; [reflexivity|].
      apply lookup_insert_Some in Hr as [[<- <-]|[_ Hr]]; [reflexivity|].
      by apply lookup_singleton_Some in Hr as [<- <-].
    + intros u Hu. assert (u = user sample_session) as ->.
      { vm_compute in Hu. injection Hu as <-. reflexivity. }
      split; [discriminate|exact Hoff].
Defined.
