(* ===== verification/ConnectionManager.v ===== *)
(** ConnectionManager (src/server/connection_manager.cpp), the session part of
    WebConnection (src/server/web_connection.cpp) and Heartbeat (src/server/heartbeat.cpp):
    the life of a client connection from accept to removal.

    The theorems: a session is closed at most once and never written to afterwards; a
    heartbeat round leaves every session either pinged and alive or closed; dropping a
    connection takes the socket out of the session map and out of every room. *)
From S2P Require Import Prelude Packet Models Serializer GossipPayload WebFrame DatabaseManager.
From S2P Require Import World RoomManager GossipManager PacketProcessor.
From stdpp Require Import options.

(** * Definitions *)

Section with_env.
Context {env : ServerEnv}.

(** the LOGOUT event of a dropped connection, with its own counter *)
Definition drop_logout (username : string) : M unit :=
  time ← time_now;
  modify (λ w, set_dropSeq (u64 (dropLogoutSeq w + 1)) w) ;;
  seq ← gets dropLogoutSeq;
  ts ← time_now;
  let eventId := event_id "LOGOUT" username time seq in
  let payload := GossipPayload.encode "LOGOUT" eventId username NODE_ID (to_string ts) in
  event ← new_packet NODE_ID "*" GOSSIP_EVENT "" payload 0;
  rumor event.

Definition removeSession (socket : Z) : M unit :=
  found ← gets (λ w, sessions w !! socket);
  match found with
  | None => mret tt
  | Some l =>
      modify (λ w, set_webSockets (webSockets w ∖ {[socket]})
                     (set_sessions (delete socket (sessions w)) w)) ;;
      wasAuth ← isAuthenticated l;
      u ← getUser l;
      let username := User.username u in
      leaveAll l ;;
      if negb wasAuth || is_empty username then mret tt
      else
        present ← gets gossip_set;
        if (present : bool) then drop_logout username
        else
          try_catch (db_do (clearOnline username) ;; db_do (clearAllMembership username))
            (λ _, mret tt)
  end.

Definition releaseClient (socket : Z) : M unit :=
  closeClient socket ;; removeSession socket.

(** what [openSession] does once the socket is in the map *)
Definition greet (fd : Z) (l : loc) (placed : bool) : M bool :=
  if negb placed then releaseClient fd ;; mret false
  else
    rooms ← listRooms;
    let directory := match rooms with [] => [LOBBY; GENERAL] | _ => rooms end in
    u ← getUser l;
    welcome ← new_packet "server" (User.serialize u) ROOM_LIST (Room.name LOBBY)
                (Room.serializeList directory) 0;
    sent ← sendPacket fd welcome;
    if negb sent then releaseClient fd ;; mret false
    else
      present ← gets gossip_set;
      when present (body ← buildServerDirectory; pushServerDirectory body fd) ;;
      mret true.

Definition openSession (fd : Z) : M bool :=
  anon ← anonymousUser;
  l ← new_session fd anon LOBBY;
  addSession fd l ;;
  placed ← joinRoom (Room.name LOBBY) l;
  greet fd l placed.

Definition dispatchPacket (clientSocket : Z) (packet : Packet.t) : M bool :=
  found ← gets (λ w, sessions w !! clientSocket);
  match found with
  | None => mret false
  | Some l =>
      touch l ;;
      if bool_decide (Packet.type packet = HEARTBEAT) && negb (String.eqb (Packet.message packet) "ping")
      then mret true
      else
        response ← processPacket packet l;
        sendPacket clientSocket response
  end.

Definition is_listening : M bool := n ← next_read; mret (env_listening n).

(** the read loop over the packets the socket yields until a read fails *)
Fixpoint handle_loop (clientSocket : Z) (packets : list Packet.t) : M unit :=
  go ← is_listening;
  if negb go then mret tt
  else
    match packets with
    | [] => mret tt
    | packet :: packets =>
        ok ← dispatchPacket clientSocket packet;
        if negb ok then mret tt else handle_loop clientSocket packets
    end.
Definition handleClient (clientSocket : Z) (packets : list Packet.t) : M unit :=
  handle_loop clientSocket packets ;;
  releaseClient clientSocket.

(** the closing loop of [stopListening] *)
Definition close_all : M unit :=
  clientSockets ← gets (λ w, (λ e : Z * loc, clientSocket (session_at w e.2)) <$> map_to_list (sessions w));
  for_each clientSockets closeClient.

(** ** WebConnection::handleBrowser *)

(** the answer to a ping frame, straight to the socket while the session exists *)
Definition answer_ping (browser : Z) (payload : string) : M bool :=
  let pong := encodeFrame Pong payload false 0 in
  found ← gets (λ w, sessions w !! browser);
  match found with
  | None => mret false
  | Some _ => write_bytes browser pong
  end.

(** the frame loop over the frames the socket yields *)
Fixpoint browser_loop (browser : Z) (frames : list FrameDecode) : M unit :=
  go ← is_listening;
  if negb go then mret tt
  else
    match frames with
    | FrameOk _ Ping payload :: frames =>
        ok ← answer_ping browser payload;
        if negb ok then mret tt else browser_loop browser frames
    | FrameOk _ Pong _ :: frames => browser_loop browser frames
    | FrameOk _ Binary payload :: frames =>
        match deserialize payload with
        | None => mret tt
        | Some packet =>
            ok ← dispatchPacket browser packet;
            if negb ok then mret tt else browser_loop browser frames
        end
    | _ => mret tt
    end.

(** [request] is what [readHeaders] returned *)
Definition handleBrowser (browser : Z) (request : option string) (frames : list FrameDecode)
    : M unit :=
  match request with
  | None => close_socket browser
  | Some request =>
      let response := default "" (upgradeResponse request) in
      if is_empty response then close_socket browser
      else
        sent ← write_bytes browser response;
        if negb sent then close_socket browser
        else
          markWebSocket browser ;;
          opened ← openSession browser;
          if negb opened then mret tt
          else browser_loop browser frames ;; releaseClient browser
  end.

(** ** Heartbeat::pingOnce *)

(** one session of the snapshot *)
Definition ping_session (ping : Packet.t) (entry : Z * loc) : M unit :=
  let l := entry.2 in
  c ← isClosed l;
  if (c : bool) then mret tt
  else
    alive ← isAlive l;
    socket ← getSocket l;
    sent ← (if (alive : bool) then sendPacket socket ping else mret false);
    when (negb sent) (closeClient socket).

(** the loop stops when another thread asked the heartbeat to stop *)
Fixpoint ping_loop (ping : Packet.t) (all : list (Z * loc)) : M unit :=
  match all with
  | [] => mret tt
  | entry :: all =>
      go ← is_listening;
      if negb go then mret tt
      else ping_session ping entry ;; ping_loop ping all
  end.

Definition pingOnce : M unit :=
  all ← getSessions;
  ping ← new_packet "server" "" HEARTBEAT "" "ping" 0;
  ping_loop ping all.

End with_env.

(** * Lemmas *)

(** ** Sessions come and go, rooms stay coherent *)

(** the room invariant about the current sessions *)
Definition consistent (w : World) : Prop := inv (sessions w) (sessions w) ∅ w.

Lemma inv_consistent T w : inv T T ∅ w → consistent w.
Proof. intros Hw. pose proof Hw as (_ & HT & _). unfold consistent. by rewrite HT. Qed.

(** an operation that keeps the invariant for every session map keeps it for the current one *)
Lemma consistent_step {A} (m : M A) w :
  (∀ T, preserves (inv T T ∅) m) → consistent w →
  consistent (run_state m w) ∧ sessions (run_state m w) = sessions w.
Proof.
  intros Hm Hw. pose proof (Hm (sessions w) w Hw) as H. split; [exact (inv_consistent _ _ H)|].
  by destruct H as (_ & HT & _).
Qed.

(** a socket on its way out is dropped *)
Lemma coherent_drop S s w : coherent S {[s := None]} w → coherent (delete s S) ∅ w.
Proof.
  intros [Hl Hn Hs Hr Hm Hf]. constructor; [done|done| | | |done].
  - intros s' l [_ H]%lookup_delete_Some. by apply Hs.
  - intros s' l [Hne H]%lookup_delete_Some _. apply (Hr s' l H). by rewrite lookup_singleton_ne.
  - intros s' n. rewrite Hm. unfold expected. rewrite lookup_empty.
    destruct (decide (s' = s)) as [->|Hne].
    + rewrite lookup_singleton_eq, lookup_delete_eq. cbn. naive_solver.
    + by rewrite lookup_singleton_ne, lookup_delete_ne.
Qed.
Lemma inv_drop S s w : inv (delete s S) S {[s := None]} w → inv (delete s S) (delete s S) ∅ w.
Proof.
  intros (Hwf & HT & Hc). split_and!; [done..|]. intros Hs. destruct (Hc Hs). split; [|done].
  by apply coherent_drop.
Qed.

(** a fresh session is added, in no room yet *)
Lemma inv_add S w s o :
  inv S S ∅ w → S !! s = None → clientSocket o = s →
  inv (<[s := next_loc w]> S) (<[s := next_loc w]> S) {[s := None]}
    (set_sessions (<[s := next_loc w]> (sessions w))
       (set_next_loc (Datatypes.S (next_loc w)) (set_heap (<[next_loc w := o]> (heap w)) w))).
Proof.
  intros (Hwf & HT & Hc) Hs Ho. split_and!; [done|cbn [sessions set_sessions]; by rewrite HT|].
  intros Hsm. destruct (Hc Hsm) as [[Hl Hn Hse Hr Hm Hf] [Hb1 Hb2]]. split; [|by constructor].
  assert (∀ s' l', S !! s' = Some l' → l' ≠ next_loc w) as Hnew.
  { intros s' l' Hs' ->. destruct (Hse _ _ Hs') as (o' & Ho' & _). by rewrite Hf in Ho'. }
  assert (∀ l', l' ≠ next_loc w → default no_session (<[next_loc w := o]> (heap w) !! l') = session_at w l') as Hat.
  { intros l' Hne. unfold session_at. by rewrite lookup_insert_ne. }
  constructor; [done|done| | | |].
  - intros s' l'. cbn [heap set_heap set_next_loc set_sessions].
    destruct (decide (s' = s)) as [->|Hne].
    + rewrite lookup_insert_eq. intros [= <-]. rewrite lookup_insert_eq. eauto.
    + rewrite lookup_insert_ne by done. intros Hs'. rewrite lookup_insert_ne by (symmetry; by eapply Hnew).
      by apply Hse.
  - intros s' l' Hs' Hov. destruct (decide (s' = s)) as [->|Hne]; [by rewrite lookup_singleton_eq in Hov|].
    rewrite lookup_insert_ne in Hs' by done. unfold session_at. cbn [heap set_heap set_next_loc set_sessions knownRooms].
    rewrite Hat by (by eapply Hnew). apply (Hr s' l' Hs'), lookup_empty.
  - intros s' n. etransitivity; [apply Hm|]. unfold expected. rewrite lookup_empty.
    destruct (decide (s' = s)) as [->|Hne].
    + rewrite lookup_singleton_eq, Hs. naive_solver.
    + rewrite lookup_singleton_ne, lookup_insert_ne by done.
      destruct (S !! s') as [l'|] eqn:E; [|done]. cbn. unfold session_at at 2.
      cbn [heap set_heap set_next_loc set_sessions]. by rewrite Hat by (by eapply Hnew).
  - intros l' Hl'. cbn [heap set_heap set_next_loc set_sessions next_loc] in *.
    rewrite lookup_insert_ne by lia. apply Hf. lia.
Qed.

Section invariant.
Context {env : ServerEnv}.
Hypothesis no_failure : ∀ n, env_db n = None.

Lemma removeSession_inv T s :
  triple (inv T T ∅) (removeSession s) (λ _, inv (delete s T) (delete s T) ∅).
Proof using no_failure.
  intros w Hw. pose proof Hw as (_ & HT & _).
  unfold removeSession, mbind, SE_bind. unfold run_state, gets at 1. rewrite HT.
  destruct (T !! s) as [l|] eqn:Hl; [|by rewrite delete_id].
  unfold modify at 1. rewrite HT. set (w1 := set_webSockets _ _).
  assert (inv (delete s T) T ∅ w1) as Hw1.
  { destruct Hw as (Hwf & _ & Hc). split_and!; [done..|]. intros Hs. destruct (Hc Hs) as [Hco [Hb1 Hb2]].
    split; [by eapply coherent_frame; [..|exact Hco]|by constructor]. }
  clearbody w1. unfold isAuthenticated, getUser, gets at 1 2.
  pose proof (leaveAll_inv (delete s T) T s l Hl w1 Hw1) as Hleave.
  destruct (leaveAll_total l w1) as [a Ha]. unfold run_state, run_out in *.
  destruct (leaveAll l w1) as [o w2]. cbn [fst snd] in *. subst o. apply inv_drop in Hleave.
  destruct (_ || _); [done|]. unfold gets at 1. destruct (gossip_set w2).
  - pose proof (rumor_inv no_failure (delete s T)).
    assert (preserves (inv (delete s T) (delete s T) ∅) (drop_logout (User.username (user (session_at w1 l))))) as Hp
      by (unfold drop_logout; solve_pres).
    by apply Hp.
  - set (name := User.username _).
    assert (preserves (inv (delete s T) (delete s T) ∅)
      (try_catch (db_do (clearOnline name) ;; db_do (clearAllMembership name)) (λ _, mret tt))) as Hp
      by solve_pres.
    by apply (Hp w2).
Qed.

Lemma releaseClient_inv T s :
  triple (inv T T ∅) (releaseClient s) (λ _, inv (delete s T) (delete s T) ∅).
Proof using no_failure.
  unfold releaseClient. apply (triple_bind _ _ _ (λ o w, (∃ a, o = Ok a) ∧ inv T T ∅ w)).
  - intros w Hw. split; [|by apply closeClient_inv].
    unfold closeClient, markClosed, isClosed, close_socket.
    assert (total (closeClient s)) as Ht; [|apply Ht].
    unfold closeClient, markClosed, isClosed, close_socket. solve_total.
  - intros _ w [_ Hw]. by apply removeSession_inv.
  - by intros e w [[? ?] _].
Qed.

Lemma dispatchPacket_inv T s p : preserves (inv T T ∅) (dispatchPacket s p).
Proof using no_failure.
  intros w Hw. unfold run_state, dispatchPacket, mbind, SE_bind. unfold gets at 1.
  destruct (sessions w !! s) as [l|] eqn:Hl; [|done].
  assert (T !! s = Some l) as HTl by (destruct Hw as (_ & <- & _); done).
  pose proof (processPacket_inv no_failure T s l HTl p).
  assert (preserves (inv T T ∅) (touch l ;;
      if bool_decide (Packet.type p = HEARTBEAT) && negb (String.eqb (Packet.message p) "ping")
      then mret true else response ← processPacket p l; sendPacket s response)) as Hp by solve_pres.
  by apply (Hp w).
Qed.

Lemma greet_consistent T s l b : triple (inv T T ∅) (greet s l b) (λ _, consistent).
Proof using no_failure.
  assert (triple (inv T T ∅) (releaseClient s ;; mret false) (λ _, consistent)) as Hrel.
  { apply (triple_bind _ _ _ (λ _, inv (delete s T) (delete s T) ∅)); [apply (releaseClient_inv T s)| |].
    - intros _ w Hw. exact (inv_consistent _ _ Hw).
    - intros e w Hw. exact (inv_consistent _ _ Hw). }
  unfold greet. destruct (negb b); [done|].
  assert (∀ {A B} (m : M A) (f : A → M B), preserves (inv T T ∅) m →
    (∀ a, triple (inv T T ∅) (f a) (λ _, consistent)) → triple (inv T T ∅) (m ≫= f) (λ _, consistent)) as Hb.
  { intros A B m f Hm Hf. apply (triple_bind _ _ _ (λ _, inv T T ∅)); [done|done|].
    intros e w Hw. exact (inv_consistent _ _ Hw). }
  apply Hb; [unfold listRooms; solve_pres|intros rooms]. cbv zeta.
  apply Hb; [apply preserves_gets|intros u]. apply Hb; [solve_pres|intros p].
  apply Hb; [solve_pres|intros sent]. destruct (negb sent); [done|].
  apply Hb; [apply preserves_gets|intros g].
  apply Hb; [unfold buildServerDirectory; solve_pres|]. intros _ w Hw. exact (inv_consistent _ _ Hw).
Qed.

Lemma openSession_inv T s :
  T !! s = None → triple (inv T T ∅) (openSession s) (λ _, consistent).
Proof using no_failure.
  intros Hs w Hw. unfold run_state.
  unfold openSession. unfold mbind at 1, SE_bind at 1.
  assert (∀ u, anonymousUser w = (Ok u, set_reads (S (reads w)) w) →
    consistent (((l ← new_session s u LOBBY; addSession s l ;;
      placed ← joinRoom (Room.name LOBBY) l; greet s l placed) (set_reads (S (reads w)) w)).2)) as Hrest;
    [|by eapply Hrest].
  intros u _. set (w1 := set_reads _ w). set (w2 := set_reads (S (reads w1)) w1).
  assert (inv T T ∅ w2) as Hw2 by (by do 2 apply (quiet_reads _ (quiet_inv T T ∅))).
  set (o := mkSession s u LOBBY false false (env_steady (reads w1))).
  pose proof (inv_add T w2 s o Hw2 Hs eq_refl) as Hadd. set (l := next_loc w2) in *.
  set (w3 := set_sessions _ _) in Hadd.
  assert (T !! s = None) as _ by done.
  pose proof (joinLobby_inv (<[s := l]> T) (<[s := l]> T) s l (lookup_insert_eq T s l) w3 Hadd) as Hj.
  change (consistent ((placed ← joinRoom (Room.name LOBBY) l; greet s l placed) w3).2).
  unfold mbind, SE_bind. destruct (joinRoom_total (Room.name LOBBY) l w3) as [b Hb].
  unfold run_state, run_out in *. destruct (joinRoom (Room.name LOBBY) l w3) as [r w4].
  cbn [fst snd] in *. subst r. by apply (greet_consistent (<[s := l]> T)).
Qed.

Lemma close_all_inv T : preserves (inv T T ∅) close_all.
Proof. unfold close_all. solve_pres. Qed.
Lemma pingOnce_inv T : preserves (inv T T ∅) pingOnce.
Proof.
  assert (∀ p e, preserves (inv T T ∅) (ping_session p e)) as Hp.
  { intros p e. unfold ping_session, isClosed, isAlive, getSocket. cbv zeta. solve_pres. }
  assert (∀ p l, preserves (inv T T ∅) (ping_loop p l)) as Hl.
  { intros p l. induction l as [|e l IH]; cbn [ping_loop]; unfold is_listening; solve_pres. }
  unfold pingOnce, getSessions. solve_pres.
Qed.
Lemma answer_ping_inv T s p : preserves (inv T T ∅) (answer_ping s p).
Proof. unfold answer_ping. solve_pres. Qed.
Lemma markWebSocket_inv T s : preserves (inv T T ∅) (markWebSocket s).
Proof. unfold markWebSocket. solve_pres. Qed.
End invariant.

(** ** Closing *)

Lemma close_socket_run s w :
  close_socket s w = (Ok tt, if (s =? INVALID_SOCKET)%Z then w else set_net (net w ++ [NetClose s]) w).
Proof. unfold close_socket. by destruct (s =? INVALID_SOCKET)%Z. Qed.

Lemma closeClient_run s w :
  closeClient s w =
  match sessions w !! s with
  | None => (Ok tt, w)
  | Some l =>
      let w1 := update_session l (set_s_closed true) w in
      (Ok tt, if closed (session_at w l) || (s =? INVALID_SOCKET)%Z then w1
              else set_net (net w ++ [NetClose s]) w1)
  end.
Proof.
  unfold closeClient, markClosed, isClosed, mbind, SE_bind, gets, modify, mret, SE_ret.
  destruct (sessions w !! s) as [l|]; [|done]. unfold when.
  destruct (closed (session_at w l)); cbn [negb orb]; [done|]. by rewrite close_socket_run.
Qed.

Lemma update_closed_again l w :
  (∀ o, heap w !! l = Some o → closed o = true) → update_session l (set_s_closed true) w = w.
Proof.
  intros H. unfold update_session. rewrite alter_id; [by destruct w|].
  intros o Ho. specialize (H o Ho). destruct o. simpl in H. by subst.
Qed.

(** ** One heartbeat *)

Section heartbeat.
Context {env : ServerEnv}.

Definition closing (s : Z) : list NetAction := if (s =? INVALID_SOCKET)%Z then [] else [NetClose s].
Lemma close_open_run s l o w :
  sessions w !! s = Some l → heap w !! l = Some o → closed o = false →
  closeClient s w =
    (Ok tt, set_net (net w ++ closing s) (set_heap (<[l := set_s_closed true o]> (heap w)) w)).
Proof.
  intros Hs Ho Hc. rewrite closeClient_run, Hs. cbv zeta.
  assert (closed (session_at w l) = false) as -> by (unfold session_at; by rewrite Ho). cbn [orb].
  unfold update_session. rewrite (alter_alt_Some _ _ _ _ Ho). unfold closing.
  destruct (s =? INVALID_SOCKET)%Z; [rewrite app_nil_r; by destruct w|done].
Qed.
(** what was done with a socket *)
Definition its_socket (a : NetAction) : Z := match a with NetSend s _ _ | NetClose s => s end.
Definition on_socket (s : Z) (sends : list NetAction) : list NetAction :=
  filter (λ a, its_socket a = s) sends.
(** what a round does to the session [o] of a socket: a closed one is passed over, a silent
    one closed, another one sent [frame] and closed if that fails; all unless the heartbeat
    is asked to stop before.  [read] says which readings of the clock and of the other
    sources the round made. *)
Definition settled (read : nat → Prop) (frame : string) (s : Z) (o o' : ClientSession) (mine : list NetAction) : Prop :=
  closed o = true ∧ o' = o ∧ mine = [] ∨
  closed o = false ∧
    ((∃ n, read n ∧ (HEARTBEAT_TIMEOUT <= env_steady n - lastHeartbeatTime o)%Z) ∧ o' = set_s_closed true o ∧ mine = closing s ∨
     (∃ n, read n ∧ (env_steady n - lastHeartbeatTime o < HEARTBEAT_TIMEOUT)%Z) ∧
       (o' = o ∧ mine = [NetSend s frame true] ∨
        (∃ n, read n ∧ env_write n = false) ∧ o' = set_s_closed true o ∧ mine = NetSend s frame false :: closing s)) ∨
  (∃ n, read n ∧ env_listening n = false) ∧ o' = o ∧ mine = [].
(** the readings made between two states *)
Definition between (w w' : World) (n : nat) : Prop := reads w <= n < reads w'.
Lemma settled_more (read read' : nat → Prop) frame s o o' mine :
  (∀ n, read n → read' n) → settled read frame s o o' mine → settled read' frame s o o' mine.
Proof using Type. unfold settled. naive_solver. Qed.


Lemma on_socket_app s l l' : on_socket s (l ++ l') = on_socket s l ++ on_socket s l'.
Proof using Type. apply filter_app. Qed.
Lemma on_socket_closing s s' : on_socket s (closing s') = if decide (s' = s) then closing s' else [].
Proof using Type.
  unfold closing, on_socket. case_decide; destruct (Z.eqb_spec s' INVALID_SOCKET); try done; rewrite filter_cons.
  - by rewrite decide_True.
  - by rewrite decide_False.
Qed.

Lemma ping_session_run p s l o w :
  serialize p ≠ "" → sessions w !! s = Some l → heap w !! l = Some o → clientSocket o = s →
  ∃ o' sends t,
    ping_session p (s, l) w =
      (Ok tt, set_net (net w ++ sends) (set_reads t (set_heap (<[l := o']> (heap w)) w))) ∧
    reads w <= t ∧ settled (λ n, reads w <= n < t) (wire w p s) s o o' (on_socket s sends) ∧ ∀ s', s' ≠ s → on_socket s' sends = [].
Proof using Type.
  intros Hp Hs Ho Hso. assert (is_empty (serialize p) = false) as He by (by destruct (serialize p)).
  assert (session_at w l = o) as Hat by (unfold session_at; by rewrite Ho).
  unfold ping_session, isClosed, isAlive, getSocket, steady_now, next_read, mbind, SE_bind, gets, mret, SE_ret.
  cbn [snd]. rewrite Hat. destruct (closed o) eqn:Hc.
  { exists o, [], (reads w). split; [|split; [done|split; [by left|done]]].
    rewrite app_nil_r, insert_id by done. by destruct w. }
  change (session_at (set_reads (S (reads w)) w) l) with (session_at w l). rewrite Hat.
  set (w1 := set_reads (S (reads w)) w).
  assert (is_open w1 s = true) as Hopen.
  { unfold is_open. change (sessions w1) with (sessions w). rewrite Hs.
    change (session_at w1 l) with (session_at w l). by rewrite Hat, Hc. }
  destruct (env_steady (reads w) - lastHeartbeatTime o <? HEARTBEAT_TIMEOUT)%Z eqn:Ht; rewrite Hso.
  - rewrite sendPacket_run, Hopen, He. cbn [negb andb]. unfold when.
    change (wire w1 p s) with (wire w p s). destruct (env_write (reads w1)) eqn:Hw; cbn [negb].
    + exists o, [NetSend s (wire w p s) true], (S (reads w1)).
      split; [rewrite insert_id by done; unfold sent_world; rewrite Hw; by destruct w|].
      unfold on_socket. rewrite filter_cons, decide_True by done. split; [cbn; lia|]. split.
      * right; left. split; [done|]. right. split; [exists (reads w); cbn; lia|by left].
      * intros s' Hne. by rewrite filter_cons, decide_False by (cbn; congruence).
    + rewrite (close_open_run s l o) by done.
      exists (set_s_closed true o), ([NetSend s (wire w p s) false] ++ closing s), (S (reads w1)).
      split; [unfold sent_world; rewrite Hw; cbn [net set_net set_reads]; by rewrite <-app_assoc|].
      unfold on_socket. cbn [app]. rewrite filter_cons, decide_True by done. change (filter _ (closing s)) with (on_socket s (closing s)).
      rewrite on_socket_closing, decide_True by done. split; [cbn; lia|]. split.
      * right; left. split; [done|]. right. split; [exists (reads w); cbn; lia|]. right. split; [exists (reads w1); cbn; split; [lia|exact Hw]|done].
      * intros s' Hne. rewrite filter_cons, decide_False by (cbn; congruence). change (filter _ (closing s)) with (on_socket s' (closing s)).
        by rewrite on_socket_closing, decide_False by (cbn; congruence).
  - cbn [negb]. unfold when. rewrite (close_open_run s l o) by done.
    exists (set_s_closed true o), (closing s), (reads w1). split; [done|]. split; [cbn; lia|]. split.
    + rewrite on_socket_closing, decide_True by done. right; left. split; [done|]. left. split; [exists (reads w); cbn; lia|done].
    + intros s' Hne. by rewrite on_socket_closing, decide_False by (cbn; congruence).
Qed.

Lemma ping_loop_run p all w :
  serialize p ≠ "" → NoDup all.*1 → NoDup all.*2 →
  (∀ e, e ∈ all → sessions w !! e.1 = Some e.2 ∧ ∃ o, heap w !! e.2 = Some o ∧ clientSocket o = e.1) →
  ∃ w' sends,
    ping_loop p all w = (Ok tt, w') ∧ net w' = net w ++ sends ∧ sessions w' = sessions w ∧ reads w <= reads w' ∧
    (∀ l, l ∉ all.*2 → heap w' !! l = heap w !! l) ∧ (∀ s, s ∉ all.*1 → on_socket s sends = []) ∧
    (∀ s l o, (s, l) ∈ all → heap w !! l = Some o →
       ∃ o', heap w' !! l = Some o' ∧ settled (between w w') (wire w p s) s o o' (on_socket s sends)).
Proof using Type.
  intros Hp. revert w. induction all as [|[s l] all IH]; intros w Hnd1 Hnd Hall.
  { exists w, []. rewrite app_nil_r. split_and!; [done..|]. set_solver. }
  cbn [fmap list_fmap fst snd] in Hnd1, Hnd. apply NoDup_cons in Hnd as [Hl Hnd]. apply NoDup_cons in Hnd1 as [Hs1 Hnd1].
  destruct (Hall (s, l)) as (Hs & o & Ho & Hso); [set_solver|]. cbn [fst snd] in *.
  cbn [ping_loop]. unfold is_listening, next_read, mbind, SE_bind, mret, SE_ret.
  set (w0 := set_reads (S (reads w)) w). destruct (env_listening (reads w)) eqn:Hgo; cbn [negb].
  2: { exists w0, []. split_and!; [done|by rewrite app_nil_r|done|cbn; lia|done|done|]. intros s' l' o' _ Ho'. exists o'. split; [done|].
       right; right. split; [exists (reads w); unfold between; cbn; split; [lia|done]|done]. }
  destruct (ping_session_run p s l o w0 Hp Hs Ho Hso) as (o1 & sends1 & t & Hrun & Ht & Hping & Hother).
  rewrite Hrun. set (w1 := set_net _ _).
  assert (heap w1 = <[l := o1]> (heap w)) as Hheap by done.
  assert (∀ s' l', (s', l') ∈ all → l' ≠ l ∧ s' ≠ s) as Hne.
  { intros s' l' He. split; intros ->; [apply Hl|apply Hs1]; [by apply (list_elem_of_fmap_2 snd all (s', l))|by apply (list_elem_of_fmap_2 fst all (s, l'))]. }
  destruct (IH w1 Hnd1 Hnd) as (w' & sends & Hloop & Hnet & Hses & Hle & Hout & Hno & Hin).
  { intros [s' l'] He. destruct (Hall (s', l')) as (Hs' & o' & Ho' & Hso'); [set_solver|]. cbn [fst snd] in *.
    split; [done|]. exists o'. rewrite Hheap, lookup_insert_ne; [done|]. destruct (Hne s' l' He). congruence. }
  change (reads w1) with t in Hle. cbn [reads w0 set_reads] in Ht.
  exists w', (sends1 ++ sends). split_and!; [done|by rewrite Hnet, app_assoc|done|lia| | |].
  - intros l' [Hnel Hnol]%not_elem_of_cons. by rewrite Hout, Hheap, lookup_insert_ne.
  - intros s' [Hnes Hnos]%not_elem_of_cons. by rewrite on_socket_app, Hother, Hno.
  - intros s' l' o' [[= -> ->]|He]%elem_of_cons Ho'.
    + exists o1. rewrite Ho in Ho'. injection Ho' as <-. rewrite on_socket_app, (Hno s Hs1), app_nil_r.
      split; [by rewrite Hout, Hheap, lookup_insert_eq|].
      eapply settled_more; [|exact Hping]. unfold between. cbn. lia.
    + destruct (Hne s' l' He) as [Hnel Hnes]. rewrite on_socket_app, Hother by done.
      destruct (Hin s' l' o' He) as (o2 & Ho2 & Hset); [by rewrite Hheap, lookup_insert_ne|]. exists o2. split; [done|].
      eapply settled_more; [|exact Hset]. unfold between. change (reads w1) with t. lia.
Qed.
End heartbeat.

(** * Theorems *)

(** A connection is closed at most once and never written to afterwards: closing marks
    the session and gives the socket back to the system only if it was not marked before;
    closing again changes nothing, and sending to it fails without a write. *)
Theorem close_once {env : ServerEnv} s l o w :
  sessions w !! s = Some l → heap w !! l = Some o →
  let w' := run_state (closeClient s) w in
  net w' = net w ++ (if closed o then [] else closing s) ∧
  heap w' !! l = Some (set_s_closed true o) ∧
  closeClient s w' = (Ok tt, w') ∧
  (∀ p, sendPacket s p w' = (Ok false, w')).
Proof.
  intros Hs Ho. cbv zeta.
  assert (closed (session_at w l) = closed o) as Hat by (unfold session_at; by rewrite Ho).
  assert (∃ w', closeClient s w = (Ok tt, w') ∧ net w' = net w ++ (if closed o then [] else closing s) ∧
    heap w' = <[l := set_s_closed true o]> (heap w) ∧ sessions w' = sessions w) as (w' & Hrun & Hnet & Hheap & Hses).
  { rewrite closeClient_run, Hs, Hat. cbv zeta. eexists. split; [reflexivity|]. unfold closing.
    unfold update_session. rewrite (alter_alt_Some _ _ _ _ Ho).
    destruct (closed o), (s =? INVALID_SOCKET)%Z; cbn [orb]; split_and!; try done; by rewrite app_nil_r. }
  unfold run_state. rewrite Hrun. cbn [snd].
  assert (heap w' !! l = Some (set_s_closed true o)) as Hl by (by rewrite Hheap, lookup_insert_eq).
  assert (closed (session_at w' l) = true) as Hc by (unfold session_at; by rewrite Hl).
  split_and!; [done|done| |].
  - rewrite closeClient_run, Hses, Hs, Hc. cbv zeta. cbn [orb]. rewrite update_closed_again; [done|].
    intros o'. rewrite Hl. by intros [= <-].
  - intros p. rewrite sendPacket_run. unfold is_open. by rewrite Hses, Hs, Hc.
Qed.

(** C32. One heartbeat round settles every session, and what it does with each socket is
    exactly this: a session that is closed already is passed over; one not heard from for the
    timeout is closed and its socket given back, without a write; any other is sent one frame
    with the packet HEARTBEAT "ping", and is closed too when that write fails; and when the
    heartbeat is asked to stop in between, the sessions not reached yet are left as they are.
    Nothing else of a session changes, no other socket is touched, and no session is added or
    dropped. *)
Theorem heartbeat_round {env : ServerEnv} w :
  (∀ s l, sessions w !! s = Some l → ∃ o, heap w !! l = Some o ∧ clientSocket o = s) →
  let ping := Packet.make (env_time (reads w)) "server" "" HEARTBEAT "" "ping" 0 in
  ∃ w' sends,
    pingOnce w = (Ok tt, w') ∧ net w' = net w ++ sends ∧ sessions w' = sessions w ∧
    (∀ s, sessions w !! s = None → on_socket s sends = []) ∧
    (∀ s l o, sessions w !! s = Some l → heap w !! l = Some o →
       ∃ o', heap w' !! l = Some o' ∧ settled (between w w') (wire w ping s) s o o' (on_socket s sends)).
Proof.
  intros Hok p. unfold pingOnce, getSessions, mbind, SE_bind, gets.
  set (all := map_to_list (sessions w)).
  assert (∀ s l, (s, l) ∈ all ↔ sessions w !! s = Some l) as Hall by (intros; apply elem_of_map_to_list).
  change (new_packet "server" "" HEARTBEAT "" "ping" 0 w) with (Ok p, set_reads (S (reads w)) w).
  set (w1 := set_reads _ w).
  destruct (ping_loop_run p all w1) as (w' & sends & Hrun & Hnet & Hses & _ & _ & Hno & Hin).
  - apply serialize_nonempty. vm_compute. discriminate.
  - apply NoDup_fst_map_to_list.
  - apply NoDup_fmap_2_strong; [|apply NoDup_map_to_list].
    intros [s l] [s' l'] Hsl Hsl' Heq. simpl in Heq. subst l'.
    destruct (Hok s l) as (o & Ho & <-); [by apply Hall|].
    destruct (Hok s' l) as (o' & Ho' & <-); [by apply Hall|]. by simplify_eq.
  - intros [s l] He. apply Hall in He. cbn [fst snd]. split; [done|]. by apply Hok.
  - exists w', sends. split_and!; [done..| |].
    + intros s Hs. apply Hno. intros ([s' l] & -> & He)%list_elem_of_fmap. apply Hall in He. cbn in Hs. congruence.
    + intros s l o Hs Ho. destruct (Hin s l o) as (o' & Ho' & Hset); [by apply Hall|done|]. exists o'. split; [done|].
      eapply settled_more; [|exact Hset]. unfold between. cbn. lia.
Qed.

(** Dropping a connection forgets it: in a consistent state, whatever the session was
    doing, afterwards the socket has no session and is a member of no room, the other
    sessions are the ones there were, and the rooms are consistent with them. *)
Theorem disconnect_forgets {env : ServerEnv} s w :
  (∀ n, env_db n = None) → consistent w →
  let w' := run_state (releaseClient s) w in
  (sqlite_sequence (db w') < 2 ^ 31)%Z →
  sessions w' = delete s (sessions w) ∧ (∀ n, s ∉ members_of w' n) ∧ consistent w'.
Proof.
  intros no_failure Hw. cbv zeta. intros Hsmall.
  pose proof (releaseClient_inv no_failure (sessions w) s w Hw) as Hinv.
  pose proof Hinv as (_ & HT & Hc). destruct (Hc Hsmall) as [Hco _].
  split_and!; [done| |exact (inv_consistent _ _ Hinv)].
  intros n Hn. apply (c_member _ _ _ Hco) in Hn. unfold expected in Hn.
  by rewrite lookup_empty, lookup_delete_eq in Hn.
Qed.

(** ** Witnesses *)

#[local] Existing Instance plain_server.

Lemma close_once_witness :
  net (run_state (closeClient 7) sample_state) = [NetClose 7] ∧
  closeClient 7 (run_state (closeClient 7) sample_state) = (Ok tt, run_state (closeClient 7) sample_state).
Proof.
  destruct (close_once 7 0 sample_session sample_state) as (Hnet & _ & Hagain & _);
    [vm_compute; reflexivity..|]. split; [exact Hnet|exact Hagain].
Defined.
Lemma heartbeat_round_witness :
  ∃ w' sends, pingOnce sample_state = (Ok tt, w') ∧ net w' = sends ∧
    ∃ o', heap w' !! 0 = Some o' ∧
      settled (between sample_state w') (wire sample_state (Packet.make (env_time (reads sample_state)) "server" "" HEARTBEAT "" "ping" 0) 7) 7 sample_session o' (on_socket 7 sends).
Proof.
  destruct (heartbeat_round sample_state) as (w' & sends & Hrun & Hnet & _ & _ & Hall).
  - intros s l Hs. change ((<[7%Z := 0]> {[8%Z := 1]} : gmap Z loc) !! s = Some l) in Hs.
    apply lookup_insert_Some in Hs as [[<- <-]|[_ Hs]].
    { exists sample_session. split; reflexivity. }
    apply lookup_singleton_Some in Hs as [<- <-]. eexists. split; reflexivity.
  - exists w', sends. split; [exact Hrun|]. split; [exact Hnet|].
    apply (Hall 7%Z 0 sample_session); reflexivity.
Defined.
