(* ===== verification/Server.v ===== *)
(** The process as a whole (src/server/server.cpp): starting it, and the steps its threads
    make.

    Each accept, packet, disconnection, heartbeat round, peer packet and gossip round is one
    step of [step]; the threads interleave them in any order.  Ports, threads and the full
    start-up and shut-down are in Process.v.  The theorems are invariants of the reachable
    states: the member sets, the sessions, the known rooms and the tables agree with one
    another, and the event log is a window of 256 distinct events. *)
From S2P Require Import Prelude Packet Models DatabaseManager World RoomManager GossipManager.
From S2P Require Import PacketProcessor ConnectionManager.
From stdpp Require Import options.

(** * Definitions *)

Section with_env.
Context {env : ServerEnv}.

(** [Server::start] once both ports listen, and the room manager's constructor *)
Definition Server_start : M unit :=
  db_do (clearNodePresence NODE_ID) ;;
  modify (λ w, mkWorld (db w) (heap w) (next_loc w) (sessions w) (webSockets w) (knownRooms w)
    (members w) true (gossip w) (nextPresenceSeq w) (dropLogoutSeq w) (net w) (reads w)) ;;
  start ;;
  RoomManager_init.

(** [Server::stop]: gossip first, then the clients *)
Definition Server_stop : M unit :=
  stop ;;
  modify (λ w, mkWorld (db w) (heap w) (next_loc w) (sessions w) (webSockets w) (knownRooms w)
    (members w) false (gossip w) (nextPresenceSeq w) (dropLogoutSeq w) (net w) (reads w)) ;;
  close_all.

(** One step of one thread.  The socket a step opens is not the socket of a session: the
    system gives a number out again only after it was closed, and the source closes a
    client's socket right before it drops the session. *)
Inductive step : World → World → Prop :=
  | step_accept fd w : sessions w !! fd = None → step w (run_state (openSession fd) w)
  | step_upgrade fd w : step w (run_state (markWebSocket fd) w)
  | step_packet fd p w : step w (run_state (dispatchPacket fd p) w)
  | step_ping_frame fd payload w : step w (run_state (answer_ping fd payload) w)
  | step_disconnect fd w : step w (run_state (releaseClient fd) w)
  | step_heartbeat w : step w (run_state pingOnce w)
  | step_peer_accept fd w : step w (run_state (accept_peer fd) w)
  | step_peer_dial w : step w (run_state (dial_round PEERS) w)
  | step_peer_packet fd registered p w : step w (run_state (handle_peer_packet fd registered p) w)
  | step_peer_gone fd w : step w (run_state (peer_gone fd) w)
  | step_digest w : step w (run_state anti_entropy_round w)
  | step_stop w : step w (run_state Server_stop w).

Definition steps : World → World → Prop := rtc step.

End with_env.

(** the tables a node may start from: the two default rooms first, and rooms whose stored
    name is what a C string reader sees *)
Definition stored_rooms (db : Db) : Prop :=
  ∃ rest, rooms db = room_to_row <$> LOBBY :: GENERAL :: rest ∧
    ∀ r, r ∈ rest → (3 <= Room.id r < 2 ^ 31)%Z ∧ text (Room.name r) = Room.name r.

(** * Lemmas *)

Section startup.
Context {env : ServerEnv}.
Hypothesis no_failure : ∀ n, env_db n = None.

Lemma from_rows_rooms (l : list Room.t) db :
  (∀ r, r ∈ l → in_int (Room.id r) ∧ text (Room.name r) = Room.name r) →
  from_rows roomFromRow (room_row <$> (room_to_row <$> l)) db = (Ok l, db).
Proof.
  clear no_failure. induction l as [|r l IH]; intros Hl; [done|]. cbn [fmap list_fmap from_rows].
  destruct (Hl r) as [Hid Hn]; [set_solver|].
  unfold mbind, SE_bind at 1. cbn [room_row room_to_row r_id r_name r_type r_privacy roomFromRow].
  rewrite stoi_to_string by done.
  unfold mret, SE_ret, SE_bind. cbn [fmap list_fmap] in IH. rewrite IH by (intros; apply Hl; set_solver).
  rewrite Hn. destruct r as [i n ty p]. by destruct ty, p.
Qed.

(** the emplacing loop keeps the first room of each name *)
Lemma emplace_all (l : list Room.t) w :
  NoDup (Room.name <$> l) → (∀ r, r ∈ l → knownRooms w !! Room.name r = None) →
  ∃ known, for_each l (λ r, modify (λ w, set_knownRooms (emplace_room (Room.name r) r (knownRooms w)) w)) w
      = (Ok tt, set_knownRooms known w) ∧
    (∀ n r, known !! n = Some r ↔ knownRooms w !! n = Some r ∨ r ∈ l ∧ Room.name r = n).
Proof.
  clear no_failure. revert w. induction l as [|r l IH]; intros w Hnd Hno; cbn [for_each].
  - exists (knownRooms w). split; [by destruct w|]. set_solver.
  - cbn [fmap list_fmap] in Hnd. apply NoDup_cons in Hnd as [Hr Hnd].
    unfold mbind, SE_bind, modify at 1.
    assert (emplace_room (Room.name r) r (knownRooms w) = <[Room.name r := r]> (knownRooms w)) as ->.
    { unfold emplace_room. rewrite Hno; [done|set_solver]. }
    destruct (IH (set_knownRooms (<[Room.name r := r]> (knownRooms w)) w)) as (known & Hrun & Hk);
      [done| |].
    { intros r' Hr'. cbn [knownRooms set_knownRooms]. rewrite lookup_insert_ne; [apply Hno; set_solver|].
      intros Heq. apply Hr. rewrite Heq. by apply list_elem_of_fmap_2. }
    exists known. split; [exact Hrun|]. intros n r'. rewrite Hk. cbn [knownRooms set_knownRooms].
    rewrite lookup_insert_Some, elem_of_cons. specialize (Hno r ltac:(set_solver)).
    split.
    + intros [[[<- <-]|[_ ?]]|[??]]; eauto.
    + intros [H|[[->|?] <-]]; [left; right; split; [congruence|done]|eauto|eauto].
Qed.

Lemma listRooms_run db rest :
  rooms db = room_to_row <$> LOBBY :: GENERAL :: rest →
  (∀ r, r ∈ rest → (3 <= Room.id r < 2 ^ 31)%Z ∧ text (Room.name r) = Room.name r) →
  DatabaseManager.listRooms db = (Ok (LOBBY :: GENERAL :: rest), next_statement db).
Proof using no_failure.
  intros Hrooms Hrest. unfold DatabaseManager.listRooms, mbind, SE_bind. rewrite query_run by done.
  unfold sql_list_rooms. cbn [next_statement rooms]. rewrite Hrooms. apply from_rows_rooms.
  intros r. rewrite !elem_of_cons. unfold in_int. intros [->|[->|Hr]]; [done|done|].
  destruct (Hrest r Hr). split; [lia|done].
Qed.

(** a started node: the known rooms are the stored ones, nobody is connected *)
Lemma started_consistent tables :
  db_wf tables → stored_rooms tables → consistent (run_state Server_start (boot tables)).
Proof using no_failure.
  intros Hwf (rest & Hrooms & Hrest). unfold run_state, Server_start, mbind, SE_bind.
  pose proof (safe_clearNodePresence NODE_ID (rooms tables) (sqlite_sequence tables) tables
    (conj Hwf (conj eq_refl eq_refl))) as [Hwf1 [Hr1 _]].
  unfold db_do at 1, zoom. cbn [db boot]. unfold run_state in *.
  destruct (clearNodePresence NODE_ID tables) as [o t] eqn:E.
  assert (o = Ok tt) as ->.
  { unfold clearNodePresence, mbind, SE_bind in E. rewrite execute_run in E by done. by injection E as <- _. }
  cbn [snd] in *. unfold modify at 1. unfold start, modify_gossip, modify.
  unfold RoomManager_init, mbind, SE_bind, db_do, zoom. cbn [db set_db boot set_gossip].
  rewrite (listRooms_run t rest (eq_trans Hr1 Hrooms) Hrest).
  set (w := set_db (next_statement t) _).
  assert (NoDup (Room.name <$> LOBBY :: GENERAL :: rest)) as Hnd.
  { pose proof (k_room_name _ (proj1 Hwf)) as Hk. rewrite Hrooms, <-list_fmap_compose in Hk. exact Hk. }
  destruct (emplace_all (LOBBY :: GENERAL :: rest) w Hnd) as (known & -> & Hknown); [done|].
  assert (∀ n r, known !! n = Some r ↔ r ∈ LOBBY :: GENERAL :: rest ∧ Room.name r = n) as Hk.
  { intros n r. rewrite Hknown. split; [|by right].
    intros [H|H]; [|done]. change (knownRooms w) with (∅ : gmap string Room.t) in H. done. }
  clear Hknown. split_and!; [by apply db_wf_next|done|]. intros _. split.
  - constructor; cbn [knownRooms set_knownRooms sessions].
    + apply Hk. split; [set_solver|done].
    + by intros n r [_ H]%Hk.
    + by intros s l Hs.
    + by intros s l Hs.
    + intros s n. change (s ∈ default ∅ ((∅ : gmap string (gset Z)) !! n) ↔
        expected (∅ : gmap Z loc) ∅ (set_knownRooms known w) s = Some n).
      unfold expected. rewrite !lookup_empty. cbn. set_solver.
    + intros l _. apply (lookup_empty (M := gmap loc)).
  - constructor; cbn [knownRooms set_knownRooms db].
    + intros n r [H _]%Hk. change (room_to_row r ∈ rooms t). rewrite Hr1, Hrooms.
      by apply list_elem_of_fmap_2.
    + intros n r [H <-]%Hk Hlt. rewrite !elem_of_cons in H. destruct H as [->|[->|H]]; [by left|by right|].
      destruct (Hrest r H). lia.
Qed.

Lemma Server_stop_inv T : preserves (inv T T ∅) Server_stop.
Proof. pose proof (close_all_inv T). pose proof (stop_inv T T ∅). unfold Server_stop. solve_pres. Qed.

Lemma step_consistent w w' : step w w' → consistent w → consistent w'.
Proof using no_failure.
  intros Hstep Hw. destruct Hstep.
  1: by apply (openSession_inv no_failure (sessions w) fd).
  4: exact (inv_consistent _ _ (releaseClient_inv no_failure (sessions w) fd w Hw)).
  all: apply consistent_step; [|done]; intros T.
  - apply markWebSocket_inv.
  - by apply dispatchPacket_inv.
  - apply answer_ping_inv.
  - apply pingOnce_inv.
  - apply accept_peer_inv.
  - apply dial_round_inv.
  - by apply handle_peer_packet_inv.
  - apply peer_gone_inv.
  - apply anti_entropy_inv.
  - apply Server_stop_inv.
Qed.
Lemma steps_consistent w w' : steps w w' → consistent w → consistent w'.
Proof using no_failure. induction 1; eauto using step_consistent. Qed.
End startup.

(** ** The event log of a running node *)

Section log.
Context {env : ServerEnv}.

(** what is not a rumor leaves the gossip state alone *)
Lemma db_do_log {A} (m : SE Db A) : preserves log_inv (db_do m).
Proof. apply log_kept. intros g. apply db_do_gossip_is. Qed.
Hint Resolve db_do_log : pres.

Lemma rumorEvent_log t u c f r : preserves log_inv (rumorEvent t u c f r).
Proof.
  pose proof rumor_log. unfold rumorEvent, makeEventId, connections_rumor. solve_pres.
Qed.
Hint Resolve rumorEvent_log : pres.
Lemma joinRoom_log n l : preserves log_inv (joinRoom n l).
Proof. apply log_kept. intros g. apply joinRoom_gossip. Qed.
Lemma leaveAll_log l : preserves log_inv (leaveAll l).
Proof. apply log_kept. intros g. apply leaveAll_gossip. Qed.
Lemma createRoom_log r e : preserves log_inv (createRoom r e).
Proof. apply log_kept. intros g. apply createRoom_gossip. Qed.
Lemma deleteRoom_log n : preserves log_inv (deleteRoom n).
Proof. apply log_kept. intros g. apply deleteRoom_gossip. Qed.
Hint Resolve joinRoom_log leaveAll_log createRoom_log deleteRoom_log : pres.

Lemma processPacket_log p l : preserves log_inv (processPacket p l).
Proof.
  unfold processPacket, prepare. pres_step; [solve_pres|intros r].
  destruct (Packet.type p);
    unfold process_heartbeat, process_unsupported, process_unknown, process_login, process_register,
      process_reconnect, process_logout, process_message, process_room_join, process_room_leave,
      process_room_create, process_room_invite, process_room_delete, process_room_kick,
      process_load_history, process_update_user, enter_as, kick_local, findSessionByUsername,
      pushLobbyTo, pushRoomDirectory, encodeRoomDirectory, listRooms, refreshServerDirectory,
      buildServerDirectory, resume_room, private_blocked, may_manage, isAdmin, constraint_or,
      or_current, owner_live, getRoom, getRoomOf, getUser, isAuthenticated, setUser, setAuthenticated,
      hasSession, connections_isNodeLive, isNodeLive, rumorPresence, rumorMessage, rumorUserCreated,
      rumorRoomJoin, rumorRoomCreated, rumorAclAdd, rumorRoomKick, rumorRoomDeleted, getSocket;
    cbv zeta; solve_pres.
Qed.
Lemma closeClient_log s : preserves log_inv (closeClient s).
Proof. unfold closeClient, markClosed, isClosed. solve_pres. Qed.
Lemma removeSession_log s : preserves log_inv (removeSession s).
Proof.
  pose proof rumor_log. unfold removeSession, drop_logout, isAuthenticated, getUser. solve_pres.
Qed.
Hint Resolve processPacket_log closeClient_log removeSession_log : pres.
Lemma releaseClient_log s : preserves log_inv (releaseClient s).
Proof. unfold releaseClient. solve_pres. Qed.
Lemma ping_loop_log p all : preserves log_inv (ping_loop p all).
Proof.
  induction all as [|e all IH]; cbn [ping_loop];
    unfold is_listening, ping_session, isClosed, isAlive, getSocket; cbv zeta; solve_pres.
Qed.

Lemma step_log w w' : step w w' → log_inv w → log_inv w'.
Proof.
  pose proof releaseClient_log. pose proof ping_loop_log. pose proof stop_log.
  assert (∀ A (m : M A) v, preserves log_inv m → log_inv v → log_inv (run_state m v)) as Hrun by auto.
  destruct 1; intros Hw; (apply Hrun; [|done]).
  - unfold openSession, greet, new_session, addSession, listRooms, getUser, buildServerDirectory. solve_pres.
  - unfold markWebSocket. solve_pres.
  - unfold dispatchPacket, touch. solve_pres.
  - unfold answer_ping. solve_pres.
  - done.
  - unfold pingOnce, getSessions. solve_pres.
  - apply accept_peer_log.
  - apply dial_round_log.
  - apply handle_peer_packet_log.
  - apply peer_gone_log.
  - apply anti_entropy_log.
  - unfold Server_stop, close_all. solve_pres.
Qed.
Lemma started_log tables : log_inv (run_state Server_start (boot tables)).
Proof.
  pose proof start_log.
  assert (preserves log_inv Server_start) as Hp by (unfold Server_start, RoomManager_init; solve_pres).
  apply Hp. split; [|simpl; unfold MAX_EVENT_LOG; lia].
  constructor; simpl; [constructor|done| |done]. intros id. rewrite lookup_empty.
  split; [by intros []|by intros ?%elem_of_nil].
Qed.
End log.

(** * Theorems *)

(** C1. In every state a server can reach from tables with the stored rooms, whatever the
    clients and peers send and in whatever order the threads take their turns, as long as the
    storage engine never fails and room ids fit an [int]: the members of a room are exactly
    the sockets whose session is in that room; every session is in a room the server knows,
    and every known room is a row of the rooms table under its own name; the Lobby is always
    there; and the tables keep their keys and references.  A delete that fails does leave
    sessions in a room that is no longer known. *)
Theorem rooms_consistent {env : ServerEnv} tables w :
  (∀ n, env_db n = None) → db_wf tables → stored_rooms tables →
  steps (run_state Server_start (boot tables)) w → (sqlite_sequence (db w) < 2 ^ 31)%Z →
  db_wf (db w) ∧
  knownRooms w !! Room.name LOBBY = Some LOBBY ∧
  (∀ s n, s ∈ members_of w n ↔
     ∃ l, sessions w !! s = Some l ∧ Room.name (room (session_at w l)) = n) ∧
  (∀ s l, sessions w !! s = Some l →
     clientSocket (session_at w l) = s ∧
     knownRooms w !! Room.name (room (session_at w l)) = Some (room (session_at w l))) ∧
  (∀ n r, knownRooms w !! n = Some r → Room.name r = n ∧ room_to_row r ∈ rooms (db w)).
Proof.
  intros no_failure Hwf Hst Hsteps Hsmall.
  destruct (steps_consistent no_failure _ _ Hsteps (started_consistent no_failure tables Hwf Hst))
    as (Hwf' & _ & Hc).
  destruct (Hc Hsmall) as [[Hl Hn Hs Hr Hm _] [Hb _]]. split_and!; [done|done| | |].
  - intros s n. rewrite Hm. unfold expected. rewrite lookup_empty.
    destruct (sessions w !! s) as [l|]; cbn; naive_solver.
  - intros s l Hsl. split; [|by apply (Hr s l)]. destruct (Hs s l Hsl) as (o & Ho & <-).
    unfold session_at. by rewrite Ho.
  - eauto.
Qed.

(** a run with two clients, one of which logs in and opens a room *)
#[local] Existing Instance plain_server.

Definition login_packet : Packet.t := Packet.make 0 "admin" "" LOGIN "" "admin" 0.
Definition create_packet : Packet.t := Packet.make 0 "admin" "" ROOM_CREATE "Design" "PRIVATE" 0.
Definition join_packet : Packet.t := Packet.make 0 "admin" "" ROOM_JOIN "Design" "" 0.
Definition after_sign_in : World :=
  run_state (dispatchPacket 7 join_packet) (run_state (dispatchPacket 7 create_packet)
    (run_state (dispatchPacket 7 login_packet) (run_state (openSession 8)
      (run_state (openSession 7) (run_state Server_start (boot seeded)))))).

Lemma seeded_rooms : stored_rooms seeded.
Proof. exists []. split; [vm_compute; reflexivity|]. by intros r ?%elem_of_nil. Qed.
Lemma after_sign_in_steps : steps (run_state Server_start (boot seeded)) after_sign_in.
Proof.
  unfold after_sign_in. eapply rtc_l; [apply (step_accept 7); vm_compute; reflexivity|].
  eapply rtc_l; [apply (step_accept 8); vm_compute; reflexivity|].
  do 3 (eapply rtc_l; [apply step_packet|]). apply rtc_refl.
Qed.

Lemma rooms_consistent_witness :
  7%Z ∈ members_of after_sign_in "Design" ∧ 8%Z ∉ members_of after_sign_in "Design" ∧
  db_wf (db after_sign_in).
Proof.
  split; [apply (bool_decide_unpack _); vm_compute; exact I|].
  split; [apply (bool_decide_unpack _); vm_compute; exact I|].
  apply (rooms_consistent seeded after_sign_in).
  - done.
  - apply init_wf.
  - apply seeded_rooms.
  - apply after_sign_in_steps.
  - vm_compute. reflexivity.
Defined.

(** C23. At every moment the event log of a node is a window of at most 256 events: the
    identifiers in the order they came in are distinct, they are exactly the ones counted as
    seen and exactly the ones an event is stored for, and the event stored for an identifier
    carries that identifier, which is not empty. *)
Theorem event_log_window {env : ServerEnv} tables w :
  steps (run_state Server_start (boot tables)) w →
  let g := gossip w in
  length (recentEventIds g) <= 256 ∧ NoDup (recentEventIds g) ∧
  (∀ id, id ∈ seenEvents g ↔ id ∈ recentEventIds g) ∧
  (∀ id, is_Some (eventLog g !! id) ↔ id ∈ recentEventIds g) ∧
  (∀ id e, eventLog g !! id = Some e → GossipPayload.eventId (Packet.message e) = id ∧ id ≠ "").
Proof.
  intros Hsteps. assert (log_inv w) as [[Hnd Hseen Hlog Hid] Hlen].
  { pose proof (started_log tables) as Hw. revert Hw.
    induction Hsteps as [|w1 w2 w3 Hstep _ IH]; [done|]. intros Hw. by apply IH, (step_log w1). }
  cbv zeta. split_and!; [exact Hlen|done| |done|done].
  intros id. rewrite Hseen. unfold log_ids. apply elem_of_list_to_set.
Qed.
Lemma event_log_window_witness :
  NoDup (recentEventIds (gossip after_sign_in)) ∧ length (recentEventIds (gossip after_sign_in)) = 4.
Proof.
  split; [|vm_compute; reflexivity]. apply (event_log_window seeded after_sign_in).
  apply after_sign_in_steps.
Defined.

Lemma disconnect_forgets_witness :
  sessions (run_state (releaseClient 7) after_sign_in) = delete 7%Z (sessions after_sign_in) ∧
  (∀ n, 7%Z ∉ members_of (run_state (releaseClient 7) after_sign_in) n).
Proof.
  assert (consistent after_sign_in) as Hw.
  { apply (steps_consistent (env := plain_server) (λ _, eq_refl) _ _ after_sign_in_steps), (started_consistent (env := plain_server) (λ _, eq_refl));
      [apply init_wf|apply seeded_rooms]. }
  destruct (disconnect_forgets (env := plain_server) 7 after_sign_in (λ _, eq_refl) Hw) as (Hs & Hm & _);
    [vm_compute; reflexivity|]. split; [exact Hs|exact Hm].
Defined.
