(* ===== verification/Process.v ===== *)
(** The server process (src/server/server.cpp): its ports, threads and start-up and shut-down,
    with the parts of ConnectionManager, WebConnection, GossipManager and Heartbeat that open
    and close ports and run threads (src/server/connection_manager.cpp, web_connection.cpp,
    gossip_manager.cpp, heartbeat.cpp).

    [Process] is the node's [World] with the flags, sockets and threads around it.  A thread
    that serves a connection is a [Handler]: it is running until it has released its client.
    Joining a handler lets it run to its end, which by then is near: its socket is closed and
    its loop condition false, so what is left of it is [releaseClient].  [listeners] are the
    listening sockets the process holds open, [winsock] counts start-ups less clean-ups.

    The theorem: through any sequence of starts, stops, connections, requests and timer
    rounds the process is either up, with both ports open and a running handler for every
    session, or down, holding nothing; and [stop] always brings it down. *)
From S2P Require Import Prelude Packet Models WebFrame DatabaseManager World RoomManager.
From S2P Require Import GossipManager PacketProcessor ConnectionManager Server.
From stdpp Require Import options.

(** * Definitions *)

(** what the operating system answers, in order *)
Class ProcessEnv := {
  os_listen : nat → Z;           (* the socket [socket_io::listenTo] returned *)
  os_port : nat → option Z;      (* the port [getsockname] told *)
  os_winsock : nat → bool;       (* did [WSAStartup] succeed *)
  os_thread : nat → bool         (* could a thread be created *)
}.

Record Handler := mkHandler { h_socket : Z; h_running : bool }.

Record Process := mkProcess {
  world : World;
  (* ConnectionManager *)
  listening : bool;
  listeningSocket : Z;
  clientThreads : list Handler;
  (* WebConnection *)
  web_listening : bool;
  web_socket : Z;
  listenPort : Z;
  web_threads : list Handler;
  liveSockets : list Z;
  (* GossipManager *)
  peer_socket : Z;
  (* Heartbeat *)
  hb_running : bool;
  hb_stopped : bool;
  hb_thread : bool;              (* the thread object is joinable *)
  (* Server *)
  running : bool;
  checks : nat;                  (* health checks added to the monitor *)
  (* the operating system *)
  listeners : list Z;
  winsock : Z;
  os_reads : nat
}.

Notation MP := (SE Process).

Definition set_world v p := mkProcess v (listening p) (listeningSocket p) (clientThreads p)
  (web_listening p) (web_socket p) (listenPort p) (web_threads p) (liveSockets p) (peer_socket p)
  (hb_running p) (hb_stopped p) (hb_thread p) (running p) (checks p) (listeners p) (winsock p) (os_reads p).
Definition set_tcp l s t p := mkProcess (world p) l s t
  (web_listening p) (web_socket p) (listenPort p) (web_threads p) (liveSockets p) (peer_socket p)
  (hb_running p) (hb_stopped p) (hb_thread p) (running p) (checks p) (listeners p) (winsock p) (os_reads p).
Definition set_web l s n t live p := mkProcess (world p) (listening p) (listeningSocket p) (clientThreads p)
  l s n t live (peer_socket p)
  (hb_running p) (hb_stopped p) (hb_thread p) (running p) (checks p) (listeners p) (winsock p) (os_reads p).
Definition set_peer s p := mkProcess (world p) (listening p) (listeningSocket p) (clientThreads p)
  (web_listening p) (web_socket p) (listenPort p) (web_threads p) (liveSockets p) s
  (hb_running p) (hb_stopped p) (hb_thread p) (running p) (checks p) (listeners p) (winsock p) (os_reads p).
Definition set_hb r s t p := mkProcess (world p) (listening p) (listeningSocket p) (clientThreads p)
  (web_listening p) (web_socket p) (listenPort p) (web_threads p) (liveSockets p) (peer_socket p)
  r s t (running p) (checks p) (listeners p) (winsock p) (os_reads p).
Definition set_server r c p := mkProcess (world p) (listening p) (listeningSocket p) (clientThreads p)
  (web_listening p) (web_socket p) (listenPort p) (web_threads p) (liveSockets p) (peer_socket p)
  (hb_running p) (hb_stopped p) (hb_thread p) r c (listeners p) (winsock p) (os_reads p).
Definition set_os l n r p := mkProcess (world p) (listening p) (listeningSocket p) (clientThreads p)
  (web_listening p) (web_socket p) (listenPort p) (web_threads p) (liveSockets p) (peer_socket p)
  (hb_running p) (hb_stopped p) (hb_thread p) (running p) (checks p) l n r.

Section with_env.
Context {env : ServerEnv} {os : ProcessEnv}.

(** an operation of the node *)
Definition node {A} (m : SE World A) : MP A := zoom world set_world m.

Definition os_read : MP nat := λ p, (Ok (os_reads p), set_os (listeners p) (winsock p) (S (os_reads p)) p).
(** [socket_io::listenTo] holds a socket only when it returns one *)
Definition listenTo : MP Z :=
  n ← os_read;
  when (negb (os_listen n =? INVALID_SOCKET)%Z)
    (modify (λ p, set_os (os_listen n :: listeners p) (winsock p) (os_reads p) p)) ;;
  mret (os_listen n).
Definition remove_one (s : Z) (l : list Z) : list Z :=
  match list_find (s =.) l with Some (i, _) => take i l ++ drop (S i) l | None => l end.
Definition close_listener (s : Z) : MP unit :=
  modify (λ p, set_os (remove_one s (listeners p)) (winsock p) (os_reads p) p).
Definition WSAStartup : MP bool :=
  n ← os_read;
  if os_winsock n then modify (λ p, set_os (listeners p) (winsock p + 1)%Z (os_reads p) p) ;; mret true
  else mret false.
Definition WSACleanup : MP unit := modify (λ p, set_os (listeners p) (winsock p - 1)%Z (os_reads p) p).

(** joining a handler: it releases its client unless it has done so before *)
Definition join_handler (h : Handler) : MP unit :=
  if h_running h then node (releaseClient (h_socket h)) else mret tt.

(** ** ConnectionManager *)

Definition cm_startListening : MP bool :=
  already ← gets listening;
  if (already : bool) then mret false
  else
    socketFd ← listenTo;
    if (socketFd =? INVALID_SOCKET)%Z then mret false
    else modify (λ p, set_tcp true socketFd (clientThreads p) p) ;; mret true.

Definition cm_joinClientThreads : MP unit :=
  toJoin ← gets clientThreads;
  modify (λ p, set_tcp (listening p) (listeningSocket p) [] p) ;;
  for_each toJoin join_handler.

Definition cm_stopListening : MP unit :=
  was ← gets listening;
  modify (λ p, set_tcp false (listeningSocket p) (clientThreads p) p) ;;
  if negb was then cm_joinClientThreads
  else
    s ← gets listeningSocket;
    when (negb (s =? INVALID_SOCKET)%Z)
      (close_listener s ;; modify (λ p, set_tcp (listening p) INVALID_SOCKET (clientThreads p) p)) ;;
    node close_all ;;
    cm_joinClientThreads.

(** [spawnClientHandler] *)
Definition spawnClientHandler (fd : Z) : MP unit :=
  open ← gets listening;
  if (open : bool)
  then modify (λ p, set_tcp (listening p) (listeningSocket p) (clientThreads p ++ [mkHandler fd true]) p)
  else node (closeClient fd) ;; node (removeSession fd).

(** one round of [acceptLoop] with the socket [accept] returned *)
Definition cm_accept (fd : Z) : MP unit :=
  open ← gets listening;
  if negb open then mret tt
  else
    opened ← node (openSession fd);
    when opened (spawnClientHandler fd).

(** ** WebConnection *)

Definition web_startListening : MP bool :=
  already ← gets web_listening;
  if (already : bool) then mret false
  else
    fd ← listenTo;
    modify (λ p, set_web (web_listening p) fd (listenPort p) (web_threads p) (liveSockets p) p) ;;
    if (fd =? INVALID_SOCKET)%Z then mret false
    else
      n ← os_read;
      match os_port n with
      | None =>
          close_listener fd ;;
          modify (λ p, set_web (web_listening p) INVALID_SOCKET (listenPort p) (web_threads p) (liveSockets p) p) ;;
          mret false
      | Some port =>
          modify (λ p, set_web true (web_socket p) port (web_threads p) (liveSockets p) p) ;;
          mret true
      end.

(** [shutdown] of the live sockets only wakes their readers *)
Definition web_stopListening : MP unit :=
  was ← gets web_listening;
  modify (λ p, set_web false (web_socket p) (listenPort p) (web_threads p) (liveSockets p) p) ;;
  if negb was then mret tt
  else
    s ← gets web_socket;
    when (negb (s =? INVALID_SOCKET)%Z)
      (close_listener s ;;
       modify (λ p, set_web (web_listening p) INVALID_SOCKET (listenPort p) (web_threads p) (liveSockets p) p)).

Definition track (fd : Z) : MP bool :=
  open ← gets web_listening;
  if negb open then mret false
  else
    modify (λ p, set_web (web_listening p) (web_socket p) (listenPort p) (web_threads p) (liveSockets p ++ [fd]) p) ;;
    mret true.
(** the first occurrence goes *)
Definition untrack (fd : Z) : MP unit :=
  modify (λ p, set_web (web_listening p) (web_socket p) (listenPort p) (web_threads p) (remove_one fd (liveSockets p)) p).

(** one round of its [acceptLoop] *)
Definition web_accept (fd : Z) : MP unit :=
  open ← gets web_listening;
  if negb open then mret tt
  else
    tracked ← track fd;
    if negb tracked then node (close_socket fd)
    else
      still ← gets web_listening;
      if negb still then untrack fd ;; node (close_socket fd)
      else modify (λ p, set_web (web_listening p) (web_socket p) (listenPort p)
                          (web_threads p ++ [mkHandler fd true]) (liveSockets p) p).

(** what is left of [handleBrowser] once its socket fails: a browser without a session is
    turned away by [finish] *)
Definition browser_ends (fd : Z) : MP unit :=
  handedOff ← gets (λ p, bool_decide (is_Some (sessions (world p) !! fd)));
  node (if (handedOff : bool) then releaseClient fd else close_socket fd) ;;
  untrack fd.

Definition web_joinClientThreads : MP unit :=
  clients ← gets web_threads;
  modify (λ p, set_web (web_listening p) (web_socket p) (listenPort p) [] (liveSockets p) p) ;;
  for_each clients (λ h, when (h_running h) (browser_ends (h_socket h))).

(** ** Handlers *)

(** a handler leaves its loop: it releases its client and ends *)
Definition finished (fd : Z) (h : Handler) : Handler :=
  if (h_socket h =? fd)%Z then mkHandler fd false else h.
Definition client_leaves (fd : Z) : MP unit :=
  modify (λ p, set_tcp (listening p) (listeningSocket p) (finished fd <$> clientThreads p) p) ;;
  node (releaseClient fd).
Definition web_finished (fd : Z) : MP unit :=
  modify (λ p, set_web (web_listening p) (web_socket p) (listenPort p) (finished fd <$> web_threads p) (liveSockets p) p).
Definition browser_leaves (fd : Z) : MP unit := web_finished fd ;; browser_ends fd.
(** the upgraded browser gets its session, or its handler ends *)
Definition browser_opens (fd : Z) : MP unit :=
  node (markWebSocket fd) ;;
  opened ← node (openSession fd);
  when (negb opened) (web_finished fd ;; untrack fd).

(** ** Heartbeat *)

(** [Heartbeat::start]; a worker that ended on its own is joined first *)
Definition hb_start : MP unit :=
  already ← gets hb_running;
  if (already : bool) then mret tt
  else
    modify (set_hb true false false) ;;
    n ← os_read;
    if os_thread n then modify (set_hb true false true)
    else modify (set_hb false true false).

(** [Heartbeat::stop]: the worker sees the flag in its wait or before its next round *)
Definition hb_stop : MP unit :=
  joinable ← gets hb_thread;
  modify (set_hb false true false) ;;
  when joinable (mret tt).

(** [Heartbeat::run] for the given waits, [true] when the flag ended one *)
Fixpoint hb_run (waits : list bool) : SE World unit :=
  match waits with
  | [] | true :: _ => mret tt
  | false :: waits => try_catch pingOnce (λ _, mret tt) ;; hb_run waits
  end.
(** one round of it *)
Definition hb_round : MP unit :=
  alive ← gets hb_thread;
  stop ← gets hb_stopped;
  when (alive && negb stop) (node (hb_run [false])).

(** ** GossipManager *)

Definition gm_start : MP unit :=
  halted ← gets (λ p, stopped (gossip (world p)));
  if negb halted then mret tt
  else
    fd ← listenTo;
    if (fd =? INVALID_SOCKET)%Z then mret tt
    else modify (set_peer fd) ;; node GossipManager.start.
Definition gm_stop : MP unit :=
  halted ← gets (λ p, stopped (gossip (world p)));
  if (halted : bool) then mret tt
  else
    s ← gets peer_socket;
    when (negb (s =? INVALID_SOCKET)%Z) (close_listener s ;; modify (set_peer INVALID_SOCKET)) ;;
    node GossipManager.stop.
Definition setGossip (v : bool) : MP unit :=
  modify (λ p, set_world (let w := world p in mkWorld (db w) (heap w) (next_loc w) (sessions w) (webSockets w)
    (knownRooms w) (members w) v (gossip w) (nextPresenceSeq w) (dropLogoutSeq w) (net w) (reads w)) p).

(** ** Server *)

Definition server_start : MP unit :=
  already ← gets running;
  if (already : bool) then mret tt
  else
    node (db_do (clearNodePresence NODE_ID)) ;;
    ok ← WSAStartup;
    if negb ok then mret tt
    else
      tcp ← cm_startListening;
      if negb tcp then WSACleanup
      else
        web ← web_startListening;
        if negb web then cm_stopListening ;; WSACleanup
        else
          modify (λ p, set_server true (checks p) p) ;;
          hb_start ;;
          setGossip true ;;
          gm_start ;;
          modify (λ p, set_server (running p) (checks p + 3) p).

Definition server_stop : MP unit :=
  up ← gets running;
  if negb up then mret tt
  else
    modify (λ p, set_server false (checks p) p) ;;
    web_stopListening ;;
    hb_stop ;;
    gm_stop ;;
    setGossip false ;;
    cm_stopListening ;;
    cm_joinClientThreads ;;
    web_joinClientThreads ;;
    WSACleanup.

(** ** The steps of the process

    A step is one whole operation of one thread that returned: an exception that leaves a
    thread ends the program.  A connection gets a socket that nobody in the process still
    uses. *)

(** the sockets of the running handlers *)
Definition served (l : list Handler) : list Z := h_socket <$> filter (λ h, h_running h = true) l.
Definition unused (fd : Z) (p : Process) : Prop :=
  sessions (world p) !! fd = None ∧ fd ∉ served (clientThreads p) ++ served (web_threads p).

Inductive move : Process → Process → Prop :=
  | move_start p p' : server_start p = (Ok tt, p') → move p p'
  | move_stop p p' : server_stop p = (Ok tt, p') → move p p'
  | move_accept fd p p' : unused fd p → cm_accept fd p = (Ok tt, p') → move p p'
  | move_web_accept fd p p' : unused fd p → web_accept fd p = (Ok tt, p') → move p p'
  | move_upgrade fd p p' : fd ∈ served (web_threads p) → sessions (world p) !! fd = None →
      browser_opens fd p = (Ok tt, p') → move p p'
  | move_client_leaves fd p p' : fd ∈ served (clientThreads p) →
      client_leaves fd p = (Ok tt, p') → move p p'
  | move_browser_leaves fd p p' : fd ∈ served (web_threads p) →
      browser_leaves fd p = (Ok tt, p') → move p p'
  | move_packet fd packet b p p' : node (dispatchPacket fd packet) p = (Ok b, p') → move p p'
  | move_ping_frame fd payload b p p' : node (answer_ping fd payload) p = (Ok b, p') → move p p'
  | move_heartbeat p p' : hb_round p = (Ok tt, p') → move p p'
  | move_peer_accept fd p p' : node (accept_peer fd) p = (Ok tt, p') → move p p'
  | move_peer_dial l p p' : node (dial_round PEERS) p = (Ok l, p') → move p p'
  | move_peer_packet fd b packet r p p' :
      node (handle_peer_packet fd b packet) p = (Ok r, p') → move p p'
  | move_peer_gone fd p p' : node (peer_gone fd) p = (Ok tt, p') → move p p'
  | move_digest p p' : node anti_entropy_round p = (Ok tt, p') → move p p'.

End with_env.

(** a process that was not started; the room manager's constructor has loaded the rooms *)
Definition fresh_process `{ServerEnv} (tables : Db) : Process :=
  mkProcess (run_state RoomManager_init (boot tables)) false INVALID_SOCKET [] false INVALID_SOCKET 0 [] [] INVALID_SOCKET
    false false false false 0 [] 0 0.

(** ** What a process is between steps *)

(** it holds nothing *)
Definition idle (p : Process) : Prop :=
  listening p = false ∧ web_listening p = false ∧ listeners p = [] ∧ winsock p = 0%Z ∧
  clientThreads p = [] ∧ web_threads p = [] ∧ liveSockets p = [] ∧
  sessions (world p) = ∅ ∧ stopped (gossip (world p)) = true ∧ gossip_set (world p) = false ∧
  hb_running p = false ∧ hb_thread p = false.

(** both ports are open, and the peer port unless it could not be *)
Definition open_ports (p : Process) : Prop :=
  listeningSocket p ≠ INVALID_SOCKET ∧ web_socket p ≠ INVALID_SOCKET ∧
  (if stopped (gossip (world p)) then listeners p ≡ₚ [listeningSocket p; web_socket p]
   else peer_socket p ≠ INVALID_SOCKET ∧ listeners p ≡ₚ [listeningSocket p; web_socket p; peer_socket p]).
Definition up (p : Process) : Prop :=
  listening p = true ∧ web_listening p = true ∧ winsock p = 1%Z ∧ gossip_set (world p) = true ∧
  open_ports p.

(** every session has a handler of its own that runs; a live socket is one a browser handler
    runs on *)
Definition attended (p : Process) : Prop :=
  (∀ s l, sessions (world p) !! s = Some l → s ∈ served (clientThreads p) ++ served (web_threads p)) ∧
  NoDup (served (clientThreads p) ++ served (web_threads p)) ∧
  liveSockets p ≡ₚ served (web_threads p).

Definition tidy (p : Process) : Prop :=
  if running p then up p ∧ attended p else idle p.

(** * Lemmas *)

(** ** What the node's operations do to the sessions and the gossip flags *)

Definition seats (T : gmap Z loc) (b g : bool) (w : World) : Prop :=
  sessions w = T ∧ stopped (gossip w) = b ∧ gossip_set w = g.

Lemma quiet_seats T b g : quiet (seats T b g).
Proof. by intros w n t Hw. Qed.
Lemma db_do_seats {A} T b g (m : SE Db A) : preserves (seats T b g) (db_do m).
Proof. intros w Hw. unfold run_state, run_out, db_do, zoom. by destruct (m (db w)). Qed.
Lemma modify_seats T b g f :
  (∀ w, sessions (f w) = sessions w ∧ stopped (gossip (f w)) = stopped (gossip w) ∧ gossip_set (f w) = gossip_set w) →
  preserves (seats T b g) (modify f).
Proof. intros H. apply preserves_modify. intros w (?&?&?). destruct (H w) as (?&?&?). split_and!; congruence. Qed.
#[export] Hint Resolve quiet_seats db_do_seats : pres.
#[export] Hint Extern 5 (preserves (seats _ _ _) (modify _)) =>
  apply modify_seats; intros ?; split_and!; reflexivity : pres.

Lemma evict_stopped n g : stopped (evict n g) = stopped g.
Proof. revert g. induction n as [|n IH]; intros g; cbn [evict]; [done|]. repeat case_match; try done; by rewrite IH. Qed.

Section seats.
Context {env : ServerEnv}.

Lemma remember_seats T b g i e : preserves (seats T b g) (remember i e).
Proof.
  intros w Hw. unfold run_state, run_out, remember, mbind, SE_bind, gets, note_event.
  destruct (decide _); [done|]. cbn. destruct Hw as (?&?&?). split_and!; cbn; [done| |done].
  unfold rememberEventLocked. by rewrite evict_stopped.
Qed.
Lemma joinRoom_seats T b g n l : preserves (seats T b g) (joinRoom n l).
Proof.
  unfold joinRoom, getRoomOf, getUser, isAuthenticated, getSocket, removeSocketLocked, setRoom,
    insert_member, rollback_join, removeSocketLocked, setRoom, insert_member. solve_pres.
Qed.
Lemma leaveAll_seats T b g l : preserves (seats T b g) (leaveAll l).
Proof.
  unfold leaveAll, getRoomOf, getUser, isAuthenticated, getSocket, removeSocketLocked, setRoom. solve_pres.
Qed.
Lemma createRoom_seats T b g r e : preserves (seats T b g) (createRoom r e).
Proof. unfold createRoom. solve_pres. Qed.
Lemma deleteRoom_seats T b g n : preserves (seats T b g) (deleteRoom n).
Proof.
  unfold deleteRoom, listRooms, move_to_lobby, insert_member, setRoom, isAuthenticated, getUser. solve_pres.
Qed.
Hint Resolve remember_seats joinRoom_seats leaveAll_seats createRoom_seats deleteRoom_seats : pres.
Lemma applyEvent_seats T b g e : preserves (seats T b g) (applyEvent e).
Proof.
  unfold applyEvent, apply_login, apply_reconnect, apply_logout, apply_user_created,
    apply_room_created, apply_acl_add, apply_room_deleted, apply_room_kick, apply_room_join,
    apply_room_leave, apply_message, detach_session, expel_session, push_rooms, listRooms, getRoom,
    getSessions, isAuthenticated, getUser, getRoomOf, setAuthenticated, setUser. solve_pres.
Qed.
Hint Resolve applyEvent_seats : pres.
Lemma rumor_seats T b g e : preserves (seats T b g) (rumor e).
Proof. unfold rumor, peerSend. cbv zeta. solve_pres. Qed.
Hint Resolve rumor_seats : pres.
Lemma handle_peer_packet_seats T b g s r p : preserves (seats T b g) (handle_peer_packet s r p).
Proof.
  unfold handle_peer_packet, handle_hello, handle_event, registerPeer, notifyServerDirectoryChanged,
    buildServerDirectory, handle_digest, handle_pull, peerSend, modify_gossip. cbv zeta. solve_pres.
Qed.
Lemma peer_gone_seats T b g s : preserves (seats T b g) (peer_gone s).
Proof.
  unfold peer_gone, removePeer, notifyServerDirectoryChanged, buildServerDirectory, modify_gossip. solve_pres.
Qed.
Lemma accept_peer_seats T b g s : preserves (seats T b g) (accept_peer s).
Proof. unfold accept_peer, hello_packet, peerSend, modify_gossip. solve_pres. Qed.
Lemma dial_round_seats T b g l : preserves (seats T b g) (dial_round l).
Proof. induction l as [|a l IH]; cbn [dial_round]; unfold hello_packet, peerSend, modify_gossip; solve_pres. Qed.
Lemma anti_entropy_seats T b g : preserves (seats T b g) anti_entropy_round.
Proof. unfold anti_entropy_round, peerSend. solve_pres. Qed.
Lemma rumorEvent_seats T b g t u c f r : preserves (seats T b g) (rumorEvent t u c f r).
Proof. unfold rumorEvent, makeEventId, connections_rumor. solve_pres. Qed.
Hint Resolve rumorEvent_seats : pres.
Lemma processPacket_seats T b g p l : preserves (seats T b g) (processPacket p l).
Proof.
  unfold processPacket, prepare. pres_step; [solve_pres|intros r].
  destruct (Packet.type p);
    unfold process_heartbeat, process_unsupported, process_unknown, process_login, process_register,
      process_reconnect, process_logout, process_message, process_room_join, process_room_leave,
      process_room_create, process_room_invite, process_room_delete, process_room_kick,
      process_load_history, process_update_user, enter_as, kick_local, findSessionByUsername,
      pushLobbyTo, pushRoomDirectory, encodeRoomDirectory, listRooms, refreshServerDirectory,
      buildServerDirectory, resume_room, private_blocked, may_manage, isAdmin, constraint_or,
      or_current, owner_live, getRoom, getRoomOf, getUser, isAuthenticated, setUser, setAuthenticated,
      hasSession, connections_isNodeLive, isNodeLive, rumorPresence, rumorMessage, rumorUserCreated,
      rumorRoomJoin, rumorRoomCreated, rumorAclAdd, rumorRoomKick, rumorRoomDeleted, getSocket;
    cbv zeta; solve_pres.
Qed.
Lemma dispatchPacket_seats T b g s p : preserves (seats T b g) (dispatchPacket s p).
Proof. pose proof processPacket_seats. unfold dispatchPacket, touch. solve_pres. Qed.
Lemma answer_ping_seats T b g s p : preserves (seats T b g) (answer_ping s p).
Proof. unfold answer_ping. solve_pres. Qed.
Lemma markWebSocket_seats T b g s : preserves (seats T b g) (markWebSocket s).
Proof. unfold markWebSocket. solve_pres. Qed.
Lemma closeClient_seats T b g s : preserves (seats T b g) (closeClient s).
Proof. unfold closeClient, markClosed, isClosed. solve_pres. Qed.
Hint Resolve closeClient_seats : pres.
Lemma pingOnce_seats T b g : preserves (seats T b g) pingOnce.
Proof.
  assert (∀ p l, preserves (seats T b g) (ping_loop p l)).
  { intros p l. induction l as [|e l IH]; cbn [ping_loop];
      unfold is_listening, ping_session, isClosed, isAlive, getSocket; cbv zeta; solve_pres. }
  unfold pingOnce, getSessions. solve_pres.
Qed.
Lemma close_all_seats T b g : preserves (seats T b g) close_all.
Proof. unfold close_all. solve_pres. Qed.
End seats.
#[export] Hint Resolve rumor_seats joinRoom_seats leaveAll_seats closeClient_seats : pres.

(** ** Opening and releasing a connection *)

Section connections.
Context {env : ServerEnv}.

Lemma removeSession_seats T b g s :
  triple (seats T b g) (removeSession s) (λ _, seats (delete s T) b g).
Proof.
  intros w Hw. pose proof Hw as (HT & _ & _).
  unfold run_state, removeSession, mbind, SE_bind. unfold gets at 1. rewrite HT.
  destruct (T !! s) as [l|] eqn:Hl; [|by rewrite delete_id].
  unfold modify at 1. rewrite HT. set (w1 := set_webSockets _ _).
  assert (seats (delete s T) b g w1) as Hw1 by (destruct Hw as (_ & ? & ?); done). clearbody w1. revert w1 Hw1.
  change (preserves (seats (delete s T) b g) (wasAuth ← isAuthenticated l;
      u ← getUser l;
      leaveAll l ;;
      if negb wasAuth || is_empty (User.username u) then mret tt
      else
        present ← gets gossip_set;
        if (present : bool) then drop_logout (User.username u)
        else
          try_catch (db_do (clearOnline (User.username u)) ;; db_do (clearAllMembership (User.username u)))
            (λ _, mret tt))).
  unfold drop_logout, isAuthenticated, getUser. cbv zeta. solve_pres.
Qed.
Lemma closeClient_total s : total (closeClient s).
Proof. unfold closeClient, markClosed, isClosed, close_socket. solve_total. Qed.
Lemma releaseClient_seats T b g s :
  triple (seats T b g) (releaseClient s) (λ _, seats (delete s T) b g).
Proof.
  unfold releaseClient. apply (triple_bind _ _ _ (λ o w, (∃ a, o = Ok a) ∧ seats T b g w)).
  - intros w Hw. split; [apply closeClient_total|by apply closeClient_seats].
  - intros _ w [_ Hw]. by apply removeSession_seats.
  - by intros e w [[? ?] _].
Qed.
(** without gossip nothing of it throws *)
Lemma releaseClient_quiet T b s :
  runs (seats T b false) (releaseClient s) (λ _, seats (delete s T) b false).
Proof.
  intros w Hw. pose proof (releaseClient_seats T b false s w Hw) as Hs.
  enough (∃ a, run_out (releaseClient s) w = Ok a) as [[] Ha].
  { unfold run_out, run_state in *. destruct (releaseClient s w) as [o w']. cbn in *. subst o. by exists tt, w'. }
  unfold run_out, releaseClient, mbind, SE_bind.
  pose proof (closeClient_seats T b false s w Hw) as Hc. destruct (closeClient_total s w) as [[] Ho].
  unfold run_out, run_state in *. destruct (closeClient s w) as [o w1]. cbn in *. subst o.
  unfold removeSession, mbind, SE_bind. unfold gets at 1. destruct (sessions w1 !! s) as [l|]; [|by exists tt].
  unfold modify at 1. set (w2 := set_webSockets _ _).
  assert (seats (delete s (sessions w1)) b false w2) as H2 by (destruct Hc as (_ & ? & ?); done). clearbody w2.
  unfold isAuthenticated, getUser. unfold gets at 1 2. cbv beta iota.
  pose proof (leaveAll_seats _ _ _ l w2 H2) as H3. destruct (leaveAll_total l w2) as [[] Hl].
  unfold run_out, run_state in *. destruct (leaveAll l w2) as [o w3]. cbn in *. subst o.
  case_match; [by exists tt|]. cbv beta. destruct H3 as (_ & _ & ->).
  unfold try_catch. cbv beta. destruct (db_do (clearOnline _) w3) as [[?|?] w4]; [|by exists tt].
  destruct (db_do (clearAllMembership _) w4) as [[[]|?] w5]; by exists tt.
Qed.

(** a connection that is not opened leaves nothing behind *)
Definition opened_or_gone (T : gmap Z loc) (b g : bool) (s : Z) (o : outcome bool) (w : World) : Prop :=
  match o with
  | Ok true => ∃ l, seats (<[s := l]> T) b g w
  | Ok false => seats T b g w
  | Throw _ => True
  end.
Lemma open_bind U T b g s {A} (m : M A) f :
  preserves (seats U b g) m → (∀ a, triple (seats U b g) (f a) (opened_or_gone T b g s)) →
  triple (seats U b g) (m ≫= f) (opened_or_gone T b g s).
Proof. intros Hm Hf. exact (triple_bind _ m f (λ _, seats U b g) _ Hm Hf (λ e w _, I)). Qed.
Lemma greet_seats T b g s l placed : T !! s = None →
  triple (seats (<[s := l]> T) b g) (greet s l placed) (opened_or_gone T b g s).
Proof.
  intros Hs. set (T' := <[s := l]> T).
  assert (triple (seats T' b g) (releaseClient s ;; mret false) (opened_or_gone T b g s)) as Hrel.
  { refine (triple_bind _ _ _ _ _ (releaseClient_seats T' b g s) (λ _ w Hw, _) (λ e w _, I)).
    unfold T' in Hw. by rewrite delete_insert_id in Hw. }
  unfold greet. destruct (negb placed); [done|].
  apply open_bind; [unfold listRooms; solve_pres|intros rooms]. cbv zeta.
  apply open_bind; [apply preserves_gets|intros u]. apply open_bind; [solve_pres|intros p].
  apply open_bind; [solve_pres|intros sent]. destruct (negb sent); [done|].
  apply open_bind; [apply preserves_gets|intros present].
  apply open_bind; [unfold buildServerDirectory; solve_pres|]. intros _ w Hw. by exists l.
Qed.
Lemma openSession_seats T b g s : T !! s = None →
  triple (seats T b g) (openSession s) (opened_or_gone T b g s).
Proof.
  intros Hs. unfold openSession.
  apply open_bind; [solve_pres|intros u].
  apply open_bind; [unfold new_session; solve_pres|intros l].
  refine (triple_bind _ _ _ (λ _, seats (<[s := l]> T) b g) _ _ (λ _, _) (λ e w _, I)).
  { intros w (HT & ? & ?). split_and!; [cbn; by rewrite HT|done|done]. }
  apply open_bind; [solve_pres|intros placed]. by apply greet_seats.
Qed.
End connections.

(** ** Lists of sockets and handlers *)

Lemma remove_one_perm s l : s ∈ l → l ≡ₚ s :: remove_one s l.
Proof.
  intros Hin. unfold remove_one. destruct (list_find (s =.) l) as [[i x]|] eqn:E.
  - apply list_find_Some in E as (Hi & -> & _). cbn.
    rewrite (Permutation_middle (take i l) (drop (S i) l)). by rewrite (take_drop_middle l i _ Hi).
  - apply list_find_None in E. rewrite Forall_forall in E. by destruct (E s Hin).
Qed.
Lemma remove_one_head s l k : l ≡ₚ s :: k → remove_one s l ≡ₚ k.
Proof.
  intros H. apply (Permutation_cons_inv (a := s)). rewrite <-H. symmetry. apply remove_one_perm.
  rewrite H. set_solver.
Qed.
Lemma remove_all k : ∀ l, l ≡ₚ k → foldl (λ l s, remove_one s l) l k = [].
Proof.
  induction k as [|s k IH]; intros l H; cbn; [by apply Permutation_nil_r|].
  apply IH. by apply remove_one_head.
Qed.

Arguments served : simpl never.
Lemma served_app l k : served (l ++ k) = served l ++ served k.
Proof. unfold served. by rewrite filter_app, fmap_app. Qed.
Lemma served_snoc l fd : served (l ++ [mkHandler fd true]) = served l ++ [fd].
Proof. apply served_app. Qed.
Lemma served_cons s (r : bool) l :
  served (mkHandler s r :: l) = if r then s :: served l else served l.
Proof. by destruct r. Qed.
Lemma served_finished fd l : served (finished fd <$> l) = filter (λ s, s ≠ fd) (served l).
Proof.
  induction l as [|[s r] l IH]; [done|]. cbn [fmap list_fmap]. unfold finished at 1. cbn [h_socket].
  rewrite served_cons. destruct (Z.eqb_spec s fd) as [->|Hne]; rewrite served_cons; destruct r.
  - by rewrite filter_cons, decide_False by tauto.
  - done.
  - rewrite filter_cons, decide_True by done. by f_equal.
  - done.
Qed.
(** the socket of one handler goes *)
Lemma filter_gone fd (l : list Z) : fd ∉ l → filter (λ s, s ≠ fd) l = l.
Proof.
  induction l as [|x l IH]; [done|]. rewrite not_elem_of_cons. intros [Hx Hl].
  rewrite filter_cons, decide_True by done. by rewrite IH.
Qed.
Lemma remove_one_filter fd l k :
  NoDup k → fd ∈ k → l ≡ₚ k → remove_one fd l ≡ₚ filter (λ s, s ≠ fd) k.
Proof.
  intros Hnd Hin Hl. apply remove_one_head. rewrite Hl.
  apply elem_of_Permutation in Hin as [k' Hk]. rewrite Hk in *. rewrite filter_cons, decide_False by tauto.
  apply NoDup_cons in Hnd as [Hno _]. by rewrite filter_gone.
Qed.

(** sessions that go one after the other *)
Definition without (T : gmap Z loc) (l : list Z) : gmap Z loc := foldl (λ T s, delete s T) T l.
Lemma without_lookup l : ∀ T s x, without T l !! s = Some x → T !! s = Some x ∧ s ∉ l.
Proof.
  induction l as [|y l IH]; intros T s x; cbn; [set_solver|]. intros [H Hl]%IH.
  apply lookup_delete_Some in H as [Hne H]. rewrite not_elem_of_cons. auto.
Qed.

(** ** Running parts of the node *)

Lemma node_run {env : ServerEnv} {A} (m : M A) p :
  node m p = (run_out m (world p), set_world (run_state m (world p)) p).
Proof. unfold node, zoom, run_out, run_state. by destruct (m (world p)). Qed.

Section process.
Context {env : ServerEnv} {os : ProcessEnv}.

(** what keeps the sessions and the gossip flags keeps the process tidy *)
Lemma tidy_frame w p :
  sessions w = sessions (world p) → stopped (gossip w) = stopped (gossip (world p)) →
  gossip_set w = gossip_set (world p) → tidy p → tidy (set_world w p).
Proof using env.
  intros Hs Hg Hp. unfold tidy, up, open_ports, attended, idle. cbn. by rewrite Hs, Hg, Hp.
Qed.
Lemma node_tidy {A} (m : M A) o p p' :
  (∀ T b g, preserves (seats T b g) m) → node m p = (o, p') → tidy p → tidy p'.
Proof using env.
  intros Hm Hrun Hp. rewrite node_run in Hrun. injection Hrun as <- <-.
  destruct (Hm _ _ _ (world p) (conj eq_refl (conj eq_refl eq_refl))) as (?&?&?). by apply tidy_frame.
Qed.

(** joining handlers releases what they served *)
Lemma join_handlers hs : ∀ T b w q, seats T b false w →
  ∃ w', for_each hs join_handler (set_world w q) = (Ok tt, set_world w' q) ∧
    seats (without T (served hs)) b false w'.
Proof using env.
  induction hs as [|[s r] hs IH]; intros T b w q Hw; cbn [for_each]; [by exists w|].
  unfold mbind, SE_bind, join_handler at 1. cbn [h_running h_socket]. destruct r; [|by apply IH].
  destruct (releaseClient_quiet T b s w Hw) as ([] & w1 & Hrun & Hw1).
  rewrite node_run. unfold run_out, run_state. cbn [world set_world]. rewrite Hrun. cbn [fst snd].
  by apply (IH (delete s T) b w1 q).
Qed.
Lemma join_browsers hs : ∀ T b q, seats T b false (world q) →
  ∃ w', for_each hs (λ h, when (h_running h) (browser_ends (h_socket h))) q =
      (Ok tt, set_world w' (set_web (web_listening q) (web_socket q) (listenPort q) (web_threads q)
                 (foldl (λ l s, remove_one s l) (liveSockets q) (served hs)) q)) ∧
    seats (without T (served hs)) b false w'.
Proof using env.
  induction hs as [|[s r] hs IH]; intros T b q Hw; cbn [for_each].
  { exists (world q). split; [by destruct q|done]. }
  unfold mbind, SE_bind. cbn [h_running h_socket]. destruct r; cbn [when]; [|by apply IH].
  assert (∃ w', browser_ends s q = (Ok tt, set_world w' (set_web (web_listening q) (web_socket q)
     (listenPort q) (web_threads q) (remove_one s (liveSockets q)) q)) ∧ seats (delete s T) b false w')
    as (w1 & -> & Hw1).
  { unfold browser_ends, untrack, mbind, SE_bind, gets, modify. case_bool_decide as Hs; rewrite node_run.
    - destruct (releaseClient_quiet T b s (world q) Hw) as ([] & w1 & Hrun & Hw1).
      unfold run_out, run_state. rewrite Hrun. by exists w1.
    - pose proof (quiet_close_socket _ (quiet_seats T b false) s (world q) Hw) as Hc.
      unfold run_out, run_state in *. rewrite close_socket_run in *. eexists. split; [done|].
      rewrite delete_id; [exact Hc|]. destruct Hw as (<- & _). by apply eq_None_not_Some. }
  destruct (IH (delete s T) b (set_world w1 (set_web (web_listening q) (web_socket q) (listenPort q)
    (web_threads q) (remove_one s (liveSockets q)) q)) Hw1) as (w2 & Hrun & Hw2). exists w2. split; [exact Hrun|done].
Qed.

(** [stop] of the gossip manager; closing the clients *)
Lemma close_sockets l T b g : runs (seats T b g) (for_each l close_socket) (λ _, seats T b g).
Proof using env. apply runs_total; [unfold close_socket; solve_total|solve_pres]. Qed.
Lemma gm_stop_run p : (stopped (gossip (world p)) = false → peer_socket p ≠ INVALID_SOCKET) →
  ∃ w ps l, gm_stop p = (Ok tt, set_world w (set_peer ps (set_os l (winsock p) (os_reads p) p))) ∧
    seats (sessions (world p)) true (gossip_set (world p)) w ∧
    l = if stopped (gossip (world p)) then listeners p else remove_one (peer_socket p) (listeners p).
Proof using env.
  intros Hps. unfold gm_stop, mbind, SE_bind, gets. destruct (stopped (gossip (world p))) eqn:Hst.
  { exists (world p), (peer_socket p), (listeners p). split_and!; [by destruct p|done..]. }
  specialize (Hps eq_refl). rewrite (proj2 (Z.eqb_neq _ _) Hps). cbn [negb when].
  unfold mbind, SE_bind, close_listener, modify. rewrite node_run. cbn [world set_world set_peer set_os].
  assert (∃ w, GossipManager.stop (world p) = (Ok tt, w) ∧
    seats (sessions (world p)) true (gossip_set (world p)) w) as (w & Hrun & Hw).
  { unfold GossipManager.stop, modify_gossip, mbind, SE_bind, gets, modify. rewrite Hst.
    set (w1 := set_gossip _ _). assert (seats (sessions (world p)) true (gossip_set (world p)) w1) as Hw1 by done.
    clearbody w1. destruct (close_sockets (elements (openPeerSockets (gossip (world p)))) _ _ _ w1 Hw1)
      as ([] & w & Hrun & Hw). by exists w. }
  unfold run_out, run_state. rewrite Hrun. by exists w, INVALID_SOCKET, (remove_one (peer_socket p) (listeners p)).
Qed.
Lemma close_all_runs T b g : runs (seats T b g) close_all (λ _, seats T b g).
Proof using env.
  apply runs_total; [|apply close_all_seats]. pose proof closeClient_total. unfold close_all. solve_total.
Qed.

Lemma web_stop_run p : web_listening p = true → web_socket p ≠ INVALID_SOCKET →
  web_stopListening p = (Ok tt, set_web false INVALID_SOCKET (listenPort p) (web_threads p) (liveSockets p)
    (set_os (remove_one (web_socket p) (listeners p)) (winsock p) (os_reads p) p)).
Proof using Type.
  intros Hl Hs. unfold web_stopListening, close_listener, mbind, SE_bind, gets, modify. rewrite Hl. cbn.
  by rewrite (proj2 (Z.eqb_neq _ _) Hs).
Qed.
Lemma cm_stop_run p : listening p = true → listeningSocket p ≠ INVALID_SOCKET → gossip_set (world p) = false →
  ∃ w, cm_stopListening p = (Ok tt, set_world w (set_tcp false INVALID_SOCKET []
      (set_os (remove_one (listeningSocket p) (listeners p)) (winsock p) (os_reads p) p))) ∧
    seats (without (sessions (world p)) (served (clientThreads p))) (stopped (gossip (world p))) false w.
Proof using env.
  intros Hl Hs Hg. unfold cm_stopListening, close_listener, mbind, SE_bind, gets, modify. rewrite Hl. cbn.
  rewrite (proj2 (Z.eqb_neq _ _) Hs). cbn. rewrite node_run. cbn.
  destruct (close_all_runs _ _ _ (world p) (conj eq_refl (conj eq_refl Hg))) as ([] & w1 & Hrun & Hw1).
  unfold run_out, run_state. rewrite Hrun. cbn.
  unfold cm_joinClientThreads, mbind, SE_bind, gets, modify. cbn.
  destruct (join_handlers (clientThreads p) _ _ w1 (set_tcp false INVALID_SOCKET []
      (set_os (remove_one (listeningSocket p) (listeners p)) (winsock p) (os_reads p) p)) Hw1) as (w & Hj & Hw).
  exists w. split; [exact Hj|exact Hw].
Qed.

Lemma cm_join_none p : clientThreads p = [] → cm_joinClientThreads p = (Ok tt, p).
Proof using Type.
  intros H. unfold cm_joinClientThreads, mbind, SE_bind, gets, modify. rewrite H. cbn. rewrite <-H. by destruct p.
Qed.
Lemma web_join_run p T b : seats T b false (world p) →
  ∃ w, web_joinClientThreads p = (Ok tt, set_world w (set_web (web_listening p) (web_socket p) (listenPort p) []
      (foldl (λ l s, remove_one s l) (liveSockets p) (served (web_threads p))) p)) ∧
    seats (without T (served (web_threads p))) b false w.
Proof using env.
  intros Hw. unfold web_joinClientThreads, mbind, SE_bind, gets, modify.
  apply (join_browsers (web_threads p) T b
    (set_web (web_listening p) (web_socket p) (listenPort p) [] (liveSockets p) p) Hw).
Qed.
Lemma hb_stop_run p : hb_stop p = (Ok tt, set_hb false true false p).
Proof using Type. unfold hb_stop, mbind, SE_bind, gets, modify. by destruct (hb_thread p). Qed.

(** closing the ports that are open leaves none *)
Lemma ports_closed a b c (l : list Z) (quiet : bool) :
  (if quiet then l ≡ₚ [a; b] else c ≠ INVALID_SOCKET ∧ l ≡ₚ [a; b; c]) →
  remove_one a (if quiet then remove_one b l else remove_one c (remove_one b l)) = [].
Proof using Type.
  intros H. apply Permutation_nil_r, remove_one_head. destruct quiet.
  - apply remove_one_head. rewrite H. solve_Permutation.
  - destruct H as [_ H]. apply remove_one_head, remove_one_head. rewrite H. solve_Permutation.
Qed.

Lemma stop_idle p : running p = true → up p → attended p →
  ∃ p', server_stop p = (Ok tt, p') ∧ running p' = false ∧ idle p'.
Proof using env.
  intros Hr (Hl & Hwl & Hn & Hg & Hls & Hws & Hports) (Hserved & _ & Hlive).
  unfold server_stop, mbind, SE_bind, gets. rewrite Hr. cbn [negb].
  unfold modify at 1. cbv beta.
  rewrite web_stop_run by done. cbv beta iota. rewrite hb_stop_run. cbv beta iota.
  set (p1 := set_hb _ _ _ _).
  destruct (gm_stop_run p1) as (w1 & ps & l1 & -> & Hw1 & Hl1).
  { cbn. intros E. rewrite E in Hports. by destruct Hports. }
  cbn in Hw1, Hl1. unfold setGossip, modify at 1. cbv beta iota.
  set (p2 := set_world _ _).
  destruct (cm_stop_run p2) as (w2 & -> & Hw2); [done..|].
  cbv beta iota. rewrite cm_join_none by done. cbv beta iota.
  assert (stopped (gossip (world p2)) = true) as Hst by (by destruct Hw1 as (_ & Hst & _)).
  assert (sessions (world p2) = sessions (world p)) as HT by (by destruct Hw1 as (HT & _)).
  rewrite Hst, HT in Hw2.
  match goal with |- context [web_joinClientThreads ?q] =>
    destruct (web_join_run q _ _ Hw2) as (w3 & -> & HT3 & Hst3 & Hg3) end. cbv beta iota. eexists. split; [done|].
  split; [done|]. unfold idle. cbn. split_and!; try done.
  - rewrite Hl1. by apply (ports_closed _ _ (peer_socket p)).
  - by rewrite Hn.
  - by apply remove_all.
  - apply map_empty. intros s. rewrite HT3. apply eq_None_not_Some. intros [l H].
    apply without_lookup in H as [[H Hs1]%without_lookup Hs2]. apply Hserved in H.
    apply elem_of_app in H as [H|H]; [exact (Hs1 H)|exact (Hs2 H)].
Qed.

(** ** Starting *)

Lemma attended_empty p :
  sessions (world p) = ∅ → clientThreads p = [] → web_threads p = [] → liveSockets p = [] → attended p.
Proof using Type.
  intros H1 H2 H3 H4. unfold attended. rewrite H1, H2, H3, H4. split_and!; [done|constructor|done].
Qed.

(** the worker's flags, and the number of reads, are all that a start of the heartbeat changes *)
Lemma hb_start_run p : ∃ r s t n,
  hb_start p = (Ok tt, set_hb r s t (set_os (listeners p) (winsock p) n p)).
Proof using Type.
  unfold hb_start, os_read, mbind, SE_bind, gets, modify. destruct (hb_running p) eqn:E.
  - exists (hb_running p), (hb_stopped p), (hb_thread p), (os_reads p). by destruct p.
  - cbn. destruct (os_thread (os_reads p)); by repeat eexists.
Qed.
Lemma gm_start_run p : stopped (gossip (world p)) = true →
  ∃ w ps l n, gm_start p = (Ok tt, set_world w (set_peer ps (set_os l (winsock p) n p))) ∧
    sessions w = sessions (world p) ∧ gossip_set w = gossip_set (world p) ∧
    (if stopped (gossip w) then l = listeners p else ps ≠ INVALID_SOCKET ∧ l = ps :: listeners p).
Proof using Type.
  intros Hs. unfold gm_start, listenTo, os_read, mbind, SE_bind, gets, modify. rewrite Hs. cbn.
  destruct (Z.eqb_spec (os_listen (os_reads p)) INVALID_SOCKET) as [E|E]; cbn.
  - exists (world p), (peer_socket p), (listeners p), (S (os_reads p)). rewrite E, Hs. by destruct p.
  - unfold node, zoom, GossipManager.start, modify_gossip, modify. cbn.
    apply Z.eqb_neq in E as E'. rewrite E'. cbn. do 4 eexists. split; [done|]. by split_and!.
Qed.
Lemma cm_start_run p : listening p = false →
  ∃ b s l n, cm_startListening p = (Ok b, set_tcp b s (clientThreads p) (set_os l (winsock p) n p)) ∧
    (if b : bool then s ≠ INVALID_SOCKET ∧ l = s :: listeners p else l = listeners p).
Proof using Type.
  intros H. unfold cm_startListening, listenTo, os_read, mbind, SE_bind, gets, modify. rewrite H. cbn.
  destruct (Z.eqb_spec (os_listen (os_reads p)) INVALID_SOCKET) as [E|E]; cbn.
  - exists false, (listeningSocket p), (listeners p), (S (os_reads p)). rewrite E. rewrite <-H. by destruct p.
  - apply Z.eqb_neq in E as E'. rewrite E'. by do 4 eexists.
Qed.
Lemma web_start_run p : web_listening p = false →
  ∃ b s port l n, web_startListening p =
      (Ok b, set_web b s port (web_threads p) (liveSockets p) (set_os l (winsock p) n p)) ∧
    (if b : bool then s ≠ INVALID_SOCKET ∧ l = s :: listeners p else l = listeners p).
Proof using Type.
  intros H. unfold web_startListening, listenTo, close_listener, os_read, mbind, SE_bind, gets, modify.
  rewrite H. cbn. destruct (Z.eqb_spec (os_listen (os_reads p)) INVALID_SOCKET) as [E|E]; cbn.
  - exists false, INVALID_SOCKET, (listenPort p), (listeners p), (S (os_reads p)). by rewrite E, H.
  - apply Z.eqb_neq in E as E'. rewrite E'. cbn. destruct (os_port _) as [port|]; cbn; [by repeat eexists|].
    exists false, INVALID_SOCKET, (listenPort p), (listeners p). eexists. split; [|done].
    unfold remove_one. cbn. rewrite decide_True by done. cbn. by rewrite H.
Qed.

Lemma WSAStartup_run p : WSAStartup p = (Ok (os_winsock (os_reads p)),
  set_os (listeners p) (if os_winsock (os_reads p) then winsock p + 1 else winsock p)%Z (S (os_reads p)) p).
Proof using Type.
  unfold WSAStartup, os_read, mbind, SE_bind, modify. cbn. by destruct (os_winsock (os_reads p)).
Qed.
Lemma close_all_none w : sessions w = ∅ → close_all w = (Ok tt, w).
Proof using Type. intros H. unfold close_all, mbind, SE_bind, gets. by rewrite H, map_to_list_empty. Qed.

Lemma start_tidy p p' : running p = false → idle p → server_start p = (Ok tt, p') → tidy p'.
Proof using env.
  intros Hr (Hl & Hwl & Hls & Hn & Hct & Hwt & Hlive & Hss & Hst & Hg & Hh & Ht).
  unfold server_start, mbind, SE_bind, gets. rewrite Hr. cbv beta iota. rewrite node_run.
  destruct (db_do_seats ∅ true false (clearNodePresence NODE_ID) (world p) (conj Hss (conj Hst Hg))) as (H1 & H2 & H3).
  set (w1 := run_state _ _) in *. clearbody w1.
  destruct (run_out (db_do _) _); [|done].
  rewrite WSAStartup_run. unfold modify. cbv beta iota. destruct (os_winsock _); cbn [negb]; cycle 1.
  { intros [= <-]. unfold tidy, idle. cbn. by rewrite Hr. }
  match goal with |- context [cm_startListening ?q] =>
    destruct (cm_start_run q Hl) as (tcp & s & l & n & -> & Htcp) end.
  cbn in Htcp. destruct tcp; cycle 1.
  { intros [= <-]. unfold tidy, idle. cbn. rewrite Hr, Hn, Htcp. by split_and!. }
  destruct Htcp as [Hs ->]. cbn [negb]. cbv beta iota.
  match goal with |- context [web_startListening ?q] =>
    destruct (web_start_run q Hwl) as (web & s' & port & l' & n' & -> & Hweb) end.
  cbn in Hweb. cbv beta iota. destruct web; cbn [negb]; cycle 1.
  { match goal with |- context [cm_stopListening ?q] =>
      destruct (cm_stop_run q eq_refl Hs H3) as (w2 & -> & HT & Hst2 & Hg2) end.
    cbn in HT, Hst2, Hg2. intros [= <-]. unfold tidy, idle. cbn. rewrite Hr, Hn, Hweb, HT, Hst2, H1, H2, Hct, Hls.
    split_and!; try done; cbn. unfold remove_one. cbn. by rewrite decide_True. }
  destruct Hweb as [Hs' ->]. unfold setGossip, modify.
  match goal with |- context [hb_start ?q] => destruct (hb_start_run q) as (r & st & t & n2 & ->) end.
  cbv beta iota.
  match goal with |- context [gm_start ?q] =>
    destruct (gm_start_run q H2) as (w2 & ps & l2 & n3 & -> & HT & Hg2 & Hport) end.
  cbn in HT, Hg2, Hport. cbv beta iota. intros [= <-]. unfold tidy. cbn. split.
  - unfold up, open_ports. cbn. rewrite Hn, Hg2. split_and!; try done.
    destruct (stopped (gossip w2)); [rewrite Hport, Hls; by apply Permutation_swap|].
    destruct Hport as [? ->]. split; [done|]. rewrite Hls. solve_Permutation.
  - apply attended_empty; cbn; [by rewrite HT, H1|done..].
Qed.

(** ** Every step keeps the process tidy *)

Lemma attended_add fd l p : unused fd p → attended p →
  (∀ s x, <[fd := l]> (sessions (world p)) !! s = Some x →
     s ∈ (served (clientThreads p) ++ [fd]) ++ served (web_threads p)) ∧
  NoDup ((served (clientThreads p) ++ [fd]) ++ served (web_threads p)).
Proof using Type.
  intros [_ Hno] (Hs & Hnd & _). rewrite <-app_assoc. cbn. split.
  - intros s x [[<- _]|[_ H]]%lookup_insert_Some; [set_solver|]. apply Hs in H. set_solver.
  - rewrite <-Permutation_middle. by constructor.
Qed.
Lemma accept_tidy fd p p' : unused fd p → cm_accept fd p = (Ok tt, p') → tidy p → tidy p'.
Proof using env.
  intros Hfd Hrun Hp. revert Hrun. unfold cm_accept, spawnClientHandler, mbind, SE_bind, gets.
  unfold tidy in Hp. destruct (listening p) eqn:Hl; cbn [negb]; cycle 1.
  { by intros [= <-]. }
  destruct (running p) eqn:Hr; [|by destruct Hp as (? & _); congruence]. destruct Hp as [Hup Hat].
  rewrite node_run.
  pose proof (openSession_seats _ _ _ fd (proj1 Hfd) (world p) (conj eq_refl (conj eq_refl eq_refl))) as Ho.
  destruct (run_out (openSession fd) (world p)) as [[]|] eqn:E; [|..|done]; cbn [when].
  - destruct Ho as (l & HT & Hst & Hg). set (w := run_state _ _) in *. cbn. rewrite Hl. intros [= <-].
    destruct Hup as (?&?&?&?&?&?&Hports).
    unfold tidy, up, open_ports, attended. cbn. rewrite Hr, HT, Hst, Hg, served_snoc. split; [by split_and!|].
    destruct (attended_add fd l p Hfd Hat). split_and!; [done..|]. by destruct Hat as (_ & _ & ?).
  - intros [= <-]. destruct Ho as (HT & Hst & Hg). apply tidy_frame; [done..|]. unfold tidy. by rewrite Hr.
Qed.
Lemma web_accept_tidy fd p p' : unused fd p → web_accept fd p = (Ok tt, p') → tidy p → tidy p'.
Proof using env.
  intros [_ Hno] Hrun Hp. revert Hrun. unfold web_accept, track, mbind, SE_bind, mret, SE_ret, gets, modify.
  unfold tidy in Hp. destruct (web_listening p) eqn:Hl; cbn [negb]; [|cbn; by intros [= <-]].
  cbn. rewrite Hl. cbn. rewrite Hl. cbn. intros [= <-].
  destruct (running p) eqn:Hr; [|by destruct Hp as (_ & ? & _); congruence].
  destruct Hp as [(?&?&?&?&?&?&Hports) (Hs & Hnd & Hlive)].
  unfold tidy, up, open_ports, attended. cbn. rewrite Hr, served_snoc. split; [by split_and!|]. split_and!.
  - intros s x Hx. apply Hs in Hx. set_solver.
  - rewrite app_assoc, Permutation_app_comm. by constructor.
  - by rewrite Hlive.
Qed.

(** a session or a handler that ends takes the other with it *)
Lemma attended_gone fd (T T' : gmap Z loc) (a b : list Z) :
  (∀ s l, T !! s = Some l → s ∈ a ++ b) → NoDup (a ++ b) → T' = delete fd T →
  (∀ s l, T' !! s = Some l → s ∈ filter (λ s, s ≠ fd) a ++ filter (λ s, s ≠ fd) b) ∧
  NoDup (filter (λ s, s ≠ fd) a ++ filter (λ s, s ≠ fd) b).
Proof using Type.
  intros Hs Hnd ->. rewrite <-filter_app. split; [|by apply NoDup_filter].
  intros s l [Hne H]%lookup_delete_Some. apply list_elem_of_filter. split; [done|]. by eapply Hs.
Qed.
Lemma client_leaves_tidy fd p p' :
  fd ∈ served (clientThreads p) → client_leaves fd p = (Ok tt, p') → tidy p → tidy p'.
Proof using env.
  intros Hfd Hrun Hp. revert Hrun. unfold client_leaves, mbind, SE_bind, modify. rewrite node_run. cbn.
  destruct (releaseClient_seats _ _ _ fd (world p) (conj eq_refl (conj eq_refl eq_refl))) as (HT & Hst & Hg).
  set (w := run_state _ _) in *. intros [= _ <-]. unfold tidy in *. cbn.
  destruct (running p); [|by destruct Hp as (_&_&_&_&Hc&_); rewrite Hc in Hfd; set_solver].
  destruct Hp as [(?&?&?&?&?&?&Hports) (Hs & Hnd & Hlive)].
  unfold up, open_ports, attended. cbn. rewrite Hst, Hg, served_finished. split; [by split_and!|].
  assert (fd ∉ served (web_threads p)) as Hno.
  { apply NoDup_app in Hnd as (_ & Hd & _). by apply Hd. }
  destruct (attended_gone fd _ _ _ _ Hs Hnd HT) as [Hs' Hnd'].
  rewrite (filter_gone fd (served (web_threads p)) Hno) in Hs', Hnd'. by split_and!.
Qed.
Lemma web_gone_tidy fd w p :
  running p = true → fd ∈ served (web_threads p) → sessions w = delete fd (sessions (world p)) →
  stopped (gossip w) = stopped (gossip (world p)) → gossip_set w = gossip_set (world p) → tidy p →
  tidy (set_world w (set_web (web_listening p) (web_socket p) (listenPort p) (finished fd <$> web_threads p)
          (remove_one fd (liveSockets p)) p)).
Proof using Type.
  intros Hr Hfd HT Hst Hg Hp. unfold tidy in *. cbn. rewrite Hr in *.
  destruct Hp as [(?&?&?&?&?&?&Hports) (Hs & Hnd & Hlive)].
  unfold up, open_ports, attended. cbn. rewrite Hst, Hg, served_finished. split; [by split_and!|].
  apply NoDup_app in Hnd as Hnd'. destruct Hnd' as (_ & Hd & Hndw).
  assert (fd ∉ served (clientThreads p)) as Hno by (intros H'; by apply (Hd fd)).
  destruct (attended_gone fd _ _ _ _ Hs Hnd HT) as [Hs' Hnd'].
  rewrite (filter_gone fd (served (clientThreads p)) Hno) in Hs', Hnd'. split_and!; [done..|].
  by apply remove_one_filter.
Qed.
Lemma running_served fd p : tidy p → fd ∈ served (web_threads p) → running p = true.
Proof using Type.
  intros Hp Hfd. unfold tidy in Hp. destruct (running p); [done|].
  destruct Hp as (_&_&_&_&_&Hc&_). rewrite Hc in Hfd. set_solver.
Qed.
Lemma browser_leaves_tidy fd p p' :
  fd ∈ served (web_threads p) → browser_leaves fd p = (Ok tt, p') → tidy p → tidy p'.
Proof using env.
  intros Hfd Hrun Hp. pose proof (running_served fd p Hp Hfd) as Hr. revert Hrun.
  unfold browser_leaves, web_finished, browser_ends, untrack, mbind, SE_bind, modify, gets. cbn.
  case_bool_decide as Hin; rewrite node_run; cbn.
  - destruct (releaseClient_seats _ _ _ fd (world p) (conj eq_refl (conj eq_refl eq_refl))) as (HT & Hst & Hg).
    destruct (run_out _ _); [|done]. set (w2 := run_state _ _) in *. clearbody w2. intros [= <-]. exact (web_gone_tidy fd w2 p Hr Hfd HT Hst Hg Hp).
  - pose proof (quiet_close_socket _ (quiet_seats _ _ _) fd (world p) (conj eq_refl (conj eq_refl eq_refl))) as (HT & Hst & Hg).
    destruct (run_out _ _); [|done]. set (w2 := run_state _ _) in *. clearbody w2. intros [= <-].
    refine (web_gone_tidy fd w2 p Hr Hfd _ Hst Hg Hp). rewrite HT. symmetry. apply delete_id.
    by apply eq_None_not_Some.
Qed.
Lemma browser_opens_tidy fd p p' :
  fd ∈ served (web_threads p) → sessions (world p) !! fd = None →
  browser_opens fd p = (Ok tt, p') → tidy p → tidy p'.
Proof using env.
  intros Hfd Hno Hrun Hp. pose proof (running_served fd p Hp Hfd) as Hr. revert Hrun.
  unfold browser_opens, web_finished, untrack, mbind, SE_bind, modify. rewrite node_run.
  destruct (markWebSocket_seats _ _ _ fd (world p) (conj eq_refl (conj eq_refl eq_refl))) as (HT1 & Hst1 & Hg1).
  destruct (run_out (markWebSocket fd) _); [|done]. set (w1 := run_state _ _) in *. clearbody w1.
  rewrite node_run. change (world (set_world w1 p)) with w1. rewrite <-HT1 in Hno.
  pose proof (openSession_seats _ _ _ fd Hno w1 (conj eq_refl (conj eq_refl eq_refl))) as Ho.
  set (w2 := run_state (openSession fd) w1) in *. clearbody w2.
  destruct (run_out (openSession fd) w1) as [[]|]; [|..|done]; cbn.
  - destruct Ho as (l & HT & Hst & Hg). intros [= <-]. unfold tidy in *. cbn. rewrite Hr in *.
    destruct Hp as [(?&?&?&?&?&?&Hports) (Hs & Hnd & Hlive)].
    unfold up, open_ports, attended. cbn. rewrite HT, Hst, Hg, HT1, Hst1, Hg1. split; [by split_and!|].
    split_and!; [|done..]. intros s x [[<- _]|[_ H']]%lookup_insert_Some; [set_solver|]. by eapply Hs.
  - destruct Ho as (HT & Hst & Hg). intros [= <-].
    refine (web_gone_tidy fd w2 p Hr Hfd _ _ _ Hp); [|congruence..].
    rewrite HT, HT1. symmetry. apply delete_id. by rewrite <-HT1.
Qed.
Lemma heartbeat_tidy p p' : hb_round p = (Ok tt, p') → tidy p → tidy p'.
Proof using env.
  unfold hb_round, mbind, SE_bind, gets. destruct (_ && _); cbn [when]; [|cbn; by intros [= <-]].
  apply node_tidy. intros T b g. pose proof pingOnce_seats. cbn [hb_run]. solve_pres.
Qed.

Lemma move_tidy p p' : move p p' → tidy p → tidy p'.
Proof using env.
  destruct 1 as [p p' Hrun|p p' Hrun|fd p p' Hfd Hrun|fd p p' Hfd Hrun|fd p p' Hfd Hno Hrun|fd p p' Hfd Hrun
    |fd p p' Hfd Hrun|? ? ? p p' Hrun|? ? ? p p' Hrun|p p' Hrun|? p p' Hrun|? p p' Hrun|? ? ? ? p p' Hrun
    |? p p' Hrun|p p' Hrun].
  - intros Hp. destruct (running p) eqn:Hr.
    + unfold server_start, mbind, SE_bind, gets in Hrun. rewrite Hr in Hrun. by injection Hrun as <-.
    + unfold tidy in Hp. rewrite Hr in Hp. by eapply start_tidy.
  - intros Hp. unfold tidy in Hp. destruct (running p) eqn:Hr.
    + destruct Hp as [Hup Hat]. destruct (stop_idle p Hr Hup Hat) as (q & Hq & Hqr & Hi).
      rewrite Hq in Hrun. injection Hrun as <-. unfold tidy. by rewrite Hqr.
    + unfold server_stop, mbind, SE_bind, gets in Hrun. rewrite Hr in Hrun. injection Hrun as <-.
      unfold tidy. by rewrite Hr.
  - by eapply accept_tidy.
  - by eapply web_accept_tidy.
  - by eapply browser_opens_tidy.
  - by eapply client_leaves_tidy.
  - by eapply browser_leaves_tidy.
  - eapply node_tidy, Hrun. intros. apply dispatchPacket_seats.
  - eapply node_tidy, Hrun. intros. apply answer_ping_seats.
  - by apply heartbeat_tidy.
  - eapply node_tidy, Hrun. intros. apply accept_peer_seats.
  - eapply node_tidy, Hrun. intros. apply dial_round_seats.
  - eapply node_tidy, Hrun. intros. apply handle_peer_packet_seats.
  - eapply node_tidy, Hrun. intros. apply peer_gone_seats.
  - eapply node_tidy, Hrun. intros. apply anti_entropy_seats.
Qed.
Lemma fresh_tidy tables : tidy (fresh_process tables).
Proof using env.
  assert (preserves (seats ∅ true false) RoomManager_init) as Hp by (unfold RoomManager_init; solve_pres).
  destruct (Hp (boot tables) (conj eq_refl (conj eq_refl eq_refl))) as (?&?&?).
  unfold tidy, idle, fresh_process. cbn. by split_and!.
Qed.
Lemma moves_tidy p p' : rtc move p p' → tidy p → tidy p'.
Proof using env. induction 1; eauto using move_tidy. Qed.
End process.

(** * Properties *)

(** C10. Through any interleaving of starts, stops, accepted connections, browser upgrades,
    requests, ping frames, heartbeat rounds, peer traffic and disconnections, the process is
    either up or idle.  Up: both ports listen, the peer port too unless it could not be
    opened, winsock is initialised once, every session has exactly one running handler, and
    the tracked browser sockets are those of the running browser handlers.  Idle: no listening
    socket, no handler, no session, no tracked socket, gossip and heartbeat stopped, and every
    winsock start-up undone, also after a start that failed halfway.  And [stop] always returns
    and leaves the process idle, whatever the state and whatever the database does. *)
Theorem stop_releases_all {env : ServerEnv} {os : ProcessEnv} tables p :
  rtc move (fresh_process tables) p →
  tidy p ∧ ∃ p', server_stop p = (Ok tt, p') ∧ running p' = false ∧ idle p'.
Proof.
  intros Hp. assert (tidy p) as Ht by (apply (moves_tidy _ p Hp), fresh_tidy). split; [done|].
  unfold tidy in Ht. destruct (running p) eqn:Hr; [destruct Ht as [Hup Hat]; by apply stop_idle|].
  exists p. unfold server_stop, mbind, SE_bind, gets. by rewrite Hr.
Qed.

(** ** A run: two clients, then a stop *)

#[local] Instance sample_os : ProcessEnv := {
  os_listen n := Z.of_nat (100 + n);
  os_port _ := Some 8080%Z;
  os_winsock _ := true;
  os_thread _ := true
}.
#[local] Existing Instance plain_server.

Definition started_process : Process := run_state server_start (fresh_process seeded).
Definition one_client : Process := run_state (cm_accept 7) started_process.
Definition browser_waits : Process := run_state (web_accept 8) one_client.
Definition two_clients : Process := run_state (browser_opens 8) browser_waits.

Lemma run_of {S A} (m : SE S A) s a : run_out m s = Ok a → m s = (Ok a, run_state m s).
Proof. unfold run_out, run_state. destruct (m s) as [o s']. cbn. by intros ->. Qed.

Lemma two_clients_reached : rtc move (fresh_process seeded) two_clients.
Proof.
  assert (run_out server_start (fresh_process seeded) = Ok tt) as H1 by (vm_compute; reflexivity).
  assert (run_out (cm_accept 7) started_process = Ok tt) as H2 by (vm_compute; reflexivity).
  assert (run_out (web_accept 8) one_client = Ok tt) as H3 by (vm_compute; reflexivity).
  assert (run_out (browser_opens 8) browser_waits = Ok tt) as H4 by (vm_compute; reflexivity).
  assert (unused 7 started_process) as U7.
  { split; [vm_compute; reflexivity|]. apply (bool_decide_unpack _). vm_compute; exact I. }
  assert (unused 8 one_client) as U8.
  { split; [vm_compute; reflexivity|]. apply (bool_decide_unpack _). vm_compute; exact I. }
  assert (8%Z ∈ served (web_threads browser_waits)) as W8.
  { apply (bool_decide_unpack _). vm_compute; exact I. }
  assert (sessions (world browser_waits) !! 8%Z = None) as N8 by (vm_compute; reflexivity).
  apply (rtc_l _ _ started_process); [apply move_start; exact (run_of server_start _ _ H1)|].
  apply (rtc_l _ _ one_client); [apply (move_accept 7 _ _ U7); exact (run_of (cm_accept 7) _ _ H2)|].
  apply (rtc_l _ _ browser_waits); [apply (move_web_accept 8 _ _ U8); exact (run_of (web_accept 8) _ _ H3)|].
  apply rtc_once. apply (move_upgrade 8 _ _ W8 N8). exact (run_of (browser_opens 8) _ _ H4).
Qed.
Lemma stop_releases_all_witness :
  length (map_to_list (sessions (world two_clients))) = 2 ∧ winsock two_clients = 1%Z ∧
  length (listeners two_clients) = 3 ∧
  tidy two_clients ∧ ∃ p', server_stop two_clients = (Ok tt, p') ∧ running p' = false ∧ idle p'.
Proof.
  split; [vm_compute; reflexivity|]. split; [vm_compute; reflexivity|]. split; [vm_compute; reflexivity|].
  exact (stop_releases_all seeded two_clients two_clients_reached).
Defined.

(** the health checks of a start are added again by the next one *)
Example restart_checks :
  checks (run_state (server_start ;; server_stop ;; server_start) (fresh_process seeded)) = 6.
Proof. vm_compute. reflexivity. Qed.
