(* ===== verification/Accounts.v ===== *)
(** Accounts and sessions: who is signed in.

    Signing in, resuming, signing up and renaming are spread over the session objects
    (src/server/client_session.cpp), the packet processor
    (src/server/packet_processor.cpp: LOGIN, RECONNECT, REGISTER, LOGOUT, UPDATE_USER) and the
    users table.  This file puts them together: what a session says about its user is a row
    of the table, and no account has two sessions on a node.

    Most operations are [calm]: they sign nobody in and take no account away.  The theorem is
    an invariant of the runs whose states are [tidy]; [account_taken] is a run through a state
    that is not. *)
From S2P Require Import Prelude Packet Models DatabaseManager World RoomManager GossipManager.
From S2P Require Import PacketProcessor ConnectionManager Server.
From stdpp Require Import options.

(** * Definitions *)

(** the names and emails of the users table, and the ones a session shows *)
Definition accounts (d : Db) : list (string * string) := (λ u, (u_username u, u_email u)) <$> users d.
Definition account (u : User.t) : string * string := (User.username u, User.email u).

Definition signed_in_as (w : World) (s : Z) (u : User.t) : Prop :=
  ∃ l, sessions w !! s = Some l ∧ authenticated (session_at w l) = true ∧ user (session_at w l) = u.

(** tables no peer or client has put odd rows in: names without a NUL byte, and presence rows
    of registered users only *)
Definition tidy (d : Db) : Prop :=
  (∀ u, u ∈ users d → text (u_username u) = u_username u ∧ text (u_email u) = u_email u) ∧
  (∀ o, o ∈ online_users d → on_username o ∈ u_username <$> users d).

(** a step from a tidy state *)
Definition tidy_step `{ServerEnv} (w w' : World) : Prop := tidy (db w) ∧ step w w'.

Record single (w : World) : Prop := {
  si_alloc : ∀ s l, sessions w !! s = Some l → ∃ o, heap w !! l = Some o ∧ clientSocket o = s;
  si_fresh : ∀ l : loc, next_loc w <= l → heap w !! l = None;
  si_stored : ∀ s u, signed_in_as w s u → account u ∈ accounts (db w);
  si_single : ∀ s s' u u', signed_in_as w s u → signed_in_as w s' u' →
    User.email u = User.email u' → s = s'
}.

(** * Lemmas *)

(** ** Operations that sign nobody in *)

(** the object is still there, for the same socket, and signed in only if it was before *)
Definition same_object (o o' : option ClientSession) : Prop :=
  match o, o' with
  | None, None => True
  | Some o, Some o' => clientSocket o' = clientSocket o ∧
      (authenticated o' = true → authenticated o = true ∧ user o' = user o)
  | _, _ => False
  end.
Record calm (w w' : World) : Prop := {
  c_sessions : sessions w' ⊆ sessions w;
  c_next : next_loc w' = next_loc w;
  c_heap : ∀ l : loc, same_object (heap w !! l) (heap w' !! l);
  c_accounts : accounts (db w) ⊆ accounts (db w')
}.
Lemma same_object_refl o : same_object o o.
Proof. by destruct o. Qed.
#[export] Hint Resolve same_object_refl : core.

(** a predicate that calm operations keep *)
Definition calmed (J : World → Prop) : Prop := ∀ w w', calm w w' → J w → J w'.

Lemma calm_signed w w' s u : calm w w' → signed_in_as w' s u → signed_in_as w s u.
Proof.
  intros [Hs _ Hh _] (l & Hl & Ha & Hu). exists l. split; [by eapply lookup_weaken|].
  specialize (Hh l). unfold session_at in *.
  destruct (heap w !! l) as [o|], (heap w' !! l) as [o'|]; cbn in *; try done.
  destruct Hh as [_ Hh]. destruct (Hh Ha) as [? Heq]. split; [done|congruence].
Qed.

Lemma calmed_single : calmed single.
Proof.
  intros w w' Hc [Ha Hf Hs Hu]. pose proof (λ s u, calm_signed w w' s u Hc) as Hsig.
  destruct Hc as [Hse Hn Hh Hac]. constructor.
  - intros s l Hl. destruct (Ha s l) as (o & Ho & <-); [by eapply lookup_weaken|]. specialize (Hh l).
    rewrite Ho in Hh. destruct (heap w' !! l) as [o'|]; [|done]. exists o'. by destruct Hh.
  - intros l Hl. rewrite Hn in Hl. specialize (Hh l). rewrite (Hf l Hl) in Hh. by destruct (heap w' !! l).
  - intros s u H. apply Hac. eauto.
  - eauto.
Qed.

(** the account is stored *)
Definition known (u : User.t) (w : World) : Prop := single w ∧ account u ∈ accounts (db w).
(** and nobody is signed in with its email *)
Definition claim (u : User.t) (w : World) : Prop :=
  known u w ∧ ∀ s u', signed_in_as w s u' → User.email u' ≠ User.email u.

Lemma calmed_known u : calmed (known u).
Proof. intros w w' Hc [? H]. split; [by eapply calmed_single|]. by apply (c_accounts _ _ Hc). Qed.
Lemma calmed_claim u : calmed (claim u).
Proof.
  intros w w' Hc [? H]. split; [by eapply calmed_known|]. intros s u' Hs. by eapply H, calm_signed.
Qed.
Lemma calmed_and I J : calmed I → calmed J → calmed (λ w, I w ∧ J w).
Proof. intros HI HJ w w' Hc [? ?]. split; [by apply (HI w)|by apply (HJ w)]. Qed.
Definition signed_out (l : loc) (w : World) : Prop := authenticated (session_at w l) = false.
Lemma calmed_signed_out l : calmed (signed_out l).
Proof.
  intros w w' Hc H. pose proof (c_heap _ _ Hc l) as Hh. unfold signed_out, session_at in *.
  destruct (heap w !! l) as [o|], (heap w' !! l) as [o'|]; cbn in *; try done.
  destruct (authenticated o'); [|done]. destruct Hh as [_ Hh]. destruct (Hh eq_refl). congruence.
Qed.
Lemma calmed_quiet J : calmed J → quiet J.
Proof. intros HJ w n t. by apply HJ. Qed.
#[export] Hint Resolve calmed_quiet calmed_single calmed_known calmed_claim calmed_and
  calmed_signed_out : pres.

Lemma calmed_modify J f : calmed J → (∀ w, calm w (f w)) → preserves J (modify f).
Proof. intros HJ Hf w Hw. by apply (HJ w). Qed.
Lemma calm_update l f w :
  (∀ o, same_object (Some o) (Some (f o))) → calm w (update_session l f w).
Proof.
  intros Hf. constructor; [done..| |done]. intros l'. unfold update_session. cbn [heap set_heap].
  destruct (decide (l' = l)) as [->|Hne]; [|by rewrite lookup_alter_ne].
  rewrite lookup_alter_eq. destruct (heap w !! l); [apply Hf|done].
Qed.
Lemma calm_forget s w :
  calm w (set_webSockets (webSockets w ∖ {[s]}) (set_sessions (delete s (sessions w)) w)).
Proof. constructor; [apply delete_subseteq|done..]. Qed.
#[export] Hint Extern 6 (preserves _ (modify _)) =>
  apply calmed_modify; [solve [eauto with pres nocore]|];
  intros ?; first [by constructor|apply calm_forget|apply calm_update; by intros ?] : pres.

(** ** The database keeps every account *)

Definition grows {A} (m : SE Db A) : Prop := ∀ P, preserves (λ d, P ⊆ accounts d) m.
Definition stmt_grows (f : Db → string + (Z * Db)) : Prop :=
  ∀ d n d', f d = inr (n, d') → accounts d ⊆ accounts d'.

Ltac stmt_grows :=
  intros ? ? ? ?;
  unfold sql_create_user, sql_update_user_password, sql_save_message, sql_set_membership,
    sql_clear_membership, sql_clear_all_membership, delete_membership, sql_move_membership,
    sql_set_online, sql_clear_online, sql_clear_node_presence, sql_create_room,
    sql_delete_room_allow, sql_delete_room_membership, delete_membership, sql_delete_room_messages,
    sql_delete_room_rooms, sql_add_user_allow_list, sql_remove_user_allow_list in *;
  repeat case_match; simplify_eq; try done.
Lemma grow_create_user u e p t : stmt_grows (sql_create_user u e p t).
Proof. stmt_grows. unfold accounts. cbn [users set_users]. rewrite fmap_app. set_solver. Qed.
Lemma grow_update_password p u : stmt_grows (sql_update_user_password p u).
Proof.
  stmt_grows. unfold accounts. cbn [users set_users]. rewrite <-list_fmap_compose.
  apply reflexive_eq. apply list_fmap_ext. intros i x _. unfold compose. by case_bool_decide.
Qed.

Section grow.
Context {env : DbEnv}.
Lemma grows_execute ex f : stmt_grows f → grows (run_statement ex f).
Proof.
  intros Hf P. apply preserves_execute; [done|]. intros d n d' Hd Hr. etrans; [exact Hd|by eapply Hf].
Qed.
Lemma grows_query f : grows (query f).
Proof. intros P. by apply preserves_query. Qed.
End grow.
#[export] Hint Resolve grow_create_user grow_update_password : pres.
#[export] Hint Extern 1 (stmt_grows _) => solve [stmt_grows] : pres.
#[export] Hint Extern 4 (preserves (λ d, _ ⊆ accounts d) (run_statement _ _)) =>
  apply grows_execute; solve [auto with pres nocore] : pres.
#[export] Hint Extern 4 (preserves (λ d, _ ⊆ accounts d) (query _)) => apply grows_query : pres.

Ltac grows := intros P; unfold_ops; solve_pres.

Section operations.
Context {env : DbEnv}.
Lemma grows_createUser u h e : grows (createUser u h e). Proof. grows. Qed.
Lemma grows_getUser u : grows (DatabaseManager.getUser u). Proof. grows. Qed.
Lemma grows_userExists u : grows (userExists u). Proof. grows. Qed.
Lemma grows_loginUser u p : grows (loginUser u p). Proof. grows. Qed.
Lemma grows_saveMessage m r : grows (saveMessage m r). Proof. grows. Qed.
Lemma grows_loadHistory r : grows (loadHistory r). Proof. grows. Qed.
Lemma grows_setMembership u r n : grows (setMembership u r n). Proof. grows. Qed.
Lemma grows_clearMembership u r : grows (clearMembership u r). Proof. grows. Qed.
Lemma grows_clearAllMembership u : grows (clearAllMembership u). Proof. grows. Qed.
Lemma grows_moveMembership u n : grows (moveMembership u n). Proof. grows. Qed.
Lemma grows_isUserOnline u : grows (isUserOnline u). Proof. grows. Qed.
Lemma grows_onlineNode u : grows (onlineNode u). Proof. grows. Qed.
Lemma grows_setOnline u n : grows (setOnline u n). Proof. grows. Qed.
Lemma grows_clearOnline u : grows (clearOnline u). Proof. grows. Qed.
Lemma grows_canClaimPresence u b : grows (canClaimPresence u b). Proof. grows. Qed.
Lemma grows_isAllowed r e : grows (isAllowed r e). Proof. grows. Qed.
Lemma grows_isAllowListCreator r e : grows (isAllowListCreator r e). Proof. grows. Qed.
Lemma grows_addToAllowList r e c : grows (addToAllowList r e c). Proof. grows. Qed.
Lemma grows_removeFromAllowList r e : grows (removeFromAllowList r e). Proof. grows. Qed.
Lemma grows_createRoom n t p e : grows (DatabaseManager.createRoom n t p e). Proof. grows. Qed.
Lemma grows_deleteRoom i : grows (DatabaseManager.deleteRoom i). Proof. grows. Qed.
Lemma grows_hash_now p : grows (hash_now p). Proof. intros P. apply preserves_hash_now. Qed.
Lemma grows_bind {A B} (m : SE Db A) (f : A → SE Db B) :
  grows m → (∀ a, grows (f a)) → grows (m ≫= f).
Proof. intros Hm Hf P. apply preserves_bind; [apply Hm|intros a; apply Hf]. Qed.
End operations.

Lemma db_do_calmed {env : ServerEnv} {A} J (m : SE Db A) : calmed J → grows m → preserves J (db_do m).
Proof.
  intros HJ Hm w Hw. unfold run_out, run_state, db_do, zoom.
  pose proof (Hm (accounts (db w)) (db w) (λ _ H, H)) as Hg. unfold run_out, run_state in Hg.
  destruct (m (db w)) as [o d]. apply (HJ w); [|done]. by constructor.
Qed.
#[export] Hint Resolve grows_createUser grows_getUser grows_userExists grows_loginUser
  grows_saveMessage grows_loadHistory grows_setMembership grows_clearMembership
  grows_clearAllMembership grows_moveMembership grows_isUserOnline grows_onlineNode
  grows_setOnline grows_clearOnline grows_canClaimPresence grows_isAllowed
  grows_isAllowListCreator grows_addToAllowList grows_removeFromAllowList grows_createRoom
  grows_deleteRoom grows_hash_now db_do_calmed : pres.

(** ** The calm operations of the managers *)

Section managers.
Context {env : ServerEnv} (J : World → Prop) (HJ : calmed J).

Lemma setRoom_calm l r : preserves J (setRoom l r).
Proof using env HJ. unfold setRoom. solve_pres. Qed.
Lemma touch_calm l : preserves J (touch l).
Proof using env HJ. unfold touch. solve_pres. Qed.
Lemma markClosed_calm l : preserves J (markClosed l).
Proof using env HJ. unfold markClosed, isClosed. solve_pres. Qed.
Lemma removeSocketLocked_calm s n : preserves J (removeSocketLocked s n).
Proof using env HJ. unfold removeSocketLocked. solve_pres. Qed.
Lemma insert_member_calm n s : preserves J (insert_member n s).
Proof using env HJ. unfold insert_member. solve_pres. Qed.
Hint Resolve setRoom_calm removeSocketLocked_calm insert_member_calm : pres.
Lemma joinRoom_calm n l : preserves J (joinRoom n l).
Proof using env HJ.
  unfold joinRoom, getRoomOf, getUser, isAuthenticated, getSocket, rollback_join. solve_pres.
Qed.
Lemma leaveAll_calm l : preserves J (leaveAll l).
Proof using env HJ. unfold leaveAll, getRoomOf, getUser, isAuthenticated, getSocket. solve_pres. Qed.
Lemma createRoom_calm r e : preserves J (createRoom r e).
Proof using env HJ. unfold createRoom. solve_pres. Qed.
Lemma deleteRoom_calm n : preserves J (deleteRoom n).
Proof using env HJ.
  unfold deleteRoom, listRooms, move_to_lobby, isAuthenticated, getUser. solve_pres.
Qed.
Hint Resolve joinRoom_calm leaveAll_calm createRoom_calm deleteRoom_calm : pres.

(** signing out, and taking the name off a signed-out session *)
Lemma setAuthenticated_calm l : preserves J (setAuthenticated l false).
Proof using env HJ. unfold setAuthenticated. solve_pres. Qed.
Lemma sign_out l : triple J (setAuthenticated l false) (λ _ w, J w ∧ signed_out l w).
Proof using env HJ.
  intros w Hw. split; [by apply setAuthenticated_calm|]. unfold signed_out. cbn.
  rewrite session_at_update. case_decide; [|done]. by destruct (heap w !! l).
Qed.
Lemma signed_out_setUser l u : triple (λ w, J w ∧ signed_out l w) (setUser l u) (λ _, J).
Proof using env HJ.
  intros w [Hw Ho]. apply (HJ w); [|done]. unfold signed_out, session_at in Ho.
  constructor; [done..| |done]. intros l'. cbn. unfold update_session. cbn [heap set_heap].
  destruct (decide (l' = l)) as [->|Hne]; [|by rewrite lookup_alter_ne]. rewrite lookup_alter_eq.
  destruct (heap w !! l) as [o|]; [|done]. split; [done|]. cbn in *. congruence.
Qed.
Lemma anonymise {B} l (k : M B) :
  preserves J k →
  triple (λ w, J w ∧ signed_out l w) (anon ← anonymousUser; setUser l anon ;; k) (λ _, J).
Proof using env HJ.
  intros Hk. apply triple_step; [by intros s [? _]| |].
  - by apply quiet_anonymousUser, calmed_quiet, calmed_and, calmed_signed_out.
  - intros u. by eapply triple_bind; [apply signed_out_setUser|intros []|].
Qed.
End managers.
#[export] Hint Resolve setRoom_calm touch_calm markClosed_calm joinRoom_calm leaveAll_calm
  createRoom_calm deleteRoom_calm setAuthenticated_calm : pres.

(** ** Gossip, dispatching and the timers are calm *)

Section gossip.
Context {env : ServerEnv} (J : World → Prop) (HJ : calmed J).

Lemma detach_session_calm u e : preserves J (detach_session u e).
Proof using env HJ.
  destruct e as [s l]. unfold detach_session, isAuthenticated, getUser. pres_step; [solve_pres|intros auth].
  pres_step; [solve_pres|intros u']. destruct (_ || _); [solve_pres|].
  eapply triple_bind; [by apply sign_out|intros []|by intros e s' [? _]].
  apply triple_step; [by intros s' [? _]| |intros _; apply anonymise; solve_pres].
  apply leaveAll_calm. by apply calmed_and, calmed_signed_out.
Qed.
Hint Resolve detach_session_calm : pres.

Lemma applyEvent_calm e : preserves J (applyEvent e).
Proof using env HJ.
  unfold applyEvent, apply_login, apply_reconnect, apply_logout, apply_user_created,
    apply_room_created, apply_acl_add, apply_room_deleted, apply_room_kick, apply_room_join,
    apply_room_leave, apply_message, expel_session, push_rooms, listRooms, getRoom,
    getSessions, isAuthenticated, getUser, getRoomOf. solve_pres.
Qed.
Hint Resolve applyEvent_calm : pres.
Lemma rumor_calm e : preserves J (rumor e).
Proof using env HJ. unfold rumor, remember, peerSend. solve_pres. Qed.
Hint Resolve rumor_calm : pres.
Lemma handle_peer_packet_calm s b p : preserves J (handle_peer_packet s b p).
Proof using env HJ.
  unfold handle_peer_packet, handle_hello, registerPeer, notifyServerDirectoryChanged,
    buildServerDirectory, handle_event, handle_digest, handle_pull, remember, peerSend, modify_gossip.
  solve_pres.
Qed.
Lemma peer_gone_calm s : preserves J (peer_gone s).
Proof using env HJ.
  unfold peer_gone, removePeer, notifyServerDirectoryChanged, buildServerDirectory, modify_gossip.
  solve_pres.
Qed.
Lemma accept_peer_calm fd : preserves J (accept_peer fd).
Proof using env HJ. unfold accept_peer, hello_packet, peerSend, modify_gossip. solve_pres. Qed.
Lemma dial_round_calm l : preserves J (dial_round l).
Proof using env HJ.
  induction l as [|a l IH]; cbn [dial_round]; unfold hello_packet, peerSend, modify_gossip; solve_pres.
Qed.
Lemma anti_entropy_calm : preserves J anti_entropy_round.
Proof using env HJ. unfold anti_entropy_round, peerSend. solve_pres. Qed.
Lemma start_calm : preserves J start.
Proof using env HJ. unfold start, modify_gossip. solve_pres. Qed.
Lemma stop_calm : preserves J stop.
Proof using env HJ. unfold stop, modify_gossip. solve_pres. Qed.

Lemma rumorEvent_calm t u c f r : preserves J (rumorEvent t u c f r).
Proof using env HJ. unfold rumorEvent, makeEventId, connections_rumor. solve_pres. Qed.
Lemma closeClient_calm s : preserves J (closeClient s).
Proof using env HJ. unfold closeClient. solve_pres. Qed.
Hint Resolve rumorEvent_calm closeClient_calm : pres.
Lemma removeSession_calm s : preserves J (removeSession s).
Proof using env HJ.
  unfold removeSession, drop_logout, isAuthenticated, getUser. solve_pres.
Qed.
Hint Resolve removeSession_calm : pres.
Lemma releaseClient_calm s : preserves J (releaseClient s).
Proof using env HJ. unfold releaseClient. solve_pres. Qed.
Lemma ping_loop_calm p all : preserves J (ping_loop p all).
Proof using env HJ.
  induction all as [|e all IH]; cbn [ping_loop];
    unfold is_listening, ping_session, isClosed, isAlive, getSocket; cbv zeta; solve_pres.
Qed.
Lemma pingOnce_calm : preserves J pingOnce.
Proof using env HJ. pose proof ping_loop_calm. unfold pingOnce, getSessions. solve_pres. Qed.
Lemma Server_stop_calm : preserves J Server_stop.
Proof using env HJ. pose proof stop_calm. unfold Server_stop, close_all. solve_pres. Qed.
End gossip.
#[export] Hint Resolve rumorEvent_calm closeClient_calm releaseClient_calm applyEvent_calm : pres.

(** ** Signing in *)

Section sign_in.
Context {env : ServerEnv}.

Lemma signed_in_update l f w s u :
  single w → signed_in_as (update_session l f w) s u →
  signed_in_as w s u ∨
  ∃ o, sessions w !! s = Some l ∧ heap w !! l = Some o ∧ clientSocket o = s ∧
    authenticated (f o) = true ∧ user (f o) = u.
Proof.
  intros Hw (l' & Hl & Ha & Hu). change (sessions (update_session l f w)) with (sessions w) in Hl.
  rewrite session_at_update in Ha, Hu. destruct (decide (l' = l)) as [->|Hne]; [|left; by exists l'].
  destruct (si_alloc w Hw s l Hl) as (o & Ho & Hs). rewrite Ho in Ha, Hu. right. by exists o.
Qed.

(** a session object takes on another user *)
Lemma single_update l f w u :
  single w → (∀ o, clientSocket (f o) = clientSocket o ∧ user (f o) = u) →
  account u ∈ accounts (db w) →
  (∀ s u', signed_in_as w s u' → User.email u' = User.email u → sessions w !! s = Some l) →
  single (update_session l f w).
Proof.
  intros Hw Hf Hu Hfree. pose proof (λ s u, signed_in_update l f w s u Hw) as Hsig.
  pose proof Hw as [Ha Hfr Hs Hone]. constructor.
  - intros s l' Hl. cbn [sessions update_session set_heap] in Hl. destruct (Ha s l' Hl) as (o & Ho & Hso).
    unfold update_session. cbn [heap set_heap]. destruct (decide (l' = l)) as [->|Hne].
    + rewrite lookup_alter_eq, Ho. exists (f o). split; [done|]. by rewrite (proj1 (Hf o)).
    + rewrite lookup_alter_ne by done. by exists o.
  - intros l' Hl. unfold update_session in *. cbn [heap set_heap next_loc] in *. specialize (Hfr l' Hl).
    destruct (decide (l' = l)) as [->|Hne]; [by rewrite lookup_alter_eq, Hfr|by rewrite lookup_alter_ne].
  - intros s u' [H|(o & _ & _ & _ & _ & <-)]%Hsig; [by apply (Hs s)|]. by rewrite (proj2 (Hf o)).
  - assert (∀ s s' u1 u2 o, signed_in_as w s u1 → sessions w !! s' = Some l → heap w !! l = Some o →
      clientSocket o = s' → user (f o) = u2 → User.email u1 = User.email u2 → s = s') as Hmix.
    { intros s s' u1 u2 o H1 Hs' Ho Hso <- He. rewrite (proj2 (Hf o)) in He.
      destruct (Ha s l (Hfree s u1 H1 He)) as (o' & Ho' & <-). congruence. }
    intros s s' u1 u2 [H1|(o1 & Hl1 & Ho1 & Hs1 & _ & Hu1)]%Hsig [H2|(o2 & Hl2 & Ho2 & Hs2 & _ & Hu2)]%Hsig He;
      [by eapply Hone|by eapply Hmix| |congruence].
    symmetry. by eapply Hmix.
Qed.

Lemma enter_single u l {A} (k : M A) :
  preserves single k → triple (claim u) (setUser l u ;; setAuthenticated l true ;; k) (λ _, single).
Proof.
  intros Hk w [[Hw Hu] Hfree]. apply Hk.
  assert (update_session l (set_s_authenticated true) (update_session l (set_s_user u) w) =
    update_session l (λ o, set_s_authenticated true (set_s_user u o)) w) as ->.
  { unfold update_session. cbn [heap set_heap]. by rewrite alter_alter_eq. }
  apply (single_update l _ w u); [done|done|done|]. intros s u' H He. by destruct (Hfree s u' H).
Qed.

Lemma hasSession_claim u :
  triple (known u) (hasSession u) (λ o w, known u w ∧ (o = Ok false → claim u w)).
Proof.
  intros w Hw. split; [done|]. cbn. intros [= Hno]. split; [done|]. intros s u' (l & Hl & Ha & <-) He.
  assert (existsb (λ '(_, l), authenticated (session_at w l) && User.eqb (user (session_at w l)) u)
    (map_to_list (sessions w)) = true) as Hyes; [|congruence].
  apply existsb_exists. exists (s, l). split; [by apply list_elem_of_In, elem_of_map_to_list|].
  rewrite Ha. unfold User.eqb. by rewrite He, String.eqb_refl.
Qed.

(** what the table answers about a name is an account of it *)
Lemma row_known d r u :
  tidy d → r ∈ users d → User.username u = text (u_username r) → User.email u = text (u_email r) →
  account u ∈ accounts d.
Proof.
  intros [Ht _] Hr Hn He. destruct (Ht r Hr) as [Etn Ete]. unfold account, accounts.
  rewrite Hn, He, Etn, Ete. apply list_elem_of_fmap. by exists r.
Qed.
Lemma loginUser_known n p d o d' u :
  tidy d → loginUser n p d = (o, d') → o = Ok (inl u) → account u ∈ accounts d'.
Proof.
  intros Ht Hrun ->. unfold loginUser, mbind, SE_bind, query in Hrun.
  destruct (env_db _); [done|]. unfold sql_login_user in Hrun. cbn [next_statement users] in Hrun.
  destruct (filter _ (users d)) as [|r l] eqn:E; [done|]. cbn in Hrun.
  apply filter_head in E as [_ Hr].
  destruct (checkPassword p _); [|done]. cbn in Hrun. injection Hrun as <- <-. by eapply row_known.
Qed.
Lemma getUser_known n d o d' u :
  tidy d → DatabaseManager.getUser n d = (o, d') → o = Ok (Some u) → account u ∈ accounts d'.
Proof.
  intros Ht Hrun ->. unfold DatabaseManager.getUser, mbind, SE_bind, query in Hrun.
  destruct (env_db _); [done|]. unfold sql_get_user in Hrun. cbn [next_statement users] in Hrun.
  destruct (filter _ (users d)) as [|r l] eqn:E; [done|]. cbn in Hrun.
  apply filter_head in E as [_ Hr].
  injection Hrun as <- <-. by eapply row_known.
Qed.
Lemma createUser_new n h e d o d' u :
  createUser n h e d = (o, d') → o = Ok u →
  account u ∈ accounts d' ∧ ∀ a, a ∈ accounts d → a.2 ≠ User.email u.
Proof.
  intros Hrun ->. unfold createUser, try_catch, mbind, SE_bind, run_statement in Hrun.
  destruct (env_db _); [done|]. unfold sql_create_user in Hrun. cbn [next_statement users] in Hrun.
  destruct (negb _); [done|]. case_bool_decide as Hn; [done|]. case_bool_decide as He; [done|].
  injection Hrun as <- <-. unfold accounts. cbn [users set_users]. rewrite fmap_app. split; [set_solver|].
  intros a (r & -> & Hr)%list_elem_of_fmap Heq. apply He. cbn in *. rewrite <-Heq. by apply list_elem_of_fmap_2.
Qed.
End sign_in.

(** ** Renaming *)

Section rename.
Context {env : DbEnv}.
Hypothesis no_failure : ∀ n, env_db n = None.

Lemma account_row c x d : (c, x) ∈ accounts d ↔ ∃ r, r ∈ users d ∧ u_username r = c ∧ u_email r = x.
Proof.
  clear no_failure. unfold accounts. rewrite list_elem_of_fmap. split.
  - intros (r & [= -> ->] & Hr). by exists r.
  - intros (r & Hr & <- & <-). by exists r.
Qed.

(** looking up a name of the table *)
Lemma getUser_account c x d :
  keys d → tidy d → (c, x) ∈ accounts d →
  ∃ u, DatabaseManager.getUser c d = (Ok (Some u), next_statement d) ∧ account u = (c, x).
Proof using no_failure.
  intros Hk [Ht _] (r & Hr & <- & <-)%account_row. destruct (Ht r Hr) as [Hn He].
  eexists. split; [by apply getUser_run|]. unfold account. cbn. by rewrite Hn, He.
Qed.

(** what a profile change of [c] leaves behind, when it succeeds and when it does not *)
Definition changed_profile (c x : string) (d d' : Db) (o : outcome User.t) : Prop :=
  match o with
  | Ok u => tidy d' → account u ∈ accounts d' ∧ User.email u = x ∧
      ∀ a, a ∈ accounts d → a.1 ≠ c → a ∈ accounts d'
  | Throw _ => accounts d ⊆ accounts d'
  end.

(** the rename itself, and reading the new row back *)
Lemma rename_account c n x d :
  db_wf d → tidy d → (c, x) ∈ accounts d → (n ≠ c → n ∉ u_username <$> users d) →
  ∃ o d', (when (negb (String.eqb n c)) (rename_block n c) ;;
     updated ← DatabaseManager.getUser n;
     match updated with None => throw (RuntimeError "User missing after update") | Some u => mret u end) d
     = (o, d') ∧ changed_profile c x d d' o.
Proof using no_failure.
  intros Hwf Ht Hin Hfree. unfold mbind, SE_bind. destruct (String.eqb_spec n c) as [->|Hne]; cbn [negb when].
  - unfold mret, SE_ret. destruct (getUser_account c x d (proj1 Hwf) Ht Hin) as (u & -> & Hu).
    exists (Ok u), (next_statement d). split; [done|]. intros _. rewrite Hu. split_and!; [done| |done].
    by injection Hu.
  - assert (n ∉ on_username <$> online_users d) as Hon.
    { intros (o & -> & Ho)%list_elem_of_fmap. by apply (Hfree Hne), Ht. }
    destruct (rename_block_success no_failure n c d Hwf (Hfree Hne) Hon)
      as (d1 & -> & Hwf1 & Eu & _).
    apply account_row in Hin as (r & Hr & Hrc & Hrx).
    assert (rename_user n c r ∈ users d1) as Hr1 by (rewrite Eu; by apply list_elem_of_fmap_2).
    pose proof (getUser_run no_failure _ d1 (proj1 Hwf1) Hr1) as Hget.
    unfold rename_user in Hget, Hr1. rewrite bool_decide_eq_true_2 in Hget, Hr1 by done. cbn in Hget.
    rewrite Hget. eexists (Ok _), _. split; [done|]. intros [Ht1 _].
    destruct (Ht1 _ Hr1) as [Hn1 Hx1]. cbn in Hn1, Hx1. unfold account. cbn. rewrite Hn1, Hx1.
    split_and!; [|done|].
    + apply account_row. by eexists.
    + intros [c' x'] (r' & Hr' & <- & <-)%account_row Hne'. apply account_row. exists (rename_user n c r').
      cbn [next_statement users]. rewrite Eu. split; [by apply list_elem_of_fmap_2|]. unfold rename_user.
      by rewrite bool_decide_eq_false_2.
Qed.

Lemma password_accounts h c d :
  ∃ d', execute (sql_update_user_password h c) d = (Ok (Z.of_nat (length (filter (λ u, u_username u = c) (users d)))), d') ∧
    accounts d' = accounts d ∧ u_username <$> users d' = u_username <$> users d ∧
    online_users d' = online_users d.
Proof using no_failure.
  rewrite execute_run by done. eexists. split; [reflexivity|]. unfold accounts. cbn [users set_users next_statement].
  rewrite <-!list_fmap_compose. split_and!; [| |done]; apply list_fmap_ext; intros i x _;
    unfold compose; by case_bool_decide.
Qed.
Lemma tidy_same d d' : accounts d' = accounts d → online_users d' = online_users d → tidy d → tidy d'.
Proof.
  clear no_failure. intros Ha Ho [Hn Hp].
  assert (∀ n x, (n, x) ∈ accounts d' ↔ (n, x) ∈ accounts d) as Hin by (intros; by rewrite Ha).
  split.
  - intros u Hu. assert ((u_username u, u_email u) ∈ accounts d) as (r & Hr & <- & <-)%account_row; [|by apply Hn].
    apply Hin, account_row. by exists u.
  - intros o. rewrite Ho. intros (r & Hr1 & Hr)%Hp%list_elem_of_fmap.
    assert ((u_username r, u_email r) ∈ accounts d') as Hrow.
    { apply Hin, account_row. by exists r. }
    apply account_row in Hrow as (r' & Hr' & Heq & _). rewrite Hr1, <-Heq. by apply list_elem_of_fmap_2.
Qed.

Ltac unchanged := eexists _, _; split; [reflexivity|intros a Ha; exact Ha].
Lemma updateUser_accounts c n p e x d :
  db_wf d → tidy d → (c, x) ∈ accounts d →
  ∃ o d', updateUser c n p e d = (o, d') ∧ changed_profile c x d d' o.
Proof using no_failure.
  intros Hwf Ht Hin. unfold updateUser, mbind at 1, SE_bind at 1.
  destruct (getUser_account c x d (proj1 Hwf) Ht Hin) as (u & -> & Hu).
  destruct (negb _); [unchanged|]. cbv zeta. destruct (is_empty n); [unchanged|].
  set (d1 := next_statement d). assert (db_wf d1) as Hwf1 by (by apply db_wf_next).
  unfold mbind at 1, SE_bind at 1.
  assert (∃ b d2, (if negb (String.eqb n c) then userExists n else mret false) d1 = (Ok b, d2) ∧
    (b = false → n ≠ c → n ∉ u_username <$> users d) ∧ (d2 = d1 ∨ d2 = next_statement d1))
    as (b & d2 & -> & Hb & Hd2).
  { destruct (String.eqb_spec n c) as [->|Hne]; cbn [negb]; [by exists false, d1; auto|].
    rewrite userExists_run by done. eexists _, _. split; [done|]. split; [|by right].
    by intros H%bool_decide_eq_false _. }
  assert (db_wf d2 ∧ tidy d2 ∧ accounts d2 = accounts d ∧ users d2 = users d) as (Hwf2 & Ht2 & Ha2 & Hu2)
    by (destruct Hd2 as [->| ->]; [done|split_and!; [by apply db_wf_next|done..]]).
  destruct b; [eexists _, _; split; [done|]; cbn; by rewrite Ha2|]. specialize (Hb eq_refl).
  unfold mbind at 1, SE_bind at 1.
  assert (∃ o d3, when (negb (is_empty p)) (passwordHash ← hash_now p;
      execute (sql_update_user_password passwordHash c) ;; mret tt) d2 = (o, d3) ∧
    accounts d3 = accounts d ∧ (o = Ok tt → db_wf d3 ∧ tidy d3 ∧ u_username <$> users d3 = u_username <$> users d))
    as (o & d3 & -> & Ha3 & Hok).
  { unfold when. destruct (negb (is_empty p)); [|by eexists _, _; rewrite Hu2].
    unfold mbind, SE_bind, hash_now. destruct (hashPassword _ p) as [h|]; [|by eexists _, _].
    destruct (password_accounts h c d2) as (d3 & Hrun & Ha3 & Hn3 & Ho3). rewrite Hrun.
    exists (Ok tt), d3. split; [done|]. rewrite Ha3, Hn3, Hu2. split; [done|]. intros _. split_and!; [|by eapply tidy_same|done].
    pose proof (stmt_ok_wf (fault_text STEP_FAILED) _ (ok_update_password h c) d2 Hwf2) as Hp. unfold run_state in Hp. by rewrite Hrun in Hp. }
  destruct o as [[]|]; [|eexists _, _; split; [done|]; cbn; by rewrite Ha3].
  destruct (Hok eq_refl) as (Hwf3 & Ht3 & Hn3).
  destruct (rename_account c n x d3 Hwf3 Ht3) as (o & d4 & Hrun & Hch); [by rewrite Ha3|by rewrite Hn3|].
  exists o, d4. split; [exact Hrun|]. unfold changed_profile in *. destruct o; [|by rewrite <-Ha3].
  by rewrite <-Ha3.
Qed.
End rename.

(** ** The packets that sign somebody in *)

(** the state a step starts from *)
Definition ready (w : World) : Prop := single w ∧ db_wf (db w) ∧ tidy (db w).
(** and what it guarantees at its end *)
Definition later (w : World) : Prop := tidy (db w) → single w.

Lemma quiet_ready : quiet ready.
Proof. intros w n t [Hw Ht]. split; [|done]. by apply (calmed_quiet _ calmed_single). Qed.
Lemma quiet_later : quiet later.
Proof. intros w n t Hw Ht. by apply (calmed_quiet _ calmed_single), Hw. Qed.
Lemma ready_single w : ready w → single w.
Proof. by intros [? _]. Qed.
#[export] Hint Resolve quiet_ready quiet_later : pres.

Section handlers.
Context {env : ServerEnv}.

(** a lookup that returns a user returns one of the table *)
Lemma db_do_known {A} (m : SE Db A) (f : A → option User.t) :
  grows m → (∀ d a d' u, tidy d → m d = (Ok a, d') → f a = Some u → account u ∈ accounts d') →
  triple ready (db_do m) (λ o w, single w ∧ ∀ a u, o = Ok a → f a = Some u → known u w).
Proof using env.
  intros Hg Hf w [Hw [_ Ht]]. pose proof (db_do_calmed single m calmed_single Hg w Hw) as Hs.
  split; [done|]. intros a u Ho Hfa. split; [done|].
  unfold run_out, run_state, db_do, zoom in *. destruct (m (db w)) as [o d'] eqn:E.
  cbn in *. subst o. by eapply Hf.
Qed.

Lemma enter_as_single u prev l r : triple (claim u) (enter_as u prev l r) (λ _, single).
Proof.
  unfold enter_as. apply enter_single. unfold rumorPresence, rumorRoomJoin, encodeRoomDirectory,
    listRooms, getSocket, refreshServerDirectory, buildServerDirectory. solve_pres.
Qed.

(** the check that nobody is signed in, and what hangs on it *)
Lemma unless_present {A} u (second : M bool) (no : M A) (yes : M A) :
  (∀ J, calmed J → preserves J second) → preserves single no →
  triple (claim u) yes (λ _, single) →
  triple (known u) (here ← hasSession u;
    refused ← (if (here : bool) then mret true else second);
    if (refused : bool) then no else yes) (λ _, single).
Proof.
  intros Hsecond Hno Hyes. eapply triple_bind; [apply hasSession_claim| |by intros e w [[? _] _]].
  intros [|].
  - unfold mbind, SE_bind, mret, SE_ret. eapply triple_pre; [|exact Hno]. by intros w [[? _] _].
  - apply (triple_bind _ _ _ (λ _, claim u)).
    + eapply triple_pre; [|apply (Hsecond _ (calmed_claim u))]. intros w [_ H]. by apply H.
    + intros [|]; [|exact Hyes]. eapply triple_pre; [|exact Hno]. by intros w [[? _] _].
    + by intros e w [[? _] _].
Qed.

Lemma login_single p l r : triple ready (process_login p l r) (λ _, single).
Proof.
  unfold process_login. apply triple_catch; [|intros e; apply preserves_ret].
  eapply triple_bind; [apply (db_do_known _ (λ o, match o with inl u => Some u | inr _ => None end))| |].
  - eauto with pres.
  - intros d [u'|] d' u Ht Hrun [= <-]. by eapply loginUser_known.
  - intros [u|error]; [|eapply triple_pre; [|apply preserves_ret]; by intros w [? _]].
    apply (triple_pre (known u)); [intros w [_ H]; by eapply H|].
    apply (unless_present u (db_do (isUserOnline (User.username u)))); [intros J HJ| |]; [solve_pres..|].
    apply triple_step; [by intros w [[? _] _]|apply preserves_gets|]. intros prev. apply enter_as_single.
  - by intros e w [? _].
Qed.

Lemma register_single p l r : triple ready (process_register p l r) (λ _, single).
Proof.
  unfold process_register. apply triple_catch; [|intros e; apply preserves_ret].
  apply (triple_pre single); [apply ready_single|].
  apply preserves_bind; [solve_pres|]. intros [|]; [solve_pres|]. cbv zeta.
  destruct (_ || _); [solve_pres|]. apply preserves_bind; [solve_pres|]. intros h.
  apply (triple_bind _ _ _ (λ o w, match o with Ok u => claim u w | Throw _ => single w end)); [| |by intros].
  - intros w Hw. pose proof (db_do_calmed single (createUser (Packet.sender p) h (Packet.room p)) calmed_single
      (grows_createUser _ _ _) w Hw) as Hs.
    pose proof (createUser_new (Packet.sender p) h (Packet.room p) (db w)) as Hnew.
    unfold run_out, run_state, db_do, zoom in *. destruct (createUser _ _ _ (db w)) as [[u|e] d']; [|done].
    cbn in *. destruct (Hnew _ _ u eq_refl eq_refl) as [Hin Hfresh]. split; [by split|].
    intros s u' Hsig. apply (Hfresh (account u')). by apply (si_stored w Hw s).
  - intros u. cbn. apply (triple_step (claim u)); [by intros w [[? _] _]| |].
    { unfold rumorUserCreated. solve_pres. }
    intros _. apply triple_step; [by intros w [[? _] _]|apply preserves_gets|]. intros prev. apply enter_as_single.
Qed.

Lemma reconnect_single p l r : triple ready (process_reconnect p l r) (λ _, single).
Proof.
  unfold process_reconnect. apply triple_catch; [|intros e; apply preserves_ret].
  eapply triple_bind; [apply (db_do_known _ id)| |].
  - eauto with pres.
  - intros d [u'|] d' u Ht Hrun [= <-]. by eapply getUser_known.
  - intros [u|]; [|eapply triple_pre; [|apply preserves_ret]; by intros w [? _]].
    apply (triple_pre (known u)); [intros w [_ H]; by eapply H|]. cbv zeta.
    apply triple_step; [by intros w [? _]|solve_pres|].
    intros [node|]; [|eapply triple_pre; [|apply preserves_ret]; by intros w [? _]].
    apply triple_step; [by intros w [? _]| |].
    { unfold owner_live, hasSession, connections_isNodeLive, isNodeLive. solve_pres. }
    intros live.
    apply (unless_present u (claim ← db_do (canClaimPresence (User.username u) live); mret (negb claim)));
      [intros J HJ; solve_pres|solve_pres|].
    apply triple_step; [by intros w [[? _] _]|apply preserves_gets|]. intros prev. apply enter_single.
    unfold resume_room, private_blocked, getRoom, PacketProcessor.isAdmin, isAuthenticated, getUser, rumorPresence,
      rumorRoomJoin, encodeRoomDirectory, listRooms, getSocket, refreshServerDirectory,
      buildServerDirectory. solve_pres.
  - by intros e w [? _].
Qed.

Lemma logout_calm J l r : calmed J → preserves J (process_logout l r).
Proof.
  intros HJ. unfold process_logout, isAuthenticated, getUser. pres_step; [solve_pres|intros auth].
  pres_step; [solve_pres|intros u]. cbv zeta. pres_step; [solve_pres|intros _].
  eapply triple_bind; [by apply sign_out|intros []|by intros e s' [? _]].
  apply anonymise; [done|]. unfold rumorPresence. solve_pres.
Qed.
End handlers.

Section profile.
Context {env : ServerEnv}.
Hypothesis no_failure : ∀ n, env_db n = None.

Lemma single_db w d :
  single w → (∀ s u, signed_in_as w s u → account u ∈ accounts d) → single (set_db d w).
Proof. clear no_failure. intros [] Hd. by constructor. Qed.

(** the same name is the same account *)
Lemma account_name d c x y : keys d → (c, x) ∈ accounts d → (c, y) ∈ accounts d → x = y.
Proof.
  clear no_failure. intros Hk (r & Hr & Hrc & <-)%account_row (r' & Hr' & Hrc' & <-)%account_row. f_equal.
  assert (filter (λ u, u_username u = u_username r) (users d) = [r]) as E
    by (apply (filter_fmap_key u_username); [apply Hk|done]).
  assert (r' ∈ filter (λ u, u_username u = u_username r) (users d)) as H
    by (apply list_elem_of_filter; split; [congruence|done]).
  rewrite E in H. by apply list_elem_of_singleton in H.
Qed.

(** the session of the changed profile, signed in under its new name *)
Lemma single_renamed w d l s u u' :
  single w → keys (db w) → sessions w !! s = Some l → authenticated (session_at w l) = true →
  user (session_at w l) = u → account u' ∈ accounts d → User.email u' = User.email u →
  (∀ a, a ∈ accounts (db w) → a.1 ≠ User.username u → a ∈ accounts d) →
  single (update_session l (set_s_user u') (set_db d w)).
Proof.
  clear no_failure. intros Hw Hk Hl Ha Hu Hin He Hrest.
  assert (signed_in_as w s u) as Hme by (by exists l).
  set (w0 := update_session l (set_s_authenticated false) w).
  assert (calm w w0) as Hc by (apply calm_update; by intros o).
  assert (∀ s' u2, signed_in_as w0 s' u2 → User.email u2 ≠ User.email u) as Hnone.
  { intros s' u2 H2 Heq. pose proof (si_single w Hw s' s u2 u (calm_signed _ _ _ _ Hc H2) Hme Heq) as ->.
    destruct H2 as (l2 & Hl2 & Ha2 & _). assert (l2 = l) as -> by (cbn in Hl2; congruence).
    unfold w0 in Ha2. rewrite session_at_update, decide_True in Ha2 by done. by destruct (heap w !! l). }
  assert (single (set_db d w0)) as Hw0.
  { apply single_db; [by apply (calmed_single w)|]. intros s' u2 H2. apply Hrest.
    - by apply (si_stored w Hw s'), (calm_signed _ _ _ _ Hc).
    - intros Heq. apply (Hnone _ _ H2), (account_name (db w) (User.username u)); [done| |].
      + rewrite <-Heq. by apply (si_stored w Hw s'), (calm_signed _ _ _ _ Hc).
      + by apply (si_stored w Hw s). }
  destruct (si_alloc w Hw s l Hl) as (o & Ho & _).
  assert (update_session l (set_s_user u') (set_db d w) =
    update_session l (λ o, set_s_authenticated true (set_s_user u' o)) (set_db d w0)) as ->.
  { unfold w0, update_session. cbn [heap set_heap set_db]. unfold set_db, set_heap. cbn. f_equal.
    rewrite alter_alter_eq. rewrite !(alter_alt_Some _ _ _ _ Ho). f_equal. unfold session_at in Ha.
    rewrite Ho in Ha. destruct o; cbn in *; by subst. }
  apply (single_update l _ _ u'); [done|done|done|].
  intros s' u2 H2 Heq. destruct (Hnone s' u2); [exact H2|congruence].
Qed.

Lemma update_user_single p l r s w :
  ready w → sessions w !! s = Some l → later (run_state (process_update_user p l r) w).
Proof using no_failure.
  intros (Hw & Hwf & Ht) Hl.
  assert (later w) as Hlater by (by intros _).
  unfold run_state, process_update_user, isAuthenticated, mbind, SE_bind, gets.
  destruct (authenticated (session_at w l)) eqn:Ha; cbn [negb]; [|done].
  unfold try_catch, getUser, gets. cbv zeta. destruct (_ || _); [done|].
  set (u := user (session_at w l)).
  assert (account u ∈ accounts (db w)) as Hin by (apply (si_stored w Hw s); by exists l).
  unfold db_do, zoom.
  destruct (updateUser_accounts no_failure (User.username u) (Packet.sender p) (Packet.message p)
    (Packet.room p) (User.email u) (db w) Hwf Ht Hin) as (o & d & -> & Hch).
  destruct o as [u'|e]; cbn in *; intros Ht'.
  - destruct (Hch Ht') as (Hin' & He & Hrest). by eapply (single_renamed w d l s u u'); try apply Hwf.
  - apply single_db; [done|]. intros s' u2 H2. apply Hch. by apply (si_stored w Hw s').
Qed.
End profile.

(** ** Every step *)

Section running.
Context {env : ServerEnv}.
Hypothesis no_failure : ∀ n, env_db n = None.

(** packets that sign nobody in *)
Definition enters (t : PacketType) : bool :=
  match t with LOGIN | RECONNECT | REGISTER | UPDATE_USER => true | _ => false end.
Lemma processPacket_calm J p l : calmed J → enters (Packet.type p) = false → preserves J (processPacket p l).
Proof using env.
  clear no_failure. intros HJ Ht. pose proof (logout_calm J l) as Hlogout.
  unfold processPacket, prepare. pres_step; [solve_pres|intros r].
  destruct (Packet.type p); try done;
    unfold process_heartbeat, process_unsupported, process_unknown, process_message, process_room_join,
      process_room_leave, process_room_create, process_room_invite, process_room_delete,
      process_room_kick, process_load_history, kick_local, findSessionByUsername, pushLobbyTo,
      pushRoomDirectory, encodeRoomDirectory, listRooms, may_manage, PacketProcessor.isAdmin,
      constraint_or, or_current, getRoom, getRoomOf, getUser, isAuthenticated, rumorPresence,
      rumorMessage, rumorRoomJoin, rumorRoomCreated, rumorAclAdd, rumorRoomKick, rumorRoomDeleted,
      getSocket;
    cbv zeta; solve_pres.
Qed.

Lemma processPacket_single p l s w :
  ready w → sessions w !! s = Some l → later (run_state (processPacket p l) w).
Proof using no_failure.
  intros Hw Hl. destruct (enters (Packet.type p)) eqn:E.
  - unfold run_state, processPacket, mbind, SE_bind.
    destruct (prepare p w) as [[r|e] w1] eqn:Ep; [|done].
    assert (w1 = set_reads (S (reads w)) w) as -> by (by injection Ep).
    pose proof (quiet_reads ready quiet_ready w (S (reads w)) Hw) as Hw1.
    destruct (Packet.type p); try done.
    + intros _. exact (login_single p l r _ Hw1).
    + intros _. exact (register_single p l r _ Hw1).
    + by apply (update_user_single no_failure p l r s).
    + intros _. exact (reconnect_single p l r _ Hw1).
  - intros _. apply processPacket_calm; [apply calmed_single|done|apply Hw].
Qed.

Lemma dispatchPacket_single fd p w : ready w → later (run_state (dispatchPacket fd p) w).
Proof using no_failure.
  intros Hw. assert (later w) as Hlater by (intros _; apply Hw).
  unfold run_state, dispatchPacket, mbind, SE_bind, gets. destruct (sessions w !! fd) as [l|] eqn:Hl; [|done].
  pose proof (touch_calm single calmed_single l w (ready_single w Hw)) as Hw1.
  assert (db (run_state (touch l) w) = db w ∧ sessions (run_state (touch l) w) = sessions w) as [Hdb Hse] by done.
  unfold run_state in *. destruct (touch l w) as [[[]|e] w1]; [|by intros _]. cbn in *.
  assert (ready w1) as Hr1 by (split; [done|rewrite Hdb; apply Hw]).
  destruct (_ && _); [by intros _|].
  pose proof (processPacket_single p l fd w1 Hr1) as Hp. rewrite Hse in Hp. specialize (Hp Hl).
  unfold run_state in Hp. destruct (processPacket p l w1) as [[r|e] w2]; [|done].
  by apply (quiet_sendPacket _ quiet_later).
Qed.

(** a new connection is nobody *)
Lemma new_object w s o :
  single w → authenticated o = false → clientSocket o = s →
  single (set_sessions (<[s := next_loc w]> (sessions w))
    (set_next_loc (S (next_loc w)) (set_heap (<[next_loc w := o]> (heap w)) w))).
Proof.
  clear no_failure. intros [Ha Hf Hs Hone] Ho Hso. set (w' := set_sessions _ _).
  assert (∀ s' l', sessions w !! s' = Some l' → l' ≠ next_loc w) as Hold.
  { intros s' l' Hl' ->. destruct (Ha s' _ Hl') as (o' & Ho' & _). by rewrite Hf in Ho'. }
  assert (∀ s' u, signed_in_as w' s' u → signed_in_as w s' u) as Hsig.
  { intros s' u (l' & Hl' & Ha' & Hu'). unfold w', session_at in *.
    cbn [sessions set_sessions heap set_heap set_next_loc] in *.
    apply lookup_insert_Some in Hl' as [[<- <-]|[_ Hl']].
    - rewrite lookup_insert_eq in Ha'. cbn in Ha'. congruence.
    - exists l'. rewrite lookup_insert_ne in Ha', Hu' by (apply not_eq_sym, (Hold s'); done). done. }
  constructor; [| |naive_solver..].
  - intros s' l' Hl'. unfold w' in *. cbn [sessions set_sessions heap set_heap set_next_loc] in *.
    apply lookup_insert_Some in Hl' as [[<- <-]|[_ Hl']].
    + exists o. by rewrite lookup_insert_eq.
    + destruct (Ha s' l' Hl') as (o' & Ho' & <-). exists o'.
      rewrite lookup_insert_ne; [done|]. by apply not_eq_sym, (Hold (clientSocket o')).
  - intros l' Hl'. unfold w' in *. cbn [next_loc set_sessions heap set_heap set_next_loc] in *.
    rewrite lookup_insert_ne by lia. apply Hf. lia.
Qed.
Lemma openSession_single fd : preserves single (openSession fd).
Proof using env.
  clear no_failure. intros w Hw. unfold run_state, openSession, mbind at 1, SE_bind at 1.
  pose proof (quiet_anonymousUser single (calmed_quiet _ calmed_single) w Hw) as Hw1.
  unfold run_state in Hw1. destruct (anonymousUser w) as [[u|] w1]; [|done]. cbn [snd] in Hw1.
  assert (preserves single (placed ← joinRoom (Room.name LOBBY) (next_loc w1); greet fd (next_loc w1) placed)) as Hk.
  { unfold greet, listRooms, getUser, buildServerDirectory. solve_pres. }
  apply Hk. apply (new_object (set_reads (S (reads w1)) w1) fd); [|done|done].
  by apply quiet_reads; [apply calmed_quiet, calmed_single|].
Qed.

Lemma step_single w w' :
  consistent w → tidy (db w) → step w w' → tidy (db w') → single w → single w'.
Proof using no_failure.
  intros [Hwf _] Ht Hstep Ht' Hw. pose proof (conj Hw (conj Hwf Ht) : ready w) as Hr.
  pose proof calmed_single as Hc. destruct Hstep.
  - by apply openSession_single.
  - unfold markWebSocket. apply (preserves_modify single); [|done]. intros. by apply (Hc s).
  - by apply dispatchPacket_single.
  - assert (preserves single (answer_ping fd payload)) as Hp by (unfold answer_ping; solve_pres). by apply Hp.
  - by apply releaseClient_calm.
  - by apply pingOnce_calm.
  - by apply accept_peer_calm.
  - by apply dial_round_calm.
  - by apply handle_peer_packet_calm.
  - by apply peer_gone_calm.
  - by apply anti_entropy_calm.
  - by apply Server_stop_calm.
Qed.

Lemma started_single tables : single (run_state Server_start (boot tables)).
Proof using env.
  clear no_failure. pose proof start_calm. assert (grows (clearNodePresence NODE_ID)) as Hg by grows.
  assert (preserves single Server_start) as Hp by (unfold Server_start, RoomManager_init; solve_pres;
    apply db_do_calmed; [apply calmed_single|grows]).
  apply Hp. constructor; [by intros s l Hl|done|by intros s u (l & Hl & _)|
    by intros s s' u u' (l & Hl & _)].
Qed.

Lemma tidy_steps w w' :
  rtc tidy_step w w' → consistent w → single w → tidy (db w') → consistent w' ∧ single w'.
Proof using no_failure.
  induction 1 as [w|w1 w2 w3 [Ht Hstep] Hrest IH]; intros Hw Hs Ht'; [done|].
  assert (tidy (db w2)) as Ht2 by (inversion Hrest as [|? ? ? [Ht2 _]]; by subst).
  apply IH; [by eapply step_consistent|by eapply step_single|done].
Qed.
End running.

(** * Theorems *)

(** C7. One session per account, as long as the storage never fails: in every state a node
    reaches through tidy states, a signed-in session shows the name and email of a row of the
    users table, and no two sessions are signed in with the same email or the same name.
    Tidy: names hold no NUL byte and nobody is recorded online under a name that is not
    registered.  A statement that fails inside a profile update, after the rename, leaves a
    session with a name no account has any more, so the storage must not fail. *)
Theorem one_session_per_account {env : ServerEnv} tables w :
  (∀ n, env_db n = None) → db_wf tables → stored_rooms tables →
  rtc tidy_step (run_state Server_start (boot tables)) w → tidy (db w) →
  (∀ s u, signed_in_as w s u → (User.username u, User.email u) ∈ accounts (db w)) ∧
  (∀ s s' u u', signed_in_as w s u → signed_in_as w s' u' →
     User.email u = User.email u' ∨ User.username u = User.username u' → s = s').
Proof.
  intros no_failure Hwf Hst Hsteps Ht.
  destruct (tidy_steps no_failure _ w Hsteps (started_consistent no_failure tables Hwf Hst)
    (started_single tables) Ht) as [[Hwf' _] Hs].
  split; [apply Hs|]. intros s s' u u' Hu Hu' [He|Hn]; [by eapply (si_single w Hs)|].
  eapply (si_single w Hs); [done..|]. apply (account_name (db w) (User.username u)); [apply Hwf'| |].
  - by apply (si_stored w Hs s).
  - rewrite Hn. by apply (si_stored w Hs s').
Qed.

(** ** Why the states must be tidy *)

(** a registered peer reports somebody online whom this node does not know yet; the user of
    socket 7 asks for that name; somebody else registers the name given up by the half-done
    rename; and the first session takes the new account over *)
#[local] Existing Instance plain_server.

Definition ghost_login : Packet.t :=
  Packet.make 0 "node2" "*" GOSSIP_EVENT "" (GossipPayload.encode "LOGIN" "e1" "ghost" "node2" "1") 0.
Definition half_rename : Packet.t := Packet.make 0 "ghost" "" UPDATE_USER "user@example.com" "" 0.
Definition sign_up : Packet.t := Packet.make 0 "user" "" REGISTER "new@example.com" "secret" 0.
Definition take_over : Packet.t := Packet.make 0 "thief" "" UPDATE_USER "new@example.com" "stolen" 0.
Definition user_login : Packet.t := Packet.make 0 "user" "" LOGIN "" "user" 0.
Definition before_ghost : World :=
  run_state (dispatchPacket 7 user_login) (run_state (openSession 8)
    (run_state (openSession 7) (run_state Server_start (boot seeded)))).
Definition after_take_over : World :=
  run_state (dispatchPacket 7 take_over) (run_state (dispatchPacket 8 sign_up)
    (run_state (dispatchPacket 7 half_rename) (run_state (handle_peer_packet 20 true ghost_login)
      before_ghost))).

(** both sessions are signed in with the email of the account of socket 8, whose password is
    now the one the other session chose *)
Example account_taken :
  steps (run_state Server_start (boot seeded)) after_take_over ∧
  signed_in_as after_take_over 8 (User.User "user" "new@example.com" User.USER) ∧
  signed_in_as after_take_over 7 (User.User "thief" "new@example.com" User.USER) ∧
  (loginUser "thief" "stolen" (db after_take_over)).1 =
    Ok (inl (User.User "thief" "new@example.com" User.USER)).
Proof.
  split_and!; [|exists 1; split_and!; vm_compute; reflexivity|exists 0; split_and!; vm_compute; reflexivity|
    vm_compute; reflexivity].
  unfold after_take_over, before_ghost. eapply rtc_l; [apply (step_accept 7); vm_compute; reflexivity|].
  eapply rtc_l; [apply (step_accept 8); vm_compute; reflexivity|]. eapply rtc_l; [apply step_packet|].
  eapply rtc_l; [apply step_peer_packet|]. do 3 (eapply rtc_l; [apply step_packet|]). apply rtc_refl.
Qed.

(** * Witnesses *)

Definition tidy_b (d : Db) : bool :=
  forallb (λ u, bool_decide (text (u_username u) = u_username u) && bool_decide (text (u_email u) = u_email u)) (users d) &&
  forallb (λ o, bool_decide (on_username o ∈ u_username <$> users d)) (online_users d).
Lemma tidy_check d : tidy_b d = true → tidy d.
Proof.
  unfold tidy_b. rewrite andb_true_iff, !forallb_forall. intros [Hu Ho]. split.
  - intros u Hin%list_elem_of_In%Hu. apply andb_true_iff in Hin as [H1 H2].
    by apply bool_decide_eq_true in H1, H2.
  - intros o Hin%list_elem_of_In%Ho. by apply bool_decide_eq_true in Hin.
Qed.
Lemma one_session_per_account_witness :
  signed_in_as before_ghost 7 (User.User "user" "user@example.com" User.USER) ∧
  ∀ s u, signed_in_as before_ghost s u → User.username u = "user" → s = 7%Z.
Proof.
  assert (signed_in_as before_ghost 7 (User.User "user" "user@example.com" User.USER)) as H7
    by (exists 0; split_and!; vm_compute; reflexivity).
  split; [exact H7|]. intros s u Hs Hn.
  apply (proj2 (one_session_per_account (env := plain_server) seeded before_ghost (λ _, eq_refl) (init_wf _ _) seeded_rooms
    ltac:(unfold before_ghost;
      eapply rtc_l; [split; [apply tidy_check; vm_compute; reflexivity|apply (step_accept 7); vm_compute; reflexivity]|];
      eapply rtc_l; [split; [apply tidy_check; vm_compute; reflexivity|apply (step_accept 8); vm_compute; reflexivity]|];
      eapply rtc_l; [split; [apply tidy_check; vm_compute; reflexivity|apply step_packet]|]; apply rtc_refl)
    ltac:(apply tidy_check; vm_compute; reflexivity)) s 7%Z u _ Hs H7).
  right. exact Hn.
Defined.
