(* ===== verification/Protocol.v ===== *)
(** What the server's answers mean (src/server/packet_processor.cpp, seen from a client).

    The abstract state of a connection is a [View]: who is signed in on it and the name of
    the room it is in.  [follow] is the protocol: how a view changes with a request and the
    answer to it.  The theorem is a refinement: whatever a request does to the session object
    behind a connection, its view changes exactly as [follow] says from the answer alone.
    The client half of the protocol is in Dialogue.v.

    Not part of it: RECONNECT, whose answer does not say which room the session was put in,
    and ROOM_DELETE and ROOM_KICK, which move other sessions. *)
From S2P Require Import Prelude Packet Models Serializer GossipPayload DatabaseManager World.
From S2P Require Import RoomManager GossipManager PacketProcessor ConnectionManager Server.
From S2P Require Import Accounts.
From stdpp Require Import options.

(** * Definitions *)

Record View := mkView { who : option User.t; place : string }.

(** what the session object says *)
Definition session_view (o : ClientSession) : View :=
  mkView (if authenticated o then Some (user o) else None) (Room.name (room o)).

(** what a request and its answer say; an answer without success changes nothing *)
Definition follow (v : View) (request answer : Packet.t) : View :=
  if negb (Packet.responseCode answer =? SUCCESS)%Z then v
  else
    match Packet.type request with
    | LOGIN | REGISTER =>
        match User.deserialize (Packet.message answer) with
        | Some u => mkView (Some u) (Room.name LOBBY)
        | None => v
        end
    | LOGOUT => mkView None (Room.name LOBBY)
    | UPDATE_USER =>
        match User.deserialize (Packet.message answer) with
        | Some u => mkView (Some u) (place v)
        | None => v
        end
    | ROOM_JOIN => mkView (who v) (Packet.room answer)
    | ROOM_LEAVE => mkView (who v) (Room.name LOBBY)
    | _ => v
    end.

(** the packet types the protocol covers *)
Definition followed (t : PacketType) : bool :=
  match t with RECONNECT | ROOM_DELETE | ROOM_KICK => false | _ => true end.

(** no name or email holds the separator of the text form of a user *)
Definition readable (d : Db) : Prop :=
  ∀ a, a ∈ accounts d → has_char "|" a.1 = false ∧ has_char "|" a.2 = false.

(** * Lemmas *)

(** ** Operations that leave a session's view alone *)

Definition view_is (l : loc) (v : View) (w : World) : Prop :=
  is_Some (heap w !! l) ∧ session_view (session_at w l) = v.

Lemma view_frame l v w w' : heap w' = heap w → view_is l v w → view_is l v w'.
Proof. unfold view_is, session_at. by intros ->. Qed.
Lemma quiet_view l v : quiet (view_is l v).
Proof. by intros w n t Hw. Qed.
Lemma db_do_view {env : ServerEnv} {A} l v (m : SE Db A) : preserves (view_is l v) (db_do m).
Proof. intros w Hw. unfold run_state, db_do, zoom. by destruct (m (db w)). Qed.
Lemma view_update l v l' f w :
  (l' ≠ l ∨ ∀ o, session_view (f o) = session_view o) →
  view_is l v w → view_is l v (update_session l' f w).
Proof.
  intros Hf [Hh Hv]. unfold view_is. rewrite session_at_update. unfold update_session. cbn [heap set_heap].
  destruct (decide (l = l')) as [->|Hne]; [|by rewrite lookup_alter_ne].
  destruct Hf as [?|Hf]; [done|]. rewrite lookup_alter_eq. unfold session_at in Hv. destruct Hh as [o Ho].
  rewrite Ho in *. cbn in *. split; [done|]. by rewrite Hf.
Qed.

#[export] Hint Resolve quiet_view db_do_view : pres.
#[export] Hint Extern 5 (preserves (view_is _ _) (modify _)) =>
  apply preserves_modify; intros ? ?;
  first [eapply view_frame; [|eassumption]; reflexivity
        |apply view_update; [first [by left|right; by intros []]|done]] : pres.

Section frame.
Context {env : ServerEnv} (l : loc) (v : View).

Lemma joinRoom_view n l' : l' ≠ l → preserves (view_is l v) (joinRoom n l').
Proof using env l v.
  intros Hne. unfold joinRoom, getRoomOf, getUser, isAuthenticated, getSocket, rollback_join,
    removeSocketLocked, insert_member, setRoom. solve_pres.
Qed.
Lemma createRoom_view r e : preserves (view_is l v) (createRoom r e).
Proof using env l v. unfold createRoom. solve_pres. Qed.
Lemma closeClient_view s : preserves (view_is l v) (closeClient s).
Proof using env l v. unfold closeClient, markClosed, isClosed. solve_pres. Qed.
Hint Resolve createRoom_view : pres.

(** the events that name no session *)
Definition harmless (t : string) : Prop :=
  t ∈ ["LOGIN"; "LOGOUT"; "USER_CREATED"; "ROOM_CREATED"; "ROOM_ACL_ADD"; "ROOM_JOIN"; "ROOM_LEAVE"; "MESSAGE"].

Lemma applyEvent_view e :
  (∀ f, GossipPayload.decode (Packet.message e) = Some f → harmless (GossipPayload.type f)) →
  preserves (view_is l v) (applyEvent e).
Proof using env l v.
  intros Hh. unfold applyEvent. destruct (GossipPayload.decode _) as [f|]; [|solve_pres].
  specialize (Hh f eq_refl). cbv zeta.
  assert (String.eqb (GossipPayload.type f) "RECONNECT" = false ∧
    String.eqb (GossipPayload.type f) "ROOM_DELETED" = false ∧
    String.eqb (GossipPayload.type f) "ROOM_KICK" = false) as (-> & -> & ->).
  { unfold harmless in Hh. repeat (apply elem_of_cons in Hh as [->|Hh]; [done|]). by apply elem_of_nil in Hh. }
  unfold apply_login, apply_logout, apply_user_created, apply_room_created, apply_acl_add,
    apply_room_join, apply_room_leave, apply_message, push_rooms, listRooms, getRoom. solve_pres.
Qed.
End frame.
#[export] Hint Resolve createRoom_view closeClient_view : pres.

(** ** The node's own events

    What a handler reports to the peers is first applied here; for the events of signing in
    and moving this returns, and leaves the view of the session alone. *)

Lemma db_stable_good T S ov : db_stable (good T S ov).
Proof.
  intros w t [Hi Hs]. destruct (db_stable_inv T S ov w t Hi) as [Hwf Hset]. split; [done|].
  intros Hwf' Hr. split; [by apply Hset|]. destruct Hr as [_ Hq]. unfold small. cbn [db set_db]. by rewrite Hq.
Qed.
#[export] Hint Resolve db_stable_good : pres.
#[export] Hint Extern 5 (preserves (good _ _ _) (modify _)) =>
  apply preserves_modify; intros ? [? ?]; split; [eapply inv_frame; [..|eassumption]; reflexivity|assumption] : pres.

Section own.
Context {env : ServerEnv}.
Hypothesis no_failure : ∀ n, env_db n = None.
Context (T : gmap Z loc) (l : loc) (v : View).

(** the state of a handler at work: the node's invariant, and the view of its session *)
Definition at_view (w : World) : Prop := good T T ∅ w ∧ view_is l v w.
Lemma at_view_intro {A} (m : M A) :
  preserves (good T T ∅) m → preserves (view_is l v) m → preserves at_view m.
Proof. apply preserves_and. Qed.

Lemma apply_login_runs u c : runs at_view (apply_login u c) (λ _, at_view).
Proof using All.
  pose proof (total_onlineNode no_failure). pose proof (total_setOnline no_failure). pose proof (@total_db_do).
  apply runs_total; [unfold apply_login; solve_total|]. apply at_view_intro; unfold apply_login; solve_pres.
Qed.
Lemma apply_user_created_runs u c t : runs at_view (apply_user_created u c t) (λ _, at_view).
Proof using All.
  pose proof (total_userExists no_failure). pose proof (@total_db_do).
  apply runs_total; [unfold apply_user_created; solve_total|].
  apply at_view_intro; unfold apply_user_created; solve_pres.
Qed.

(** a join is stored once the user and the room are *)
Definition knows (n : string) (r : Room.t) (w : World) : Prop := knownRooms w !! n = Some r.
Lemma stored_room n r w : good T T ∅ w → knows n r w → Room.id r ∈ r_id <$> rooms (db w).
Proof using Type.
  intros [(_ & _ & Hc) Hs] Hr. destruct (Hc Hs) as [_ [Hb _]]. specialize (Hb n r Hr).
  apply list_elem_of_fmap. by exists (room_to_row r).
Qed.
Lemma setMembership_runs n r u node :
  runs (λ w, at_view w ∧ knows n r w ∧ u ∈ u_username <$> users (db w))
    (db_do (setMembership u (Room.id r) node)) (λ _, at_view).
Proof using All.
  intros w (Hw & Hr & Hu).
  assert (preserves at_view (db_do (setMembership u (Room.id r) node))) as Hp by (apply at_view_intro; solve_pres).
  specialize (Hp w Hw). pose proof (stored_room n r w (proj1 Hw) Hr) as Hid.
  unfold run_state, db_do, zoom, setMembership, mbind, SE_bind in *. rewrite execute_run in * by done.
  unfold sql_set_membership in *. cbn [next_statement users rooms] in *.
  rewrite (bool_decide_eq_true_2 _ Hu), (bool_decide_eq_true_2 _ Hid), andb_false_r in *.
  eexists _, _. split; [reflexivity|exact Hp].
Qed.
Lemma getUser_found u w :
  ∃ o, db_do (DatabaseManager.getUser u) w = (Ok o, set_db (next_statement (db w)) w) ∧
    (o ≠ None → u ∈ u_username <$> users (db w)).
Proof using no_failure.
  unfold db_do, zoom, DatabaseManager.getUser, mbind, SE_bind. rewrite query_run by done.
  unfold sql_get_user. cbn [next_statement users].
  destruct (filter _ (users (db w))) as [|r rest] eqn:E; [by exists None|]. eexists. split; [reflexivity|].
  intros _. apply filter_head in E as [<- Hr]. by apply list_elem_of_fmap_2.
Qed.
Lemma at_view_next w : at_view w → at_view (set_db (next_statement (db w)) w).
Proof using Type.
  intros [Hg Hv]. split; [|done]. destruct Hg as [Hi Hs]. apply (db_stable_good T T ∅ w); [done| |done].
  apply db_wf_next, Hi.
Qed.

Lemma apply_room_join_runs e u c ts : runs at_view (apply_room_join e u c ts) (λ _, at_view).
Proof using All.
  unfold apply_room_join. cbv zeta. set (n := if is_empty (Packet.room e) then "Lobby" else Packet.room e).
  destruct (_ || _); [by apply runs_ret|].
  set (n' := if is_empty n then Room.name LOBBY else n).
  apply (runs_bind _ _ _ (λ o w, at_view w ∧ knownRooms w !! n' = o)); [by intros w Hw; eexists _, w|].
  intros [r|]; [|by apply runs_ret; intros w [? _]].
  apply runs_frame.
  - pose proof (total_clearMembership no_failure). pose proof (@total_db_do). unfold getRoom. solve_total.
  - apply preserves_and; [apply at_view_intro; unfold getRoom; solve_pres|].
    destruct (_ && _); [|solve_pres]. unfold getRoom. apply preserves_bind; [solve_pres|intros [p|]]; [|solve_pres].
    intros w Hw. unfold run_state, db_do, zoom. by destruct (clearMembership _ _ _).
  - intros [] w [Hw Hr]. unfold mbind at 1, SE_bind at 1. destruct (getUser_found u w) as (o & -> & Ho).
    pose proof (at_view_next w Hw) as Hw1. destruct o as [o|]; [|by eexists _, _].
    destruct (setMembership_runs n' r u c (set_db (next_statement (db w)) w)) as ([] & w2 & Hrun & Hw2).
    { split_and!; [done|done|by apply Ho]. }
    unfold mbind, SE_bind. rewrite Hrun. by eexists _, w2.
Qed.

(** the events that tell the peers about a sign-in or a move *)
Definition moving (t : string) : Prop := t ∈ ["LOGIN"; "USER_CREATED"; "ROOM_JOIN"].
Lemma applyEvent_runs e :
  (∀ f, GossipPayload.decode (Packet.message e) = Some f → moving (GossipPayload.type f)) →
  runs at_view (applyEvent e) (λ _, at_view).
Proof using All.
  intros Hh. unfold applyEvent. destruct (GossipPayload.decode _) as [f|]; [|by apply runs_ret].
  specialize (Hh f eq_refl). unfold moving in Hh. rewrite !elem_of_cons in Hh.
  destruct Hh as [->|[->|[->|[]%elem_of_nil]]]; cbv zeta.
  - apply apply_login_runs.
  - apply apply_user_created_runs.
  - apply apply_room_join_runs.
Qed.

Lemma rumor_runs e :
  (∀ f, GossipPayload.decode (Packet.message e) = Some f → moving (GossipPayload.type f)) →
  runs at_view (rumor e) (λ _, at_view).
Proof using All.
  intros Hh. unfold rumor. destruct (is_empty _); [by apply runs_ret|]. cbv zeta.
  apply runs_frame; [unfold remember; solve_total|apply at_view_intro; unfold remember; solve_pres|].
  intros fresh. destruct (negb fresh); [by apply runs_ret|].
  apply (runs_bind _ _ _ (λ _, at_view)); [apply applyEvent_runs; intros f; repeat case_match; apply Hh|].
  intros _. apply runs_frame; [solve_total|solve_pres|]. intros sockets. apply runs_total.
  - unfold peerSend. solve_total.
  - apply at_view_intro; unfold peerSend; solve_pres.
Qed.
Lemma rumorEvent_runs t u c g r :
  moving t → runs at_view (rumorEvent t u c g r) (λ _, at_view).
Proof using All.
  intros Ht. unfold rumorEvent, makeEventId, connections_rumor, new_packet, time_now, next_read.
  assert (∀ i, runs at_view (event ← (now ← (n ← (λ w, (Ok (reads w), set_reads (S (reads w)) w)); mret (env_time n));
      mret (Packet.make now NODE_ID "*" GOSSIP_EVENT r (GossipPayload.encode t i u c g) 0));
    present ← gets gossip_set; when present (rumor event)) (λ _, at_view)) as Hrest.
  { intros i w Hw. unfold mbind, SE_bind, mret, SE_ret, gets. set (e := Packet.make _ _ _ _ _ _ _).
    assert (at_view (set_reads (S (reads w)) w)) as Hw1.
    { destruct Hw. split; [by apply (quiet_reads _ (quiet_good T T ∅))|done]. }
    destruct (gossip_set _); [|by eexists _, _]. apply rumor_runs; [|done].
    intros f Hf. assert (short t) as Hs.
    { unfold moving in Ht. rewrite !elem_of_cons in Ht. destruct Ht as [->|[->|[->|[]%elem_of_nil]]]; done. }
    by rewrite (GossipPayload.decode_type t i u c g f Hs Hf). }
  apply runs_frame; [|apply at_view_intro|intros i; apply Hrest].
  - solve_total.
  - pose proof (quiet_next_read (good T T ∅) (quiet_good T T ∅)) as Hq. unfold next_read in Hq. solve_pres.
  - pose proof (quiet_next_read (view_is l v) (quiet_view l v)) as Hq. unfold next_read in Hq. solve_pres.
Qed.
End own.

Section report.
Context {env : ServerEnv} (l : loc) (v : View).

Lemma rumorEvent_view t u c g r :
  harmless t → preserves (view_is l v) (rumorEvent t u c g r).
Proof using All.
  intros Ht. unfold rumorEvent, makeEventId, connections_rumor. pres_step; [solve_pres|intros i]. cbv zeta.
  intros w Hw. unfold run_state, new_packet, time_now, next_read, mbind, SE_bind, mret, SE_ret, gets.
  set (e := Packet.make _ _ _ _ _ _ _). set (w1 := set_reads _ w).
  assert (view_is l v w1) as Hw1 by (by apply quiet_reads; [apply quiet_view|]).
  destruct (gossip_set w1); [|done]. cbn [when].
  assert (preserves (view_is l v) (rumor e)) as Hp; [|by apply Hp].
  unfold rumor, peerSend, remember. destruct (is_empty _); [solve_pres|]. cbv zeta.
  pres_step; [solve_pres|intros fresh]. destruct (negb fresh); [solve_pres|].
  pres_step; [|solve_pres]. apply applyEvent_view. intros f Hf.
  assert (GossipPayload.decode (GossipPayload.encode t i u c g) = Some f) as Hf' by (revert Hf; by repeat case_match).
  assert (short t) as Hs.
  { unfold harmless in Ht. rewrite !elem_of_cons in Ht. repeat (destruct Ht as [->|Ht]; [done|]).
    by apply elem_of_nil in Ht. }
  by rewrite (GossipPayload.decode_type t i u c g f Hs Hf').
Qed.
End report.
#[export] Hint Resolve rumorEvent_view : pres.
#[export] Hint Extern 1 (harmless _) => by apply (bool_decide_unpack _); vm_compute : pres.

(** ** Signing out *)

Section leave.
Context {env : ServerEnv} (l : loc).

(** what signing out needs of the state *)
Definition stays (w : World) : Prop := is_Some (heap w !! l) ∧ knownRooms w !! Room.name LOBBY = Some LOBBY.
Lemma stays_update l' f w : stays w → stays (update_session l' f w).
Proof using Type.
  intros [Hh Hk]. split; [|done]. unfold update_session. cbn [heap set_heap].
  destruct (decide (l = l')) as [->|]; [|by rewrite lookup_alter_ne]. rewrite lookup_alter_eq. by destruct Hh as [o ->].
Qed.
Lemma stays_db {A} (m : SE Db A) : preserves stays (db_do m).
Proof. intros w Hw. unfold run_state, db_do, zoom. by destruct (m (db w)). Qed.
Lemma stays_modify f : (∀ w, heap (f w) = heap w ∧ knownRooms (f w) = knownRooms w) → preserves stays (modify f).
Proof. intros Hf w Hw. unfold run_state, stays. cbn. by destruct (Hf w) as [-> ->]. Qed.
Lemma stays_leaveAll : preserves stays (leaveAll l).
Proof using Type.
  pose proof @stays_db. unfold leaveAll, getRoomOf, getUser, isAuthenticated, getSocket, removeSocketLocked, setRoom.
  solve_pres; first [by apply preserves_modify; intros; apply stays_update|by apply stays_modify].
Qed.
Lemma joinRoom_signed_out w :
  stays w → signed_out l w → view_is l (mkView None (Room.name LOBBY)) (run_state (joinRoom (Room.name LOBBY) l) w).
Proof.
  intros [Hh Hk] Ho. unfold run_state. rewrite joinRoom_run. cbn [is_empty]. change (is_empty (Room.name LOBBY)) with false.
  cbv beta iota zeta. rewrite Hk, Ho. cbn [snd]. unfold view_is.
  set (w1 := uproot _ _ _ _ w). change (session_at (add_member _ _ w1) l) with (session_at w1 l).
  change (heap (add_member (Room.name LOBBY) (clientSocket (session_at w l)) w1)) with (heap w1).
  unfold w1, uproot. rewrite session_at_update, decide_True, heap_remove by done. unfold update_session.
  cbn [heap set_heap]. rewrite lookup_alter_eq, heap_remove. unfold signed_out, session_at in Ho.
  destruct Hh as [o Ho']. rewrite Ho' in *. cbn in *. split; [done|]. unfold session_view. cbn. by rewrite Ho.
Qed.
Lemma logout_leaves r :
  triple stays (process_logout l r) (λ o w, ∀ a, o = Ok a →
    Packet.responseCode a = SUCCESS ∧ view_is l (mkView None (Room.name LOBBY)) w).
Proof.
  unfold process_logout. set (Q := λ (o : outcome Packet.t) w, ∀ a, o = Ok a → _).
  apply (triple_bind _ _ _ (λ _, stays)); [apply preserves_gets|intros auth|done].
  apply (triple_bind _ _ _ (λ _, stays)); [apply preserves_gets|intros u|done]. cbv zeta.
  apply (triple_bind _ _ _ (λ _, stays)); [apply stays_leaveAll|intros _|done].
  apply (triple_bind _ _ _ (λ _ w, stays w ∧ signed_out l w)); [|intros _|done].
  { intros w Hw. split; [by apply stays_update|].
    apply (sign_out (λ _, True) (λ _ _ _ _, I) l w I). }
  apply (triple_bind _ _ _ (λ _ w, stays w ∧ signed_out l w)); [by intros w Hw|intros u'|done].
  apply (triple_bind _ _ _ (λ _ w, stays w ∧ signed_out l w)); [|intros _|done].
  { intros w [Hw Ho]. split; [by apply stays_update|]. unfold signed_out. cbn. rewrite session_at_update.
    case_decide; [|done]. unfold signed_out, session_at in Ho. by destruct (heap w !! l). }
  apply (triple_bind _ _ _ (λ _, view_is l (mkView None (Room.name LOBBY)))); [|intros b|done].
  { intros w [Hw Ho]. by apply joinRoom_signed_out. }
  apply (triple_bind _ _ _ (λ _, view_is l (mkView None (Room.name LOBBY)))); [|intros _|done].
  - unfold rumorPresence. apply preserves_when, preserves_bind; [apply quiet_time_now, quiet_view|intros ts].
    apply rumorEvent_view. by right; left.
  - by intros w Hw a [= <-].
Qed.
End leave.

(** ** Moving between rooms *)

Section move.
Context {env : ServerEnv}.
Hypothesis no_failure : ∀ n, env_db n = None.
Context (T : gmap Z loc) (s : Z) (l : loc) (Hl : T !! s = Some l).

(** who is signed in has an account *)
Definition enrolled (v : View) (w : World) : Prop := ∀ u, who v = Some u → account u ∈ accounts (db w).
(** what a handler may rely on *)
Definition fit (v : View) (w : World) : Prop := at_view T l v w ∧ enrolled v w.

Lemma account_name_in u d : account u ∈ accounts d → User.username u ∈ u_username <$> users d.
Proof. intros (r & Hr & <- & _)%account_row. by apply list_elem_of_fmap_2. Qed.
Lemma account_email_in u d : account u ∈ accounts d → User.email u ∈ u_email <$> users d.
Proof. intros (r & Hr & _ & <-)%account_row. by apply list_elem_of_fmap_2. Qed.

Lemma fit_who v w : fit v w → who v = if authenticated (session_at w l) then Some (user (session_at w l)) else None.
Proof. by intros [[_ [_ <-]] _]. Qed.
Lemma fit_place v w : fit v w → place v = Room.name (room (session_at w l)).
Proof. by intros [[_ [_ <-]] _]. Qed.
Lemma fit_lobby v w : fit v w → knownRooms w !! Room.name LOBBY = Some LOBBY.
Proof. intros [[Hg _] _]. by eapply good_lobby. Qed.

Lemma preserves_fit {A} v (m : M A) :
  preserves (at_view T l v) m → (∀ P, preserves (λ w, P ⊆ accounts (db w)) m) → preserves (fit v) m.
Proof.
  intros Ha Hg w [Hw He]. split; [by apply Ha|]. intros u Hu. by apply (Hg (accounts (db w)) w (λ _ H, H)), He.
Qed.
Lemma fit_next v w : fit v w → fit v (set_db (next_statement (db w)) w).
Proof. intros [Hw He]. split; [by apply at_view_next|done]. Qed.

Lemma persist_join_run u p j w :
  u ∈ u_username <$> users (db w) → j ∈ r_id <$> rooms (db w) →
  ∃ d, persist_join u p j w = (Ok true, set_db d w) ∧ users d = users (db w).
Proof using no_failure.
  intros Hu Hj. unfold persist_join, mbind, SE_bind.
  assert (∃ d, when (negb (p =? j)%Z) (db_do (clearMembership u p)) w = (Ok tt, set_db d w) ∧
    users d = users (db w) ∧ rooms d = rooms (db w)) as (d & -> & Eu & Er).
  { destruct (negb _); [|exists (db w); by destruct w]. cbn [when]. unfold db_do, zoom, clearMembership, mbind, SE_bind.
    rewrite execute_run by done. by eexists. }
  unfold db_do, zoom, setMembership, mbind, SE_bind. rewrite execute_run by done. unfold sql_set_membership.
  cbn [next_statement users rooms db set_db]. rewrite Eu, Er.
  rewrite (bool_decide_eq_true_2 _ Hu), (bool_decide_eq_true_2 _ Hj), andb_false_r. by eexists.
Qed.

Lemma joinRoom_moves n r v w :
  let name := if is_empty n then Room.name LOBBY else n in
  fit v w → knownRooms w !! name = Some r →
  ∃ w', joinRoom n l w = (Ok true, w') ∧ fit (mkView (who v) name) w' ∧ knownRooms w' = knownRooms w.
Proof using no_failure Hl.
  cbv zeta. set (name := if is_empty n then _ else n). intros Hw Hr.
  pose proof Hw as [[Hg [Hh Hv]] He]. pose proof (joinRoom_good T T s l ∅ n Hl (or_introl eq_refl) w Hg) as Hj.
  pose proof (good_named _ _ _ _ _ _ Hg Hr) as Hname. pose proof (fit_who v w Hw) as Hwho.
  unfold run_out, run_state in Hj. rewrite joinRoom_run in *. cbv zeta in *. fold name in Hj |- *. rewrite Hr in *.
  set (o := session_at w l) in *. set (w1 := add_member _ _ _) in *.
  assert (session_at w1 l = set_s_room r o) as Hat.
  { change (session_at w1 l) with (session_at (uproot (clientSocket o) (Room.name (room o)) l r w) l).
    unfold uproot. rewrite session_at_update, heap_remove, decide_True by done. unfold o, session_at.
    by destruct Hh as [o' ->]. }
  assert (is_Some (heap w1 !! l)) as Hh1.
  { unfold w1, add_member, uproot, update_session. cbn [heap set_members set_heap]. rewrite lookup_alter_eq, heap_remove.
    by destruct Hh as [o' ->]. }
  assert (knownRooms w1 = knownRooms w) as Hk1 by apply uproot_known.
  assert (db w1 = db w) as Hd1 by apply db_uproot.
  assert (∃ d, (if authenticated o then
      try_catch (persist_join (User.username (user o)) (Room.id (room o)) (Room.id r))
        (λ _, rollback_join (clientSocket o) name (Room.name (room o)) l ;; mret false) w1
     else (Ok true, w1)) = (Ok true, set_db d w1) ∧ users d = users (db w)) as (d & Hrun & Hud).
  { destruct (authenticated o) eqn:Ha; [|exists (db w1); split; [by destruct w1|by rewrite Hd1]].
    unfold try_catch.
    destruct (persist_join_run (User.username (user o)) (Room.id (room o)) (Room.id r) w1) as (d & -> & Hd).
    - rewrite Hd1. by apply account_name_in, He.
    - rewrite Hd1. by eapply stored_room.
    - exists d. by rewrite Hd, Hd1. }
  rewrite Hrun in *. cbn [snd] in Hj. exists (set_db d w1). split; [done|]. split; [|done].
  split; [split|].
  - destruct Hj as [Hj|[_ Hj]]; [done|]. cbn [knownRooms set_db] in Hj. rewrite Hk1 in Hj. congruence.
  - split; [done|]. change (session_at (set_db d w1) l) with (session_at w1 l). rewrite Hat.
    unfold session_view. cbn [authenticated user room set_s_room]. by rewrite Hwho, Hname.
  - intros u Hu. unfold accounts. cbn [db set_db]. rewrite Hud. by apply He.
Qed.
Lemma joinRoom_unknown n w :
  knownRooms w !! (if is_empty n then Room.name LOBBY else n) = None → joinRoom n l w = (Ok false, w).
Proof using Type. intros Hr. rewrite joinRoom_run. cbv zeta. by rewrite Hr. Qed.

(** ** Entering *)

Definition has_account (u : User.t) (w : World) : Prop := account u ∈ accounts (db w).
Lemma calmed_has_account u : calmed (has_account u).
Proof. intros w w' Hc Hu. by apply (c_accounts _ _ Hc). Qed.
Hint Resolve calmed_has_account : pres.

(** the session shows another user *)
Lemma setUser_good u : preserves (good T T ∅) (setUser l u).
Proof using Type. intros w [Hi Hs]. split; [by apply (setUser_inv T T ∅ l u)|done]. Qed.
Lemma setAuthenticated_good b : preserves (good T T ∅) (setAuthenticated l b).
Proof using Type. intros w [Hi Hs]. split; [by apply (setAuthenticated_inv T T ∅ l b)|done]. Qed.
Definition shown (u : User.t) (w : World) : World :=
  update_session l (set_s_authenticated true) (update_session l (set_s_user u) w).
Lemma user_shown u v w : at_view T l v w → has_account u w → fit (mkView (Some u) (place v)) (shown u w).
Proof using Type.
  intros [Hg [Hh Hv]] Hu. split; [split|].
  - apply (setAuthenticated_good true (update_session l (set_s_user u) w)). by apply (setUser_good u w).
  - unfold shown. split; [unfold update_session; cbn [heap set_heap]; rewrite !lookup_alter_eq; by destruct Hh as [o ->]|].
    rewrite !session_at_update, !decide_True by done. unfold update_session. cbn [heap set_heap].
    rewrite lookup_alter_eq. unfold session_at in Hv. destruct Hh as [o Ho]. rewrite Ho in *. cbn in *.
    unfold session_view. cbn. by rewrite <-Hv.
  - intros u' [= <-]. exact Hu.
Qed.

Lemma calmed_enrolled v : calmed (enrolled v).
Proof. intros w w' Hc He u Hu. by apply (c_accounts _ _ Hc), He. Qed.
Lemma quiet_fit v : quiet (fit v).
Proof. intros w n t [[Hg Hv] He]. split; [split; [by apply quiet_good|done]|done]. Qed.
Lemma rumor_fit v t u c g r :
  moving t → runs (fit v) (rumorEvent t u c g r) (λ _, fit v).
Proof using no_failure.
  intros Ht. apply (runs_keep (at_view T l v) (enrolled v)); [by apply rumorEvent_runs|].
  apply rumorEvent_calm, calmed_enrolled.
Qed.
Lemma rumorPresence_fit v u : runs (fit v) (rumorPresence "LOGIN" u) (λ _, fit v).
Proof using no_failure.
  unfold rumorPresence. apply runs_frame; [solve_total| |].
  - apply (quiet_time_now (fit v)), quiet_fit.
  - intros ts. apply rumor_fit. by left.
Qed.
Lemma rumorRoomJoin_fit v u n p : runs (fit v) (rumorRoomJoin u n p) (λ _, fit v).
Proof using no_failure. unfold rumorRoomJoin. apply rumor_fit. by right; right; left. Qed.

Lemma total_directory k : total (refreshServerDirectory k).
Proof. unfold refreshServerDirectory, buildServerDirectory. solve_total. Qed.

(** a session that shows its new user enters the Lobby *)
Lemma enter_as_runs u prev r v :
  runs (λ w, at_view T l v w ∧ has_account u w) (enter_as u prev l r)
    (λ a w, view_is l (mkView (Some u) (Room.name LOBBY)) w ∧ has_account u w ∧
      Packet.responseCode a = SUCCESS ∧ Packet.message a = User.serialize u).
Proof using no_failure Hl.
  intros w [Hw Hu]. pose proof (user_shown u v w Hw Hu) as Hs. unfold enter_as.
  destruct (joinRoom_moves (Room.name LOBBY) LOBBY _ _ Hs (fit_lobby _ _ Hs)) as (w2 & Hrun & Hw2 & _).
  cbn [who] in Hw2. set (v2 := mkView _ _) in Hw2.
  set (k := rumorPresence _ _ ;; _).
  assert (runs (fit v2) k (λ a w, view_is l v2 w ∧ has_account u w ∧
      Packet.responseCode a = SUCCESS ∧ Packet.message a = User.serialize u)) as Hk.
  { unfold k. apply (runs_bind _ _ _ (λ _, fit v2)); [apply rumorPresence_fit|intros _].
    apply (runs_bind _ _ _ (λ _, fit v2)); [apply rumorRoomJoin_fit|intros _].
    apply runs_frame; [unfold encodeRoomDirectory, listRooms; solve_total| |intros body].
    { unfold encodeRoomDirectory, listRooms. solve_pres. }
    apply runs_frame; [apply total_gets|apply preserves_gets|intros sock]. cbv zeta.
    apply runs_frame; [apply total_directory| |intros _].
    - unfold refreshServerDirectory, buildServerDirectory. pose proof (quiet_fit v2). solve_pres.
    - apply runs_ret. intros w' [[_ Hv'] He']. split_and!; [done|by apply He'|done..]. }
  destruct (Hk w2 Hw2) as (a & w3 & Hrun3 & Ha). exists a, w3. split; [|exact Ha].
  unfold shown in Hrun. unfold mbind at 1 2, SE_bind at 1 2. unfold setUser, setAuthenticated, modify.
  cbv beta iota. unfold mbind at 1, SE_bind at 1. rewrite Hrun. exact Hrun3.
Qed.

(** ** The handlers *)

(** what a handler started in view [v] guarantees: an answer tells the view at its end, and
    what ends in an exception left the view as it was *)
Definition told (v : View) (p : Packet.t) (o : outcome Packet.t) (w : World) : Prop :=
  match o with
  | Ok r => tidy (db w) → readable (db w) → view_is l (follow v p r) w
  | Throw _ => view_is l v w
  end.

Lemma follow_failure v p c m r : c ≠ SUCCESS → follow v p (answer c m r) = v.
Proof. intros Hc. unfold follow, answer. cbn. destruct (Z.eqb_spec c SUCCESS); [done|]. done. Qed.
Lemma told_refused v p I c m r :
  (∀ w, I w → view_is l v w) → c ≠ SUCCESS → triple I (mret (answer c m r)) (told v p).
Proof. intros HI Hc w Hw _ _. rewrite follow_failure by done. by apply HI. Qed.
Lemma told_step {A} v p I (m : M A) (f : A → M Packet.t) :
  (∀ w, I w → view_is l v w) → preserves I m → (∀ a, triple I (f a) (told v p)) →
  triple I (m ≫= f) (told v p).
Proof. intros HI Hm Hf. apply (triple_bind _ _ _ (λ _, I)); [done|done|]. intros e w Hw. by apply HI. Qed.
Lemma told_catch v p I (m : M Packet.t) h :
  triple I m (told v p) → (∀ e, triple (view_is l v) (h e) (told v p)) →
  triple I (try_catch m h) (told v p).
Proof.
  intros Hm Hh w Hw. specialize (Hm w Hw). unfold run_out, run_state, try_catch in *.
  destruct (m w) as [[a|e] w'] eqn:E; cbn in *; [done|]. by apply Hh.
Qed.
Lemma told_runs v p I (m : M Packet.t) Q :
  runs I m Q → (∀ r w, Q r w → tidy (db w) → readable (db w) → view_is l (follow v p r) w) →
  triple I m (told v p).
Proof.
  intros Hm HQ w Hw. destruct (Hm w Hw) as (r & w' & Hrun & Hr). unfold run_out, run_state.
  rewrite Hrun. cbn. by apply HQ.
Qed.
Lemma told_gets {A} v p I (f : World → A) (k : A → M Packet.t) :
  (∀ w, I w → view_is l v w) → (∀ a, triple (λ w, I w ∧ f w = a) (k a) (told v p)) →
  triple I (gets f ≫= k) (told v p).
Proof. intros HI Hk w Hw. exact (Hk (f w) w (conj Hw eq_refl)). Qed.
Lemma triple_pure {A} (P : Prop) I (m : M A) Q :
  (∀ w, I w → P) → (P → triple I m Q) → triple I m Q.
Proof. intros HP Hm w Hw. exact (Hm (HP w Hw) w Hw). Qed.
Lemma isAdmin_keeps I : preserves I (isAdmin l).
Proof. intros w Hw. unfold run_state. by rewrite isAdmin_run. Qed.
(** a handler that moves nobody *)
Lemma told_same v p I (m : M Packet.t) :
  (∀ w, I w → view_is l v w) → preserves (view_is l v) m → (∀ r, follow v p r = v) → triple I m (told v p).
Proof.
  intros HI Hm Hf w Hw. specialize (Hm w (HI w Hw)). unfold told.
  destruct (run_out m w); [|done]. intros _ _. by rewrite Hf.
Qed.
Lemma fit_view v w : fit v w → view_is l v w.
Proof. by intros [[_ Hv] _]. Qed.
Lemma fit_db {A} v (m : SE Db A) :
  preserves (good T T ∅) (db_do m) → grows m → preserves (fit v) (db_do m).
Proof using env.
  intros Hm Hg. apply preserves_fit; [apply at_view_intro; [done|apply db_do_view]|].
  intros P w Hw. specialize (Hg P (db w) Hw). unfold run_state, db_do, zoom in *. by destruct (m (db w)).
Qed.

Lemma readable_user u w :
  readable (db w) → has_account u w → User.deserialize (User.serialize u) = Some u.
Proof. intros Hr Hu. apply user_reads_back; apply (Hr (account u) Hu). Qed.
Lemma told_entered v p u a w :
  Packet.type p = LOGIN ∨ Packet.type p = REGISTER →
  view_is l (mkView (Some u) (Room.name LOBBY)) w ∧ has_account u w ∧
    Packet.responseCode a = SUCCESS ∧ Packet.message a = User.serialize u →
  tidy (db w) → readable (db w) → view_is l (follow v p a) w.
Proof.
  intros Ht (Hv & Hu & Hc & Hm) _ Hr. unfold follow. rewrite Hc, Hm. cbn [negb Z.eqb SUCCESS].
  rewrite (readable_user u w Hr Hu). by destruct Ht as [-> | ->].
Qed.

Lemma told_login v p r w :
  tidy (db w) → fit v w → Packet.type p = LOGIN →
  told v p (run_out (process_login p l r) w) (run_state (process_login p l r) w).
Proof using no_failure Hl.
  intros Ht Hw Hty. revert w Hw Ht.
  enough (triple (λ w, fit v w ∧ tidy (db w)) (process_login p l r) (told v p)) as H; [intros w Hw Ht; exact (H w (conj Hw Ht))|].
  unfold process_login. apply told_catch; [|intros e; by apply told_refused].
  apply (triple_bind _ _ _ (λ o w, fit v w ∧ ∀ u, o = Ok (inl u) → has_account u w)).
  - intros w [Hw Ht]. split; [by apply (fit_db v _); [solve_pres|eauto with pres|]|].
    pose proof (loginUser_known (Packet.sender p) (Packet.message p) (db w)) as Hk.
    unfold run_out, run_state, db_do, zoom, has_account in *. destruct (loginUser _ _ _) as [o d']. cbn.
    intros u ->. by eapply Hk.
  - intros [u|error]; [|apply told_refused; [intros w [Hw _]; by apply fit_view|done]].
    apply (triple_pre (λ w, fit v w ∧ has_account u w)); [intros w [Hw Hu]; split; [done|by apply Hu]|].
    assert (∀ w, fit v w ∧ has_account u w → view_is l v w) as Hv by (intros w [Hw _]; by apply fit_view).
    apply told_step; [done|apply preserves_gets|intros here].
    apply told_step; [done| |intros [|]; [by apply told_refused|]].
    { destruct here; [apply preserves_ret|]. apply preserves_and; [apply fit_db; [solve_pres|eauto with pres]|].
      apply db_do_calmed; eauto with pres. }
    apply told_step; [done|apply preserves_gets|intros prev].
    eapply told_runs; [|intros a w HQ; apply (told_entered v p u a w); [by left|exact HQ]].
    eapply runs_weaken; [|intros ? ? H; exact H|apply (enter_as_runs u _ _ v)]. by intros w [[Hw _] Hu].
  - intros e w [Hw _]. by apply fit_view.
Qed.

Ltac by_fit := first [apply fit_view | intros ? [? _]; by apply fit_view].
Ltac refused_here := apply told_refused; [by_fit|done].
Ltac fit_db := apply fit_db; [solve_pres|eauto with pres].

Lemma told_register v p r : Packet.type p = REGISTER → triple (fit v) (process_register p l r) (told v p).
Proof using no_failure Hl.
  intros Hty. unfold process_register.
  apply told_catch; [|intros []; apply told_refused; done].
  apply told_step; [by_fit|fit_db|intros [|]; [refused_here|]]. cbv zeta.
  destruct (_ || _); [refused_here|]. apply told_step; [by_fit|fit_db|intros h].
  apply (triple_bind _ _ _ (λ o w, fit v w ∧ ∀ u, o = Ok u → has_account u w)).
  - intros w Hw. split; [by apply (fit_db v _); [solve_pres|eauto with pres|]|].
    pose proof (createUser_new (Packet.sender p) h (Packet.room p) (db w)) as Hk.
    unfold run_out, run_state, db_do, zoom, has_account in *. destruct (createUser _ _ _ _) as [o d']. cbn.
    intros u ->. by eapply Hk.
  - intros u. apply (triple_pre (λ w, fit v w ∧ has_account u w)); [intros w [Hw Hu]; split; [done|by apply Hu]|].
    eapply told_runs; [|intros a w HQ; apply (told_entered v p u a w); [by right|exact HQ]].
    apply (runs_bind _ _ _ (λ _ w, fit v w ∧ has_account u w)).
    { apply runs_keep; [unfold rumorUserCreated; apply rumor_fit; by right; left|].
      exact (rumorEvent_calm _ (calmed_has_account u) _ _ _ _ _). }
    intros _. apply runs_frame; [apply total_gets|apply preserves_gets|intros prev].
    eapply runs_weaken; [|intros ? ? H; exact H|apply (enter_as_runs u _ _ v)]. by intros w [[Hw _] Hu].
  - intros e w [Hw _]. by apply fit_view.
Qed.

(** an account goes on a list once it and the room are stored *)
Lemma addToAllowList_runs v n rm e :
  runs (λ w, fit v w ∧ knows n rm w ∧ e ∈ u_email <$> users (db w))
    (db_do (addToAllowList (Room.id rm) e false)) (λ _, fit v).
Proof using env no_failure.
  intros w (Hw & Hr & He).
  assert (preserves (fit v) (db_do (addToAllowList (Room.id rm) e false))) as Hp by fit_db. specialize (Hp w Hw).
  pose proof (stored_room T n rm w (proj1 (proj1 Hw)) Hr) as Hid.
  unfold run_state, db_do, zoom, addToAllowList, mbind, SE_bind in *. rewrite execute_run in * by done.
  unfold sql_add_user_allow_list in *. cbn [next_statement users rooms allow_list foreign_keys] in *.
  case_bool_decide; [by eexists _, _|].
  rewrite (bool_decide_eq_true_2 _ He), (bool_decide_eq_true_2 _ Hid), andb_false_r in *. by eexists _, _.
Qed.

(** telling the peers about a move of whoever is signed in *)
Lemma tell_move v b u n q : runs (fit v) (when b (rumorRoomJoin u n q)) (λ _, fit v).
Proof using no_failure. destruct b; [apply rumorRoomJoin_fit|by apply runs_ret]. Qed.

Lemma told_room_leave v p r :
  Packet.type p = ROOM_LEAVE → triple (fit v) (process_room_leave l r) (told v p).
Proof using no_failure Hl.
  intros Hty. unfold process_room_leave. apply told_catch; [|intros e; by apply told_refused].
  apply told_step; [by_fit|apply preserves_gets|intros prev].
  set (v' := mkView (who v) (Room.name LOBBY)). apply (told_runs _ _ _ _ (λ a w, fit v' w ∧
    Packet.responseCode a = SUCCESS)).
  - apply (runs_bind _ _ _ (λ b w, fit v' w ∧ b = true)).
    + intros w Hw. destruct (joinRoom_moves (Room.name LOBBY) LOBBY v w Hw (fit_lobby _ _ Hw)) as (w' & Hrun & Hw' & _).
      by exists true, w'.
    + intros b w [Hw Hb]. subst b. cbn [negb].
      assert (runs (fit v') (auth ← isAuthenticated l; u ← getUser l;
        when auth (rumorRoomJoin (User.username u) (Room.name LOBBY) (Room.name prev)) ;;
        mret (Packet.set_room (Room.name LOBBY) (answer SUCCESS "left room, back in Lobby" r)))
        (λ a w, fit v' w ∧ Packet.responseCode a = SUCCESS)) as Hrest; [|by apply Hrest].
      apply runs_frame; [apply total_gets|apply preserves_gets|intros auth].
      apply runs_frame; [apply total_gets|apply preserves_gets|intros u].
      apply (runs_bind _ _ _ (λ _, fit v')); [apply tell_move|intros _; by apply runs_ret].
  - intros a w [Hw Hc] _ _. unfold follow. rewrite Hc, Hty. by apply fit_view.
Qed.

Lemma told_room_join v p r :
  Packet.type p = ROOM_JOIN → triple (fit v) (process_room_join p l r) (told v p).
Proof using no_failure Hl.
  intros Hty. unfold process_room_join. apply told_catch; [|intros e; by apply told_refused]. cbv zeta.
  set (n := or_lobby (Packet.room p)).
  assert ((if is_empty n then Room.name LOBBY else n) = n) as Hn.
  { unfold n, or_lobby. by destruct (is_empty (Packet.room p)) eqn:E; [|rewrite E]. }
  apply (triple_bind _ _ _ (λ o w, fit v w ∧ ∀ rm, o = Ok (Some rm) → knows n rm w)).
  { intros w Hw. split; [done|]. unfold run_out, knows, getRoom, gets. cbv beta iota zeta. rewrite Hn. by intros rm [= Hr]. }
  2: { intros e w [Hw _]. by apply fit_view. }
  intros [rm|]; [|refused_here].
  apply (triple_pre (λ w, fit v w ∧ knows n rm w)); [intros w [Hw Hr]; split; [done|by apply Hr]|].
  set (I w := fit v w ∧ knows n rm w). change (λ w, fit v w ∧ knows n rm w) with I.
  apply told_gets; [by_fit|intros u]. apply told_step; [by intros w [[Hw _] _]; apply fit_view|apply isAdmin_keeps|intros admin].
  apply told_gets; [by intros w [[Hw _] _]; apply fit_view|intros auth].
  apply (triple_pure (auth = true → who v = Some u)).
  { intros w [[[Hw _] <-] <-] Ha. by rewrite (fit_who v w Hw), Ha. }
  intros Hau. apply (triple_pre I); [by intros w [[Hw _] _]|].
  apply told_step; [by_fit| |intros [|]; [refused_here|]].
  { assert (preserves I (db_do (isAllowed (Room.id rm) (User.email u)))); [|destruct (Room.privacy rm), admin, auth; solve_pres].
    apply preserves_and; [fit_db|]. intros w Hw. unfold run_state, db_do, zoom. by destruct (isAllowed _ _ _). }
  apply told_step; [by_fit|apply preserves_gets|intros prev].
  set (v' := mkView (who v) n). apply (told_runs _ _ _ _ (λ a w, fit v' w ∧
    Packet.responseCode a = SUCCESS ∧ Packet.room a = n)).
  2: { intros a w (Hw & Hc & Hr) _ _. unfold follow. rewrite Hc, Hty, Hr. by apply fit_view. }
  apply (runs_bind _ _ _ (λ b w, (fit v' w ∧ knows n rm w) ∧ b = true)).
  { intros w [Hw Hr]. destruct (joinRoom_moves n rm v w Hw) as (w' & Hrun & Hw' & Hk); [by rewrite Hn|].
    rewrite Hn in Hw'. exists true, w'. unfold knows. by rewrite Hk. }
  intros b w [Hw ->]. cbn [negb]. revert w Hw.
  apply (runs_bind _ _ _ (λ _, fit v')).
  - destruct (Room.privacy rm); [|apply runs_ret; by intros w [Hw _]].
    destruct auth; cbn [when]; [|apply runs_ret; by intros w [Hw _]].
    eapply runs_weaken; [|intros ? ? H; exact H|apply (addToAllowList_runs v' n rm (User.email u))].
    intros w [Hw Hr]. split_and!; [done|done|]. apply account_email_in. apply Hw. by apply Hau.
  - intros _. apply (runs_bind _ _ _ (λ _, fit v')); [apply tell_move|intros _; by apply runs_ret].
Qed.

Lemma told_update_user v p r :
  Packet.type p = UPDATE_USER →
  triple (λ w, fit v w ∧ tidy (db w)) (process_update_user p l r) (told v p).
Proof using no_failure.
  intros Hty. unfold process_update_user.
  apply told_gets; [by_fit|intros auth]. destruct auth; cbn [negb]; [|apply told_refused; [by intros w [[Hw _] _]; apply fit_view|done]].
  apply told_catch; [|intros e; by apply told_refused].
  apply told_gets; [by intros w [[Hw _] _]; apply fit_view|intros u]. cbv zeta.
  destruct (_ || _); [apply told_refused; [by intros w [[[Hw _] _] _]; apply fit_view|done]|].
  intros w [[[Hw Ht] Ha] Hu].
  assert (who v = Some u) as Hwho by (by rewrite (fit_who v w Hw), Ha, Hu).
  assert (account u ∈ accounts (db w)) as Hin by (by apply Hw).
  assert (db_wf (db w)) as Hwf by (destruct Hw as [[[[Hwf _] _] _] _]; exact Hwf).
  unfold run_out, run_state, mbind, SE_bind, db_do, zoom.
  destruct (updateUser_accounts no_failure (User.username u) (Packet.sender p) (Packet.message p)
    (Packet.room p) (User.email u) (db w) Hwf Ht Hin) as (o & d & -> & Hch).
  pose proof (fit_view v w Hw) as [Hh Hv].
  destruct o as [u'|e]; cbn [fst snd]; [|done]. intros Ht' Hr'.
  change (tidy d) in Ht'. change (readable d) in Hr'. destruct (Hch Ht') as (Hin' & _ & _).
  unfold follow. cbn. rewrite Hty. rewrite user_reads_back by apply (Hr' (account u') Hin').
  split; [cbn; rewrite lookup_alter_eq; by destruct Hh as [o ->]|].
  rewrite session_at_update, decide_True by done. cbn [heap set_db]. unfold session_at in Hv, Ha.
  destruct Hh as [o Ho]. rewrite Ho in *. cbn in *. unfold session_view. cbn. by rewrite Ha, <-Hv.
Qed.

Lemma told_logout v p r :
  Packet.type p = LOGOUT →
  triple (fit v) (process_logout l r) (λ o w, ∀ a, o = Ok a → view_is l (follow v p a) w).
Proof using Type.
  intros Hty w Hw a Ha. destruct (logout_leaves l r w ltac:(by split; [apply Hw|by eapply fit_lobby]) a Ha) as [Hc Hv].
  unfold follow. by rewrite Hc, Hty.
Qed.

(** the packets that move nobody *)
Definition idle (t : PacketType) : bool :=
  match t with
  | LOGIN | REGISTER | RECONNECT | LOGOUT | UPDATE_USER | ROOM_JOIN | ROOM_LEAVE | ROOM_DELETE | ROOM_KICK => false
  | _ => true
  end.
Lemma idle_follow v p r : idle (Packet.type p) = true → follow v p r = v.
Proof. intros Ht. unfold follow. destruct (negb _); [done|]. by destruct (Packet.type p). Qed.
Lemma idle_view v p : idle (Packet.type p) = true → preserves (view_is l v) (processPacket p l).
Proof using env.
  clear no_failure Hl. intros Ht. unfold processPacket, prepare. pres_step; [solve_pres|intros r].
  destruct (Packet.type p); try done;
    unfold process_heartbeat, process_unsupported, process_unknown, process_message, process_room_create,
      process_room_invite, process_load_history, pushRoomDirectory, encodeRoomDirectory, listRooms, may_manage,
      PacketProcessor.isAdmin, constraint_or, or_current, getRoom, getRoomOf, getUser, isAuthenticated, rumorMessage,
      rumorRoomCreated, rumorAclAdd; cbv zeta; solve_pres.
Qed.

Lemma processPacket_told v p w r w' :
  fit v w → tidy (db w) → followed (Packet.type p) = true → processPacket p l w = (Ok r, w') →
  tidy (db w') → readable (db w') → view_is l (follow v p r) w'.
Proof using no_failure Hl.
  intros Hw Ht Hf Hrun Ht' Hr'. destruct (idle (Packet.type p)) eqn:Hi.
  { rewrite idle_follow by done. pose proof (idle_view v p Hi w (fit_view v w Hw)) as Hv.
    unfold run_state in Hv. by rewrite Hrun in Hv. }
  unfold processPacket, mbind, SE_bind in Hrun. destruct (prepare p w) as [[r0|e] w1] eqn:Ep; [|done].
  assert (w1 = set_reads (S (reads w)) w) as -> by (by injection Ep). clear Ep.
  set (w1 := set_reads _ w) in *. assert (fit v w1) as Hw1 by (by apply (quiet_reads _ (quiet_fit v))).
  assert (tidy (db w1)) as Ht1 by done. clearbody w1.
  assert (∀ m : M Packet.t, m w1 = (Ok r, w') → told v p (run_out m w1) (run_state m w1) → view_is l (follow v p r) w') as Hdone.
  { intros m Hm. unfold run_out, run_state. rewrite Hm. cbn. auto. }
  destruct (Packet.type p) eqn:Hty; try done.
  all: try (eapply Hdone; [exact Hrun|];
    first [by apply told_login|by apply told_register|by apply told_update_user|by apply told_room_join|by apply told_room_leave]).
  pose proof (told_logout v p r0 Hty w1 Hw1 r) as H. unfold run_out, run_state in H. rewrite Hrun in H. by apply H.
Qed.
End move.

(** a session of a consistent node is fit for a handler *)
Lemma session_fit {env : ServerEnv} T w s l :
  T = sessions w → consistent w → small w → single w → sessions w !! s = Some l →
  fit T l (session_view (session_at w l)) w.
Proof.
  intros -> Hi Hsmall Hs Hl. destruct (si_alloc w Hs s l Hl) as (o & Ho & _). split; [split; [done|]|].
  - split; [by exists o|done].
  - intros u Hu. apply (si_stored w Hs s). exists l. split; [done|]. unfold session_view in Hu. cbn in Hu.
    destruct (authenticated (session_at w l)); [|done]. by injection Hu.
Qed.

(** * Theorems *)

(** C3. The answers tell the client where it stands: in every state a node reaches through
    tidy states, if a request of a client other than RECONNECT, ROOM_KICK and ROOM_DELETE is
    answered, then the session behind its connection is afterwards signed in as the user, and
    in the room, that the answer says, and otherwise as before.  That is, the server refines
    the protocol [follow], which sees requests and answers only.  The three types left out
    move sessions without telling the room in their answer.  Taken up to here: the storage
    never fails, the tables are tidy before and after and were started from the stored rooms,
    no name or email holds '|', and room ids fit an int. *)
Theorem answers_tell_all {env : ServerEnv} tables w p s l r w' :
  (∀ n, env_db n = None) → db_wf tables → stored_rooms tables →
  rtc tidy_step (run_state Server_start (boot tables)) w → tidy (db w) → small w →
  sessions w !! s = Some l → followed (Packet.type p) = true →
  processPacket p l w = (Ok r, w') → tidy (db w') → readable (db w') →
  session_view (session_at w' l) = follow (session_view (session_at w l)) p r.
Proof.
  intros no_failure Hwf Hst Hsteps Ht Hsmall Hl Hf Hrun Ht' Hr'.
  destruct (tidy_steps no_failure _ w Hsteps (started_consistent no_failure tables Hwf Hst)
    (started_single tables) Ht) as [Hi Hs].
  apply (processPacket_told no_failure (sessions w) s l Hl _ p w r w'); try done. by apply (session_fit _ w s l).
Qed.

(** * Witnesses *)

#[local] Existing Instance plain_server.

Definition readable_b (d : Db) : bool :=
  forallb (λ a, negb (has_char "|" a.1) && negb (has_char "|" a.2)) (accounts d).
Lemma readable_check d : readable_b d = true → readable d.
Proof.
  unfold readable_b. rewrite forallb_forall. intros H a Ha%list_elem_of_In%H.
  apply andb_true_iff in Ha as [H1%negb_true_iff H2%negb_true_iff]. by split.
Qed.
Definition two_connected : World :=
  run_state (openSession 8) (run_state (openSession 7) (run_state Server_start (boot seeded))).
Lemma answers_tell_all_witness :
  session_view (session_at (run_state (processPacket user_login 0) two_connected) 0) =
    mkView (Some (User.User "user" "user@example.com" User.USER)) "Lobby".
Proof.
  assert (∃ r, processPacket user_login 0 two_connected =
    (Ok r, run_state (processPacket user_login 0) two_connected) ∧
    follow (session_view (session_at two_connected 0)) user_login r =
      mkView (Some (User.User "user" "user@example.com" User.USER)) "Lobby") as (r & Hrun & Hfollow)
    by (eexists; split; vm_compute; reflexivity).
  etransitivity; [|exact Hfollow].
  apply (answers_tell_all (env := plain_server) seeded two_connected user_login 7 0 r _ (λ _, eq_refl) (init_wf _ _) seeded_rooms
    ltac:(unfold two_connected;
      eapply rtc_l; [split; [apply tidy_check; vm_compute; reflexivity|apply (step_accept 7); vm_compute; reflexivity]|];
      eapply rtc_l; [split; [apply tidy_check; vm_compute; reflexivity|apply (step_accept 8); vm_compute; reflexivity]|];
      apply rtc_refl)
    ltac:(apply tidy_check; vm_compute; reflexivity) ltac:(vm_compute; reflexivity)
    ltac:(vm_compute; reflexivity) ltac:(reflexivity) Hrun
    ltac:(apply tidy_check; vm_compute; reflexivity) ltac:(apply readable_check; vm_compute; reflexivity)).
Defined.
