(* ===== verification/Config.v ===== *)
(** Configuration (include/config/config.h): the settings of a process and the command line
    that sets them.

    The settings are global variables in the source, the record [Config] here; [parseArgs]
    returns the settings at the point where it stopped, with what it returned.  The text it
    prints is left out.  The theorem: whatever the arguments, the failover neighbours are
    distinct usable endpoints and none of them is the primary server. *)
From S2P Require Import Prelude.
From stdpp Require Import options.

(** * Definitions *)

(** [ServerPoint]; a default one has no host and port 0 *)
Record ServerPoint := mkPoint { host : string; port : Z }.
Definition no_point : ServerPoint := mkPoint "" 0.

#[export] Instance ServerPoint_eq_dec : EqDecision ServerPoint.
Proof. solve_decision. Defined.

Record Config := mkConfig {
  SERVER_HOST : string;
  PORT : Z;
  WS_PORT : Z;
  PEER_PORT : Z;
  NODE_ID : string;
  PEERS : list string;
  NEIGHBOR_SERVERS : list ServerPoint;
  DB_PATH : string;
  TEST_MODE : bool
}.

(** the initial values *)
Definition defaults : Config :=
  mkConfig "127.0.0.1" 5555 8080 5557 "node1" [] [] "data/node-1.db" false.

Definition set_host v c := mkConfig v (PORT c) (WS_PORT c) (PEER_PORT c) (NODE_ID c) (PEERS c)
  (NEIGHBOR_SERVERS c) (DB_PATH c) (TEST_MODE c).
Definition set_port v c := mkConfig (SERVER_HOST c) v (WS_PORT c) (PEER_PORT c) (NODE_ID c)
  (PEERS c) (NEIGHBOR_SERVERS c) (DB_PATH c) (TEST_MODE c).
Definition set_ws v c := mkConfig (SERVER_HOST c) (PORT c) v (PEER_PORT c) (NODE_ID c) (PEERS c)
  (NEIGHBOR_SERVERS c) (DB_PATH c) (TEST_MODE c).
Definition set_peer_port v c := mkConfig (SERVER_HOST c) (PORT c) (WS_PORT c) v (NODE_ID c)
  (PEERS c) (NEIGHBOR_SERVERS c) (DB_PATH c) (TEST_MODE c).
Definition set_node v c := mkConfig (SERVER_HOST c) (PORT c) (WS_PORT c) (PEER_PORT c) v (PEERS c)
  (NEIGHBOR_SERVERS c) (DB_PATH c) (TEST_MODE c).
Definition set_peer_list v c := mkConfig (SERVER_HOST c) (PORT c) (WS_PORT c) (PEER_PORT c)
  (NODE_ID c) v (NEIGHBOR_SERVERS c) (DB_PATH c) (TEST_MODE c).
Definition set_neighbors v c := mkConfig (SERVER_HOST c) (PORT c) (WS_PORT c) (PEER_PORT c)
  (NODE_ID c) (PEERS c) v (DB_PATH c) (TEST_MODE c).
Definition set_path v c := mkConfig (SERVER_HOST c) (PORT c) (WS_PORT c) (PEER_PORT c) (NODE_ID c)
  (PEERS c) (NEIGHBOR_SERVERS c) v (TEST_MODE c).
Definition set_test v c := mkConfig (SERVER_HOST c) (PORT c) (WS_PORT c) (PEER_PORT c) (NODE_ID c)
  (PEERS c) (NEIGHBOR_SERVERS c) (DB_PATH c) v.

(** [None] is the [false] it returns, with the port left as it was *)
Definition parsePort (text : string) : option Z :=
  value ← stoul text;
  if ((value =? 0) || (65535 <? value))%Z then None else Some (u16 value).

Definition parsePeers (text : string) (c : Config) : Config :=
  set_peer_list (filter (λ item, item ≠ "") (getline_all "," text)) c.

Definition same_point (p q : ServerPoint) : bool :=
  String.eqb (host p) (host q) && (port p =? port q)%Z.

(** erases the first match *)
Fixpoint remove_first (p : ServerPoint) (l : list ServerPoint) : list ServerPoint :=
  match l with
  | [] => []
  | q :: l => if same_point q p then l else q :: remove_first p l
  end.
Definition removeNeighborServer (p : ServerPoint) (c : Config) : Config :=
  set_neighbors (remove_first p (NEIGHBOR_SERVERS c)) c.

(** the primary endpoint, [SERVER_HOST] and [PORT] *)
Definition primary (c : Config) : ServerPoint := mkPoint (SERVER_HOST c) (PORT c).

(** one "host:port" item *)
Definition parse_item (item : string) : option ServerPoint :=
  match rfind_char ":" item with
  | None => None
  | Some colon =>
      if (colon =? 0)%nat || (String.length item <=? colon + 1)%nat then None
      else p ← parsePort (str_drop (colon + 1) item); Some (mkPoint (substr 0 colon item) p)
  end.

(** the loop of [parseNeighborServers] *)
Fixpoint neighbor_loop (items : list string) (c : Config) : bool * Config :=
  match items with
  | [] => (true, c)
  | item :: items =>
      if is_empty item then neighbor_loop items c
      else
        match parse_item item with
        | None => (false, set_neighbors [] c)
        | Some endpoint =>
            if same_point endpoint (primary c) then neighbor_loop items c
            else
              let c := removeNeighborServer endpoint c in
              neighbor_loop items (set_neighbors (NEIGHBOR_SERVERS c ++ [endpoint]) c)
        end
  end.
Definition parseNeighborServers (text : string) (c : Config) : bool * Config :=
  neighbor_loop (getline_all "," text) (set_neighbors [] c).

(** the options that take a value: what they do with it, [false] for a value they refuse *)
Definition parse_option (arg value : string) (c : Config) : option (bool * Config) :=
  let with_port (set : Z → Config → Config) (after : Config → Config) :=
    Some (match parsePort value with Some p => (true, after (set p c)) | None => (false, c) end) in
  if String.eqb arg "--node-id" then Some (true, set_node value c)
  else if String.eqb arg "--host" then
    let c := set_host value c in Some (true, removeNeighborServer (primary c) c)
  else if String.eqb arg "--port" then with_port set_port (λ c, removeNeighborServer (primary c) c)
  else if String.eqb arg "--ws-port" then with_port set_ws id
  else if String.eqb arg "--peer-port" then with_port set_peer_port id
  else if String.eqb arg "--peers" then Some (true, parsePeers value c)
  else if String.eqb arg "--servers" then Some (parseNeighborServers value c)
  else if String.eqb arg "--db" then Some (true, set_path value c)
  else None.

(** the loop over [argv], from the first argument on *)
Fixpoint parseArgs (args : list string) (c : Config) : bool * Config :=
  match args with
  | [] => (true, c)
  | arg :: args =>
      if String.eqb arg "--help" || String.eqb arg "-h" then (false, c)
      else if String.eqb arg "--test" then parseArgs args (set_test true c)
      else
        match args with
        | [] => (false, c)
        | value :: rest =>
            match parse_option arg value c with
            | None => (false, c)
            | Some (false, c) => (false, c)
            | Some (true, c) => parseArgs rest c
            end
        end
  end.

Example two_servers :
  parseArgs ["--servers"; "a:1,b:2,a:1,127.0.0.1:5555"; "--host"; "b"; "--port"; "2"] defaults =
  (true, mkConfig "b" 2 8080 5557 "node1" [] [mkPoint "a" 1] "data/node-1.db" false).
Proof. vm_compute. reflexivity. Qed.

(** * Lemmas *)

Definition good_point (p : ServerPoint) : Prop := host p ≠ "" ∧ (0 < port p < 65536)%Z.

(** what the failover list relies on *)
Record neighbors_ok (c : Config) : Prop := {
  nb_distinct : NoDup (NEIGHBOR_SERVERS c);
  nb_usable : Forall good_point (NEIGHBOR_SERVERS c);
  nb_others : primary c ∉ NEIGHBOR_SERVERS c
}.

Lemma same_point_spec p q : same_point p q = true ↔ p = q.
Proof.
  unfold same_point. rewrite andb_true_iff, String.eqb_eq, Z.eqb_eq.
  destruct p, q; simpl. split; [by intros [-> ->]|by intros [= -> ->]].
Qed.

Lemma remove_first_sublist p l : remove_first p l `sublist_of` l.
Proof. induction l as [|q l IH]; simpl; [done|]. destruct (same_point q p); by constructor. Qed.

Lemma remove_first_in p q l : q ∈ remove_first p l → q ∈ l.
Proof. induction l as [|r l IH]; simpl; [done|]. destruct (same_point r p); set_solver. Qed.

Lemma remove_first_Forall P p l : Forall P l → Forall P (remove_first p l).
Proof. induction 1; simpl; [done|]. destruct (same_point _ p); [done|by constructor]. Qed.

Lemma remove_first_gone p l : NoDup l → p ∉ remove_first p l.
Proof.
  induction 1 as [|q l Hq Hl IH]; simpl; [set_solver|].
  destruct (same_point q p) eqn:E; [by apply same_point_spec in E as ->|].
  intros [->|?]%elem_of_cons; [|done]. by rewrite (proj2 (same_point_spec q q)) in E.
Qed.

Lemma parsePort_range text p : parsePort text = Some p → (0 < p < 65536)%Z.
Proof.
  unfold parsePort. destruct (stoul text) as [v|] eqn:E; [|done].
  apply stoul_range in E. unfold in_u32 in E. change (Some v ≫= ?f) with (f v). cbv beta.
  destruct (_ || _) eqn:Hv; [done|]. apply orb_false_iff in Hv as [??]. intros [= <-].
  unfold u16. rewrite Z.mod_small; lia.
Qed.

Lemma rfind_char_lt c s i : rfind_char c s = Some i → i < String.length s.
Proof.
  revert i. induction s as [|d s IH]; intros i; [done|]. simpl.
  destruct (rfind_char c s) as [j|].
  - intros [= <-]. specialize (IH j eq_refl). lia.
  - destruct (Ascii.eqb c d); [intros [= <-]; lia|done].
Qed.

Lemma parse_item_good item p : parse_item item = Some p → good_point p.
Proof.
  unfold parse_item. destruct (rfind_char ":" item) as [colon|] eqn:Ec; [|done].
  destruct (_ || _) eqn:E; [done|]. apply orb_false_iff in E as [E0 E1].
  destruct (parsePort _) as [q|] eqn:Eq; [|done]. intros [= <-].
  apply parsePort_range in Eq. split; [|done]. simpl. intros H%(f_equal String.length).
  apply rfind_char_lt in Ec. unfold substr in H. rewrite str_drop_0, str_take_length in H.
  simpl in H. lia.
Qed.

(** dropping the new primary restores the invariant, whatever the old one was *)
Lemma removeNeighbor_ok c :
  NoDup (NEIGHBOR_SERVERS c) → Forall good_point (NEIGHBOR_SERVERS c) →
  neighbors_ok (removeNeighborServer (primary c) c).
Proof.
  intros Hd Hu. constructor; simpl.
  - by eapply sublist_NoDup, remove_first_sublist.
  - by apply remove_first_Forall.
  - by apply remove_first_gone.
Qed.

Lemma neighbor_loop_ok items c :
  neighbors_ok c → neighbors_ok (neighbor_loop items c).2.
Proof.
  revert c. induction items as [|item items IH]; intros c Hc; [done|]. simpl.
  destruct (is_empty item); [by apply IH|].
  destruct (parse_item item) as [p|] eqn:Ep; [|by constructor; simpl; [constructor|constructor|set_solver]].
  destruct (same_point p (primary c)) eqn:Es; [by apply IH|].
  apply IH. destruct Hc as [Hd Hu Ho]. constructor; simpl.
  - apply NoDup_app. split_and!; [by eapply sublist_NoDup, remove_first_sublist| |by apply NoDup_singleton].
    intros q Hq ->%list_elem_of_singleton. by eapply remove_first_gone.
  - apply Forall_app. split; [by apply remove_first_Forall|]. constructor; [|done].
    by eapply parse_item_good.
  - change (primary _) with (primary c). intros [Hin|Hin]%elem_of_app.
    + by apply Ho, (remove_first_in p).
    + apply list_elem_of_singleton in Hin. by rewrite (proj2 (same_point_spec _ _)) in Es.
Qed.

(** settings that are not an endpoint keep the invariant *)
Lemma neighbors_ok_frame c c' :
  NEIGHBOR_SERVERS c' = NEIGHBOR_SERVERS c → primary c' = primary c →
  neighbors_ok c → neighbors_ok c'.
Proof. intros Hn Hp []. by constructor; rewrite ?Hn, ?Hp. Qed.

Lemma parse_option_ok arg value c r :
  parse_option arg value c = Some r → neighbors_ok c → neighbors_ok r.2.
Proof.
  unfold parse_option. intros H Hc. pose proof Hc as [Hd Hu Ho].
  repeat match type of H with
    | (if ?b then _ else _) = _ => destruct b
    | Some _ = Some _ => injection H as <-
    end; try done; try (by apply (neighbors_ok_frame c)).
  - by apply (removeNeighbor_ok (set_host value c)).
  - destruct (parsePort value) as [p|]; [|done]. by apply (removeNeighbor_ok (set_port p c)).
  - destruct (parsePort value); [|done]. by apply (neighbors_ok_frame c).
  - destruct (parsePort value); [|done]. by apply (neighbors_ok_frame c).
  - apply neighbor_loop_ok. constructor; simpl; [constructor|constructor|set_solver].
Qed.

(** * Theorems *)

(** Whatever the command line, accepted or refused half way: the failover neighbours
    are distinct, each has a host and a port between 1 and 65535, and none of them is the
    primary server, in whatever order the options that set the one and the others came;
    reading the arguments always ends. *)
Theorem parseArgs_neighbors args :
  let c := (parseArgs args defaults).2 in
  NoDup (NEIGHBOR_SERVERS c) ∧
  Forall (λ p, host p ≠ "" ∧ 0 < port p < 65536)%Z (NEIGHBOR_SERVERS c) ∧
  mkPoint (SERVER_HOST c) (PORT c) ∉ NEIGHBOR_SERVERS c.
Proof.
  cut (∀ c, neighbors_ok c → neighbors_ok (parseArgs args c).2).
  { intros H. destruct (H defaults) as [Hd Hu Ho]; [|done].
    constructor; simpl; [constructor|constructor|set_solver]. }
  remember (length args) as n eqn:Hn. revert args Hn.
  induction (lt_wf n) as [n _ IH]. intros args -> c Hc.
  destruct args as [|arg args]; [done|]. simpl. destruct (_ || _); [done|].
  destruct (String.eqb arg "--test").
  { eapply IH; [|done|by apply (neighbors_ok_frame c)]. simpl. lia. }
  destruct args as [|value rest]; [done|].
  destruct (parse_option arg value c) as [[[] c']|] eqn:E; [| |done];
    apply parse_option_ok in E; try done.
  eapply IH; [|done|done]. simpl. lia.
Qed.
