(* ===== verification/EndpointRing.v ===== *)
(** EndpointRing (src/client/endpoint_ring.cpp): the client's list of servers to try, the
    cursor that walks it, the order the list is built in, and the delay between attempts.

    The theorems: the merged list has every usable server once, the current one first; the
    cursor stays on its server when the list is replaced; advancing visits every server in
    one lap; the delay ceiling is the documented capped doubling. *)
From S2P Require Import Prelude Models Config.
From stdpp Require Import options.

(** * Definitions *)

Definition usable (p : ServerPoint) : bool := negb (is_empty (host p)) && negb (port p =? 0)%Z.

Definition appendUnique (out : list ServerPoint) (p : ServerPoint) : list ServerPoint :=
  if negb (usable p) then out
  else if existsb (λ have, same_point have p) out then out
  else out ++ [p].

Definition mergeFailoverList (current : ServerPoint) (seed : list ServerPoint)
    (directory : list ClientEndpoint.t) : list ServerPoint :=
  let merged := appendUnique [] current in
  let merged :=
    foldl (λ merged endpoint,
      if ClientEndpoint.isLiveClientEndpoint endpoint
      then appendUnique merged (mkPoint (ClientEndpoint.host endpoint) (ClientEndpoint.port endpoint))
      else merged) merged directory in
  foldl appendUnique merged seed.

Record EndpointRing := mkRing { points : list ServerPoint; index : nat }.
Definition empty_ring : EndpointRing := mkRing [] 0.

(** [points[index]]; the cursor is in range whenever the list is not empty ([ring_ok]) *)
Definition at_cursor (r : EndpointRing) : ServerPoint := nth (index r) (points r) no_point.

(** the first position that holds the point *)
Fixpoint position (p : ServerPoint) (l : list ServerPoint) : option nat :=
  match l with
  | [] => None
  | q :: l => if same_point q p then Some 0 else S <$> position p l
  end.

Definition replace (next : list ServerPoint) (r : EndpointRing) : EndpointRing :=
  match points r, next with
  | [], _ | _, [] => mkRing next 0
  | _, _ => mkRing next (default 0 (position (at_cursor r) next))
  end.

Definition current (r : EndpointRing) : ServerPoint :=
  match points r with [] => no_point | _ => at_cursor r end.

Definition advance (r : EndpointRing) : EndpointRing :=
  match points r with
  | [] => r
  | _ => mkRing (points r) ((index r + 1) mod length (points r))
  end.

Definition size (r : EndpointRing) : nat := length (points r).

Definition kBaseMs : Z := 200.
Definition kCapMs : Z := 8000.
Fixpoint backoff_loop (steps : nat) (ceiling : Z) : Z :=
  match steps with
  | O => ceiling
  | S steps =>
      if (kCapMs / 2 <=? ceiling)%Z then kCapMs
      else backoff_loop steps (as_int (ceiling * 2))
  end.
Definition backoffCeilingMs (attempt : Z) : Z :=
  backoff_loop (Z.to_nat (if attempt <? 0 then 0 else attempt)%Z) kBaseMs.

(** [draw lo hi] is what the uniform distribution on [lo, hi] returned *)
Definition fullJitterDelayMs (test_mode : bool) (attempt : Z) (draw : Z → Z → Z) : Z :=
  if test_mode then 0%Z else draw 0%Z (backoffCeilingMs attempt).

(** * Lemmas *)

Definition ring_ok (r : EndpointRing) : Prop :=
  match points r with [] => index r = 0 | _ => index r < length (points r) end.

Lemma usable_spec p : usable p = true ↔ host p ≠ "" ∧ port p ≠ 0%Z.
Proof.
  unfold usable. rewrite andb_true_iff, !negb_true_iff, Z.eqb_neq.
  destruct p as [[|c h] q]; simpl; split; by intros [??].
Qed.

Lemma appendUnique_run out p :
  appendUnique out p = if usable p then if decide (p ∈ out) then out else out ++ [p] else out.
Proof.
  unfold appendUnique. destruct (usable p); [|done]. simpl.
  destruct (existsb _ out) eqn:E; destruct (decide (p ∈ out)) as [Hin|Hin]; try done; exfalso.
  - apply existsb_exists in E as (q & Hq & ->%same_point_spec). by apply Hin, list_elem_of_In.
  - apply not_true_iff_false in E. apply E, existsb_exists. exists p.
    split; [by apply list_elem_of_In|by apply same_point_spec].
Qed.

(** what the merged list keeps while it grows *)
Record merged_ok (want : ServerPoint → Prop) (out : list ServerPoint) : Prop := {
  mg_nodup : NoDup out;
  mg_mem : ∀ p, p ∈ out ↔ usable p = true ∧ want p
}.

Lemma appendUnique_ok want out p :
  merged_ok want out → merged_ok (λ q, want q ∨ q = p) (appendUnique out p).
Proof.
  intros [Hn Hm]. rewrite appendUnique_run. destruct (usable p) eqn:Eu.
  - destruct (decide (p ∈ out)) as [Hin|Hin]; split.
    + done.
    + intros q. rewrite Hm. apply Hm in Hin. naive_solver.
    + apply NoDup_app. split_and!; [done|set_solver|apply NoDup_singleton].
    + intros q. rewrite elem_of_app, list_elem_of_singleton, Hm. naive_solver.
  - split; [done|]. intros q. rewrite Hm. split; [naive_solver|]. intros [Hu [Hw| ->]]; [done|congruence].
Qed.

Lemma merged_ok_ext want want' out :
  (∀ p, want p ↔ want' p) → merged_ok want out → merged_ok want' out.
Proof. intros H [Hn Hm]. split; [done|]. intros p. by rewrite Hm, H. Qed.

Lemma append_all_ok want out l :
  merged_ok want out → merged_ok (λ q, want q ∨ q ∈ l) (foldl appendUnique out l).
Proof.
  revert want out. induction l as [|p l IH]; intros want out H; simpl.
  - eapply merged_ok_ext, H. set_solver.
  - eapply merged_ok_ext, IH, appendUnique_ok, H. set_solver.
Qed.

(** the server points a directory offers *)
Definition offered (directory : list ClientEndpoint.t) : list ServerPoint :=
  (λ e, mkPoint (ClientEndpoint.host e) (ClientEndpoint.port e)) <$>
    filter (λ e, ClientEndpoint.isLiveClientEndpoint e = true) directory.

Lemma merge_run current seed directory :
  mergeFailoverList current seed directory =
  foldl appendUnique [] (current :: offered directory ++ seed).
Proof.
  unfold mergeFailoverList. simpl. rewrite foldl_app. f_equal.
  generalize (appendUnique [] current). induction directory as [|e l IH]; intros out; [done|].
  simpl. unfold offered. rewrite filter_cons. rewrite IH.
  by destruct (ClientEndpoint.isLiveClientEndpoint e).
Qed.

Lemma append_all_head p out l : ∃ rest, foldl appendUnique (p :: out) l = p :: rest.
Proof.
  revert out. induction l as [|q l IH]; intros out; simpl; [eauto|].
  rewrite appendUnique_run. destruct (usable q); [|apply IH].
  destruct (decide _); [apply IH|apply (IH (out ++ [q]))].
Qed.

Lemma position_spec p l : match position p l with
  | Some i => l !! i = Some p
  | None => p ∉ l
  end.
Proof.
  induction l as [|q l IH]; simpl; [set_solver|].
  destruct (same_point q p) eqn:E; [by apply same_point_spec in E as ->|].
  destruct (position p l); simpl; [done|]. intros [->|?]%elem_of_cons; [|done].
  by rewrite (proj2 (same_point_spec _ _)) in E.
Qed.

Lemma replace_ok next r : ring_ok (replace next r).
Proof.
  unfold replace, ring_ok. destruct (points r), next as [|q next]; simpl; try lia.
  pose proof (position_spec (at_cursor r) (q :: next)) as H. simpl in H.
  destruct (same_point q _); simpl; [lia|]. destruct (position _ next); simpl; [|lia].
  apply lookup_lt_Some in H. simpl in H. lia.
Qed.

Lemma advance_ok r : ring_ok r → ring_ok (advance r).
Proof.
  unfold ring_ok, advance. destruct (points r) as [|p l] eqn:E; [by rewrite E|]. intros _.
  exact (Nat.mod_upper_bound (index r + 1) (length (p :: l)) ltac:(done)).
Qed.

Lemma advance_points r : points (advance r) = points r.
Proof. unfold advance. by destruct (points r) eqn:E. Qed.

Lemma advance_index n r :
  ring_ok r → points r ≠ [] → index (Nat.iter n advance r) = (index r + n) mod length (points r) ∧
  points (Nat.iter n advance r) = points r.
Proof.
  intros Hok Hne. induction n as [|n [IHi IHp]]; simpl.
  - unfold ring_ok in Hok. destruct (points r) eqn:E; [done|]. rewrite Nat.add_0_r. split; [|done].
    symmetry. by apply Nat.mod_small.
  - rewrite advance_points, IHp. split; [|done]. unfold advance at 1. rewrite IHp.
    destruct (points r) eqn:E; [done|]. cbn [index]. rewrite IHi, Nat.Div0.add_mod_idemp_l. f_equal. lia.
Qed.

(** where [n] steps take the cursor, and that [size] of them pass every server *)
Lemma ring_at r n :
  ring_ok r → points r ≠ [] →
  current (Nat.iter n advance r) = nth ((index r + n) mod size r) (points r) no_point.
Proof.
  intros Hok Hne. destruct (advance_index n r Hok Hne) as [Hx Hp].
  unfold current, at_cursor. rewrite Hx, Hp. unfold size. by destruct (points r).
Qed.

Lemma ring_index r : ring_ok r → points r ≠ [] → index r < size r.
Proof. unfold ring_ok, size. by destruct (points r). Qed.

Lemma ring_in r n : ring_ok r → points r ≠ [] → current (Nat.iter n advance r) ∈ points r.
Proof.
  intros Hok Hne. rewrite ring_at by done. pose proof (ring_index r Hok Hne).
  apply list_elem_of_In, nth_In. apply Nat.mod_upper_bound. unfold size in *. lia.
Qed.

Lemma ring_visits r p :
  ring_ok r → p ∈ points r → ∃ n, n < size r ∧ current (Nat.iter n advance r) = p.
Proof.
  intros Hok Hp. assert (points r ≠ []) as Hne by (by intros Hz; rewrite Hz in Hp; apply elem_of_nil in Hp).
  pose proof (ring_index r Hok Hne) as Hlt. apply list_elem_of_lookup in Hp as [j Hj].
  pose proof (lookup_lt_Some _ _ _ Hj) as Hjl. fold (size r) in Hjl.
  exists ((j + size r - index r) mod size r). split; [apply Nat.mod_upper_bound; lia|].
  rewrite ring_at by done. rewrite Nat.Div0.add_mod_idemp_r.
  replace (index r + (j + size r - index r)) with (j + 1 * size r) by lia.
  rewrite Nat.Div0.mod_add, Nat.mod_small by done. by apply nth_lookup_Some.
Qed.

Lemma backoff_spec n c :
  (0 < c <= kCapMs)%Z → backoff_loop n c = Z.min kCapMs (c * 2 ^ Z.of_nat n).
Proof.
  revert c. unfold kCapMs. induction n as [|n IH]; intros c Hc; cbn [backoff_loop].
  - rewrite Z.pow_0_r. lia.
  - unfold kCapMs. change (8000 / 2)%Z with 4000%Z. pose proof (Z.pow_pos_nonneg 2 (Z.of_nat n)) as Hp.
    rewrite Nat2Z.inj_succ, Z.pow_succ_r by lia. destruct (Z.leb_spec 4000 c); [nia|].
    unfold as_int, u32. rewrite Z.mod_small by lia. destruct (_ <? _)%Z eqn:?; [|lia].
    rewrite IH by lia. f_equal. lia.
Qed.

(** * Theorems *)

(** The failover list holds every usable server once: the current one, the live ones of
    the directory and the seed, and nothing else; a usable current server comes first; and
    replacing the list leaves the cursor on its server when that server is still listed, at
    the start otherwise, never out of range. *)
Theorem failover_list here seed directory r :
  let merged := mergeFailoverList here seed directory in
  NoDup merged ∧
  (∀ p, p ∈ merged ↔ (host p ≠ "" ∧ port p ≠ 0%Z) ∧
    (p = here ∨ p ∈ seed ∨
     ∃ e, e ∈ directory ∧ ClientEndpoint.isLiveClientEndpoint e = true ∧
       p = mkPoint (ClientEndpoint.host e) (ClientEndpoint.port e))) ∧
  (usable here = true → head merged = Some here) ∧
  ring_ok (replace merged r) ∧
  (points r ≠ [] → at_cursor r ∈ merged → current (replace merged r) = at_cursor r).
Proof.
  cbv zeta. rewrite merge_run.
  destruct (append_all_ok (λ _, False) [] (here :: offered directory ++ seed)) as [Hn Hm].
  { split; [constructor|set_solver]. }
  split_and!; [done| | |apply replace_ok|].
  - intros p. rewrite Hm, usable_spec. unfold offered.
    rewrite elem_of_cons, elem_of_app, list_elem_of_fmap. setoid_rewrite list_elem_of_filter. naive_solver.
  - intros Hu. cbn [foldl]. rewrite appendUnique_run, Hu. destruct (decide _); [set_solver|].
    change ([] ++ [here]) with [here].
    by destruct (append_all_head here [] (offered directory ++ seed)) as [rest ->].
  - intros Hne Hin. generalize dependent (foldl appendUnique [] (here :: offered directory ++ seed)).
    intros merged _ _ Hin. unfold replace, current.
    destruct (points r) as [|q l] eqn:Ep; [done|]. destruct merged as [|q' m]; [set_solver|].
    cbn [points]. pose proof (position_spec (at_cursor r) (q' :: m)) as H.
    destruct (position _ _) as [i|]; [|done]. cbn [default at_cursor index points].
    by apply nth_lookup_Some.
Qed.

(** Advancing walks the whole ring: after [n] steps the cursor is at the entry [n]
    places on, around the end, so [size] steps visit every server and come back. *)
Theorem ring_lap r :
  ring_ok r → points r ≠ [] →
  (∀ n, current (Nat.iter n advance r) =
        nth ((index r + n) mod size r) (points r) no_point) ∧
  (∀ p, p ∈ points r → ∃ n, n < size r ∧ current (Nat.iter n advance r) = p) ∧
  Nat.iter (size r) advance r = r.
Proof.
  intros Hok Hne. split_and!; [intros n; by apply ring_at|intros p; by apply ring_visits|].
  destruct (advance_index (size r) r Hok Hne) as [Hx Hp]. pose proof (ring_index r Hok Hne).
  destruct (Nat.iter _ _ _) as [ps ix]. simpl in *. subst ps ix.
  fold (size r). replace (index r + size r) with (index r + 1 * size r) by lia.
  rewrite Nat.Div0.mod_add, Nat.mod_small by done. by destruct r.
Qed.

(** C35. The ceiling of the delay before attempt [n] is the documented
    [min(8000, 200 * 2^n)] ms, for every [n], negative ones counting as 0: the doubling never
    overflows and never passes the cap; the delay drawn is within it. *)
Theorem backoff_ceiling n test_mode draw :
  (∀ lo hi, (lo <= hi)%Z → (lo <= draw lo hi <= hi)%Z) →
  backoffCeilingMs n = Z.min 8000 (200 * 2 ^ Z.max 0 n) ∧
  (0 <= fullJitterDelayMs test_mode n draw <= backoffCeilingMs n)%Z.
Proof.
  intros Hd. assert (backoffCeilingMs n = Z.min 8000 (200 * 2 ^ Z.max 0 n))%Z as He.
  { unfold backoffCeilingMs. rewrite backoff_spec by (unfold kBaseMs, kCapMs; lia).
    unfold kCapMs, kBaseMs. do 3 f_equal. destruct (Z.ltb_spec n 0); lia. }
  split; [done|]. pose proof (Z.pow_pos_nonneg 2 (Z.max 0 n) ltac:(lia) ltac:(lia)).
  unfold fullJitterDelayMs. destruct test_mode; [lia|]. apply Hd. lia.
Qed.

(** * Witnesses *)

Definition sample_ring : EndpointRing := mkRing [mkPoint "a" 1; mkPoint "b" 2; mkPoint "c" 3] 2.

Lemma ring_lap_witness :
  current (Nat.iter 1 advance sample_ring) = mkPoint "a" 1 ∧
  Nat.iter (size sample_ring) advance sample_ring = sample_ring.
Proof.
  assert (ring_ok sample_ring) as Hok by (unfold ring_ok; simpl; lia).
  destruct (ring_lap sample_ring Hok ltac:(done)) as (Hc & _ & Hl).
  split; [exact (Hc 1)|exact Hl].
Defined.

Lemma backoff_ceiling_witness : backoffCeilingMs 5 = 6400%Z.
Proof.
  assert (∀ lo hi, (lo <= hi)%Z → (lo <= lo <= hi)%Z) as Hd by (intros; lia).
  destruct (backoff_ceiling 5 true (λ lo _, lo) Hd) as [H _]. exact H.
Defined.
