(* ===== verification/PacketBuilder.v ===== *)
(** PacketBuilder and PacketHandler (src/client/packet_builder.cpp,
    src/client/packet_handler.cpp): the requests a client sends, and the user a sign-in reply
    carries.  [now] is the clock value the packet constructor reads; [Throw] is the
    [std::invalid_argument] of a missing field.  The operations of Client.v use them. *)
From S2P Require Import Prelude Packet Models Codec Serializer.
From stdpp Require Import options.

(** * Definitions *)

Definition required (what : string) {A} (fields : list string) (v : A) : outcome A :=
  if existsb is_empty fields then Throw (InvalidArgument what) else Ok v.

Section builder.
Variable now : Z.
Definition packet (type : PacketType) (sender room message : string) : Packet.t :=
  Packet.make now sender "" type room message 0.

Definition buildLogin (username password : string) : outcome Packet.t :=
  required "Username and password are required" [username; password]
    (packet LOGIN username "" password).
Definition buildReconnect (username room : string) : outcome Packet.t :=
  required "Username is required" [username]
    (packet RECONNECT username (if is_empty room then "Lobby" else room) "").
Definition buildRegister (username password email : string) : outcome Packet.t :=
  required "Username, password and email are required" [username; password; email]
    (packet REGISTER username email password).
Definition buildLogout (u : User.t) : outcome Packet.t :=
  required "Username and email are required" [User.username u; User.email u]
    (packet LOGOUT (User.username u) "" (User.email u)).
Definition buildMessage (username message : string) : outcome Packet.t :=
  required "Username and message are required" [username; message]
    (packet MESSAGE username "" message).
Definition buildJoinRoom (username room : string) : outcome Packet.t :=
  required "Username and room are required" [username; room] (packet ROOM_JOIN username room "").
Definition buildLeaveRoom (username room : string) : outcome Packet.t :=
  required "Username and room are required" [username; room] (packet ROOM_LEAVE username room "").
Definition buildUpdateUser (username password email : string) : outcome Packet.t :=
  required "Username and email are required" [username; email]
    (packet UPDATE_USER username email password).
Definition buildCreateRoom (username room privacy : string) : outcome Packet.t :=
  required "Username and room are required" [username; room]
    (packet ROOM_CREATE username room privacy).
Definition buildInviteToRoom (username room inviteeUsername : string) : outcome Packet.t :=
  required "Username, room and invitee are required" [username; room; inviteeUsername]
    (packet ROOM_INVITE username room inviteeUsername).
Definition buildKickFromRoom (username room targetUsername : string) : outcome Packet.t :=
  required "Username, room and target are required" [username; room; targetUsername]
    (packet ROOM_KICK username room targetUsername).
Definition buildDeleteRoom (username room : string) : outcome Packet.t :=
  required "Username and room are required" [username; room] (packet ROOM_DELETE username room "").
Definition buildLoadMessageHistory (username room : string) : outcome Packet.t :=
  required "Username and room are required" [username; room]
    (packet LOAD_MESSAGE_HISTORY username room "").
End builder.

Definition handleLogin (p : Packet.t) : option User.t :=
  if (Packet.responseCode p =? SUCCESS)%Z then User.deserialize (Packet.message p) else None.

Definition handlePacket (p : Packet.t) : option User.t :=
  match Packet.type p with
  | LOGIN | REGISTER | UPDATE_USER => handleLogin p
  | _ => None
  end.
