(* ===== verification/Client.v ===== *)
(** The chat client (src/client/client.cpp, src/client/network.cpp,
    include/client/client_state.h, src/utils/health/client_health_adapter.cpp): the link to a
    server and its reader, the requests the user interface makes, the pushes of the server,
    and the dialling of the next server when the link is lost.  The threads and flags of the
    supervisor around it are in Supervision.v.

    One record [Client] holds the state of the objects [Client], [ClientState] and [Network].
    [inbound] is what the server sends on the current link before the link is lost: a run of
    the client is a run on some such list.  A link that stays up for ever without the awaited
    packet is no such list: the code then waits for ever (network.cpp:140 has no timeout), and
    what can be said of it is said of every finite part of the traffic.  The reader thread takes its next packet when an
    operation waits for one ([wait_incoming]), and as a step of its own ([reader_step]).  The
    clocks, the outcome of a dial and of a write, the jitter and the stop request are read
    from [ClientEnv] in order.  Logging, sleeping and the two display settings are left out.

    The theorems: waiting for a reply ends with that reply or with a lost link only; the
    supervisor finds the first reachable server in ring order within its budget, and gives up
    only after trying every server. *)
From S2P Require Import Prelude Packet Models Codec Serializer Config EndpointRing.
From S2P Require Import PacketBuilder.
From stdpp Require Import options.

(** * Definitions *)

Class ClientEnv := {
  config : Config;
  cl_steady : nat → Z;               (* steady_clock, in milliseconds *)
  cl_time : nat → Z;                 (* std::time(nullptr) *)
  cl_draw : nat → Z → Z → Z;         (* a uniform draw between two bounds *)
  cl_dial : nat → ServerPoint → bool; (* does the n-th attempt reach the server *)
  cl_inbound : nat → list Packet.t;  (* what the server sends on the link of that attempt *)
  cl_write : nat → bool;             (* does the n-th write go through *)
  cl_stop : nat → bool;              (* was stop() requested *)
  cl_in_time : nat → bool;           (* did a packet or the loss of the link beat the timeout *)
  cl_burst : nat → nat               (* how many packets the reader takes during a sleep *)
}.

(** milliseconds without a packet after which the link counts as dead *)
Definition HEARTBEAT_TIMEOUT : Z := 10000.

Record ChatLine := mkLine { author : string; text : string; timestamp : Z }.

(** what leaves the client *)
Inductive LinkAction :=
  | Dial (p : ServerPoint) (ok : bool)
  | Send (p : Packet.t)
  | Close.

Record Client := mkClient {
  (* ClientState *)
  user : option User.t;
  currentRoom : option Room.t;
  rooms : list Room.t;
  serverEndpoints : list ClientEndpoint.t;
  (* Network *)
  connected : bool;
  socketUp : bool;                 (* clientSocket != INVALID_SOCKET *)
  lastInboundMs : Z;
  incoming : list Packet.t;
  inbound : list Packet.t;
  (* Client *)
  welcomeReceived : bool;
  pendingChat : list ChatLine;
  ring : EndpointRing;
  reconnecting : bool;
  reconnects : Z;
  resumePending : bool;
  connectedTo : ServerPoint;       (* connectedHost, connectedPort *)
  trace : list LinkAction;
  creads : nat                     (* values read from the environment so far *)
}.

(** ** Updates of the parts *)

Definition set_state u r c := mkClient u r (rooms c) (serverEndpoints c) (connected c) (socketUp c)
  (lastInboundMs c) (incoming c) (inbound c) (welcomeReceived c) (pendingChat c) (ring c)
  (reconnecting c) (reconnects c) (resumePending c) (connectedTo c) (trace c) (creads c).
Definition set_user v c := set_state v (currentRoom c) c.
Definition set_currentRoom v c := set_state (user c) v c.
Definition set_rooms v c := mkClient (user c) (currentRoom c) v (serverEndpoints c) (connected c)
  (socketUp c) (lastInboundMs c) (incoming c) (inbound c) (welcomeReceived c) (pendingChat c)
  (ring c) (reconnecting c) (reconnects c) (resumePending c) (connectedTo c) (trace c) (creads c).
Definition set_endpoints v c := mkClient (user c) (currentRoom c) (rooms c) v (connected c)
  (socketUp c) (lastInboundMs c) (incoming c) (inbound c) (welcomeReceived c) (pendingChat c)
  (ring c) (reconnecting c) (reconnects c) (resumePending c) (connectedTo c) (trace c) (creads c).
Definition set_link up sock c := mkClient (user c) (currentRoom c) (rooms c) (serverEndpoints c) up
  sock (lastInboundMs c) (incoming c) (inbound c) (welcomeReceived c) (pendingChat c) (ring c)
  (reconnecting c) (reconnects c) (resumePending c) (connectedTo c) (trace c) (creads c).
Definition set_last v c := mkClient (user c) (currentRoom c) (rooms c) (serverEndpoints c)
  (connected c) (socketUp c) v (incoming c) (inbound c) (welcomeReceived c) (pendingChat c)
  (ring c) (reconnecting c) (reconnects c) (resumePending c) (connectedTo c) (trace c) (creads c).
Definition set_queues inc inb c := mkClient (user c) (currentRoom c) (rooms c) (serverEndpoints c)
  (connected c) (socketUp c) (lastInboundMs c) inc inb (welcomeReceived c) (pendingChat c) (ring c)
  (reconnecting c) (reconnects c) (resumePending c) (connectedTo c) (trace c) (creads c).
Definition set_welcome v c := mkClient (user c) (currentRoom c) (rooms c) (serverEndpoints c)
  (connected c) (socketUp c) (lastInboundMs c) (incoming c) (inbound c) v (pendingChat c) (ring c)
  (reconnecting c) (reconnects c) (resumePending c) (connectedTo c) (trace c) (creads c).
Definition set_chat v c := mkClient (user c) (currentRoom c) (rooms c) (serverEndpoints c)
  (connected c) (socketUp c) (lastInboundMs c) (incoming c) (inbound c) (welcomeReceived c) v
  (ring c) (reconnecting c) (reconnects c) (resumePending c) (connectedTo c) (trace c) (creads c).
Definition set_ring v c := mkClient (user c) (currentRoom c) (rooms c) (serverEndpoints c)
  (connected c) (socketUp c) (lastInboundMs c) (incoming c) (inbound c) (welcomeReceived c)
  (pendingChat c) v (reconnecting c) (reconnects c) (resumePending c) (connectedTo c) (trace c)
  (creads c).
Definition set_hop rec n resume to_ c := mkClient (user c) (currentRoom c) (rooms c)
  (serverEndpoints c) (connected c) (socketUp c) (lastInboundMs c) (incoming c) (inbound c)
  (welcomeReceived c) (pendingChat c) (ring c) rec n resume to_ (trace c) (creads c).
Definition set_trace v c := mkClient (user c) (currentRoom c) (rooms c) (serverEndpoints c)
  (connected c) (socketUp c) (lastInboundMs c) (incoming c) (inbound c) (welcomeReceived c)
  (pendingChat c) (ring c) (reconnecting c) (reconnects c) (resumePending c) (connectedTo c) v
  (creads c).
Definition set_creads v c := mkClient (user c) (currentRoom c) (rooms c) (serverEndpoints c)
  (connected c) (socketUp c) (lastInboundMs c) (incoming c) (inbound c) (welcomeReceived c)
  (pendingChat c) (ring c) (reconnecting c) (reconnects c) (resumePending c) (connectedTo c)
  (trace c) v.

Notation M := (SE Client).

(** [Room(1, "Lobby", LOBBY)] and [Room(0, name)] *)
Definition lobby : Room.t := Room.Room 1 "Lobby" Room.LOBBY Room.PUBLIC.
Definition named_room (name : string) : Room.t := Room.Room 0 name Room.OTHER Room.PUBLIC.

(** ** ClientState *)

Definition isLoggedIn (c : Client) : bool :=
  match user c with
  | Some u => match User.user_type u with User.GUEST => false | _ => true end
  | None => false
  end.
Definition isAdmin (c : Client) : bool :=
  match user c with
  | Some u => match User.user_type u with User.ADMIN => true | _ => false end
  | None => false
  end.
Definition clear (c : Client) : Client := set_endpoints [] (set_rooms [] (set_state None None c)).

Section with_env.
Context {env : ClientEnv}.

Definition next_read : M nat := λ c, (Ok (creads c), set_creads (S (creads c)) c).
Definition steady_now : M Z := n ← next_read; mret (cl_steady n).
Definition time_now : M Z := n ← next_read; mret (u64 (cl_time n)).
Definition stop_requested : M bool := n ← next_read; mret (cl_stop n).

(** ** Network *)

Definition act (a : LinkAction) : M unit := modify (λ c, set_trace (trace c ++ [a]) c).

Definition noteInbound : M unit := now ← steady_now; modify (set_last now).

(** the link-down handler only wakes the supervisor *)
Definition markLinkDown : M unit := modify (λ c, set_link false (socketUp c) c).

Definition connect (p : ServerPoint) : M bool :=
  up ← gets connected;
  if (up : bool) then mret false
  else
    n ← next_read;
    act (Dial p (cl_dial n p)) ;;
    if negb (cl_dial n p) then mret false
    else
      modify (λ c, set_queues (incoming c) (cl_inbound n) (set_link (connected c) true c)) ;;
      noteInbound ;;
      modify (λ c, set_link true (socketUp c) c) ;;
      mret true.

Definition disconnect : M unit :=
  open ← gets socketUp;
  modify (set_link false false) ;;
  when open (act Close) ;;
  modify (λ c, set_last 0 (set_queues [] [] c)).

(** [writePacket] fails for a packet over the size limit, or when the socket does *)
Definition sendPacket (p : Packet.t) : M bool :=
  up ← gets connected;
  open ← gets socketUp;
  if negb up || negb open then mret false
  else
    n ← next_read;
    if negb (is_empty (serialize p)) && cl_write n then act (Send p) ;; mret true
    else
      modify (λ c, set_link (connected c) false c) ;;
      act Close ;;
      markLinkDown ;;
      mret false.

Definition isConnected : M bool := gets connected.

Definition heartbeatMissed : M bool :=
  up ← gets connected;
  if negb up then mret false
  else
    last ← gets lastInboundMs;
    if (last <=? 0)%Z then mret true
    else now ← steady_now; mret (HEARTBEAT_TIMEOUT <? now - last)%Z.

(** ** Pushes of the server *)

Definition rebuildEndpoints : M unit :=
  modify (λ c,
    let seed := mkPoint (SERVER_HOST config) (PORT config) :: NEIGHBOR_SERVERS config in
    let here := current (ring c) in
    set_ring (replace (mergeFailoverList here seed (serverEndpoints c)) (ring c)) c).

Definition applyRoomDirectory (encoded : string) : M unit :=
  match Room.deserializeList encoded with
  | Some l => modify (set_rooms l)
  | None => mret tt
  end.

Definition starts (pfx s : string) : bool := String.prefix pfx s.

(** the user a welcome names: the receiver of the packet, or its sender *)
Definition welcome_user (p : Packet.t) : option User.t :=
  let payload := if starts "user(" (Packet.receiver p) then Packet.receiver p else Packet.sender p in
  if starts "user(" payload then User.deserialize payload else None.

Definition is_guest (u : User.t) : bool :=
  match User.user_type u with User.GUEST => true | _ => false end.

Definition applyRoomListPush (p : Packet.t) : M unit :=
  (if negb (is_empty (Packet.message p)) && starts "room(" (Packet.message p)
   then applyRoomDirectory (Packet.message p)
   else if negb (is_empty (Packet.room p)) && starts "room(" (Packet.room p)
   then applyRoomDirectory (Packet.room p)
   else mret tt) ;;
  let incomingUser := welcome_user p in
  loggedIn ← gets isLoggedIn;
  let keepSession :=
    loggedIn && match incomingUser with Some u => is_guest u | None => false end in
  when (negb keepSession && negb (is_empty (Packet.room p)) && negb (starts "room(" (Packet.room p)))
    (modify (set_currentRoom (Some (if String.eqb (Packet.room p) "Lobby" then lobby
                                    else named_room (Packet.room p))))) ;;
  match incomingUser with
  | Some u => when (negb keepSession) (modify (set_user (Some u)))
  | None => mret tt
  end ;;
  modify (λ c, if match rooms c with [] => true | _ => false end then c else set_welcome true c).

(** the loop of [applyServerDirectoryPush]; each round moves past one separator *)
Fixpoint endpoints_go (fuel start : nat) (body : string) (next : list ClientEndpoint.t)
    : list ClientEndpoint.t :=
  match fuel with
  | O => next
  | S fuel =>
      if (String.length body <? start)%nat then next
      else
        let end_ := find_char ";" start body in
        let piece := match end_ with
                     | None => str_drop start body
                     | Some e => substr start (e - start) body
                     end in
        let next := if is_empty piece then next
                    else match ClientEndpoint.deserialize piece with
                         | Some e => next ++ [e]
                         | None => next
                         end in
        match end_ with
        | None => next
        | Some e => endpoints_go fuel (e + 1) body next
        end
  end.
Definition parse_endpoints (body : string) : list ClientEndpoint.t :=
  endpoints_go (S (String.length body)) 0 body [].

Definition applyServerDirectoryPush (p : Packet.t) : M unit :=
  modify (set_endpoints (parse_endpoints (Packet.message p))) ;;
  rebuildEndpoints.

Definition enqueueChatPush (p : Packet.t) : M unit :=
  here ← gets currentRoom;
  if match here with
     | Some r => negb (is_empty (Packet.room p)) && negb (String.eqb (Packet.room p) (Room.name r))
     | None => false
     end
  then mret tt
  else
    stamp ← (if (Packet.timestamp p =? 0)%Z then time_now else mret (Packet.timestamp p));
    modify (λ c, set_chat (pendingChat c ++ [mkLine (Packet.sender p) (Packet.message p) stamp]) c).

(** the push handler [start] installs *)
Definition on_push (p : Packet.t) : M unit :=
  match Packet.type p with
  | ROOM_LIST => applyRoomListPush p
  | SERVER_DIRECTORY => applyServerDirectoryPush p
  | MESSAGE => enqueueChatPush p
  | _ => mret tt
  end.

(** ** The reader thread *)

Definition is_push (p : Packet.t) : bool :=
  (Packet.responseCode p =? 0)%Z &&
  match Packet.type p with MESSAGE | ROOM_LIST | SERVER_DIRECTORY => true | _ => false end.

(** one packet: pings are answered, pushes applied, replies queued; [false] ends the loop *)
Definition on_packet (p : Packet.t) : M bool :=
  noteInbound ;;
  if decide (Packet.type p = HEARTBEAT) then
    if String.eqb (Packet.message p) "ping" then
      now ← time_now;
      sendPacket (Packet.make now "client" "server" HEARTBEAT "" "pong" 0)
    else mret true
  else if is_push p then on_push p ;; mret true
  else modify (λ c, set_queues (incoming c ++ [p]) (inbound c) c) ;; mret true.

Definition reader_step : M bool :=
  up ← gets connected;
  open ← gets socketUp;
  if negb up || negb open then mret false
  else
    next ← gets inbound;
    match next with
    | [] => markLinkDown ;; mret false
    | p :: rest => modify (λ c, set_queues (incoming c) rest c) ;; on_packet p
    end.

(** ** Waiting for a reply *)

(** the condition variable: until a packet is queued or the link is down; the reader can
    take no more steps than there are packets, and one that finds the end of the stream, the
    loss of the link.  The code has no timeout here: where a server keeps the link up and
    says nothing more, its wait goes on, and there is no run of this function *)
Fixpoint wait_incoming (fuel : nat) : M unit :=
  queued ← gets incoming;
  up ← gets connected;
  match queued, up, fuel with
  | [], true, S fuel => reader_step ;; wait_incoming fuel
  | _, _, _ => mret tt
  end.

Definition pop : M (option Packet.t) :=
  queued ← gets incoming;
  match queued with
  | [] => mret None
  | p :: rest => modify (λ c, set_queues rest (inbound c) c) ;; mret (Some p)
  end.

Definition receivePacket : M (option Packet.t) :=
  n ← gets (λ c, S (length (inbound c)));
  wait_incoming n ;;
  pop.

(** packets of another type are dropped; each round takes one *)
Fixpoint wait_loop (fuel : nat) (expected : PacketType) : M (option Packet.t) :=
  match fuel with
  | O => mret None
  | S fuel =>
      response ← receivePacket;
      match response with
      | None => mret None
      | Some p => if decide (Packet.type p = expected) then mret (Some p) else wait_loop fuel expected
      end
  end.
Definition waitFor (expected : PacketType) : M (option Packet.t) :=
  n ← gets (λ c, S (length (incoming c) + length (inbound c)));
  wait_loop n expected.

Definition receivePacketFor : M (option Packet.t) :=
  n ← next_read;
  if cl_in_time n then receivePacket else mret None.

(** the same with a deadline; the environment says when it passes *)
Fixpoint wait_for_loop (fuel : nat) (expected : PacketType) : M (option Packet.t) :=
  match fuel with
  | O => mret None
  | S fuel =>
      n ← next_read;
      if negb (cl_in_time n) then mret None
      else
        response ← receivePacketFor;
        match response with
        | None => mret None
        | Some p =>
            if decide (Packet.type p = expected) then mret (Some p) else wait_for_loop fuel expected
        end
  end.
Definition waitFor_timeout (expected : PacketType) : M (option Packet.t) :=
  n ← gets (λ c, S (length (incoming c) + length (inbound c)));
  wait_for_loop n expected.

(** ** Requests of the user interface: the empty string is success *)

Definition isAlive : M bool :=
  up ← isConnected;
  if negb up then mret false else missed ← heartbeatMissed; mret (negb missed).

Definition not_connected : string := "Not connected to the server.".
Definition no_identity : string := "No user identity yet — wait for the server welcome.".

(** build, send, wait: the part every request shares.  The error texts are the ones of the
    request; [k] handles the reply. *)
Definition exchange (build : Z → outcome Packet.t) (expected : PacketType)
    (send_failed lost : string) (k : Packet.t → M string) : M string :=
  now ← time_now;
  match build now with
  | Throw e => mret (exn_what e)
  | Ok p =>
      sent ← sendPacket p;
      if negb sent then mret send_failed
      else
        response ← waitFor expected;
        match response with
        | None => mret lost
        | Some r => k r
        end
  end.

(** a refusal's text, or what to do with an acceptance *)
Definition accepted (r : Packet.t) (fallback : string) (k : M string) : M string :=
  if (Packet.responseCode r =? SUCCESS)%Z then k
  else mret (if is_empty (Packet.message r) then fallback else Packet.message r).

Definition with_alive (k : M string) : M string :=
  alive ← isAlive; if negb alive then mret not_connected else k.

Definition enter_room (name : string) : M unit :=
  modify (set_currentRoom (Some (if String.eqb name "Lobby" then lobby else named_room name))).

Definition joinRoom (roomName : string) : M string :=
  with_alive
    (me ← gets user;
     match me with
     | None => mret no_identity
     | Some u =>
         if is_empty roomName then mret "Room name cannot be empty."
         else
           exchange (λ now, buildJoinRoom now (User.username u) roomName) ROOM_JOIN
             "Failed to send join request." "Connection lost while joining."
             (λ r, accepted r "Join failed." (enter_room (Packet.room r) ;; mret ""))
     end).

Definition leaveRoom : M string :=
  with_alive
    (me ← gets user;
     match me with
     | None => mret no_identity
     | Some u =>
         here ← gets currentRoom;
         match here with
         | None => mret "Not in a room."
         | Some r =>
             if bool_decide (Room.type r = Room.LOBBY) || String.eqb (Room.name r) "Lobby"
             then mret "Cannot leave the Lobby."
             else
               exchange (λ now, buildLeaveRoom now (User.username u) (Room.name r)) ROOM_LEAVE
                 "Failed to send leave request." "Connection lost while leaving."
                 (λ r, accepted r "Leave failed."
                    (modify (set_currentRoom (Some lobby)) ;; mret ""))
         end
     end).

(** the end of [login] and [signUp] *)
Definition signed_in (r : Packet.t) (failed invalid : string) : M string :=
  match handlePacket r with
  | Some u =>
      modify (set_state (Some u) (Some lobby)) ;;
      applyRoomDirectory (Packet.room r) ;;
      mret ""
  | None => accepted r failed (mret invalid)
  end.

Definition login (username password : string) : M string :=
  with_alive
    (already ← gets isLoggedIn;
     if (already : bool) then mret "Already logged in."
     else
       exchange (λ now, buildLogin now username password) LOGIN
         "Failed to send login request." "Connection lost while logging in."
         (λ r, signed_in r "Login failed." "Login failed: invalid user payload")).

Definition signUp (username password email : string) : M string :=
  with_alive
    (already ← gets isLoggedIn;
     if (already : bool) then mret "Already logged in."
     else
       exchange (λ now, buildRegister now username password email) REGISTER
         "Failed to send sign-up request." "Connection lost while signing up."
         (λ r, signed_in r "Sign up failed." "Sign up failed: invalid user payload")).

Definition clearPendingChatMessages : M unit := modify (set_chat []).
Definition takePendingChatMessages : M (list ChatLine) :=
  out ← gets pendingChat; modify (set_chat []) ;; mret out.

(** the logged-in user, or the given refusal *)
Definition logged_in (refusal : string) (k : User.t → M string) : M string :=
  ok ← gets isLoggedIn;
  me ← gets user;
  match (ok : bool), me with
  | true, Some u => k u
  | _, _ => mret refusal
  end.

Definition logout : M string :=
  with_alive (logged_in "Not logged in." (λ u,
    exchange (λ now, buildLogout now u) LOGOUT
      "Failed to send logout request." "Connection lost while logging out."
      (λ r, accepted r "Logout failed."
         (n ← next_read;
          modify (λ c, set_state (Some (User.anonymousUser (cl_draw n 0 9999))) (Some lobby)
                         (set_rooms (rooms c) (clear c))) ;;
          modify (λ c, set_hop (reconnecting c) (reconnects c) false (connectedTo c) c) ;;
          clearPendingChatMessages ;;
          mret "")))).

Definition createRoom (roomName privacy : string) : M string :=
  with_alive (logged_in "Log in to create a room." (λ u,
    exchange (λ now, buildCreateRoom now (User.username u) roomName privacy) ROOM_CREATE
      "Failed to send create-room request." "Connection lost while creating room."
      (λ r, accepted r "Create room failed."
         (when (negb (is_empty (Packet.room r)))
            (modify (λ c,
               if existsb (λ room, String.eqb (Room.name room) (Packet.room r)) (rooms c) then c
               else set_rooms (rooms c ++ [named_room (Packet.room r)]) c)) ;;
          mret "")))).

(** the room a request is about: the current one when none is named *)
Definition room_or_current (roomName : string) : M string :=
  here ← gets currentRoom;
  mret (match here with
        | Some r => if is_empty roomName then Room.name r else roomName
        | None => roomName
        end).

Definition inviteToRoom (roomName inviteeUsername : string) : M string :=
  with_alive (logged_in "Log in to invite users." (λ u,
    room ← room_or_current roomName;
    exchange (λ now, buildInviteToRoom now (User.username u) room inviteeUsername) ROOM_INVITE
      "Failed to send invite request." "Connection lost while inviting."
      (λ r, accepted r "Invite failed." (mret "")))).

Definition kickFromRoom (roomName targetUsername : string) : M string :=
  with_alive (logged_in "Log in to kick users." (λ u,
    room ← room_or_current roomName;
    exchange (λ now, buildKickFromRoom now (User.username u) room targetUsername) ROOM_KICK
      "Failed to send kick request." "Connection lost while kicking."
      (λ r, accepted r "Kick failed." (mret "")))).

Definition deleteRoom (roomName : string) : M string :=
  with_alive
    (admin ← gets isAdmin;
     me ← gets user;
     match (admin : bool), me with
     | true, Some u =>
         room ← room_or_current roomName;
         exchange (λ now, buildDeleteRoom now (User.username u) room) ROOM_DELETE
           "Failed to send delete-room request." "Connection lost while deleting room."
           (λ r, accepted r "Delete room failed."
              (modify (λ c, match currentRoom c with
                            | Some here => if String.eqb (Room.name here) room
                                           then set_currentRoom (Some lobby) c else c
                            | None => c
                            end) ;;
               mret ""))
     | _, _ => mret "Admin required to delete a room."
     end).

Definition updateProfile (username newPassword email : string) : M string :=
  with_alive (logged_in "Log in to update your profile." (λ _,
    exchange (λ now, buildUpdateUser now username newPassword email) UPDATE_USER
      "Failed to send update request." "Connection lost while updating profile."
      (λ r, match handlePacket r with
            | Some u => modify (set_user (Some u)) ;; mret ""
            | None => accepted r "Update profile failed."
                        (mret "Update profile failed: invalid user payload")
            end))).

Definition sendMessage (body : string) : M string :=
  with_alive
    (me ← gets user;
     match me with
     | None => mret no_identity
     | Some u =>
         if is_empty body then mret "Message cannot be empty."
         else
           exchange (λ now, buildMessage now (User.username u) body) MESSAGE
             "Failed to send message." "Connection lost while sending."
             (λ r, accepted r "Send failed." (mret ""))
     end).

(** one line of the history: "[author][time] text", a line without an author is the system's *)
Definition parse_line (line : string) : ChatLine :=
  match line with
  | String "[" _ =>
      match index_of "]" line with
      | Some closeUser =>
          let author := substr 1 (closeUser - 1) line in
          let rest := str_drop (closeUser + 1) line in
          let '(stamp, rest) :=
            match rest with
            | String "[" _ =>
                match index_of "]" rest with
                | Some closeTs =>
                    (default 0%Z (stoull (substr 1 (closeTs - 1) rest)), str_drop (closeTs + 1) rest)
                | None => (0%Z, rest)
                end
            | _ => (0%Z, rest)
            end in
          let rest := match rest with String " " r => r | _ => rest end in
          mkLine author rest stamp
      | None => mkLine "system" line 0
      end
  | _ => mkLine "system" line 0
  end.

Definition newline : string := String "010" "".
(** the loop takes the pieces between newlines and skips the empty ones *)
Definition parseHistoryPayload (payload : string) : list ChatLine :=
  parse_line <$> filter (λ line, line ≠ "") (getline_all "010" payload).

(** the lines come with the error text; [out] is cleared first *)
Definition loadMessageHistory : M (string * list ChatLine) :=
  alive ← isAlive;
  if negb alive then mret (not_connected, [])
  else
    me ← gets user;
    here ← gets currentRoom;
    match me, here with
    | Some u, Some r =>
        now ← time_now;
        match buildLoadMessageHistory now (User.username u) (Room.name r) with
        | Throw e => mret (exn_what e, [])
        | Ok p =>
            sent ← sendPacket p;
            if negb sent then mret ("Failed to request history.", [])
            else
              response ← waitFor LOAD_MESSAGE_HISTORY;
              match response with
              | None => mret ("Connection lost while loading history.", [])
              | Some r =>
                  if (Packet.responseCode r =? SUCCESS)%Z
                  then mret ("", parseHistoryPayload (Packet.message r))
                  else mret (if is_empty (Packet.message r) then "Load history failed."
                             else Packet.message r, [])
              end
        end
    | _, _ => mret ("No room to load history for.", [])
    end.

(** ** Failover *)

(** [resumeSession]: up to five RECONNECT requests for the user and room held in memory *)
Fixpoint resume_loop (attempts : nat) (first : bool) (p : Packet.t) : M unit :=
  match attempts with
  | O => mret tt
  | S attempts =>
      stop ← stop_requested;
      if (stop : bool) then mret tt
      else
        go ← (if first then mret true
              else
                stop ← stop_requested;   (* sleepFor *)
                loggedIn ← gets isLoggedIn;
                up ← isConnected;
                mret (negb stop && loggedIn && up));
        if negb go then mret tt
        else
          sent ← sendPacket p;
          if negb sent then mret tt
          else
            response ← waitFor_timeout RECONNECT;
            match response with
            | Some r =>
                if (Packet.responseCode r =? SUCCESS)%Z
                then when (negb (is_empty (Packet.room r))) (applyRoomDirectory (Packet.room r))
                else resume_loop attempts false p
            | None => resume_loop attempts false p
            end
  end.

Definition resumeSession : M unit :=
  modify (λ c, set_hop (reconnecting c) (reconnects c) false (connectedTo c) c) ;;
  loggedIn ← gets isLoggedIn;
  me ← gets user;
  here ← gets currentRoom;
  match (loggedIn : bool), me with
  | true, Some u =>
      let room := match here with Some r => Room.name r | None => "Lobby" end in
      now ← time_now;
      match buildReconnect now (User.username u) room with
      | Ok p => resume_loop 5 true p
      | Throw _ => mret tt
      end
  | _, _ => mret tt
  end.

Definition rememberConnected (p : ServerPoint) : M unit :=
  modify (λ c, set_hop (reconnecting c) (reconnects c) (resumePending c) p c).
Definition forgetConnected : M unit :=
  modify (λ c, set_hop (reconnecting c) (reconnects c) (resumePending c) no_point c).

(** the first loss of a link since the last successful dial *)
Definition markReconnecting : M unit :=
  already ← gets reconnecting;
  if (already : bool) then mret tt
  else
    modify (λ c, set_hop true (as_int (reconnects c + 1)) (resumePending c || isLoggedIn c)
                   (connectedTo c) c) ;;
    forgetConnected.

(** how many attempts the supervisor makes before it gives up *)
Definition attempt_limit (r : EndpointRing) : Z :=
  (Z.max 1 (Z.of_nat (size r)) * (if TEST_MODE config then 1 else 4))%Z.

(** [failAndWait]: the attempt number after it, or [None] when the budget or a stop ends the
    loop *)
Definition failAndWait (attempt : Z) : M (option Z) :=
  modify (λ c, set_ring (advance (ring c)) c) ;;
  let attempt := (attempt + 1)%Z in
  limit ← gets (λ c, attempt_limit (ring c));
  stop ← stop_requested;
  if (limit <=? attempt)%Z || stop then mret None
  else
    n ← next_read;   (* the jitter of the delay *)
    let delayMs := fullJitterDelayMs (TEST_MODE config) (attempt - 1) (cl_draw n) in
    stop ← stop_requested;   (* sleepFor delayMs *)
    mret (if (stop : bool) then None else Some attempt).

Inductive dialled := Linked | GaveUp.

(** the rounds of the supervisor that end in [continue] or [break] before a link is up *)
Fixpoint dial_loop (fuel : nat) (attempt : Z) (hadLink : bool) : M dialled :=
  match fuel with
  | O => mret GaveUp
  | S fuel =>
      stop ← stop_requested;
      if (stop : bool) then mret GaveUp
      else
        endpoint ← gets (λ c, current (ring c));
        if (port endpoint =? 0)%Z then mret GaveUp
        else
          up ← connect endpoint;
          if (up : bool) then
            rememberConnected endpoint ;;
            modify (λ c, set_hop false (reconnects c) (resumePending c) (connectedTo c) c) ;;
            mret Linked
          else
            when hadLink markReconnecting ;;
            next ← failAndWait attempt;
            match next with
            | Some attempt => dial_loop fuel attempt hadLink
            | None => mret GaveUp
            end
  end.
(** every failed round counts against the budget *)
Definition dial (attempt : Z) (hadLink : bool) : M dialled :=
  n ← gets (λ c, S (Z.to_nat (attempt_limit (ring c) - attempt)));
  dial_loop n attempt hadLink.

(** the reader takes packets while the supervisor sleeps *)
Fixpoint reader_steps (n : nat) : M unit :=
  match n with
  | O => mret tt
  | S n => go ← reader_step; if (go : bool) then reader_steps n else mret tt
  end.

(** one look at the link a second; [false] when the link outlived the [fuel] looks *)
Fixpoint watch (fuel : nat) : M bool :=
  match fuel with
  | O => mret false
  | S fuel =>
      stop ← stop_requested;
      healthy ← isAlive;
      if (stop : bool) || negb healthy then mret true
      else
        n ← next_read;
        reader_steps (cl_burst n) ;;
        stop ← stop_requested;
        if (stop : bool) then mret true else watch fuel
  end.

(** [start] past its guard: the supervisor's first dial, then up to three seconds for the
    welcome; a client that could not be linked is stopped *)
Definition start : M bool :=
  modify (set_welcome false) ;;
  rebuildEndpoints ;;
  dial 0 false ;;
  up ← isConnected;
  if negb up then disconnect ;; mret false
  else
    pending ← gets resumePending;
    when pending resumeSession ;;
    n ← next_read;
    reader_steps (cl_burst n) ;;
    modify (λ c, match rooms c with
                 | [] => set_rooms [lobby; Room.Room 2 "General" Room.OTHER Room.PUBLIC] c
                 | _ => c
                 end) ;;
    modify (λ c, match currentRoom c with None => set_currentRoom (Some lobby) c | Some _ => c end) ;;
    mret true.

(** [stop] once the supervisor has ended *)
Definition stop : M unit := disconnect.

End with_env.

(** * Lemmas *)

Section link.
Context {env : ClientEnv}.

(** a link that is up has its socket *)
Definition link_ok (c : Client) : Prop := connected c = true → socketUp c = true.

(** what the reader does to a packet that is neither a ping nor a push *)
Definition is_reply (p : Packet.t) : bool :=
  negb (bool_decide (Packet.type p = HEARTBEAT)) && negb (is_push p).

(** operations that leave the queues of the link alone *)
Definition queues_kept (c c' : Client) : Prop :=
  connected c' = connected c ∧ socketUp c' = socketUp c ∧ incoming c' = incoming c ∧
  inbound c' = inbound c.
Definition keeps_queues {A} (m : M A) : Prop := ∀ c, queues_kept c (run_state m c).

Lemma keeps_ret {A} (a : A) : keeps_queues (mret a).
Proof. by intros c. Qed.
Lemma keeps_gets {A} (f : Client → A) : keeps_queues (gets f).
Proof. by intros c. Qed.
Lemma keeps_modify f : (∀ c, queues_kept c (f c)) → keeps_queues (modify f).
Proof. done. Qed.
Lemma keeps_bind {A B} (m : M A) (f : A → M B) :
  keeps_queues m → (∀ a, keeps_queues (f a)) → keeps_queues (m ≫= f).
Proof.
  intros Hm Hf c. specialize (Hm c). unfold run_state, mbind, SE_bind in *.
  destruct (m c) as [[a|e] c']; [|done]. specialize (Hf a c'). unfold run_state in Hf.
  destruct Hm as (?&?&?&?), Hf as (?&?&?&?). simpl in *. unfold queues_kept. split_and!; congruence.
Qed.
Lemma keeps_when b (m : M unit) : keeps_queues m → keeps_queues (when b m).
Proof. destruct b; [done|]. intros _. apply keeps_ret. Qed.

Create HintDb keeps discriminated.
Hint Resolve keeps_ret keeps_gets : keeps.
Ltac keeps_step :=
  match goal with
  | |- keeps_queues (mbind _ _) => apply keeps_bind
  | |- keeps_queues (modify _) => apply keeps_modify; intros ?; unfold queues_kept; by repeat case_match
  | |- keeps_queues (when _ _) => apply keeps_when
  | |- keeps_queues (match ?x with _ => _ end) => destruct x
  | |- ∀ _, _ => intros ?
  | |- _ => solve [eauto with keeps nocore]
  end.
Ltac solve_keeps := repeat keeps_step.

Lemma keeps_directory s : keeps_queues (applyRoomDirectory s).
Proof. unfold applyRoomDirectory. solve_keeps. Qed.
Hint Resolve keeps_directory : keeps.
Lemma keeps_next_read : keeps_queues next_read.
Proof. by intros c. Qed.
Hint Resolve keeps_next_read : keeps.
Lemma keeps_time : keeps_queues time_now.
Proof. unfold time_now. solve_keeps. Qed.
Lemma keeps_noteInbound : keeps_queues noteInbound.
Proof. unfold noteInbound, steady_now. solve_keeps. Qed.
Hint Resolve keeps_time keeps_noteInbound : keeps.
Lemma keeps_push p : keeps_queues (on_push p).
Proof.
  unfold on_push, applyRoomListPush, applyServerDirectoryPush, rebuildEndpoints, enqueueChatPush.
  solve_keeps.
Qed.
Lemma push_total p : total (on_push p).
Proof.
  unfold on_push, applyRoomListPush, applyServerDirectoryPush, rebuildEndpoints, enqueueChatPush,
    applyRoomDirectory, time_now, next_read. solve_total.
  all: try (intros c; by eexists). 
Qed.

Lemma noteInbound_total : total noteInbound.
Proof. intros c. by eexists. Qed.
Lemma keeps_run {A} (m : M A) c :
  total m → keeps_queues m → ∃ a c', m c = (Ok a, c') ∧ queues_kept c c'.
Proof.
  intros Ht Hk. destruct (Ht c) as [a Ha]. specialize (Hk c). unfold run_out, run_state in *.
  destruct (m c) as [o c']. simpl in *. subst o. eauto.
Qed.

(** one packet of the stream is taken, and queued when it is a reply; a ping may cost the
    link, when the answer cannot be written *)
Definition took (c c' : Client) (taken : list Packet.t) : Prop :=
  inbound c = taken ++ inbound c' ∧ incoming c' = incoming c ++ filter (λ p, is_reply p = true) taken ∧
  ((∀ n, cl_write n = true) → connected c' = connected c ∨ inbound c' = []).

Lemma pong_fits now : is_empty (serialize (Packet.make now "client" "server" HEARTBEAT "" "pong" 0)) = false.
Proof.
  pose proof (serialize_nonempty (Packet.make now "client" "server" HEARTBEAT "" "pong" 0)) as H.
  destruct (serialize _); [|done]. exfalso. by apply H; [vm_compute|].
Qed.

(** writing keeps the queues; a failed write takes the link down *)
Lemma client_send_run p c :
  ∃ ok c', sendPacket p c = (Ok ok, c') ∧ incoming c' = incoming c ∧ inbound c' = inbound c ∧
    (link_ok c → link_ok c') ∧ (connected c' = true → connected c = true) ∧
    (serialize p ≠ "" → (∀ n, cl_write n = true) → connected c = true → link_ok c →
     ok = true ∧ c' = set_trace (trace c ++ [Send p]) (set_creads (S (creads c)) c)).
Proof.
  unfold sendPacket, mbind, SE_bind, gets. destruct (connected c) eqn:Ec; cbn [negb orb].
  2: { exists false, c. split_and!; try done. congruence. }
  destruct (socketUp c) eqn:Es; cbn [negb].
  2: { exists false, c. split_and!; try done. unfold link_ok. intros _ _ ? H. specialize (H Ec). congruence. }
  unfold next_read. destruct (negb _ && _) eqn:E.
  - eexists true, _. split; [done|]. unfold link_ok. simpl. by rewrite Ec, Es.
  - eexists false, _. split; [done|]. unfold link_ok. simpl. split_and!; try done.
    intros Hp Hw. rewrite Hw in E. by destruct (serialize p).
Qed.

Lemma link_ok_kept c c' : queues_kept c c' → link_ok c → link_ok c'.
Proof. intros (Hc & Hs & _). unfold link_ok. by rewrite Hc, Hs. Qed.

Lemma on_packet_run p c :
  link_ok c → connected c = true →
  ∃ go c', on_packet p c = (Ok go, c') ∧ link_ok c' ∧ inbound c' = inbound c ∧
    incoming c' = incoming c ++ filter (λ p, is_reply p = true) [p] ∧
    ((∀ n, cl_write n = true) → connected c' = true).
Proof.
  intros Hok Hup. unfold on_packet, mbind, SE_bind.
  destruct (keeps_run noteInbound c noteInbound_total keeps_noteInbound) as ([] & c1 & -> & Hk).
  pose proof (link_ok_kept _ _ Hk Hok) as Hok1. destruct Hk as (Hc & Hs & Hi & Hb).
  rewrite filter_cons, filter_nil. unfold is_reply.
  destruct (decide (Packet.type p = HEARTBEAT)) as [Hh|Hh].
  - rewrite (bool_decide_true _ Hh). cbn [negb andb]. rewrite decide_False, app_nil_r by done.
    destruct (String.eqb _ _).
    + unfold time_now, mbind, SE_bind, next_read, mret, SE_ret.
      set (pong := Packet.make _ _ _ _ _ _ _). set (c2 := set_creads _ c1).
      destruct (client_send_run pong c2) as (ok & c' & -> & Hi' & Hb' & Hl & Hd & Hw).
      exists ok, c'. split_and!; [done| | | |].
      * by apply Hl.
      * rewrite Hb'. exact Hb.
      * rewrite Hi'. exact Hi.
      * intros Hwr. destruct Hw as [_ ->]; [|done| | |].
        { intros Hz. pose proof (pong_fits (u64 (cl_time (creads c1)))) as Hp.
          fold pong in Hp. by rewrite Hz in Hp. }
        { simpl. by rewrite Hc. }
        { done. }
        simpl. by rewrite Hc.
    + exists true, c1. split_and!; [done|done|done|done|intros _; congruence].
  - rewrite (bool_decide_false _ Hh). cbn [negb andb].
    destruct (is_push p); cbn [negb].
    + rewrite decide_False, app_nil_r by done.
      destruct (keeps_run _ c1 (push_total p) (keeps_push p)) as ([] & c2 & -> & Hk).
      pose proof (link_ok_kept _ _ Hk Hok1). destruct Hk as (Hc' & Hs' & Hi' & Hb').
      exists true, c2. split_and!; [done|done|congruence|congruence|intros _; congruence].
    + rewrite decide_True by done. eexists true, _. split; [done|]. split; [done|]. simpl.
      split_and!; [done|by rewrite Hi|intros _; congruence].
Qed.

Lemma reader_step_run c :
  link_ok c → connected c = true →
  ∃ go c' taken, reader_step c = (Ok go, c') ∧ link_ok c' ∧ took c c' taken ∧
    (taken = [] → connected c' = false) ∧ length taken <= 1.
Proof.
  intros Hok Hup. unfold reader_step, mbind, SE_bind, gets. rewrite Hup, (Hok Hup). cbn [negb orb].
  destruct (inbound c) as [|p rest] eqn:Ein.
  - eexists false, _, []. split; [done|]. unfold took, link_ok. simpl. rewrite Ein, app_nil_r.
    split_and!; try done; [by right|lia].
  - unfold modify. set (c1 := set_queues (incoming c) rest c).
    destruct (on_packet_run p c1) as (go & c' & -> & Hl & Hb & Hi & Hw); [done|done|].
    exists go, c', [p]. split_and!; [done|done| |done|simpl; lia].
    unfold took. rewrite Hb, Ein. split_and!; [done|done|]. intros H. left. by rewrite Hup, Hw.
Qed.

Lemma took_refl c : took c c [].
Proof. unfold took. simpl. rewrite app_nil_r. split_and!; [done|done|by left]. Qed.
Lemma took_trans c c1 c2 l l' : took c c1 l → took c1 c2 l' → took c c2 (l ++ l').
Proof.
  intros (H1 & H2 & H3) (H4 & H5 & H6). unfold took. rewrite filter_app.
  split_and!; [by rewrite H1, H4, app_assoc|by rewrite H5, H2, app_assoc|].
  intros Hw. destruct (H6 Hw) as [->|]; [|by right]. destruct (H3 Hw) as [->|Hn]; [by left|].
  right. rewrite H4 in Hn. by destruct l'.
Qed.

(** the fuel of the wait is enough: it ends with a packet queued or the link down *)
Lemma wait_incoming_run n c :
  link_ok c → length (inbound c) < n →
  ∃ c' taken, wait_incoming n c = (Ok tt, c') ∧ link_ok c' ∧ took c c' taken ∧
    (incoming c' ≠ [] ∨ connected c' = false) ∧ (connected c = false → c' = c).
Proof.
  revert c. induction n as [|n IH]; intros c Hok Hn; [lia|].
  cbn [wait_incoming]. unfold mbind, SE_bind, gets.
  destruct (incoming c) as [|q qs] eqn:Eq.
  2: { exists c, []. split_and!; [by destruct (connected c)|done|apply took_refl|left; congruence|done]. }
  destruct (connected c) eqn:Ec.
  2: { exists c, []. split_and!; [done|done|apply took_refl|by right|done]. }
  destruct (reader_step_run c Hok Ec) as (go & c1 & taken & -> & Hok1 & Ht & Hdown & Hlen).
  destruct taken as [|p taken].
  - exists c1, []. specialize (Hdown eq_refl). split_and!; [|done|done|by right|done].
    destruct Ht as (_ & Ht & _). rewrite Eq in Ht. simpl in Ht.
    destruct n; cbn [wait_incoming]; unfold mbind, SE_bind, gets; by rewrite Ht, Hdown.
  - destruct (IH c1) as (c' & taken' & Hrun & Hok' & Ht' & Hend & _); [done| |].
    { destruct Ht as (Ht & _). rewrite Ht, length_app in Hn. simpl in Hn. lia. }
    exists c', ((p :: taken) ++ taken'). split_and!; [done|done|by eapply took_trans|done|done].
Qed.

(** the replies still to come on the link *)
Definition replies (c : Client) : list Packet.t :=
  incoming c ++ (if connected c then filter (λ p, is_reply p = true) (inbound c) else []).

Lemma receivePacket_run c :
  link_ok c →
  ∃ r c', receivePacket c = (Ok r, c') ∧ link_ok c' ∧
    match r with
    | Some p => length (incoming c') + length (inbound c') < length (incoming c) + length (inbound c) ∧
        ((∀ n, cl_write n = true) → replies c = p :: replies c')
    | None => connected c' = false ∧ incoming c' = [] ∧ ((∀ n, cl_write n = true) → replies c = [])
    end.
Proof.
  intros Hok. unfold receivePacket, mbind, SE_bind, gets.
  destruct (wait_incoming_run (S (length (inbound c))) c Hok) as (c1 & taken & -> & Hok1 & Ht & Hend & Hsame); [lia|].
  assert ((∀ n, cl_write n = true) → replies c = replies c1) as Hrep.
  { intros Hw. destruct (connected c) eqn:Ec; [|by rewrite Hsame].
    destruct Ht as (Hb & Hi & Hd). unfold replies. rewrite Ec, Hi, Hb, filter_app, app_assoc.
    f_equal. destruct (Hd Hw) as [->|Hn]; [by rewrite Ec|]. rewrite Hn. by destruct (connected c1). }
  assert (length (incoming c1) + length (inbound c1) <= length (incoming c) + length (inbound c)) as Hlen.
  { destruct Ht as (Hb & Hi & _). rewrite Hb, Hi, !length_app. pose proof (length_filter (λ p, is_reply p = true) taken). lia. }
  unfold pop, mbind, SE_bind, gets. destruct (incoming c1) as [|p rest] eqn:Ei.
  - exists None, c1. destruct Hend as [|Hd]; [done|]. split_and!; try done.
    intros Hw. rewrite (Hrep Hw). unfold replies. by rewrite Ei, Hd.
  - eexists (Some p), _. split; [done|]. split; [done|]. simpl in *. split; [lia|].
    intros Hw. rewrite (Hrep Hw). unfold replies. by rewrite Ei.
Qed.

Lemma wait_loop_run n expected c :
  link_ok c → length (incoming c) + length (inbound c) < n →
  ∃ r c', wait_loop n expected c = (Ok r, c') ∧ link_ok c' ∧
    match r with
    | Some p => Packet.type p = expected
    | None => connected c' = false ∧ incoming c' = []
    end ∧
    ((∀ n, cl_write n = true) → r = head (filter (λ p, Packet.type p = expected) (replies c))).
Proof.
  revert c. induction n as [|n IH]; intros c Hok Hn; [lia|]. cbn [wait_loop].
  unfold mbind, SE_bind. destruct (receivePacket_run c Hok) as ([p|] & c1 & -> & Hok1 & Hr).
  2: { exists None, c1. destruct Hr as (? & ? & Hr). split_and!; try done. intros Hw. by rewrite Hr. }
  destruct Hr as [Hlen Hr]. destruct (decide (Packet.type p = expected)) as [Ht|Ht].
  - exists (Some p), c1. split_and!; try done. intros Hw. rewrite (Hr Hw), filter_cons.
    by rewrite decide_True.
  - destruct (IH c1) as (r & c' & -> & Hok' & Hm & Hf); [done|lia|].
    exists r, c'. split_and!; try done. intros Hw. rewrite (Hr Hw), filter_cons, decide_False by done.
    by apply Hf.
Qed.

(** *** More fuel makes no difference *)

Lemma wait_incoming_down n c : connected c = false → wait_incoming n c = (Ok tt, c).
Proof.
  intros Hd. destruct n; cbn [wait_incoming]; unfold mbind, SE_bind, gets; rewrite Hd; by destruct (incoming c).
Qed.
Lemma wait_incoming_fuel n m c :
  link_ok c → length (inbound c) < n → length (inbound c) < m → wait_incoming n c = wait_incoming m c.
Proof.
  revert m c. induction n as [|n IH]; intros m c Hok Hn Hm; [lia|]. destruct m as [|m]; [lia|].
  cbn [wait_incoming]. unfold mbind, SE_bind, gets. destruct (incoming c), (connected c) eqn:Ec; try done.
  destruct (reader_step_run c Hok Ec) as (go & c1 & taken & -> & Hok1 & Ht & Hdown & _). destruct taken as [|p taken].
  - by rewrite !wait_incoming_down by auto.
  - destruct Ht as (Ht & _). rewrite Ht, length_app in Hn, Hm. cbn in Hn, Hm. apply IH; [done|lia|lia].
Qed.
Lemma wait_loop_fuel n m expected c :
  link_ok c → length (incoming c) + length (inbound c) < n → length (incoming c) + length (inbound c) < m →
  wait_loop n expected c = wait_loop m expected c.
Proof.
  revert m c. induction n as [|n IH]; intros m c Hok Hn Hm; [lia|]. destruct m as [|m]; [lia|].
  cbn [wait_loop]. unfold mbind, SE_bind.
  destruct (receivePacket_run c Hok) as ([p|] & c1 & -> & Hok1 & Hr); [|done].
  destruct (decide _); [done|]. apply IH; [done|lia|lia].
Qed.

(** a wait with nothing queued waits on after the reader's next step *)
Lemma waitFor_step expected c go c1 :
  link_ok c → connected c = true → incoming c = [] → reader_step c = (Ok go, c1) →
  waitFor expected c = waitFor expected c1.
Proof.
  intros Hok Hup Hq Hstep.
  destruct (reader_step_run c Hok Hup) as (go' & c1' & taken & Hrun & Hok1 & (Hb & Hi & _) & Hdown & Hlen).
  rewrite Hstep in Hrun. injection Hrun as <- <-.
  assert (receivePacket c = receivePacket c1) as Hsame.
  { unfold receivePacket, mbind, SE_bind, gets. cbn [wait_incoming]. unfold mbind, SE_bind, gets.
    rewrite Hq, Hup, Hstep. destruct taken as [|p taken].
    - specialize (Hdown eq_refl). rewrite (wait_incoming_down _ c1) by done. rewrite Hdown. by destruct (incoming c1).
    - rewrite (wait_incoming_fuel (length (inbound c)) (S (length (inbound c1))) c1); [|done| |lia].
      + reflexivity.
      + rewrite Hb, length_app. cbn. lia. }
  unfold waitFor, mbind, SE_bind, gets. rewrite Hq. cbn [length plus].
  transitivity (wait_loop (S (length (inbound c))) expected c1).
  - cbn [wait_loop]. unfold mbind, SE_bind. by rewrite Hsame.
  - apply wait_loop_fuel; [done| |lia]. rewrite Hb, Hi, Hq, !length_app. cbn [length].
    pose proof (length_filter (λ p, is_reply p = true) taken). lia.
Qed.
(** queued packets of other types are dropped *)
Lemma waitFor_drain expected c :
  link_ok c → Forall (λ p, Packet.type p ≠ expected) (incoming c) →
  waitFor expected c = waitFor expected (set_queues [] (inbound c) c).
Proof.
  intros Hok Hq. remember (incoming c) as q eqn:Eq. revert c Hok Eq.
  induction Hq as [|p q Hp Hq IH]; intros c Hok Eq; [rewrite Eq; by destruct c|].
  transitivity (waitFor expected (set_queues q (inbound c) c)); [|by apply (IH (set_queues q (inbound c) c))].
  assert (receivePacket c = (Ok (Some p), set_queues q (inbound c) c)) as Hr.
  { unfold receivePacket, pop, mbind, SE_bind, gets. cbn [wait_incoming]. unfold mbind, SE_bind, gets. rewrite <-Eq. destruct (connected c); cbn; rewrite <-Eq; reflexivity. }
  assert (∀ n, wait_loop (S n) expected c = wait_loop n expected (set_queues q (inbound c) c)) as Hstep.
  { intros n. cbn [wait_loop]. unfold mbind, SE_bind. rewrite Hr. by rewrite decide_False. }
  unfold waitFor, mbind, SE_bind, gets. rewrite <-Eq. cbn [length plus]. rewrite Hstep.
  apply wait_loop_fuel; [done|cbn; lia|cbn; lia].
Qed.
(** packets that are not the reply do not end the wait *)
Lemma waitFor_goes_on expected ps rest c :
  (∀ n, cl_write n = true) → link_ok c → connected c = true → inbound c = ps ++ rest →
  Forall (λ p, Packet.type p ≠ expected) (incoming c ++ filter (λ p, is_reply p = true) ps) →
  ∃ c1, connected c1 = true ∧ incoming c1 = [] ∧ inbound c1 = rest ∧ waitFor expected c = waitFor expected c1.
Proof.
  intros Hw. revert c. induction ps as [|p ps IH]; intros c Hok Hup Hb [Hq Hps]%Forall_app;
    rewrite (waitFor_drain expected c Hok Hq); set (c0 := set_queues [] (inbound c) c);
    (assert (link_ok c0) as Hok0 by done).
  - exists c0. by split_and!.
  - destruct (on_packet_run p (set_queues [] (ps ++ rest) c)) as (go & c1 & Hrun & Hok1 & Hb1 & Hi1 & Hc1); [done|done|].
    assert (reader_step c0 = (Ok go, c1)) as Hstep.
    { unfold reader_step, mbind, SE_bind, gets. change (connected c0) with (connected c).
      change (socketUp c0) with (socketUp c). rewrite Hup, (Hok Hup). cbn [negb orb].
      change (inbound c0) with (inbound c). rewrite Hb. exact Hrun. }
    destruct (IH c1 Hok1 (Hc1 Hw) Hb1) as (c2 & H1 & H2 & H3 & H4).
    { rewrite Hi1. cbn [incoming set_queues app]. by rewrite <-filter_app. }
    exists c2. split_and!; [done..|]. rewrite <-H4. by apply (waitFor_step expected c0 go c1).
Qed.
End link.

(** ** Dialling *)

(** the [j]-th server the cursor comes to *)
Definition order (r : EndpointRing) (j : nat) : ServerPoint := current (Nat.iter j advance r).

Lemma order_advance r j : order (advance r) j = order r (S j).
Proof. unfold order. by rewrite Nat.iter_succ_r. Qed.

Section dialling.
Context {env : ClientEnv} (reach : ServerPoint → bool).
Hypothesis dial_reach : ∀ n p, cl_dial n p = reach p.
Hypothesis never_stopped : ∀ n, cl_stop n = false.

Lemma limit_advance r : attempt_limit (advance r) = attempt_limit r.
Proof using Type. unfold attempt_limit, size. by rewrite advance_points. Qed.

(** the trace of the first [k] dials, all refused *)
Definition refusals (r : EndpointRing) (k : nat) : list LinkAction :=
  (λ j, Dial (order r j) false) <$> seq 0 k.
Lemma refusals_succ r k : refusals r (S k) = Dial (order r 0) false :: refusals (advance r) k.
Proof using Type.
  unfold refusals. cbn [seq fmap list_fmap]. f_equal. rewrite <-seq_shift, <-list_fmap_compose.
  apply list_fmap_ext. intros i j _. unfold compose. by rewrite order_advance.
Qed.

(** a round whose dial is refused, within the budget *)
Lemma refused_round fuel attempt hadLink c :
  connected c = false → port (order (ring c) 0) ≠ 0%Z → reach (order (ring c) 0) = false →
  ∃ c', dial_loop (S fuel) attempt hadLink c =
      (if attempt_limit (ring c) <=? attempt + 1 then (Ok GaveUp, c')
       else dial_loop fuel (attempt + 1) hadLink c')%Z ∧
    connected c' = false ∧ ring c' = advance (ring c) ∧
    trace c' = trace c ++ [Dial (order (ring c) 0) false].
Proof using dial_reach never_stopped.
  intros Hdown Hport Hno. change (order (ring c) 0) with (current (ring c)) in *. cbn [dial_loop].
  unfold mbind, SE_bind, stop_requested, mbind, SE_bind, next_read, mret, SE_ret.
  rewrite never_stopped. unfold gets. cbn [ring set_creads creads connected].
  rewrite (proj2 (Z.eqb_neq _ _) Hport). unfold connect, mbind, SE_bind, gets, next_read, act, modify, mret, SE_ret.
  cbn [ring set_creads creads connected]. rewrite Hdown, dial_reach, Hno. cbn [negb].
  set (c1 := set_trace _ _).
  assert (∃ c2, when hadLink markReconnecting c1 = (Ok tt, c2) ∧ connected c2 = false ∧
    ring c2 = ring c ∧ trace c2 = trace c1) as (c2 & -> & Hd2 & Hr2 & Ht2).
  { destruct hadLink; [|by exists c1]. unfold when, markReconnecting, forgetConnected, mbind, SE_bind, gets, modify.
    destruct (reconnecting c1); by eexists. }
  unfold failAndWait, mbind, SE_bind, modify, gets, stop_requested, mbind, SE_bind, next_read, mret, SE_ret.
  rewrite !never_stopped. cbn [ring set_creads set_ring]. rewrite limit_advance, Hr2, orb_false_r.
  destruct (_ <=? _)%Z; cbv beta iota; rewrite ?never_stopped; eexists; (split; [done|]);
    simpl; by rewrite ?Hr2, ?Ht2.
Qed.

Lemma linked_round fuel attempt hadLink c :
  connected c = false → port (order (ring c) 0) ≠ 0%Z → reach (order (ring c) 0) = true →
  ∃ c', dial_loop (S fuel) attempt hadLink c = (Ok Linked, c') ∧
    connected c' = true ∧ link_ok c' ∧ ring c' = ring c ∧ connectedTo c' = order (ring c) 0 ∧
    reconnecting c' = false ∧ trace c' = trace c ++ [Dial (order (ring c) 0) true].
Proof using dial_reach never_stopped.
  intros Hdown Hport Hyes. change (order (ring c) 0) with (current (ring c)) in *. cbn [dial_loop].
  unfold mbind, SE_bind, stop_requested, mbind, SE_bind, next_read, mret, SE_ret.
  rewrite never_stopped. unfold gets. cbn [ring set_creads creads connected].
  rewrite (proj2 (Z.eqb_neq _ _) Hport). unfold connect, mbind, SE_bind, gets, next_read, act, modify, mret, SE_ret.
  cbn [ring set_creads creads connected]. rewrite Hdown, dial_reach, Hyes. cbn [negb].
  eexists. split; [done|]. by unfold link_ok.
Qed.

Lemma dial_loop_linked k fuel attempt hadLink c :
  connected c = false → (∀ j, j <= k → port (order (ring c) j) ≠ 0%Z) →
  (∀ j, j < k → reach (order (ring c) j) = false) → reach (order (ring c) k) = true →
  k < fuel → (attempt + Z.of_nat k < attempt_limit (ring c))%Z →
  ∃ c', dial_loop fuel attempt hadLink c = (Ok Linked, c') ∧
    connected c' = true ∧ link_ok c' ∧ ring c' = Nat.iter k advance (ring c) ∧
    connectedTo c' = order (ring c) k ∧ reconnecting c' = false ∧
    trace c' = trace c ++ refusals (ring c) k ++ [Dial (order (ring c) k) true].
Proof using dial_reach never_stopped.
  revert fuel attempt c. induction k as [|k IH]; intros fuel attempt c Hdown Hport Hno Hyes Hf Hl.
  - destruct fuel as [|fuel]; [lia|]. apply linked_round; [done|by apply Hport|done].
  - destruct fuel as [|fuel]; [lia|].
    destruct (refused_round fuel attempt hadLink c) as (c1 & -> & Hd1 & Hr1 & Ht1);
      [done|apply Hport; lia|apply Hno; lia|].
    rewrite (proj2 (Z.leb_gt _ _)) by lia.
    destruct (IH fuel (attempt + 1)%Z c1) as (c' & Hrun & Hc & Hl' & Hr & Hto & Hrec & Ht);
      rewrite ?Hr1, ?limit_advance; try done; try lia.
    { intros j Hj. rewrite order_advance. apply Hport. lia. }
    { intros j Hj. rewrite order_advance. apply Hno. lia. }
    { by rewrite order_advance. }
    exists c'. rewrite Hr1, order_advance in *. split_and!; try done.
    + by rewrite Nat.iter_succ_r.
    + rewrite Ht, Ht1, refusals_succ, <-app_assoc. done.
Qed.

Lemma dial_loop_gaveup k fuel attempt hadLink c :
  connected c = false → (∀ j, j <= k → port (order (ring c) j) ≠ 0%Z) →
  (∀ j, j <= k → reach (order (ring c) j) = false) →
  k < fuel → (attempt + Z.of_nat k + 1 = attempt_limit (ring c))%Z →
  ∃ c', dial_loop fuel attempt hadLink c = (Ok GaveUp, c') ∧ connected c' = false ∧
    trace c' = trace c ++ refusals (ring c) (S k).
Proof using dial_reach never_stopped.
  revert fuel attempt c. induction k as [|k IH]; intros fuel attempt c Hdown Hport Hno Hf Hl;
    (destruct fuel as [|fuel]; [lia|]);
    (destruct (refused_round fuel attempt hadLink c) as (c1 & -> & Hd1 & Hr1 & Ht1);
      [done|apply Hport; lia|apply Hno; lia|]).
  - rewrite (proj2 (Z.leb_le _ _)) by lia. by exists c1.
  - rewrite (proj2 (Z.leb_gt _ _)) by lia.
    destruct (IH fuel (attempt + 1)%Z c1) as (c' & Hrun & Hc & Ht);
      rewrite ?Hr1, ?limit_advance; try done; try lia.
    { intros j Hj. rewrite order_advance. apply Hport. lia. }
    { intros j Hj. rewrite order_advance. apply Hno. lia. }
    exists c'. split_and!; try done. rewrite Ht, Ht1, Hr1, (refusals_succ (ring c)), <-app_assoc. done.
Qed.
End dialling.

(** the first index below [n] at which [f] holds, if there is one *)
Lemma first_true (f : nat → bool) n :
  (∀ j, j < n → f j = false) ∨ (∃ k, k < n ∧ f k = true ∧ ∀ j, j < k → f j = false).
Proof.
  induction n as [|n [IH|(k & Hk & Hf & Hb)]]; [left; lia| |right; exists k; split_and!; [lia|done|done]].
  destruct (f n) eqn:E; [right; exists n; split_and!; [lia|done|done]|].
  left. intros j Hj. destruct (decide (j = n)) as [->|]; [done|]. apply IH. lia.
Qed.

(** * Theorems *)

(** C20. Waiting for a reply takes the first packet of its type and nothing else ends it but
    the loss of the link.  When the server sends finitely much before the link is lost, the
    wait ends with a packet of that type, or with the link down and nothing queued; while
    writes go through it is the first such packet among those queued and those still to
    arrive, pings and pushes apart, so a push that looks like the reply is never taken for it.
    There is no timeout: after any traffic without such a packet the link is still up and the
    wait is where it was, waiting for what comes next, so a server that pings for ever and
    never answers is waited for as long. *)
Theorem waitFor_reply {env : ClientEnv} expected c :
  link_ok c →
  (∃ r c', waitFor expected c = (Ok r, c') ∧
    match r with
    | Some p => Packet.type p = expected
    | None => connected c' = false ∧ incoming c' = []
    end ∧
    ((∀ n, cl_write n = true) →
     r = head (filter (λ p, Packet.type p = expected)
           (incoming c ++ (if connected c then filter (λ p, is_reply p = true) (inbound c) else []))))) ∧
  (∀ traffic later, (∀ n, cl_write n = true) → connected c = true → inbound c = traffic ++ later →
     Forall (λ p, Packet.type p ≠ expected) (incoming c ++ filter (λ p, is_reply p = true) traffic) →
     ∃ c1, connected c1 = true ∧ incoming c1 = [] ∧ inbound c1 = later ∧
       waitFor expected c = waitFor expected c1).
Proof.
  intros Hok. split; [|intros traffic later Hw; by apply waitFor_goes_on].
  unfold waitFor, mbind, SE_bind, gets.
  destruct (wait_loop_run (S (length (incoming c) + length (inbound c))) expected c Hok)
    as (r & c' & -> & _ & Hm & Hf); [lia|]. eauto.
Qed.

(** C18. Failover finds a server: when the link is down, the list has a usable server and the
    budget covers a lap, the dialling ends connected to the first reachable server in ring
    order, after one refused attempt at each server before it, exactly when some listed server
    is reachable; when none is, it gives up after the whole budget of attempts, still down. *)
Theorem failover_reaches {env : ClientEnv} reach c attempt hadLink :
  (∀ n p, cl_dial n p = reach p) → (∀ n, cl_stop n = false) →
  connected c = false → ring_ok (ring c) → points (ring c) ≠ [] →
  Forall (λ p, usable p = true) (points (ring c)) →
  (attempt + Z.of_nat (size (ring c)) <= attempt_limit (ring c))%Z →
  ∃ o c', dial attempt hadLink c = (Ok o, c') ∧
    match o with
    | Linked => connected c' = true ∧ ∃ k, k < size (ring c) ∧
        reach (order (ring c) k) = true ∧ (∀ j, j < k → reach (order (ring c) j) = false) ∧
        connectedTo c' = order (ring c) k ∧ current (ring c') = order (ring c) k ∧
        trace c' = trace c ++ refusals (ring c) k ++ [Dial (order (ring c) k) true]
    | GaveUp => connected c' = false ∧ (∀ p, p ∈ points (ring c) → reach p = false) ∧
        trace c' = trace c ++ refusals (ring c) (Z.to_nat (attempt_limit (ring c) - attempt))
    end.
Proof.
  intros Hreach Hstop Hdown Hok Hne Hu Hb.
  assert (∀ j, port (order (ring c) j) ≠ 0%Z) as Hport.
  { intros j. pose proof (ring_in (ring c) j Hok Hne) as Hin. rewrite Forall_forall in Hu.
    by apply Hu, usable_spec in Hin as [_ ?]. }
  pose proof (ring_index _ Hok Hne) as Hsize. unfold dial, mbind, SE_bind, gets.
  destruct (first_true (λ j, reach (order (ring c) j)) (size (ring c))) as [Hno|(k & Hk & Hyes & Hno)].
  - assert (∀ p, p ∈ points (ring c) → reach p = false) as Hall.
    { intros p (n & Hn & <-)%ring_visits; [|done]. by apply Hno. }
    set (k := Z.to_nat (attempt_limit (ring c) - attempt) - 1).
    destruct (dial_loop_gaveup reach Hreach Hstop k
      (S (Z.to_nat (attempt_limit (ring c) - attempt))) attempt hadLink c) as (c' & -> & Hd & Ht);
      [done|by intros|intros j _; by apply Hall, ring_in|lia|lia|].
    exists GaveUp, c'. split_and!; [done|done|done|]. rewrite Ht. do 2 f_equal. lia.
  - destruct (dial_loop_linked reach Hreach Hstop k
      (S (Z.to_nat (attempt_limit (ring c) - attempt))) attempt hadLink c)
      as (c' & -> & Hc & _ & Hr & Hto & _ & Ht); [done|by intros|done|done|lia|lia|].
    exists Linked, c'. split; [done|]. split; [done|]. exists k. by rewrite Hr.
Qed.

(** * Witnesses *)

(** a client of two servers, of which only the second answers *)
Definition b_only (p : ServerPoint) : bool := String.eqb (host p) "b".
Definition sample_config : Config := set_neighbors [mkPoint "b" 2] defaults.
Definition sample_replies : list Packet.t :=
  [ Packet.make 0 "server" "" HEARTBEAT "" "ping" 0;
    Packet.make 0 "ann" "" MESSAGE "Lobby" "hello" 0;
    Packet.make 0 "server" "me" ROOM_JOIN "General" "joined General" 200;
    Packet.make 0 "server" "me" MESSAGE "" "sent" 200 ].
#[local] Instance sample_client_env : ClientEnv := {|
  config := sample_config;
  cl_steady := λ n, Z.of_nat (S n);
  cl_time := λ n, Z.of_nat n;
  cl_draw := λ _ lo _, lo;
  cl_dial := λ _ p, b_only p;
  cl_inbound := λ _, sample_replies;
  cl_write := λ _, true;
  cl_stop := λ _, false;
  cl_in_time := λ _, true;
  cl_burst := λ _, 0
|}.
Definition fresh_client : Client :=
  mkClient None None [] [] false false 0 [] [] false [] empty_ring false 0 false no_point [] 0.
Definition ready_client : Client := run_state rebuildEndpoints fresh_client.
Definition linked_client : Client :=
  set_user (Some (User.User "me" "me@x" User.USER)) (run_state start fresh_client).

(** the reply to a message is found behind a push that has the same type *)
Example message_sent :
  run_out (sendMessage "hi") linked_client = Ok "" ∧
  pendingChat (run_state (sendMessage "hi") linked_client) = [mkLine "ann" "hello" 16].
Proof. vm_compute. split; reflexivity. Qed.

(** the reply is the fourth packet; the three before it leave the wait as it was *)
Lemma waitFor_reply_witness :
  (∃ c', waitFor MESSAGE linked_client = (Ok (Some (Packet.make 0 "server" "me" MESSAGE "" "sent" 200)), c')) ∧
  ∃ c1, connected c1 = true ∧ inbound c1 = drop 3 sample_replies ∧ waitFor MESSAGE linked_client = waitFor MESSAGE c1.
Proof.
  assert (link_ok linked_client) as Hok by (vm_compute; reflexivity).
  destruct (waitFor_reply (env := sample_client_env) MESSAGE linked_client Hok) as [(r & c' & Hrun & _ & Hr) Hon]. split.
  - exists c'. rewrite Hrun, (Hr (λ _, eq_refl)). vm_compute. reflexivity.
  - destruct (Hon (take 3 sample_replies) (drop 3 sample_replies) (λ _, eq_refl)) as (c1 & H1 & _ & H2 & H3);
      [vm_compute; reflexivity|vm_compute; reflexivity|apply (bool_decide_unpack _); vm_compute; reflexivity|].
    exists c1. split; [exact H1|split; [exact H2|exact H3]].
Defined.

Lemma failover_reaches_witness :
  ∃ o c', dial 0 false ready_client = (Ok o, c') ∧ o ≠ GaveUp.
Proof.
  assert (ring_ok (ring ready_client)) as Hok by (vm_compute; lia).
  assert (points (ring ready_client) ≠ []) as Hne by done.
  assert (Forall (λ p, usable p = true) (points (ring ready_client))) as Hu
    by (vm_compute; repeat constructor).
  assert (0 + Z.of_nat (size (ring ready_client)) <= attempt_limit (ring ready_client))%Z as Hb
    by (vm_compute; discriminate).
  destruct (failover_reaches (env := sample_client_env) b_only ready_client 0 false (λ _ _, eq_refl) (λ _, eq_refl) eq_refl
    Hok Hne Hu Hb) as (o & c' & Hrun & Ho).
  exists o, c'. split; [exact Hrun|]. intros ->. destruct Ho as (_ & Hno & _).
  assert (mkPoint "b" 2 ∈ points (ring ready_client)) as Hin by (vm_compute; right; left).
  specialize (Hno _ Hin). discriminate Hno.
Defined.
