(* ===== verification/Dialogue.v ===== *)
(** The client's half of the protocol (src/client/client.cpp), against the server's
    (Protocol.v).

    A [Request] is what the user interface asks for, kicks, room deletions and the
    reconnection of the supervisor left out, as Protocol.v does not follow them; [perform] is the client operation behind
    it.  The client keeps the same kind of view of itself as the server keeps of its session,
    and moves it by the same [follow].  The theorem composes the two refinements: after a
    request the two views agree when they did before. *)
From S2P Require Import Prelude Packet Models Serializer DatabaseManager World RoomManager.
From S2P Require Import PacketProcessor ConnectionManager Server Accounts Protocol.
From S2P Require Import Config EndpointRing PacketBuilder Client.
From stdpp Require Import options.

(** * Definitions *)

Inductive Request :=
  | Login (username password : string)
  | SignUp (username password email : string)
  | Logout
  | UpdateProfile (username newPassword email : string)
  | JoinRoom (name : string)
  | LeaveRoom
  | SendMessage (body : string)
  | CreateRoom (name privacy : string)
  | Invite (room invitee : string)
  | LoadHistory.

Definition perform `{ClientEnv} (r : Request) : Client.M string :=
  match r with
  | Login u p => login u p
  | SignUp u p e => signUp u p e
  | Logout => logout
  | UpdateProfile u p e => updateProfile u p e
  | JoinRoom n => Client.joinRoom n
  | LeaveRoom => leaveRoom
  | SendMessage b => sendMessage b
  | CreateRoom n p => Client.createRoom n p
  | Invite n u => inviteToRoom n u
  | LoadHistory => loaded ← loadMessageHistory; mret (fst loaded)
  end.

Definition request_type (r : Request) : PacketType :=
  match r with
  | Login _ _ => LOGIN
  | SignUp _ _ _ => REGISTER
  | Logout => LOGOUT
  | UpdateProfile _ _ _ => UPDATE_USER
  | JoinRoom _ => ROOM_JOIN
  | LeaveRoom => ROOM_LEAVE
  | SendMessage _ => MESSAGE
  | CreateRoom _ _ => ROOM_CREATE
  | Invite _ _ => ROOM_INVITE
  | LoadHistory => LOAD_MESSAGE_HISTORY
  end.

(** who the client takes itself to be, and where; a guest is nobody *)
Definition client_view (c : Client) : View :=
  mkView (if isLoggedIn c then Client.user c else None)
    (match currentRoom c with Some r => Room.name r | None => "" end).

(** a push that neither welcomes the client nor moves it *)
Definition still (p : Packet.t) : Prop :=
  Packet.type p = ROOM_LIST →
  welcome_user p = None ∧ is_empty (Packet.room p) || starts "room(" (Packet.room p) = true.

(** an answer that signs in no guest *)
Definition member (r : Packet.t) : Prop :=
  ∀ u, User.deserialize (Packet.message r) = Some u → is_guest u = false.

(** * Lemmas *)

Section client.
Context {env : ClientEnv}.

(** ** Waiting keeps the view *)

Definition holds u rm tr (c : Client) : Prop :=
  Client.user c = u ∧ currentRoom c = rm ∧ Forall still (inbound c) ∧ tr `prefix_of` trace c.

Section waiting.
Context (u : option User.t) (rm : option Room.t) (tr : list LinkAction).
Notation K := (holds u rm tr).

Lemma holds_act a : preserves K (act a).
Proof. intros c (?&?&?&Ht). unfold run_state. cbn. split_and!; [done..|]. by apply prefix_app_r. Qed.
Lemma holds_read {A} (f : nat → A) : preserves K (n ← Client.next_read; mret (f n)).
Proof. by intros c Hc. Qed.
Lemma holds_next : preserves K Client.next_read.
Proof. by intros c Hc. Qed.
Hint Resolve holds_act holds_next : pres.
Hint Extern 5 (preserves (holds _ _ _) (modify _)) =>
  apply preserves_modify; intros ? (?&?&?&?); unfold holds; repeat case_match; by split_and! : pres.
Lemma holds_note : preserves K noteInbound.
Proof. unfold noteInbound, Client.steady_now. solve_pres. Qed.
Lemma holds_send p : preserves K (Client.sendPacket p).
Proof. unfold Client.sendPacket, markLinkDown. solve_pres. Qed.
Lemma holds_directory s : preserves K (applyRoomDirectory s).
Proof. unfold applyRoomDirectory. solve_pres. Qed.
Hint Resolve holds_note holds_send holds_directory : pres.
Lemma holds_push p : still p → preserves K (on_push p).
Proof.
  intros Hs. unfold on_push. destruct (Packet.type p) eqn:Et; try solve [apply preserves_ret].
  - unfold enqueueChatPush, Client.time_now. solve_pres.
  - destruct (Hs Et) as [Hw Hr]. unfold applyRoomListPush. rewrite Hw. cbv zeta.
    assert (∀ b, b && negb (is_empty (Packet.room p)) && negb (starts "room(" (Packet.room p)) = false) as Hno.
    { intros b. destruct (is_empty _), (starts _ _), b; done. }
    pres_step; [solve_pres|intros _]. pres_step; [solve_pres|intros loggedIn]. rewrite Hno. cbn [when]. solve_pres.
  - unfold applyServerDirectoryPush, rebuildEndpoints. solve_pres.
Qed.
Hint Resolve holds_push : pres.
Lemma holds_reader : preserves K reader_step.
Proof.
  intros c Hc. unfold run_state, reader_step, mbind at 1 2, SE_bind at 1 2, gets. destruct (_ || _); [done|].
  unfold mbind at 1, SE_bind at 1. destruct Hc as (Hu & Hr & Hs & Ht).
  destruct (inbound c) as [|p rest] eqn:Ei.
  { split_and!; [exact Hu|exact Hr|change (Forall still (inbound c)); by rewrite Ei|exact Ht]. }
  apply Forall_cons in Hs as [Hp Hrest].
  assert (preserves K (on_packet p)) as Hon.
  { unfold on_packet. pres_step; [solve_pres|intros _]. destruct (decide _); [unfold Client.time_now; solve_pres|].
    destruct (is_push p); solve_pres. }
  apply (Hon (set_queues (incoming c) rest c)). by split_and!.
Qed.
Hint Resolve holds_reader : pres.
Lemma holds_wait t : preserves K (waitFor t).
Proof.
  assert (∀ n, preserves K (wait_incoming n)) as Hw by (induction n; cbn [wait_incoming]; solve_pres).
  assert (∀ n, preserves K (wait_loop n t)) as Hl.
  { induction n; cbn [wait_loop]; [apply preserves_ret|]. unfold receivePacket, pop. solve_pres. }
  unfold waitFor. solve_pres.
Qed.
End waiting.

(** ** A request and its answer *)

Hypothesis writes : ∀ n, cl_write n = true.

(** what a request starts from: a link that is up, no packet left over, no push under way
    that moves the client *)
Record linked (c : Client) : Prop := {
  l_up : connected c = true;
  l_socket : socketUp c = true;
  l_empty : incoming c = [];
  l_still : Forall still (inbound c)
}.
(** the next answer of this type on the link *)
Definition answer_on (c : Client) (t : PacketType) (r : Packet.t) : Prop :=
  head (filter (λ q, Packet.type q = t) (filter (λ q, is_reply q = true) (inbound c))) = Some r.

Lemma trace_send c p rest l : trace c = trace c ++ l → l = Send p :: rest → False.
Proof. intros H ->. apply (f_equal length) in H. rewrite length_app in H. cbn in H. lia. Qed.

Lemma alive_run c : ∃ b n, isAlive c = (Ok b, set_creads n c).
Proof.
  unfold isAlive, isConnected, heartbeatMissed, Client.steady_now, Client.next_read, mbind, SE_bind, gets, mret, SE_ret.
  assert (c = set_creads (creads c) c) as Hc by (by destruct c).
  destruct (connected c) eqn:Ec; cbn [negb]; [|exists false, (creads c); by rewrite <-Hc]. rewrite Ec. cbn [negb].
  destruct (lastInboundMs c <=? 0)%Z; [exists false, (creads c); by rewrite <-Hc|]. by eexists _, (S (creads c)).
Qed.

Lemma exchange_answered build t sf lost k c e c' p rest r :
  linked c → answer_on c t r →
  (∀ q c, trace (run_state (k q) c) = trace c) →
  exchange build t sf lost k c = (Ok e, c') → trace c' = trace c ++ Send p :: rest →
  ∃ now c1, build now = Ok p ∧ k r c1 = (Ok e, c') ∧
    Client.user c1 = Client.user c ∧ currentRoom c1 = currentRoom c.
Proof using env writes.
  intros Hc Hr Hk Hrun Ht. unfold exchange, mbind at 1, SE_bind at 1 in Hrun.
  unfold Client.time_now, Client.next_read, mbind at 1, SE_bind at 1, mret, SE_ret in Hrun.
  set (now := u64 _) in Hrun. set (c0 := set_creads _ c) in Hrun. cbv beta iota in Hrun.
  assert (trace c0 = trace c) as Ht0 by done.
  assert (link_ok c0) as Hok by (intros _; apply (l_socket c Hc)).
  destruct (build now) as [q|x] eqn:Eb.
  2: { injection Hrun as _ <-. exfalso. by eapply (trace_send c p rest); [rewrite <-Ht|]. }
  unfold mbind at 1, SE_bind at 1 in Hrun.
  destruct (client_send_run q c0) as (ok & c2 & Es & Hi & Hb & Hl & _ & Hw). rewrite Es in Hrun.
  destruct (decide (serialize q = "")) as [Hz|Hz].
  { exfalso. unfold Client.sendPacket, mbind, SE_bind, gets, act, markLinkDown, modify, mret, SE_ret in Es.
    assert (connected c0 = true ∧ socketUp c0 = true) as [E1 E2] by (split; apply Hc). rewrite E1, E2, Hz in Es. cbn in Es.
    injection Es as <- <-. injection Hrun as _ <-. cbn in Ht. apply app_inv_head in Ht. discriminate. }
  destruct Hw as [-> ->]; [done|done|apply Hc|done|]. cbn [negb] in Hrun.
  set (c2 := set_trace _ _) in Hrun. unfold mbind at 1, SE_bind at 1 in Hrun.
  assert (link_ok c2) as Hok2 by (intros _; apply (l_socket c Hc)).
  assert (∃ c3, waitFor t c2 = (Ok (Some r), c3)) as (c3 & Ew).
  { unfold waitFor, mbind, SE_bind, gets. destruct (wait_loop_run (S (length (incoming c2) + length (inbound c2))) t c2 Hok2)
      as (o & c3 & -> & _ & _ & Ho); [lia|]. exists c3. rewrite Ho by done. unfold replies.
    change (incoming c2) with (incoming c). change (connected c2) with (connected c). change (inbound c2) with (inbound c).
    rewrite (l_empty c Hc), (l_up c Hc). cbn [app]. by rewrite Hr. }
  rewrite Ew in Hrun.
  pose proof (holds_wait (Client.user c) (currentRoom c) (trace c ++ [Send q]) t c2) as Hh.
  unfold run_state in Hh. rewrite Ew in Hh. destruct Hh as (Hu & Hrm & _ & Htr).
  { split_and!; [done|done|apply Hc|done]. }
  exists now, c3. split; [|done]. rewrite Eb. specialize (Hk r c3). unfold run_state in Hk. rewrite Hrun in Hk. cbn in Hk.
  destruct Htr as [l Hx]. cbn [snd] in Hx. rewrite <-Hk, Ht, <-app_assoc in Hx. apply app_inv_head in Hx. by injection Hx as ->.
Qed.

(** what is left of a request once it was sent *)
Lemma with_alive_run k c e c' p rest :
  with_alive k c = (Ok e, c') → trace c' = trace c ++ Send p :: rest →
  ∃ n, k (set_creads n c) = (Ok e, c').
Proof.
  intros Hrun Ht. unfold with_alive, mbind, SE_bind in Hrun. destruct (alive_run c) as (b & n & E). rewrite E in Hrun.
  destruct b; cbn [negb] in Hrun; [by exists n|]. injection Hrun as _ <-. exfalso.
  by eapply (trace_send c p rest); [rewrite <-Ht|].
Qed.
Lemma logged_in_run msg k c e c' p rest :
  logged_in msg k c = (Ok e, c') → trace c' = trace c ++ Send p :: rest →
  ∃ u, k u c = (Ok e, c').
Proof.
  intros Hrun Ht. unfold logged_in, mbind, SE_bind, gets in Hrun.
  destruct (isLoggedIn c), (Client.user c) as [u|]; try (by exists u); injection Hrun as _ <-; exfalso;
    by eapply (trace_send c p rest); [rewrite <-Ht|].
Qed.

Lemma accepted_follow p r fallback (k : Client.M string) c e c' :
  accepted r fallback k c = (Ok e, c') →
  (Packet.responseCode r =? SUCCESS)%Z = true ∧ k c = (Ok e, c') ∨
  (Packet.responseCode r =? SUCCESS)%Z = false ∧ c' = c ∧ ∀ v, follow v p r = v.
Proof.
  unfold accepted, follow. destruct (_ =? _)%Z; [by left|]. intros [= _ <-]. by right.
Qed.

(** what the two ends of an exchange say of a view that nothing else moves *)
Lemma view_same c c1 : Client.user c1 = Client.user c → currentRoom c1 = currentRoom c → client_view c1 = client_view c.
Proof. unfold client_view, isLoggedIn. by intros -> ->. Qed.
Lemma required_type now t sender room msg what fields p :
  required what fields (packet now t sender room msg) = Ok p → Packet.type p = t.
Proof. unfold required. destruct (existsb _ _); [done|]. by intros [= <-]. Qed.
Lemma member_user r u : member r → User.deserialize (Packet.message r) = Some u →
  match User.user_type u with User.GUEST => false | _ => true end = true.
Proof. intros Hm Hu. specialize (Hm u Hu). unfold is_guest in Hm. by destruct (User.user_type u). Qed.

Lemma signed_in_follow p r failed invalid c e c' :
  Packet.type p = LOGIN ∨ Packet.type p = REGISTER → Packet.type r = Packet.type p → member r →
  signed_in r failed invalid c = (Ok e, c') → client_view c' = follow (client_view c) p r.
Proof.
  clear writes. intros Hp Hr Hm Hrun. unfold signed_in, handlePacket in Hrun.
  assert ((match Packet.type r with LOGIN | REGISTER | UPDATE_USER => handleLogin r | _ => None end) = handleLogin r) as E
    by (rewrite Hr; by destruct Hp as [-> | ->]). rewrite E in Hrun. unfold handleLogin in Hrun.
  assert (follow (client_view c) p r = if (Packet.responseCode r =? SUCCESS)%Z then
    match User.deserialize (Packet.message r) with Some u => mkView (Some u) (Room.name LOBBY) | None => client_view c end
    else client_view c) as ->.
  { unfold follow. destruct (_ =? _)%Z; [|done]. by destruct Hp as [-> | ->]. }
  destruct (Packet.responseCode r =? SUCCESS)%Z eqn:Ec.
  - destruct (User.deserialize (Packet.message r)) as [u|] eqn:Eu.
    + unfold applyRoomDirectory, mbind, SE_bind, modify in Hrun.
      assert (client_view (set_state (Some u) (Some lobby) c) = mkView (Some u) (Room.name LOBBY)) as Hv.
      { unfold client_view, isLoggedIn. cbn. by rewrite (member_user r u Hm Eu). }
      destruct (Room.deserializeList _); injection Hrun as _ <-; exact Hv.
    + unfold accepted in Hrun. rewrite Ec in Hrun. by injection Hrun as _ <-.
  - unfold accepted in Hrun. rewrite Ec in Hrun. by injection Hrun as _ <-.
Qed.

Lemma signed_in_trace r failed invalid c : trace (run_state (signed_in r failed invalid) c) = trace c.
Proof.
  unfold signed_in, accepted, applyRoomDirectory, run_state. destruct (handlePacket r); [|by destruct (_ =? _)%Z].
  unfold mbind, SE_bind, modify. by destruct (Room.deserializeList _).
Qed.
Lemma linked_reads n c : linked c → linked (set_creads n c).
Proof. by intros []. Qed.
Lemma answer_type c t r : answer_on c t r → Packet.type r = t.
Proof.
  unfold answer_on. destruct (filter _ _) as [|q l] eqn:E; [done|]. intros [= ->].
  by apply filter_head in E as [? _].
Qed.

Ltac not_sent Hrun Ht := injection Hrun as _ <-; exfalso; by eapply trace_send; [exact Ht|reflexivity].

(** a refused request moves nothing, and an accepted one moves as [k] does *)
Lemma accepted_view build t sf lost fallback k c e c' p rest r v' :
  linked c → answer_on c t r →
  (∀ q c, trace (run_state (k q) c) = trace c) →
  exchange build t sf lost (λ q, accepted q fallback (k q)) c = (Ok e, c') → trace c' = trace c ++ Send p :: rest →
  (∀ now, build now = Ok p → Packet.type p = t) →
  (Packet.type p = t → (Packet.responseCode r =? SUCCESS)%Z = true → follow (client_view c) p r = v') →
  (∀ c1 e c', Client.user c1 = Client.user c → currentRoom c1 = currentRoom c → k r c1 = (Ok e, c') → client_view c' = v') →
  Packet.type p = t ∧ client_view c' = follow (client_view c) p r.
Proof using env writes.
  intros Hc Hr Hk Hrun Ht Hty Hf Hv.
  destruct (exchange_answered build t sf lost (λ q, accepted q fallback (k q)) c e c' p rest r Hc Hr) as (now & c1 & Hb & Hrun1 & Hu & Hm); [|done|done|].
  { intros q c1. unfold accepted. destruct (Packet.responseCode q =? SUCCESS)%Z; [apply Hk|done]. }
  specialize (Hty now Hb). split; [done|].
  apply (accepted_follow p) in Hrun1 as [[Hs Hrun1]|(_ & -> & Hsame)].
  - rewrite (Hf Hty Hs). by eapply Hv.
  - rewrite Hsame. by apply view_same.
Qed.

(** loading the history is an exchange too, apart from the lines it returns *)
Lemma history_exchange c :
  (loaded ← loadMessageHistory; mret (fst loaded)) c =
  with_alive (me ← gets Client.user; here ← gets currentRoom;
    match me, here with
    | Some u, Some r =>
        exchange (λ now, buildLoadMessageHistory now (User.username u) (Room.name r)) LOAD_MESSAGE_HISTORY
          "Failed to request history." "Connection lost while loading history."
          (λ r, accepted r "Load history failed." (mret ""))
    | _, _ => mret "No room to load history for."
    end) c.
Proof.
  clear writes. unfold loadMessageHistory, with_alive, exchange, accepted, mbind, SE_bind, gets, mret, SE_ret.
  destruct (isAlive c) as [[[]|] c1]; cbn [negb]; [|done..].
  destruct (Client.user c1) as [u|], (currentRoom c1) as [r|]; try done.
  destruct (Client.time_now c1) as [[now|] c2]; [|done]. destruct (buildLoadMessageHistory _ _ _) as [p|]; [|done].
  destruct (Client.sendPacket p c2) as [[[]|] c3]; cbn [negb]; [|done..].
  destruct (waitFor _ c3) as [[[q|]|] c4]; [|done..]. by destruct (_ =? _)%Z.
Qed.

(** what a request needs to be followed: its packet's type, and what a grant means *)
Ltac granted := first
  [ intros ?; apply required_type
  | let Hp := fresh in let Hs := fresh in intros Hp Hs; unfold follow; by rewrite Hs, Hp ].
Lemma perform_follows q c e c' p rest r :
  linked c → answer_on c (request_type q) r → member r →
  perform q c = (Ok e, c') → trace c' = trace c ++ Send p :: rest →
  Packet.type p = request_type q ∧ client_view c' = follow (client_view c) p r.
Proof using env writes.
  intros Hc Hr Hm Hrun Ht. pose proof (answer_type _ _ _ Hr) as Hrt.
  destruct q; cbn [perform request_type] in *; rewrite ?history_exchange in Hrun;
    unfold login, signUp, logout, updateProfile, Client.joinRoom, leaveRoom, sendMessage, Client.createRoom, inviteToRoom in Hrun;
    pose proof (with_alive_run _ _ _ _ _ _ Hrun Ht) as (n & Hrun');
    pose proof (linked_reads n c Hc) as Hc0; set (c0 := set_creads n c) in *;
    change (client_view c) with (client_view c0); change (trace c) with (trace c0) in Ht;
    match goal with H : answer_on c ?t r |- _ => change (answer_on c0 t r) in H end; clearbody c0; clear Hc Hrun c.
  1,2: (unfold mbind at 1, SE_bind at 1, gets in Hrun'; destruct (isLoggedIn c0); [not_sent Hrun' Ht|];
    eapply exchange_answered in Hrun' as (now & c1 & Hp & Hk & Hu & Hrm); [|done|exact Hr|by intros; apply signed_in_trace|exact Ht];
    rewrite <-(view_same c0 c1) by done; apply required_type in Hp; split; [done|];
    first [by eapply signed_in_follow; [left|congruence|..]|by eapply signed_in_follow; [right|congruence|..]]).
  - apply (logged_in_run _ _ _ _ _ _ _ Hrun') in Ht as Hk. destruct Hk as (u & Hk).
    eapply (accepted_view _ _ _ _ _ (λ _, _)); [done|exact Hr| |exact Hk|exact Ht|granted..|]; [by intros|].
    + intros c1 e' c2 Hu Hm' Hk'. apply (f_equal snd) in Hk'. cbn [snd] in Hk'. rewrite <-Hk'. clear. reflexivity.
  - apply (logged_in_run _ _ _ _ _ _ _ Hrun') in Ht as Hk. destruct Hk as (u & Hk).
    eapply exchange_answered in Hk as (now & c1 & Hp & Hk & Hu & Hrm); [|done|exact Hr| |exact Ht].
    2: { intros x y. unfold accepted. by repeat case_match. }
    rewrite <-(view_same c0 c1) by done. apply required_type in Hp. split; [done|]. unfold handlePacket in Hk. rewrite Hrt in Hk.
    unfold handleLogin, accepted in Hk. unfold follow. rewrite Hp.
    destruct (_ =? _)%Z; [|by injection Hk as _ <-]. cbn [negb].
    destruct (User.deserialize (Packet.message r)) as [u'|] eqn:Eu'; [|by injection Hk as _ <-].
    injection Hk as _ <-. unfold client_view, isLoggedIn. cbn. by rewrite (member_user r u' Hm Eu').
  - unfold mbind at 1, SE_bind at 1, gets in Hrun'. destruct (Client.user c0) as [u|] eqn:Eu; [|not_sent Hrun' Ht].
    destruct (is_empty name); [not_sent Hrun' Ht|].
    eapply (accepted_view _ _ _ _ _ (λ r, enter_room (Packet.room r) ;; mret "")); [done|exact Hr|done|exact Hrun'|exact Ht|granted..|].
    + intros c1 e' c2 Hu Hm' [= _ <-]. unfold client_view, isLoggedIn. cbn. rewrite Hu. f_equal.
      by destruct (String.eqb_spec (Packet.room r) "Lobby") as [->|].
  - unfold mbind at 1, SE_bind at 1, gets in Hrun'. destruct (Client.user c0) as [u|] eqn:Eu; [|not_sent Hrun' Ht].
    unfold mbind at 1, SE_bind at 1 in Hrun'. destruct (currentRoom c0) as [rm|]; [|not_sent Hrun' Ht].
    destruct (_ || _); [not_sent Hrun' Ht|].
    eapply (accepted_view _ _ _ _ _ (λ _, _)); [done|exact Hr| |exact Hrun'|exact Ht|granted..|]; [by intros|].
    + intros c1 e' c2 Hu Hm' [= _ <-]. unfold client_view, isLoggedIn. cbn. by rewrite Hu.
  - unfold mbind at 1, SE_bind at 1, gets in Hrun'. destruct (Client.user c0) as [u|] eqn:Eu; [|not_sent Hrun' Ht].
    destruct (is_empty body); [not_sent Hrun' Ht|].
    eapply (accepted_view _ _ _ _ _ (λ _, _)); [done|exact Hr| |exact Hrun'|exact Ht|granted..|]; [by intros|].
    + intros c1 e' c2 Hu Hm' [= _ <-]. by apply view_same.
  - apply (logged_in_run _ _ _ _ _ _ _ Hrun') in Ht as Hk. destruct Hk as (u & Hk).
    eapply (accepted_view _ _ _ _ _ (λ q, _ ;; _)); [done|exact Hr| |exact Hk|exact Ht|granted..|].
    + intros x y. unfold when, run_state, mbind, SE_bind, modify. destruct (negb _); [|done]. cbn [snd]. by case_match.
    + intros c1 e' c2 Hu Hm' Hk'. rewrite <-(view_same c0 c1) by done. unfold when in Hk'.
      destruct (negb _); injection Hk' as _ <-; [by case_match|done].
  - apply (logged_in_run _ _ _ _ _ _ _ Hrun') in Ht as Hk. destruct Hk as (u & Hk).
    unfold room_or_current, mbind, SE_bind, gets, mret, SE_ret in Hk.
    eapply (accepted_view _ _ _ _ _ (λ _, _)); [done|exact Hr| |exact Hk|exact Ht|granted..|]; [by intros|].
    + intros c1 e' c2 Hu Hm' [= _ <-]. by apply view_same.
  - unfold mbind at 1, SE_bind at 1, gets in Hrun'. destruct (Client.user c0) as [u|] eqn:Eu; [|not_sent Hrun' Ht].
    unfold mbind at 1, SE_bind at 1 in Hrun'. destruct (currentRoom c0) as [rm|]; [|not_sent Hrun' Ht].
    eapply (accepted_view _ _ _ _ _ (λ _, _)); [done|exact Hr| |exact Hrun'|exact Ht|granted..|]; [by intros|].
    + intros c1 e' c2 Hu Hm' [= _ <-]. by apply view_same.
Qed.
End client.

(** * Theorems *)

(** C2. Client and server agree on who is signed in and where.  Take a client whose view of
    itself is the view the server has of its session, let it log in, sign up, log out, change
    its profile, join or leave a room, send a message, create a room, invite to one or load
    the history, and let the server's answer to what it sent be the next answer on its link.
    Then afterwards the two views are the same again, whether the request was granted or
    refused.  Not covered: kicking, deleting a room and the supervisor's RECONNECT, which move
    sessions without saying so in their answer.  Taken up to here: the storage never fails,
    the tables are tidy before and after and were started from the stored rooms, no name or
    email holds '|', room ids fit an int, the client's writes go through, none of the pushes
    on its link moves it or welcomes it anew, and no answer signs in a guest. *)
Theorem views_agree {senv : ServerEnv} {cenv : ClientEnv} tables w s l q c e c' p rest r w' :
  (∀ n, env_db n = None) → db_wf tables → stored_rooms tables →
  rtc tidy_step (run_state Server_start (boot tables)) w → tidy (db w) → small w →
  sessions w !! s = Some l →
  (∀ n, cl_write n = true) → linked c → client_view c = session_view (session_at w l) →
  perform q c = (Ok e, c') → trace c' = trace c ++ Send p :: rest →
  processPacket p l w = (Ok r, w') → answer_on c (request_type q) r → member r →
  tidy (db w') → readable (db w') →
  client_view c' = session_view (session_at w' l).
Proof.
  intros no_failure Hwf Hst Hsteps Ht Hsmall Hl Hwr Hc Hview Hrun Htr Hserve Hr Hm Ht' Hr'.
  destruct (perform_follows Hwr q c e c' p rest r Hc Hr Hm Hrun Htr) as [Hty ->]. rewrite Hview.
  destruct (tidy_steps no_failure _ w Hsteps (started_consistent no_failure tables Hwf Hst)
    (started_single tables) Ht) as [Hi Hs].
  symmetry. apply (processPacket_told no_failure (sessions w) s l Hl _ p w r w'); try done; [|by rewrite Hty; destruct q].
  by apply (session_fit _ w s l).
Qed.

(** * Witnesses *)

#[local] Existing Instance plain_server.

Definition login_answer : Packet.t :=
  match run_out (processPacket user_login 0) two_connected with Ok r => r | Throw _ => user_login end.
#[local] Instance one_answer : ClientEnv := {|
  config := Config.defaults;
  cl_steady := λ _, 1%Z;
  cl_time := λ _, 0%Z;
  cl_draw := λ _ lo _, lo;
  cl_dial := λ _ _, true;
  cl_inbound := λ _, [login_answer];
  cl_write := λ _, true;
  cl_stop := λ _, false;
  cl_in_time := λ _, true;
  cl_burst := λ _, 0
|}.
Definition waiting_client : Client :=
  mkClient (Some (User.anonymousUser 5)) (Some lobby) [] [] true true 1 [] [login_answer] true []
    empty_ring false 0 false no_point [] 0.
Lemma views_agree_witness :
  client_view (run_state (perform (Login "user" "user")) waiting_client) =
    session_view (session_at (run_state (processPacket user_login 0) two_connected) 0).
Proof.
  assert (processPacket user_login 0 two_connected =
    (Ok login_answer, run_state (processPacket user_login 0) two_connected)) as Hserve by (vm_compute; reflexivity).
  assert (∃ e c', perform (Login "user" "user") waiting_client = (Ok e, c') ∧ trace c' = trace waiting_client ++ [Send user_login])
    as (e & c' & Hrun & Ht) by (do 2 eexists; split; vm_compute; reflexivity).
  unfold run_state at 1. rewrite Hrun.
  apply (views_agree (senv := plain_server) seeded two_connected 7 0 (Login "user" "user") waiting_client e c' user_login [] login_answer _
    (λ _, eq_refl) (init_wf _ _) seeded_rooms
    ltac:(unfold two_connected;
      eapply rtc_l; [split; [apply tidy_check; vm_compute; reflexivity|apply (step_accept 7); vm_compute; reflexivity]|];
      eapply rtc_l; [split; [apply tidy_check; vm_compute; reflexivity|apply (step_accept 8); vm_compute; reflexivity]|];
      apply rtc_refl)
    ltac:(apply tidy_check; vm_compute; reflexivity) ltac:(vm_compute; reflexivity)
    ltac:(vm_compute; reflexivity) (λ _, eq_refl)
    ltac:(constructor; [reflexivity..|]; constructor; [|constructor]; unfold still; vm_compute; discriminate)
    ltac:(vm_compute; reflexivity) Hrun Ht Hserve ltac:(vm_compute; reflexivity)
    ltac:(intros u Hu; vm_compute in Hu; injection Hu as <-; reflexivity)
    ltac:(apply tidy_check; vm_compute; reflexivity) ltac:(apply readable_check; vm_compute; reflexivity)).
Defined.
