(* ===== verification/Supervision.v ===== *)
(** The life of a client (src/client/client.cpp: start, stop and supervisorLoop;
    src/client/network.cpp): the supervisor thread and its flags around the [Client] of
    Client.v.

    [supervise] is one round of the supervisor's outer loop on a link that is up: it watches
    the link for the given number of seconds and, when the link is lost, dials the next server
    or gives up.  Requests, packets and rounds are steps, in any order.

    The theorem is about the sockets of the process: there is at most one at a time, nothing is
    sent on a closed one, each is closed once, and a stopped client has none; starting twice
    has no effect. *)
From S2P Require Import Prelude Packet Models Serializer Config EndpointRing PacketBuilder Dialogue Client.
From stdpp Require Import options.

(** * Definitions *)

Record Life := mkLife {
  cl : Client;
  supervisorRunning : bool;
  joinable : bool;               (* the supervisor's thread object is *)
  healthWired : bool;
  healthChecks : nat;            (* checks added to the client's monitor *)
  next_client_id : Z
}.
Definition set_cl v l := mkLife v (supervisorRunning l) (joinable l) (healthWired l) (healthChecks l) (next_client_id l).
Definition set_thread r j l := mkLife (cl l) r j (healthWired l) (healthChecks l) (next_client_id l).
Definition set_wired w n i l := mkLife (cl l) (supervisorRunning l) (joinable l) w n i.

Definition fresh_life : Life :=
  mkLife (mkClient None None [] [] false false 0 [] [] false [] empty_ring false 0 false no_point [] 0)
    false false false 0 0.

Section with_env.
Context {env : ClientEnv}.

Definition on_cl {A} (m : SE Client A) : SE Life A := zoom cl set_cl m.

(** the end of [supervisorLoop] *)
Definition supervisor_ends : Client.M unit :=
  modify (λ c, set_hop false (reconnects c) (resumePending c) no_point c).

(** one round of [supervisorLoop] from a link that is up; [false] when the loop ended *)
Definition link_round (watched : nat) : Client.M bool :=
  lost ← watch watched;
  stop ← stop_requested;
  if negb lost then mret true
  else if (stop : bool) then mret false
  else
    markReconnecting ;;
    disconnect ;;
    next ← failAndWait 0;
    match next with
    | None => mret false
    | Some attempt =>
        r ← dial attempt true;
        match r with
        | GaveUp => mret false
        | Linked =>
            pending ← gets resumePending;
            when pending resumeSession ;;
            mret true
        end
    end.
Definition supervise (watched : nat) : SE Life unit :=
  going ← gets supervisorRunning;
  if negb going then mret tt
  else
    again ← on_cl (link_round watched);
    when (negb again)
      (on_cl supervisor_ends ;; modify (λ l, set_thread false (joinable l) l)).

Definition client_stop : SE Life unit :=
  thread ← gets joinable;
  when thread (on_cl supervisor_ends) ;;
  on_cl Client.stop ;;
  modify (set_thread false false).

Definition client_start : SE Life bool :=
  busy ← gets (λ l, supervisorRunning l || joinable l);
  if (busy : bool) then mret false
  else
    modify (λ l, set_wired true (if healthWired l then healthChecks l else S (healthChecks l))
                   (u64 (next_client_id l + 1)) l) ;;
    modify (set_thread true true) ;;
    linked ← on_cl Client.start;
    if (linked : bool) then mret true
    else on_cl supervisor_ends ;; modify (set_thread false false) ;; mret false.

(** what the user interface asks for *)
Inductive Ask :=
  | Plain (r : Request)
  | Kick (room target : string)
  | Delete (room : string)
  | History
  | Drain
  | Alive.
Definition ask_client (a : Ask) : Client.M unit :=
  match a with
  | Plain r => perform r ;; mret tt
  | Kick n u => kickFromRoom n u ;; mret tt
  | Delete n => Client.deleteRoom n ;; mret tt
  | History => loadMessageHistory ;; mret tt
  | Drain => takePendingChatMessages ;; mret tt
  | Alive => Client.isAlive ;; mret tt
  end.

Inductive life_step : Life → Life → Prop :=
  | life_start l : life_step l (run_state client_start l)
  | life_stop l : life_step l (run_state client_stop l)
  | life_supervise n l : life_step l (run_state (supervise n) l)
  | life_packet l : life_step l (run_state (on_cl reader_step) l)
  | life_ask a l : life_step l (run_state (on_cl (ask_client a)) l).

End with_env.

(** * Specification *)

(** the sockets over a run: whether one is open, [None] when the run broke the rules *)
Definition socket_step (s : option bool) (a : LinkAction) : option bool :=
  match s, a with
  | Some false, Dial _ ok => Some ok
  | Some true, Send _ => Some true
  | Some true, Close => Some false
  | _, _ => None
  end.
Definition sockets (tr : list LinkAction) : option bool := foldl socket_step (Some false) tr.

(** * Lemmas *)

(** the trace follows the rules and tells what is open; with [down], nothing is *)
Definition at_link (down : bool) (c : Client) : Prop :=
  sockets (trace c) = Some (socketUp c) ∧ (connected c = true → socketUp c = true) ∧
  (down = true → socketUp c = false).

Lemma sockets_snoc tr a : sockets (tr ++ [a]) = socket_step (sockets tr) a.
Proof. unfold sockets. by rewrite foldl_app. Qed.

Section sending.
Context {env : ClientEnv} (d : bool).
Notation K := (at_link d).

Lemma at_read : preserves K Client.next_read.
Proof. by intros c Hc. Qed.
Hint Resolve at_read : pres.
Hint Extern 5 (preserves (at_link _) (modify _)) =>
  apply preserves_modify; intros ? ?; repeat case_match; assumption : pres.

Lemma at_down : preserves K markLinkDown.
Proof. apply preserves_modify. intros c (?&?&?). by split_and!. Qed.
Lemma at_disconnect : triple K disconnect (λ _, at_link true).
Proof.
  intros c (Ht & Hc & Hd). unfold run_state, disconnect, act, mbind, SE_bind, gets, modify. cbn.
  destruct (socketUp c) eqn:E; cbn; split_and!; cbn; try done.
  by rewrite sockets_snoc, Ht.
Qed.
Lemma at_send p : preserves K (Client.sendPacket p).
Proof.
  intros c (Ht & Hc & Hd). unfold run_state, run_out, Client.sendPacket, markLinkDown, act, mbind, SE_bind, gets, modify. cbn.
  destruct (connected c) eqn:E1; [|cbn; split_and!; [done|intros H; congruence|done]].
  rewrite (Hc eq_refl) in *. cbn.
  destruct (_ && _); cbn; split_and!; cbn; rewrite ?sockets_snoc, ?Ht, ?(Hc eq_refl); try done.
Qed.
Hint Resolve at_down at_send : pres.
Lemma at_note : preserves K noteInbound.
Proof. unfold noteInbound, Client.steady_now. solve_pres. Qed.
Lemma at_time : preserves K Client.time_now.
Proof. unfold Client.time_now. solve_pres. Qed.
Lemma at_stop_requested : preserves K stop_requested.
Proof. unfold stop_requested. solve_pres. Qed.
Lemma at_directory t : preserves K (applyRoomDirectory t).
Proof. unfold applyRoomDirectory. solve_pres. Qed.
Hint Resolve at_note at_time at_stop_requested at_directory : pres.
Lemma at_push p : preserves K (on_push p).
Proof.
  unfold on_push, applyRoomListPush, applyServerDirectoryPush, rebuildEndpoints, enqueueChatPush. solve_pres.
Qed.
Hint Resolve at_push : pres.
Lemma at_reader : preserves K reader_step.
Proof. unfold reader_step, on_packet. solve_pres. Qed.
Hint Resolve at_reader : pres.
Lemma at_incoming n : preserves K (wait_incoming n).
Proof. induction n; cbn [wait_incoming]; solve_pres. Qed.
Hint Resolve at_incoming : pres.
Lemma at_wait t : preserves K (waitFor t).
Proof.
  assert (∀ n, preserves K (wait_loop n t)) as Hl.
  { induction n; cbn [wait_loop]; [apply preserves_ret|]. unfold receivePacket, pop. solve_pres. }
  unfold waitFor. solve_pres.
Qed.
Lemma at_wait_timeout t : preserves K (waitFor_timeout t).
Proof.
  assert (∀ n, preserves K (wait_for_loop n t)) as Hl.
  { induction n; cbn [wait_for_loop]; [apply preserves_ret|]. unfold receivePacketFor, receivePacket, pop. solve_pres. }
  unfold waitFor_timeout. solve_pres.
Qed.
Lemma at_alive : preserves K Client.isAlive.
Proof. unfold Client.isAlive, isConnected, heartbeatMissed, Client.steady_now. solve_pres. Qed.
Hint Resolve at_wait at_wait_timeout at_alive : pres.

Lemma at_exchange build expected sf lost k :
  (∀ r, preserves K (k r)) → preserves K (exchange build expected sf lost k).
Proof. intros Hk. unfold exchange. solve_pres. Qed.
Hint Resolve at_exchange : pres.
Lemma at_ask a : preserves K (ask_client a).
Proof.
  destruct a as [[]| | | | |]; cbn [ask_client perform];
    unfold login, signUp, logout, updateProfile, Client.joinRoom, leaveRoom, sendMessage, Client.createRoom,
      inviteToRoom, kickFromRoom, Client.deleteRoom, loadMessageHistory, takePendingChatMessages,
      with_alive, logged_in, room_or_current;
    repeat first
      [ match goal with |- preserves _ (exchange _ _ _ _ _) => apply at_exchange; intros ? end;
        unfold signed_in, accepted, enter_room, clearPendingChatMessages
      | progress pres_step ].
Qed.
End sending.

(** an operation that keeps to the rules of the socket *)
Definition tame `{ClientEnv} {A} (m : Client.M A) : Prop := ∀ d, preserves (at_link d) m.
Section tame.
Context {env : ClientEnv}.
Lemma tame_plain r : tame (perform r).
Proof. intros d. apply preserves_skip. exact (at_ask d (Plain r)). Qed.
Lemma tame_kick n u : tame (kickFromRoom n u).
Proof. intros d. apply preserves_skip. exact (at_ask d (Kick n u)). Qed.
Lemma tame_delete n : tame (Client.deleteRoom n).
Proof. intros d. apply preserves_skip. exact (at_ask d (Delete n)). Qed.
Lemma tame_history : tame loadMessageHistory.
Proof. intros d. apply preserves_skip. exact (at_ask d History). Qed.
Lemma tame_reader : tame reader_step.
Proof. intros d. apply at_reader. Qed.
Lemma tame_alive : tame Client.isAlive.
Proof. intros d. apply at_alive. Qed.
Lemma tame_time : tame Client.time_now.
Proof. intros d. apply at_time. Qed.
End tame.

(** ** Dialling and the rounds of the supervisor *)

Lemma at_link_false d c : at_link d c → at_link false c.
Proof. by intros (?&?&?). Qed.

Section rounds.
Context {env : ClientEnv}.
#[local] Hint Resolve at_read at_down at_send at_note at_time at_stop_requested at_directory at_push
  at_reader at_incoming at_wait at_wait_timeout at_alive : pres.
#[local] Hint Extern 5 (preserves (at_link _) (modify _)) =>
  apply preserves_modify; intros ? ?; repeat case_match; assumption : pres.

Lemma at_resume d : preserves (at_link d) resumeSession.
Proof.
  assert (∀ n b p, preserves (at_link d) (resume_loop n b p)) as Hl.
  { induction n; intros b p; cbn [resume_loop]; unfold isConnected; solve_pres. }
  unfold resumeSession. solve_pres.
Qed.
Lemma at_mark d : preserves (at_link d) markReconnecting.
Proof. unfold markReconnecting, forgetConnected. solve_pres. Qed.
Lemma at_fail d n : preserves (at_link d) (failAndWait n).
Proof. unfold failAndWait. cbv zeta. solve_pres. Qed.
Lemma at_steps d n : preserves (at_link d) (reader_steps n).
Proof. induction n; cbn [reader_steps]; solve_pres. Qed.
Hint Resolve at_resume at_mark at_fail at_steps : pres.
Lemma at_watch d n : preserves (at_link d) (watch n).
Proof. induction n; cbn [watch]; solve_pres. Qed.

(** the result tells whether the client is down again *)
Definition after {A} (down : A → bool) (o : outcome A) (c : Client) : Prop :=
  at_link (match o with Ok a => down a | Throw _ => false end) c.
Lemma after_step d {A B} (m : Client.M A) (f : A → Client.M B) down :
  preserves (at_link d) m → (∀ a, triple (at_link d) (f a) (after down)) → triple (at_link d) (m ≫= f) (after down).
Proof.
  intros Hm Hf. exact (triple_bind _ _ _ (λ _, at_link d) _ Hm Hf (λ e c H, at_link_false d c H)).
Qed.
Lemma after_kept d {A} (m : Client.M A) : preserves (at_link d) m → triple (at_link d) m (after (λ _, false)).
Proof. intros Hm c Hc. apply Hm in Hc. unfold after. destruct (run_out m c); by eapply at_link_false. Qed.

Lemma at_connect p : triple (at_link true) (connect p) (after negb).
Proof.
  intros c (Ht & Hc & Hd). specialize (Hd eq_refl). unfold after, run_state, run_out.
  unfold connect, noteInbound, Client.steady_now, Client.next_read, act, mbind, SE_bind, gets, modify. cbn.
  destruct (connected c) eqn:E; cbn; [by specialize (Hc eq_refl); congruence|].
  rewrite Hd in Ht. destruct (cl_dial (creads c) p) eqn:Ed; cbn; split_and!; cbn; try done.
  - by rewrite sockets_snoc, Ht.
  - by rewrite sockets_snoc, Ht, Hd.
  - intros H; congruence.
Qed.
Definition gave_up (r : dialled) : bool := match r with GaveUp => true | Linked => false end.
Lemma at_dial n h : triple (at_link true) (dial n h) (after gave_up).
Proof.
  unfold dial. apply after_step; [apply preserves_gets|intros k].
  revert n. induction k as [|k IH]; intros n; cbn [dial_loop]; [by intros c Hc|].
  apply after_step; [apply at_stop_requested|intros stop]. destruct stop; [by intros c Hc|].
  apply after_step; [apply preserves_gets|intros p]. destruct (port p =? 0)%Z; [by intros c Hc|].
  refine (triple_bind _ _ _ _ (after gave_up) (at_connect p) (λ up, _) (λ e c H, H)). destruct up.
  - apply (after_step false); [unfold rememberConnected; solve_pres|intros _].
    apply (after_step false); [solve_pres|]. by intros _ c Hc.
  - apply (after_step true); [solve_pres|intros _]. apply after_step; [solve_pres|].
    intros [m|]; [apply IH|by intros c Hc].
Qed.
Lemma at_start : triple (at_link true) Client.start (after negb).
Proof.
  unfold Client.start. apply after_step; [solve_pres|intros _].
  apply after_step; [unfold rebuildEndpoints; solve_pres|intros _].
  refine (triple_bind _ _ _ _ (after negb) (at_dial 0 false) (λ r, _) (λ e c H, H)).
  eapply triple_pre; [intros c; apply (at_link_false (gave_up r))|].
  apply (after_step false); [apply preserves_gets|intros up]. destruct (negb up).
  - refine (triple_bind _ _ _ _ (after negb) (at_disconnect false) (λ _, _) (λ e c H, at_link_false true c H)). by intros c Hc.
  - apply (after_step false); [apply preserves_gets|intros pending].
    apply (after_step false); [solve_pres|intros _]. apply (after_step false); [solve_pres|intros n].
    apply (after_step false); [solve_pres|intros _]. apply (after_step false); [solve_pres|intros _].
    apply (after_step false); [solve_pres|]. by intros _ c Hc.
Qed.
Lemma at_round n : preserves (at_link false) (link_round n).
Proof.
  unfold link_round. pose proof at_watch. pres_step; [solve_pres|intros lost]. pres_step; [solve_pres|intros stop].
  destruct (negb lost); [solve_pres|]. destruct stop; [solve_pres|]. pres_step; [solve_pres|intros _].
  refine (triple_bind _ _ _ _ (λ _, at_link false) (at_disconnect false) (λ _, _) (λ e c H, at_link_false true c H)).
  refine (triple_bind _ _ _ _ (λ _, at_link false) (at_fail true 0) (λ next, _) (λ e c H, at_link_false true c H)).
  destruct next as [attempt|]; [|intros c Hc; exact (at_link_false true c Hc)].
  refine (triple_bind _ _ _ _ (λ _, at_link false) (at_dial attempt true) (λ r, _) (λ e c H, H)).
  eapply triple_pre; [intros c; apply (at_link_false (gave_up r))|]. destruct r; [|by intros c Hc].
  change (preserves (at_link false) (pending ← gets resumePending; when pending resumeSession;; mret true)). solve_pres.
Qed.
End rounds.

(** ** The life of the process *)

(** nothing is open while no supervisor thread exists *)
Definition orderly (l : Life) : Prop :=
  at_link (negb (joinable l)) (cl l) ∧ (supervisorRunning l = true → joinable l = true) ∧
  healthChecks l = if healthWired l then 1 else 0.

Lemma on_cl_run {A} (m : SE Client A) l :
  on_cl m l = (run_out m (cl l), set_cl (run_state m (cl l)) l).
Proof. unfold on_cl, zoom, run_out, run_state. by destruct (m (cl l)). Qed.

Section life.
Context {env : ClientEnv}.

Lemma stop_orderly l : orderly l →
  ∃ c, client_stop l = (Ok tt, set_thread false false (set_cl c l)) ∧ at_link true c.
Proof.
  intros (Hl & _ & _). unfold client_stop, supervisor_ends, mbind, SE_bind, gets, modify.
  assert (∀ c d, at_link d c → ∃ c', Client.stop c = (Ok tt, c') ∧ at_link true c') as Hstop.
  { intros c d Hc. pose proof (at_disconnect d c Hc) as Hd. unfold run_out, run_state, Client.stop in *.
    assert (total disconnect) as Ht by (unfold disconnect, act; solve_total). destruct (Ht c) as [[] Ho].
    unfold run_out in Ho. destruct (disconnect c) as [o c']. cbn in *. subst o. by exists c'. }
  destruct (joinable l); cbn [when].
  - rewrite on_cl_run. unfold run_out, run_state. cbn.
    destruct (Hstop (set_hop false (reconnects (cl l)) (resumePending (cl l)) no_point (cl l)) _ Hl) as (c' & Hrun & Hc).
    rewrite on_cl_run. unfold run_out, run_state. cbn [cl set_cl]. rewrite Hrun. by exists c'.
  - cbn. destruct (Hstop (cl l) _ Hl) as (c' & Hrun & Hc).
    rewrite on_cl_run. unfold run_out, run_state. rewrite Hrun. by exists c'.
Qed.
Lemma start_busy l : supervisorRunning l || joinable l = true → client_start l = (Ok false, l).
Proof. intros H. unfold client_start, mbind, SE_bind, gets. by rewrite H. Qed.
Lemma start_orderly l : orderly l → orderly (run_state client_start l).
Proof.
  intros (Hl & Hr & Hh). destruct (supervisorRunning l || joinable l) eqn:E.
  { unfold run_state. by rewrite start_busy. }
  apply orb_false_iff in E as [E1 E2]. rewrite E2 in Hl. unfold run_state, client_start, mbind, SE_bind, gets, modify.
  rewrite E1, E2. cbn [orb]. cbv beta iota. rewrite on_cl_run. cbn [cl set_thread set_wired].
  pose proof (at_start (cl l) Hl) as Hs. unfold after in Hs. set (c := run_state _ _) in *. clearbody c.
  destruct (run_out Client.start (cl l)) as [[]|]; unfold orderly; cbn.
  - split_and!; [done|done|]. by rewrite Hh; destruct (healthWired l).
  - split_and!; [exact Hs|done|]. by rewrite Hh; destruct (healthWired l).
  - split_and!; [done|done|]. by rewrite Hh; destruct (healthWired l).
Qed.
Lemma kept_orderly {A} (m : SE Client A) l :
  (∀ d, preserves (at_link d) m) → orderly l → orderly (run_state (on_cl m) l).
Proof.
  intros Hm (Hl & Hr & Hh). unfold run_state. rewrite on_cl_run. split_and!; [by apply Hm|done|done].
Qed.
Lemma supervise_orderly n l : orderly l → orderly (run_state (supervise n) l).
Proof.
  intros Hl. unfold run_state, supervise, mbind, SE_bind, gets. destruct (supervisorRunning l) eqn:Er; [|done].
  destruct Hl as (Hl & Hr & Hh). rewrite (Hr Er) in Hl. cbn [negb]. rewrite on_cl_run.
  pose proof (at_round n (cl l) Hl) as Hn. set (c := run_state _ _) in *. clearbody c.
  destruct (run_out _ _) as [[]|]; cbn; split_and!; cbn; rewrite ?(Hr Er); done.
Qed.
Lemma life_orderly l l' : life_step l l' → orderly l → orderly l'.
Proof.
  destruct 1; intros Hl.
  - by apply start_orderly.
  - destruct (stop_orderly l Hl) as (c & Hrun & Hc). unfold run_state. rewrite Hrun.
    split_and!; [exact Hc|done|]. by destruct Hl as (_ & _ & ?).
  - by apply supervise_orderly.
  - apply kept_orderly; [|done]. intros d. apply at_reader.
  - apply kept_orderly; [|done]. intros d. apply at_ask.
Qed.
Lemma lives_orderly l l' : rtc life_step l l' → orderly l → orderly l'.
Proof. induction 1; eauto using life_orderly. Qed.
End life.

(** * Properties *)

(** C19. A client holds one socket at a time: in every state reachable by starts, stops,
    requests, incoming packets and rounds of the supervisor, in any order, a server was only
    dialled while no socket was open, every packet was sent on an open socket, every socket
    was closed at most once, and the one still open, if any, is the client's; without a
    supervisor thread none is open.  Starting a client that was not stopped does nothing, its
    health is watched by one check however often it is started, and stopping always returns
    and leaves no socket and no thread. *)
Theorem one_socket {env : ClientEnv} l :
  rtc life_step fresh_life l →
  sockets (trace (cl l)) = Some (socketUp (cl l)) ∧
  (connected (cl l) = true → socketUp (cl l) = true) ∧
  (joinable l = false → socketUp (cl l) = false) ∧
  (healthChecks l <= 1)%nat ∧
  (supervisorRunning l || joinable l = true → client_start l = (Ok false, l)) ∧
  ∃ l', client_stop l = (Ok tt, l') ∧ supervisorRunning l' = false ∧ joinable l' = false ∧
    sockets (trace (cl l')) = Some false.
Proof.
  intros Hl. assert (orderly l) as Ho by (by apply (lives_orderly fresh_life)).
  destruct (stop_orderly l Ho) as (c & Hrun & Ht & _ & Hc). destruct Ho as ((Hs & Hup & Hd) & Hr & Hh).
  split_and!; [done|done|by intros E; apply Hd; rewrite E| |apply start_busy|].
  - rewrite Hh. destruct (healthWired l); lia.
  - eexists. split; [exact Hrun|]. split_and!; [done|done|]. cbn. by rewrite Ht, Hc.
Qed.

(** ** A run: two servers, one message, a lost link *)
#[local] Instance welcoming_env : ClientEnv := {|
  config := sample_config;
  cl_steady := λ n, Z.of_nat (S n);
  cl_time := λ n, Z.of_nat n;
  cl_draw := λ _ lo _, lo;
  cl_dial := λ _ p, b_only p;
  cl_inbound := λ _,
    [ Packet.make 0 "server" (User.serialize (User.User "me" "me@x" User.USER)) ROOM_LIST "Lobby"
        (Room.serializeList [lobby]) 0;
      Packet.make 0 "server" "me" MESSAGE "" "sent" 200 ];
  cl_write := λ _, true;
  cl_stop := λ _, false;
  cl_in_time := λ _, true;
  cl_burst := λ _, 1
|}.
Definition started_life : Life := run_state client_start fresh_life.
Definition message_life : Life := run_state (on_cl (ask_client (Plain (SendMessage "hi")))) started_life.
Definition moved_life : Life := run_state (supervise 3) message_life.

Lemma one_socket_witness :
  length (trace (cl moved_life)) = 7 ∧ socketUp (cl moved_life) = true ∧
  sockets (trace (cl moved_life)) = Some true.
Proof.
  split; [vm_compute; reflexivity|]. split; [vm_compute; reflexivity|].
  assert (rtc life_step fresh_life moved_life) as Hl.
  { apply (rtc_l _ _ started_life); [exact (life_start fresh_life)|].
    apply (rtc_l _ _ message_life); [exact (life_ask (Plain (SendMessage "hi")) started_life)|].
    apply rtc_once. exact (life_supervise 3 message_life). }
  destruct (one_socket moved_life Hl) as [Hs _]. exact Hs.
Defined.
