(* ===== verification/Console.v ===== *)
(** The console client (src/client/console_ui.cpp and Client::showDashboard in
    src/client/client.cpp; the loop of src/client/main.cpp calls it).

    [Console] is the client, with its supervisor, together with the terminal: the lines still
    to be read, [None] for an end of file (the program clears it, so lines may follow), and the
    text printed so far.  Each screen is a definition of its own; it returns the request packet, from which
    [showDashboard] takes the arguments of the client operation.  Both reading loops take a
    line per round, so their fuel is the number of lines.

    The theorems: the menus and prompts return the first acceptable line, so they end; a turn
    of the dashboard never throws; and only an admin's turn deletes a room or kicks. *)
From S2P Require Import Prelude Packet Models Codec Serializer Config EndpointRing.
From S2P Require Import PacketBuilder Client Supervision.
From stdpp Require Import options.

(** * Definitions *)

Record Console := mkConsole { life : Life; stdin : list (option string); stdout : string }.
Definition client (s : Console) : Client := cl (life s).
Definition set_life (l : Life) (s : Console) : Console := mkConsole l (stdin s) (stdout s).
Definition set_client (c : Client) (s : Console) : Console := set_life (set_cl c (life s)) s.

Notation MC := (SE Console).

Section with_env.
Context {env : ClientEnv}.

(** a client operation *)
Definition on_client {A} (m : SE Client A) : MC A := zoom client set_client m.

Definition say (text : string) : MC unit :=
  modify (λ s, mkConsole (life s) (stdin s) (stdout s +:+ text)).
Definition say_line (text : string) : MC unit := say (text +:+ newline).
(** [std::getline]; a failure clears the end of file *)
Definition getline : MC (option string) :=
  input ← gets stdin;
  match input with
  | [] => mret None
  | l :: rest => modify (λ s, mkConsole (life s) rest (stdout s)) ;; mret l
  end.

Definition MIN_MENU_CHOICE : Z := 1.
Definition MAX_MENU_CHOICE : Z := 3.
Definition MIN_USER_CHOICE : Z := 1.
Definition MAX_USER_CHOICE : Z := 8.
Definition MAX_ADMIN_CHOICE : Z := 10.

Definition in_menu (min max answer : Z) : bool := (min <=? answer)%Z && (answer <=? max)%Z.
Definition tryReadMenuChoice (min max : Z) : MC (option Z) :=
  say "Enter your choice: " ;;
  line ← getline;
  match line with
  | None => mret (Some max)
  | Some line =>
      match stoi line with
      | Some answer =>
          if in_menu min max answer then say newline ;; mret (Some answer) else mret None
      | None => mret None
      end
  end.

(** the prompt loop; [None] on "exit" or at the end of the input *)
Fixpoint readLine_loop (fuel : nat) (prompt : string) : MC (option string) :=
  match fuel with
  | O => mret None
  | S fuel =>
      say prompt ;;
      line ← getline;
      match line with
      | None => mret None
      | Some line =>
          say newline ;;
          if String.eqb line "exit" then mret None
          else if is_empty line then say_line ">> Value cannot be empty." ;; readLine_loop fuel prompt
          else mret (Some line)
      end
  end.
Definition readLine (prompt : string) : MC (option string) :=
  n ← gets (λ s, S (length (stdin s))); readLine_loop n prompt.

(** the menu loop: the screen, then a choice, until one is valid *)
Fixpoint menu_loop (fuel : nat) (screen : MC unit) (min max : Z) : MC Z :=
  match fuel with
  | O => mret max
  | S fuel =>
      screen ;;
      answer ← tryReadMenuChoice min max;
      match answer with
      | Some answer => mret answer
      | None =>
          say (newline +:+ "Invalid choice. Please enter a valid choice." +:+ newline +:+ newline) ;;
          menu_loop fuel screen min max
      end
  end.
Definition menu (screen : MC unit) (min max : Z) : MC Z :=
  n ← gets (λ s, S (length (stdin s))); menu_loop n screen min max.

(** ** The screens *)

Definition home_screen : MC unit :=
  say_line "=== Distributed Chat Application ===" ;;
  say_line "Welcome to the distributed chat application." ;;
  say_line "Please enter an action:" ;;
  say_line "1. Login" ;;
  say_line "2. Register" ;;
  say_line "3. Exit" ;;
  say_line "--------------------------------".
Definition showHomeScreen : MC Z := menu home_screen MIN_MENU_CHOICE MAX_MENU_CHOICE.

Definition dashboard_screen (u : User.t) (here : option Room.t) (admin : bool) : MC unit :=
  say_line "=== User Dashboard ===" ;;
  say_line ("Welcome " +:+ User.username u +:+ ".") ;;
  match here with
  | Some r => say_line ("Current room: " +:+ Room.name r +:+ ".")
  | None => mret tt
  end ;;
  say_line "1. Update Profile" ;;
  say_line "2. Join Room" ;;
  say_line "3. Leave Room" ;;
  say_line "4. Send Message" ;;
  say_line "5. Create Room" ;;
  say_line "6. Load Message History" ;;
  say_line "7. Invite to Room" ;;
  (if admin then
     say_line "8. Kick from Room" ;;
     say_line "9. Delete Room" ;;
     say_line "10. Logout"
   else say_line "8. Logout") ;;
  say_line "--------------------------------".
Definition is_admin_user (u : User.t) : bool :=
  match User.user_type u with User.ADMIN => true | _ => false end.
Definition showUserDashboard : MC Z :=
  me ← gets (λ s, user (client s));
  here ← gets (λ s, currentRoom (client s));
  match me with
  | None => mret (-1)%Z
  | Some u =>
      let admin := is_admin_user u in
      menu (dashboard_screen u here admin) MIN_USER_CHOICE
        (if admin then MAX_ADMIN_CHOICE else MAX_USER_CHOICE)
  end.

(** a builder's packet, or its complaint printed *)
Definition built (build : Z → outcome Packet.t) : MC (option Packet.t) :=
  now ← on_client time_now;
  match build now with
  | Ok p => mret (Some p)
  | Throw e => say_line (">> " +:+ exn_what e) ;; mret None
  end.
(** ask, and go on with the answer *)
Definition ask (prompt : string) (k : string → MC (option Packet.t)) : MC (option Packet.t) :=
  answer ← readLine prompt;
  match answer with None => mret None | Some line => k line end.

Definition showLogin : MC (option Packet.t) :=
  say_line ">> Please login:" ;;
  ask ">> Username (type 'exit' to go back): " (λ username,
  ask ">> Password (type 'exit' to go back): " (λ password,
  built (λ now, buildLogin now username password))).

Definition showRegister : MC (option Packet.t) :=
  say_line ">> Please register:" ;;
  ask ">> New username (type 'exit' to go back): " (λ username,
  ask ">> New password (type 'exit' to go back): " (λ password,
  ask ">> New email (type 'exit' to go back): " (λ email,
  built (λ now, buildRegister now username password email)))).

Definition room_line (r : Room.t) : string :=
  "   - " +:+ Room.name r +:+ " (" +:+ Room.roomTypeToString (Room.type r) +:+ ", " +:+
  Room.privacyToString (Room.privacy r) +:+ ")".
Definition showJoinRoom : MC (option Packet.t) :=
  me ← gets (λ s, user (client s));
  match me with
  | None => mret None
  | Some u =>
      known ← gets (λ s, rooms (client s));
      say_line ">> Available rooms:" ;;
      match known with
      | [] => say_line "   (none cached — type a room name anyway)"
      | _ => for_each known (λ r, say_line (room_line r))
      end ;;
      ask ">> Which room do you want to join? (type 'exit' to go back): " (λ roomName,
      built (λ now, buildJoinRoom now (User.username u) roomName))
  end.

Definition showCreateRoom (u : User.t) : MC (option Packet.t) :=
  say_line ">> Create room:" ;;
  say_line "1. Public Room" ;;
  say_line "2. Private Room" ;;
  say_line "3. Back" ;;
  say_line "--------------------------------" ;;
  answer ← tryReadMenuChoice 1 3;
  match answer with
  | None => mret None
  | Some answer =>
      if (answer =? 3)%Z then mret None
      else
        let roomPrivacy := Room.privacyToString (if (answer =? 1)%Z then Room.PUBLIC else Room.PRIVATE) in
        ask ">> New room name (type 'exit' to go back): " (λ roomName,
        built (λ now, buildCreateRoom now (User.username u) roomName roomPrivacy))
  end.

(** the current room when it will do, a room that is asked for otherwise *)
Definition with_room (usable : Room.t → bool) (note prompt : string) (k : string → MC (option Packet.t))
    : MC (option Packet.t) :=
  here ← gets (λ s, currentRoom (client s));
  match here with
  | Some r => if usable r then say_line (note +:+ Room.name r) ;; k (Room.name r) else ask prompt k
  | None => ask prompt k
  end.
Definition named (r : Room.t) : bool := negb (is_empty (Room.name r)).
Definition deletable (r : Room.t) : bool :=
  negb (String.eqb (Room.name r) "Lobby") && negb (String.eqb (Room.name r) "General").

Definition showInviteToRoom : MC (option Packet.t) :=
  me ← gets (λ s, user (client s));
  match me with
  | None => mret None
  | Some u =>
      with_room named ">> Inviting into current room: " ">> Room to invite into (type 'exit' to go back): " (λ room,
      ask ">> Username to invite (type 'exit' to go back): " (λ invitee,
      built (λ now, buildInviteToRoom now (User.username u) room invitee)))
  end.
Definition showKickFromRoom : MC (option Packet.t) :=
  me ← gets (λ s, user (client s));
  match me with
  | None => mret None
  | Some u =>
      with_room named ">> Kicking from current room: " ">> Room to kick from (type 'exit' to go back): " (λ room,
      ask ">> Username to kick (type 'exit' to go back): " (λ target,
      built (λ now, buildKickFromRoom now (User.username u) room target)))
  end.
Definition showDeleteRoom : MC (option Packet.t) :=
  me ← gets (λ s, user (client s));
  match me with
  | None => mret None
  | Some u =>
      with_room deletable ">> Deleting current room: " ">> Room to delete (type 'exit' to go back): " (λ room,
      built (λ now, buildDeleteRoom now (User.username u) room))
  end.
Definition showCreateMessage (u : User.t) : MC (option Packet.t) :=
  ask ">> What do you want to say? (type 'exit' to go back): " (λ message,
  built (λ now, buildMessage now (User.username u) message)).

Definition showUpdateProfile (u : User.t) : MC (option Packet.t) :=
  say_line (">> Update profile for " +:+ User.username u +:+ " (" +:+ User.email u +:+ ")") ;;
  say_line "1. Update username" ;;
  say_line "2. Update password" ;;
  say_line "3. Back" ;;
  say_line "--------------------------------" ;;
  answer ← tryReadMenuChoice 1 3;
  match answer with
  | None => mret None
  | Some answer =>
      if (answer =? 1)%Z then
        ask ">> New username (type 'exit' to go back): " (λ newUsername,
        built (λ now, buildUpdateUser now newUsername "" (User.email u)))
      else if (answer =? 2)%Z then
        ask ">> New password (type 'exit' to go back): " (λ newPassword,
        built (λ now, buildUpdateUser now (User.username u) newPassword (User.email u)))
      else mret None
  end.

(** ** Client::showDashboard *)

(** what a screen returned, handed to the client; the error texts are not shown here *)
Definition then_do (screen : MC (option Packet.t)) (op : Packet.t → SE Client string) : MC unit :=
  packet ← screen;
  match packet with None => mret tt | Some p => on_client (op p) ;; mret tt end.

Definition history_line (l : ChatLine) : string := "   [" +:+ author l +:+ "] " +:+ text l.
Definition show_history : MC unit :=
  result ← on_client loadMessageHistory;
  let '(error, lines) := (result : string * list ChatLine) in
  if negb (is_empty error) then mret tt
  else
    here ← gets (λ s, currentRoom (client s));
    say_line (">> History for " +:+ match here with Some r => Room.name r | None => "?" end +:+ ":") ;;
    match lines with
    | [] => say_line "   (no messages)"
    | _ => for_each lines (λ l, say_line (history_line l))
    end.

(** [Client::stop], which ends the supervisor too *)
Definition exit_client : MC unit := zoom life set_life client_stop.
Definition signed_out_turn : MC unit :=
  answer ← showHomeScreen;
  if (answer =? 1)%Z then then_do showLogin (λ p, login (Packet.sender p) (Packet.message p))
  else if (answer =? 2)%Z then
    then_do showRegister (λ p, signUp (Packet.sender p) (Packet.message p) (Packet.room p))
  else when (answer =? 3)%Z exit_client.

(** the session's user; a signed-in client has one *)
Definition with_user (k : User.t → MC unit) : MC unit :=
  me ← gets (λ s, user (client s)); match me with Some u => k u | None => mret tt end.
Definition admin_only (yes no : MC unit) : MC unit :=
  admin ← gets (λ s, isAdmin (client s)); if (admin : bool) then yes else no.
Definition log_out : MC unit := on_client logout ;; mret tt.

Definition signed_in_turn : MC unit :=
  answer ← showUserDashboard;
  if (answer =? 1)%Z then
    with_user (λ u, then_do (showUpdateProfile u)
      (λ p, updateProfile (Packet.sender p) (Packet.message p) (Packet.room p)))
  else if (answer =? 2)%Z then then_do showJoinRoom (λ p, joinRoom (Packet.room p))
  else if (answer =? 3)%Z then on_client leaveRoom ;; mret tt
  else if (answer =? 4)%Z then
    with_user (λ u, then_do (showCreateMessage u) (λ p, sendMessage (Packet.message p)))
  else if (answer =? 5)%Z then
    with_user (λ u, then_do (showCreateRoom u) (λ p, createRoom (Packet.room p) (Packet.message p)))
  else if (answer =? 6)%Z then show_history
  else if (answer =? 7)%Z then
    then_do showInviteToRoom (λ p, inviteToRoom (Packet.room p) (Packet.message p))
  else if (answer =? 8)%Z then
    admin_only (then_do showKickFromRoom (λ p, kickFromRoom (Packet.room p) (Packet.message p))) log_out
  else if (answer =? 9)%Z then
    admin_only (then_do showDeleteRoom (λ p, deleteRoom (Packet.room p))) (mret tt)
  else if (answer =? 10)%Z then admin_only log_out (mret tt)
  else mret tt.

Definition showDashboard : MC unit :=
  loggedIn ← gets (λ s, isLoggedIn (client s));
  if negb loggedIn then signed_out_turn else signed_in_turn.

End with_env.

(** * Specification *)

(** the first line of the input that is a choice of the menu; the end of the input picks the
    last entry *)
Fixpoint first_choice (min max : Z) (input : list (option string)) : Z * list (option string) :=
  match input with
  | [] => (max, [])
  | None :: rest => (max, rest)
  | Some l :: rest =>
      match stoi l with
      | Some a => if in_menu min max a then (a, rest) else first_choice min max rest
      | None => first_choice min max rest
      end
  end.
(** the first line that is not empty, unless it says to go back *)
Fixpoint first_line (input : list (option string)) : option string * list (option string) :=
  match input with
  | [] => (None, [])
  | None :: rest => (None, rest)
  | Some l :: rest =>
      if String.eqb l "exit" then (None, rest)
      else if is_empty l then first_line rest
      else (Some l, rest)
  end.

(** what only an admin may ask for from the console *)
Definition admin_request (t : PacketType) : bool :=
  match t with ROOM_KICK | ROOM_DELETE => true | _ => false end.
(** an action that sends no packet of the types [bad] *)
Definition modest (bad : PacketType → bool) (a : LinkAction) : Prop :=
  match a with Send p => bad (Packet.type p) = false | _ => True end.
(** [bad] names requests of an admin only *)
Class Reserved (bad : PacketType → bool) : Prop := { reserved t : admin_request t = false → bad t = false }.
#[export] Instance admin_reserved : Reserved admin_request.
Proof. by split. Qed.
(** the two types by themselves *)
Definition is_kick (t : PacketType) : bool := match t with ROOM_KICK => true | _ => false end.
Definition is_delete (t : PacketType) : bool := match t with ROOM_DELETE => true | _ => false end.
#[export] Instance kick_reserved : Reserved is_kick.
Proof. split. by intros []. Qed.
#[export] Instance delete_reserved : Reserved is_delete.
Proof. split. by intros []. Qed.

(** * Lemmas *)

Section reading.
Context {env : ClientEnv}.

(** operations that only print *)
Definition prints (m : MC unit) : Prop :=
  ∀ s, ∃ out, m s = (Ok tt, mkConsole (life s) (stdin s) out).
Lemma prints_ret : prints (mret tt).
Proof. intros s. exists (stdout s). by destruct s. Qed.
Lemma prints_say t : prints (say t).
Proof. intros s. by eexists. Qed.
Lemma prints_line t : prints (say_line t).
Proof. apply prints_say. Qed.
Lemma prints_bind m1 (m2 : () → MC unit) : prints m1 → (∀ u, prints (m2 u)) → prints (m1 ≫= m2).
Proof.
  intros H1 H2 s. destruct (H1 s) as [out1 E1]. destruct (H2 tt (mkConsole (life s) (stdin s) out1)) as [out2 E2].
  exists out2. unfold mbind, SE_bind. by rewrite E1.
Qed.
Lemma prints_dashboard u here admin : prints (dashboard_screen u here admin).
Proof.
  unfold dashboard_screen. destruct here, admin; repeat (apply prints_bind; [first [apply prints_line|apply prints_ret
    |repeat (apply prints_bind; [apply prints_line|intros _])]; apply prints_line|intros _]); apply prints_line.
Qed.
Lemma prints_home : prints home_screen.
Proof. unfold home_screen. repeat (apply prints_bind; [apply prints_line|intros _]). apply prints_line. Qed.

Lemma say_run t s : say t s = (Ok tt, mkConsole (life s) (stdin s) (stdout s +:+ t)).
Proof. done. Qed.

Lemma readLine_run n prompt s :
  length (stdin s) < n →
  ∃ out, readLine_loop n prompt s =
    (Ok (first_line (stdin s)).1, mkConsole (life s) (first_line (stdin s)).2 out).
Proof.
  revert s. induction n as [|n IH]; intros [c input t] Hn; [lia|]. cbn [stdin life length] in *. cbn [readLine_loop].
  unfold mbind, SE_bind, getline, say_line. rewrite say_run. unfold gets, modify, mbind, SE_bind, mret, SE_ret. cbn [stdin life stdout].
  destruct input as [|[l|] rest]; cbn [first_line fst snd]; [by eexists| |by eexists]. rewrite say_run. cbn [stdin life stdout].
  destruct (String.eqb l "exit"); [by eexists|]. destruct (is_empty l); [|by eexists]. rewrite say_run. cbn [stdin life stdout].
  apply (IH (mkConsole c rest _)). cbn in *. lia.
Qed.
Lemma menu_run n screen min max s :
  prints screen → length (stdin s) < n →
  ∃ out, menu_loop n screen min max s =
    (Ok (first_choice min max (stdin s)).1, mkConsole (life s) (first_choice min max (stdin s)).2 out).
Proof.
  intros Hp. revert s. induction n as [|n IH]; intros s Hn; [lia|]. cbn [menu_loop].
  unfold mbind at 1, SE_bind at 1. destruct (Hp s) as [out ->]. destruct s as [c input t]. cbn [stdin life] in *.
  unfold mbind, SE_bind, tryReadMenuChoice, mbind, SE_bind, getline. rewrite say_run.
  unfold gets, modify, mbind, SE_bind, mret, SE_ret. cbn [stdin life stdout].
  destruct input as [|[l|] rest]; cbn [first_choice fst snd]; [by eexists| |by eexists].
  cbn in Hn. destruct (stoi l) as [a|].
  - destruct (in_menu min max a); [rewrite say_run; by eexists|]. rewrite say_run. cbn [stdin life stdout].
    apply (IH (mkConsole c rest _)). cbn. lia.
  - rewrite say_run. apply (IH (mkConsole c rest _)). cbn. lia.
Qed.
Lemma first_choice_range min max input :
  (min <= max)%Z → (min <= (first_choice min max input).1 <= max)%Z.
Proof.
  intros Hm. induction input as [|[l|] rest IH]; cbn [first_choice]; [cbn; lia| |cbn; lia].
  destruct (stoi l) as [a|]; [|done]. destruct (in_menu min max a) eqn:E; [|done]. unfold in_menu in E. cbn. lia.
Qed.
Lemma first_line_plain input l : (first_line input).1 = Some l → l ≠ "" ∧ l ≠ "exit".
Proof.
  induction input as [|[x|] rest IH]; cbn [first_line]; [done| |done].
  destruct (String.eqb_spec x "exit"); [done|]. destruct (is_empty x) eqn:E; [done|]. intros [= <-].
  split; [by intros ->|done].
Qed.
End reading.

(** ** What a turn sends *)

Section sending.
Context {env : ClientEnv} (bad : PacketType → bool) {only : Reserved bad} (tr : list LinkAction).

(** everything sent since [tr] is modest *)
Definition modestly (c : Client) : Prop := ∃ new, trace c = tr ++ new ∧ Forall (modest bad) new.
Lemma modestly_act a : modest bad a → preserves modestly (act a).
Proof.
  intros Ha c (new & Ht & Hn). exists (new ++ [a]). unfold run_state. cbn. rewrite Ht, app_assoc. split; [done|].
  apply Forall_app. split; [done|by constructor].
Qed.
Lemma modestly_read : preserves modestly next_read.
Proof. by intros c Hc. Qed.
Hint Resolve modestly_read : pres.
Hint Extern 2 (preserves modestly (act _)) => apply modestly_act; first [exact I|assumption] : pres.
Hint Extern 5 (preserves modestly (modify _)) =>
  apply preserves_modify; intros ? ?; repeat case_match; assumption : pres.

Lemma modestly_send p : modest bad (Send p) → preserves modestly (sendPacket p).
Proof. intros Hp. unfold sendPacket, markLinkDown. solve_pres. Qed.
Lemma modestly_note : preserves modestly noteInbound.
Proof. unfold noteInbound, steady_now. solve_pres. Qed.
Lemma modestly_time : preserves modestly time_now.
Proof. unfold time_now. solve_pres. Qed.
Lemma modestly_directory t : preserves modestly (applyRoomDirectory t).
Proof. unfold applyRoomDirectory. solve_pres. Qed.
Hint Resolve modestly_note modestly_time modestly_directory : pres.
Lemma modestly_push p : preserves modestly (on_push p).
Proof.
  unfold on_push, applyRoomListPush, applyServerDirectoryPush, rebuildEndpoints, enqueueChatPush. solve_pres.
Qed.
Hint Resolve modestly_push : pres.
Lemma modestly_reader : preserves modestly reader_step.
Proof using only.
  unfold reader_step, on_packet, markLinkDown. solve_pres. apply modestly_send. by apply reserved.
Qed.
Hint Resolve modestly_reader : pres.
Lemma modestly_wait t : preserves modestly (waitFor t).
Proof using only.
  assert (∀ n, preserves modestly (wait_incoming n)) as Hw by (induction n; cbn [wait_incoming]; solve_pres).
  assert (∀ n, preserves modestly (wait_loop n t)) as Hl.
  { induction n; cbn [wait_loop]; [apply preserves_ret|]. unfold receivePacket, pop. solve_pres. }
  unfold waitFor. solve_pres.
Qed.
Hint Resolve modestly_wait : pres.
Lemma modestly_alive : preserves modestly isAlive.
Proof. unfold isAlive, isConnected, heartbeatMissed, steady_now. solve_pres. Qed.
Hint Resolve modestly_alive : pres.

(** a builder that makes packets of one type *)
Definition makes (t : PacketType) (build : Z → outcome Packet.t) : Prop :=
  ∀ now p, build now = Ok p → Packet.type p = t.
Lemma makes_required t what fields sender room msg :
  makes t (λ now, required what fields (packet now t sender room msg)).
Proof. intros now p. unfold required. destruct (existsb _ _); [done|]. by intros [= <-]. Qed.
Lemma modestly_exchange t build expected sf lost k :
  makes t build → bad t = false → (∀ r, preserves modestly (k r)) →
  preserves modestly (exchange build expected sf lost k).
Proof using only.
  intros Hb Ht Hk. unfold exchange. pres_step; [solve_pres|intros now]. destruct (build now) as [p|e] eqn:E; [|solve_pres].
  pres_step; [apply modestly_send; cbn; by rewrite (Hb now p E)|intros ok]. solve_pres.
Qed.

Ltac modest_request :=
  unfold with_alive, logged_in, room_or_current; repeat first
    [ match goal with |- preserves modestly (exchange _ _ _ _ _) => eapply modestly_exchange end;
        [apply makes_required|first [by apply reserved|assumption]|intros ?; unfold signed_in, accepted, enter_room, clearPendingChatMessages]
    | progress pres_step ].
Lemma modestly_login u p : preserves modestly (login u p).
Proof using only. unfold login. modest_request. Qed.
Lemma modestly_signUp u p e : preserves modestly (signUp u p e).
Proof using only. unfold signUp. modest_request. Qed.
Lemma modestly_logout : preserves modestly logout.
Proof using only. unfold logout. modest_request. Qed.
Lemma modestly_update u p e : preserves modestly (updateProfile u p e).
Proof using only. unfold updateProfile. modest_request. Qed.
Lemma modestly_join n : preserves modestly (joinRoom n).
Proof using only. unfold joinRoom. modest_request. Qed.
Lemma modestly_leave : preserves modestly leaveRoom.
Proof using only. unfold leaveRoom. modest_request. Qed.
Lemma modestly_message b : preserves modestly (sendMessage b).
Proof using only. unfold sendMessage. modest_request. Qed.
Lemma modestly_create n p : preserves modestly (createRoom n p).
Proof using only. unfold createRoom. modest_request. Qed.
Lemma modestly_invite n u : preserves modestly (inviteToRoom n u).
Proof using only. unfold inviteToRoom. modest_request. Qed.
(** the two requests of an admin send nothing but themselves *)
Lemma modestly_kick n u : bad ROOM_KICK = false → preserves modestly (kickFromRoom n u).
Proof using only. intros Hb. unfold kickFromRoom. modest_request. Qed.
Lemma modestly_delete n : bad ROOM_DELETE = false → preserves modestly (Client.deleteRoom n).
Proof using only. intros Hb. unfold deleteRoom. modest_request. Qed.
Lemma modestly_history : preserves modestly loadMessageHistory.
Proof using only.
  unfold loadMessageHistory. pres_step; [solve_pres|intros up]. destruct (negb up); [solve_pres|].
  pres_step; [solve_pres|intros me]. pres_step; [solve_pres|intros here].
  destruct me as [u|], here as [r|]; try solve [solve_pres]. pres_step; [solve_pres|intros now].
  destruct (buildLoadMessageHistory now _ _) as [p|e] eqn:E; [|solve_pres].
  pres_step; [apply modestly_send; cbn; rewrite (makes_required _ _ _ _ _ _ now p E); by apply reserved|solve_pres].
Qed.
Lemma modestly_stop : preserves modestly stop.
Proof using env tr. unfold stop, disconnect. solve_pres. Qed.
End sending.

(** ** Turns *)

Section turns.
Context {env : ClientEnv} (tr : list LinkAction).

(** before the action of a turn, and after it *)
Definition asking (s : Console) : Prop := modestly admin_request tr (client s) ∧ isAdmin (client s) = false.
Definition acted (s : Console) : Prop := modestly admin_request tr (client s).

Hint Extern 5 (preserves asking (modify _)) => apply preserves_modify; intros ? ?; assumption : pres.
Hint Extern 5 (preserves acted (modify _)) => apply preserves_modify; intros ? ?; assumption : pres.
Lemma asking_say t : preserves asking (say t).
Proof. unfold say. solve_pres. Qed.
Lemma acted_say t : preserves acted (say t).
Proof. unfold say. solve_pres. Qed.
Lemma asking_getline : preserves asking getline.
Proof. unfold getline. solve_pres. Qed.
Hint Resolve asking_say acted_say asking_getline : pres.
Lemma asking_choice min max : preserves asking (tryReadMenuChoice min max).
Proof. unfold tryReadMenuChoice. solve_pres. Qed.
Lemma asking_readLine prompt : preserves asking (readLine prompt).
Proof.
  assert (∀ n, preserves asking (readLine_loop n prompt)) as H by (induction n; cbn [readLine_loop]; unfold say_line; solve_pres).
  unfold readLine. solve_pres.
Qed.
Hint Resolve asking_choice asking_readLine : pres.
Lemma asking_menu screen min max : preserves asking screen → preserves asking (menu screen min max).
Proof.
  intros Hs. assert (∀ n, preserves asking (menu_loop n screen min max)) as H by (induction n; cbn [menu_loop]; solve_pres).
  unfold menu. solve_pres.
Qed.
Lemma asking_built build : preserves asking (built build).
Proof.
  unfold built, say_line. pres_step; [|solve_pres]. intros s [Hm Ha]. by split.
Qed.
Hint Resolve asking_built : pres.
Lemma asking_ask prompt k : (∀ l, preserves asking (k l)) → preserves asking (ask prompt k).
Proof. intros Hk. unfold ask. solve_pres. Qed.
Hint Resolve asking_ask : pres.

Lemma acted_client {A} (m : SE Client A) : preserves (modestly admin_request tr) m → preserves acted (on_client m).
Proof.
  intros Hm s Hs. specialize (Hm (client s) Hs). unfold run_state, on_client, zoom in *. by destruct (m (client s)).
Qed.
Lemma acted_exit : preserves acted exit_client.
Proof using env tr.
  apply (preserves_zoom _ (λ l, modestly admin_request tr (cl l))); [|done|done].
  assert (∀ A (m : SE Client A), preserves (modestly admin_request tr) m → preserves (λ l, modestly admin_request tr (cl l)) (on_cl m)) as Hz.
  { intros A m Hm. by apply (preserves_zoom _ (modestly admin_request tr)). }
  unfold client_stop, supervisor_ends. pres_step; [solve_pres|intros thread].
  pres_step; [apply preserves_when, Hz; by apply preserves_modify|intros _].
  pres_step; [apply Hz, modestly_stop|intros _]. by apply preserves_modify.
Qed.
Lemma turn_do screen op :
  preserves asking screen → (∀ p, preserves (modestly admin_request tr) (op p)) → triple asking (then_do screen op) (λ _, acted).
Proof.
  intros Hs Ho. unfold then_do. apply triple_step; [by intros s [? _]|done|].
  intros [p|]; [|by intros s [? _]]. eapply triple_pre; [|apply (preserves_bind acted); [by apply acted_client|intros e; apply preserves_ret]].
  by intros s [? _].
Qed.
Lemma turn_act {A} (m : SE Client A) : preserves (modestly admin_request tr) m → triple asking (on_client m ;; mret tt) (λ _, acted).
Proof.
  intros Hm. eapply triple_pre; [|apply (preserves_bind acted); [by apply acted_client|intros e; apply preserves_ret]].
  by intros s [? _].
Qed.
Lemma turn_user k : (∀ u, triple asking (k u) (λ _, acted)) → triple asking (with_user k) (λ _, acted).
Proof.
  intros Hk. unfold with_user. apply triple_step; [by intros s [? _]|apply preserves_gets|].
  intros [u|]; [done|by intros s [? _]].
Qed.
Lemma turn_admin yes no : triple asking no (λ _, acted) → triple asking (admin_only yes no) (λ _, acted).
Proof.
  intros Hn s Hs. unfold run_out, run_state, admin_only, mbind, SE_bind, gets. rewrite (proj2 Hs). by apply Hn.
Qed.
Ltac screen := unfold say_line; repeat first [progress pres_step | apply asking_ask; intros ?].

Lemma turn_signed_in : triple asking signed_in_turn (λ _, acted).
Proof.
  assert (triple asking (mret tt) (λ _ : outcome (), acted)) as Hskip by (by intros s [? _]).
  unfold signed_in_turn. apply triple_step; [by intros s [? _]| |intros answer].
  { unfold showUserDashboard. pres_step; [solve_pres|intros me]. pres_step; [solve_pres|intros here].
    destruct me as [u|]; [|solve_pres]. apply asking_menu. unfold dashboard_screen, say_line. solve_pres. }
  destruct (answer =? 1)%Z; [apply turn_user; intros u; apply turn_do; [unfold showUpdateProfile; screen|intros; apply (modestly_update admin_request)]|].
  destruct (answer =? 2)%Z; [apply turn_do; [unfold showJoinRoom; screen|intros; apply (modestly_join admin_request)]|].
  destruct (answer =? 3)%Z; [apply turn_act, (modestly_leave admin_request)|].
  destruct (answer =? 4)%Z; [apply turn_user; intros u; apply turn_do; [unfold showCreateMessage; screen|intros; apply (modestly_message admin_request)]|].
  destruct (answer =? 5)%Z; [apply turn_user; intros u; apply turn_do; [unfold showCreateRoom; screen|intros; apply (modestly_create admin_request)]|].
  destruct (answer =? 6)%Z; [|].
  { unfold show_history. eapply triple_pre; [intros s [H _]; exact H|]. apply (preserves_bind acted).
    - apply acted_client, (modestly_history admin_request).
    - intros [e lines]. unfold say_line. solve_pres. }
  destruct (answer =? 7)%Z; [apply turn_do; [unfold showInviteToRoom, with_room; screen|intros; apply (modestly_invite admin_request)]|].
  destruct (answer =? 8)%Z; [apply turn_admin, turn_act, (modestly_logout admin_request)|].
  destruct (answer =? 9)%Z; [by apply turn_admin|].
  destruct (answer =? 10)%Z; [by apply turn_admin|done].
Qed.
Lemma turn_signed_out : triple asking signed_out_turn (λ _, acted).
Proof.
  unfold signed_out_turn. apply triple_step; [by intros s [? _]| |intros answer].
  { unfold showHomeScreen. apply asking_menu. unfold home_screen, say_line. solve_pres. }
  destruct (answer =? 1)%Z; [apply turn_do; [unfold showLogin; screen|intros; apply (modestly_login admin_request)]|].
  destruct (answer =? 2)%Z; [apply turn_do; [unfold showRegister; screen|intros; apply (modestly_signUp admin_request)]|].
  eapply triple_pre; [intros s [H _]; exact H|]. destruct (answer =? 3)%Z; [apply acted_exit|apply preserves_ret].
Qed.
End turns.

(** ** Turns return *)

Section returning.
Context {env : ClientEnv}.

Lemma total_on_client {A} (m : SE Client A) : total m → total (on_client m).
Proof. apply total_zoom. Qed.
Lemma total_exit : total exit_client.
Proof.
  assert (∀ A (m : SE Client A), total m → total (on_cl m)) by (intros A m; apply total_zoom).
  apply total_zoom. unfold client_stop, supervisor_ends, stop, disconnect. solve_total; apply total_zoom; solve_total.
Qed.
Lemma client_reads : total Client.next_read.
Proof. intros c. by eexists. Qed.
Hint Resolve total_on_client total_exit client_reads : total.
Lemma total_act a : total (act a).
Proof. unfold act. solve_total. Qed.
Hint Resolve total_act push_total noteInbound_total : total.
Lemma total_client_time : total Client.time_now.
Proof. unfold Client.time_now. solve_total. Qed.
Lemma total_client_send p : total (Client.sendPacket p).
Proof. unfold Client.sendPacket, markLinkDown. solve_total. Qed.
Hint Resolve total_client_time total_client_send : total.
Lemma total_reader : total reader_step.
Proof. unfold reader_step, on_packet, markLinkDown. solve_total. Qed.
Lemma total_waitFor t : total (waitFor t).
Proof.
  pose proof total_reader. assert (∀ n, total (wait_incoming n)) as Hw by (induction n; cbn [wait_incoming]; solve_total).
  assert (∀ n, total (wait_loop n t)) as Hl by (induction n; cbn [wait_loop]; unfold receivePacket, pop; solve_total).
  unfold waitFor. solve_total.
Qed.
Lemma total_alive : total Client.isAlive.
Proof. unfold Client.isAlive, isConnected, heartbeatMissed, Client.steady_now. solve_total. Qed.
Lemma total_room_directory t : total (applyRoomDirectory t).
Proof. unfold applyRoomDirectory. solve_total. Qed.
Hint Resolve total_reader total_waitFor total_alive total_room_directory : total.
Lemma total_readLine prompt : total (readLine prompt).
Proof. intros s. unfold run_out. destruct (readLine_run (S (length (stdin s))) prompt s) as [out H]; [lia|]. unfold readLine, mbind, SE_bind, gets. rewrite H. by eexists. Qed.
Lemma total_menu screen min max : prints screen → total (menu screen min max).
Proof. intros Hp s. unfold run_out. destruct (menu_run (S (length (stdin s))) screen min max s Hp) as [out H]; [lia|]. unfold menu, mbind, SE_bind, gets. rewrite H. by eexists. Qed.
Hint Resolve total_readLine total_menu prints_home prints_dashboard : total.

Lemma total_read_stop : total Client.stop_requested.
Proof. unfold Client.stop_requested. solve_total. Qed.
Hint Resolve total_read_stop : total.
Lemma total_resume : total resumeSession.
Proof.
  assert (total receivePacketFor) as Hf.
  { assert (∀ n, total (wait_incoming n)) by (induction n; cbn [wait_incoming]; solve_total).
    unfold receivePacketFor, receivePacket, pop. solve_total. }
  assert (∀ n t, total (wait_for_loop n t)) as Hw by (intros n t; induction n; cbn [wait_for_loop]; solve_total).
  assert (∀ n b p, total (resume_loop n b p)) as Hl.
  { induction n as [|n IH]; intros b p; cbn [resume_loop]; unfold waitFor_timeout, isConnected; solve_total. }
  unfold resumeSession. solve_total.
Qed.
Hint Resolve total_resume : total.
Lemma total_supervise n : total (supervise n).
Proof.
  assert (∀ n, total (reader_steps n)) by (intros k; induction k; cbn [reader_steps]; solve_total).
  assert (∀ n, total (watch n)) by (intros k; induction k; cbn [watch]; solve_total).
  assert (∀ k a h, total (dial_loop k a h)).
  { induction k as [|k IH]; intros a h; cbn [dial_loop]; unfold Client.connect, rememberConnected, markReconnecting,
      forgetConnected, failAndWait; cbv zeta; solve_total. }
  unfold supervise, supervisor_ends, link_round, markReconnecting, forgetConnected, disconnect, failAndWait,
    dial. cbv zeta. solve_total; apply total_zoom; solve_total.
Qed.
Lemma total_showDashboard : total showDashboard.
Proof.
  unfold showDashboard, signed_out_turn, signed_in_turn, showHomeScreen, showUserDashboard, with_user, admin_only, log_out,
    then_do, show_history, showLogin, showRegister, showUpdateProfile, showJoinRoom, showCreateMessage, showCreateRoom,
    showInviteToRoom, showKickFromRoom, showDeleteRoom, with_room, ask, built, tryReadMenuChoice, getline, say_line, say.
  solve_total; apply total_on_client;
    unfold login, signUp, stop, disconnect, updateProfile, joinRoom, leaveRoom, sendMessage, createRoom, loadMessageHistory,
      inviteToRoom, kickFromRoom, deleteRoom, logout, with_alive, logged_in, room_or_current, exchange, signed_in, accepted,
      enter_room, clearPendingChatMessages; solve_total.
Qed.
End returning.

(** * Theorems *)

(** Menus and prompts end with an acceptable answer: for every input, the home menu, the
    dashboard menu and a prompt return after the first line they accept.  A menu's answer is
    one of its entries, the last one when the input ends; a prompt's answer is neither empty
    nor "exit".  The client is not touched. *)
Theorem prompts_read {env : ClientEnv} prompt s :
  (∃ out, showHomeScreen s = (Ok (first_choice 1 3 (stdin s)).1,
     mkConsole (life s) (first_choice 1 3 (stdin s)).2 out)) ∧
  (1 <= (first_choice 1 3 (stdin s)).1 <= 3)%Z ∧
  (∀ u, user (client s) = Some u →
     let top := if is_admin_user u then 10%Z else 8%Z in
     (∃ out, showUserDashboard s = (Ok (first_choice 1 top (stdin s)).1,
        mkConsole (life s) (first_choice 1 top (stdin s)).2 out)) ∧
     (1 <= (first_choice 1 top (stdin s)).1 <= top)%Z) ∧
  (∃ out, readLine prompt s = (Ok (first_line (stdin s)).1, mkConsole (life s) (first_line (stdin s)).2 out)) ∧
  ∀ l, (first_line (stdin s)).1 = Some l → l ≠ "" ∧ l ≠ "exit".
Proof.
  split; [|split; [|split; [|split]]].
  - apply menu_run; [apply prints_home|lia].
  - by apply first_choice_range.
  - intros u Hu top. split.
    + unfold showUserDashboard, mbind at 1 2, SE_bind at 1 2, gets. rewrite Hu. cbv zeta.
      apply menu_run; [apply prints_dashboard|lia].
    + apply first_choice_range. unfold top. destruct (is_admin_user u); lia.
  - apply readLine_run. lia.
  - apply first_line_plain.
Qed.

(** A console turn asks for what its user may ask for: whatever is typed, a turn of the
    dashboard returns, and the client of a user who is not an admin, or of nobody, sends
    neither a room deletion nor a kick in it. *)
Theorem console_rights {env : ClientEnv} s :
  isAdmin (client s) = false →
  run_out showDashboard s = Ok tt ∧
  ∃ new, trace (client (run_state showDashboard s)) = trace (client s) ++ new ∧
    ∀ p, Send p ∈ new → Packet.type p ≠ ROOM_KICK ∧ Packet.type p ≠ ROOM_DELETE.
Proof.
  intros Ha. split; [destruct (total_showDashboard s) as [[] H]; exact H|].
  assert (asking (trace (client s)) s) as Hs by (split; [exists []; by rewrite app_nil_r|done]).
  assert (acted (trace (client s)) (run_state showDashboard s)) as (new & Ht & Hn).
  { unfold run_state, showDashboard, mbind, SE_bind, gets.
    destruct (negb _); [exact (turn_signed_out _ s Hs)|exact (turn_signed_in _ s Hs)]. }
  exists new. split; [done|]. intros p Hp. rewrite Forall_forall in Hn. specialize (Hn _ Hp). cbn in Hn.
  split; intros E; by rewrite E in Hn.
Qed.

#[local] Existing Instance sample_client_env.

(** at the end of the input a signed-out client stops *)
Example console_eof :
  let s := mkConsole (set_cl linked_client fresh_life) [] "" in
  let s' := run_state signed_out_turn s in
  connected (client s') = false ∧ supervisorRunning (life s') = false.
Proof. vm_compute. split; reflexivity. Qed.

(** * Witnesses *)

Definition typist : Console := mkConsole (set_cl linked_client fresh_life) [Some "9"; Some "2"; Some ""; Some "General"] "".
Lemma console_rights_witness :
  run_out showDashboard typist = Ok tt ∧
  ∃ new, trace (client (run_state showDashboard typist)) = trace linked_client ++ new.
Proof.
  destruct (console_rights typist) as [Hr (new & Ht & _)]; [vm_compute; reflexivity|].
  split; [exact Hr|]. exists new. exact Ht.
Defined.
