(* ===== verification/Health.v ===== *)
(** Health (include/utils/health/i_health_check.h, src/utils/health/*.cpp) and the operator's
    dashboard (Server::dashboard in src/server/server.cpp).

    A check is an operation on the state it looks at; the adapters turn one reading of their
    subject into a report, and the monitor is the list of its checks.  The monitor and the
    dashboard each add reports up with a loop of their own.

    The theorems: the two loops agree, and what they compute is the worst status, with the
    names of what is down. *)
From S2P Require Import Prelude Models DatabaseManager World GossipManager Server Client.
From stdpp Require Import options.

(** * Definitions *)

Inductive HealthStatus := Up | Degraded | Down.
Definition healthStatusToString (s : HealthStatus) : string :=
  match s with Up => "Up" | Degraded => "Degraded" | Down => "Down" end.

Record HealthReport := mkReport { name : string; status : HealthStatus; detail : string }.
Definition statusToString (r : HealthReport) : string := healthStatusToString (status r).

(** ** The adapters *)

(** [IHealthCheck]: a check reads the state of its subject, and may fail *)
Class IHealthCheck (S A : Type) := check : A → SE S HealthReport.

Inductive ServerHealthAdapter := server_health.
Inductive HeartbeatHealthAdapter := heartbeat_health.
Inductive DbHealthAdapter := db_health.
Inductive ClientHealthAdapter := client_health.

(** [Server::isAlive] and [Heartbeat::isRunning] read flags that are not part of [World] *)
Record Flags := mkFlags { server_running : bool; heartbeat_running : bool; tables : Db }.

Global Instance server_check : IHealthCheck Flags ServerHealthAdapter := λ _,
  alive ← gets server_running;
  mret (if (alive : bool) then mkReport "server" Up "alive" else mkReport "server" Down "not alive").
Global Instance heartbeat_check : IHealthCheck Flags HeartbeatHealthAdapter := λ _,
  running ← gets heartbeat_running;
  mret (if (running : bool) then mkReport "heartbeat" Up "running" else mkReport "heartbeat" Down "not running").
Global Instance db_check `{DbEnv} : IHealthCheck Flags DbHealthAdapter := λ _,
  ok ← zoom tables (λ d f, mkFlags (server_running f) (heartbeat_running f) d) ping;
  mret (if (ok : bool) then mkReport "database" Up "ok" else mkReport "database" Down "ping failed").
Global Instance client_check `{ClientEnv} : IHealthCheck Client ClientHealthAdapter := λ _,
  alive ← Client.isAlive;
  mret (if (alive : bool) then mkReport "client" Up "connected" else mkReport "client" Down "not connected").

(** ** HealthMonitor *)

Section monitor.
Context {S : Type}.

(** the checks in the order they were added *)
Definition HealthMonitor : Type := list (SE S HealthReport).
Definition add (c : SE S HealthReport) (m : HealthMonitor) : HealthMonitor := m ++ [c].

Fixpoint checkAll (m : HealthMonitor) : SE S (list HealthReport) :=
  match m with
  | [] => mret []
  | c :: m => r ← c; out ← checkAll m; mret (r :: out)
  end.

(** one round of the loop of [check] *)
Definition fold_report (overall r : HealthReport) : HealthReport :=
  match status r with
  | Down =>
      let sofar := if negb (is_empty (detail overall)) then detail overall +:+ "; " else detail overall in
      mkReport (name overall) Down (sofar +:+ name r +:+ ":Down")
  | Degraded =>
      match status overall with Down => overall | _ => mkReport (name overall) Degraded (detail overall) end
  | Up => overall
  end.
Definition check_monitor (m : HealthMonitor) : SE S HealthReport :=
  reports ← checkAll m;
  mret (foldl fold_report (mkReport "cluster" Up "") reports).
End monitor.

(** the monitor of a server *)
Definition server_monitor `{DbEnv} : HealthMonitor :=
  add (check db_health) (add (check heartbeat_health) (add (check server_health) [])).

(** ** Server::dashboard *)

Definition newline : string := String "010" "".
(** one round of the loop over the reports: the text so far, the status and the detail *)
Definition dashboard_round (acc : string * HealthStatus * string) (r : HealthReport)
    : string * HealthStatus * string :=
  let '(out, overallStatus, overallDetail) := acc in
  let out := out +:+ "  " +:+ name r +:+ ": " +:+ statusToString r +:+
    (if negb (is_empty (detail r)) then " (" +:+ detail r +:+ ")" else "") +:+ newline in
  match status r with
  | Down =>
      let sofar := if negb (is_empty overallDetail) then overallDetail +:+ "; " else overallDetail in
      (out, Down, sofar +:+ name r +:+ ":Down")
  | Degraded =>
      (out, match overallStatus with Down => Down | _ => Degraded end, overallDetail)
  | Up => (out, overallStatus, overallDetail)
  end.
Definition dashboard_health (reports : list HealthReport) : string :=
  let '(out, overallStatus, overallDetail) := foldl dashboard_round ("Health:" +:+ newline, Up, "") reports in
  out +:+ "Overall: " +:+ healthStatusToString overallStatus +:+
    (if negb (is_empty overallDetail) then " (" +:+ overallDetail +:+ ")" else "") +:+ newline.

Definition rule : string := "--------------------------------" +:+ newline.
Definition or_none (l : list string) : string := match l with [] => "(none)" | _ => join_with ", " l end.
Definition endpoint_text (e : ClientEndpoint.t) : string :=
  ClientEndpoint.nodeId e +:+ "=" +:+ ClientEndpoint.host e +:+ ":" +:+ to_string (ClientEndpoint.port e).

(** what is printed; the browser port, the database path and the listening flag are read
    from objects that are not part of [World] *)
Definition dashboard `{ServerEnv} (webPort : Z) (dbPath : string) (listening : bool) (w : World) (reports : list HealthReport) : string :=
  rule +:+ "Server dashboard" +:+ newline +:+ rule +:+
  "Node id: " +:+ NODE_ID +:+ newline +:+
  "Port: " +:+ to_string PORT +:+ " Web port: " +:+ to_string webPort +:+ " Peer port: " +:+ to_string PEER_PORT +:+ newline +:+
  "Database path: " +:+ dbPath +:+ newline +:+
  "Gossip seeds: " +:+ or_none PEERS +:+ newline +:+
  "Client endpoints: " +:+ or_none (endpoint_text <$> (map_to_list (getClientPeers (gossip w))).*2) +:+ newline +:+
  "Listening: " +:+ (if listening then "yes" else "no") +:+ newline +:+
  dashboard_health reports +:+
  rule +:+ newline.

(** * Specification *)

(** the worst of the reports *)
Definition worse (a b : HealthStatus) : HealthStatus :=
  match a, b with Down, _ | _, Down => Down | Degraded, _ | _, Degraded => Degraded | _, _ => Up end.
Definition worst (l : list HealthReport) : HealthStatus := foldr worse Up (status <$> l).
Definition is_down (r : HealthReport) : bool := match status r with Down => true | _ => false end.
(** what is down, in the order of the checks *)
Definition down_names (l : list HealthReport) : string :=
  join_with "; " ((λ r, name r +:+ ":Down") <$> filter (λ r, is_down r = true) l).

(** * Lemmas *)

Lemma worse_assoc a b c : worse a (worse b c) = worse (worse a b) c.
Proof. by destruct a, b, c. Qed.
Lemma worse_Up a : worse a Up = a.
Proof. by destruct a. Qed.

Lemma join_snoc sep l x :
  join_with sep (l ++ [x]) = match l with [] => x | _ => join_with sep l +:+ sep +:+ x end.
Proof.
  induction l as [|y l IH]; [done|]. destruct l as [|z l]; [done|].
  change (join_with sep ((y :: z :: l) ++ [x])) with (y +:+ sep +:+ join_with sep ((z :: l) ++ [x])).
  rewrite IH. change (join_with sep (y :: z :: l)) with (y +:+ sep +:+ join_with sep (z :: l)). by rewrite !str_app_assoc.
Qed.
Lemma join_nonempty sep x l : x ≠ "" → is_empty (join_with sep (x :: l)) = false.
Proof. intros Hx. destruct l as [|y l]; cbn; by destruct x. Qed.

(** the detail grows by one name *)
Lemma down_names_snoc l r :
  down_names (l ++ [r]) =
  if is_down r then (if negb (is_empty (down_names l)) then down_names l +:+ "; " else down_names l) +:+ name r +:+ ":Down"
  else down_names l.
Proof.
  unfold down_names. rewrite filter_app, fmap_app, filter_cons, filter_nil. destruct (is_down r) eqn:Er.
  - rewrite decide_True by done. cbn [fmap list_fmap]. rewrite join_snoc.
    destruct (filter _ l) as [|y ys]; [done|]. rewrite fmap_cons. rewrite join_nonempty; [cbn [negb]; by rewrite !str_app_assoc|].
    by destruct (name y).
  - rewrite decide_False by done. by rewrite app_nil_r.
Qed.
Lemma worst_snoc l r : worst (l ++ [r]) = worse (worst l) (status r).
Proof.
  unfold worst. rewrite fmap_app. cbn [fmap list_fmap]. induction (status <$> l) as [|s ss IH]; cbn.
  - by destruct (status r).
  - by rewrite IH, worse_assoc.
Qed.

Lemma monitor_spec l n : foldl fold_report (mkReport n Up "") l = mkReport n (worst l) (down_names l).
Proof.
  induction l as [|r l IH] using rev_ind; [done|]. rewrite foldl_app, IH, worst_snoc, down_names_snoc. cbn [foldl].
  unfold fold_report, is_down. cbn [status name detail]. destruct (status r); [by rewrite worse_Up|by destruct (worst l)|].
  f_equal. by destruct (worst l).
Qed.
Lemma dashboard_spec l :
  ∃ out, foldl dashboard_round ("Health:" +:+ newline, Up, "") l = (out, worst l, down_names l).
Proof.
  induction l as [|r l [out IH]] using rev_ind; [by eexists|]. rewrite foldl_app, IH, worst_snoc, down_names_snoc.
  cbn [foldl]. unfold dashboard_round, is_down. destruct (status r).
  - rewrite worse_Up. by eexists.
  - eexists. by destruct (worst l).
  - eexists. by destruct (worst l).
Qed.

(** * Theorems *)

(** The monitor and the dashboard add up the same way: whatever the reports, the status
    and the detail the dashboard prints are those of the monitor's report, and both are the
    worst status of all checks and the names of the checks that are down, in order. *)
Theorem overall_health l :
  ∃ out, foldl dashboard_round ("Health:" +:+ newline, Up, "") l =
    (out, status (foldl fold_report (mkReport "cluster" Up "") l), detail (foldl fold_report (mkReport "cluster" Up "") l)) ∧
  foldl fold_report (mkReport "cluster" Up "") l = mkReport "cluster" (worst l) (down_names l) ∧
  (worst l = Up ↔ ∀ r, r ∈ l → status r = Up) ∧ (worst l = Down ↔ ∃ r, r ∈ l ∧ status r = Down).
Proof.
  destruct (dashboard_spec l) as [out Hd]. exists out. rewrite monitor_spec. split; [exact Hd|]. split; [done|].
  clear. unfold worst. induction l as [|r l [IHu IHd]]; cbn.
  { split; split; [by intros _ r ?%elem_of_nil|done|done|by intros (r & ?%elem_of_nil & _)]. }
  setoid_rewrite elem_of_cons. split.
  - transitivity (status r = Up ∧ foldr worse Up (status <$> l) = Up); [destruct (status r), (foldr _ _ _); naive_solver|].
    rewrite IHu. naive_solver.
  - transitivity (status r = Down ∨ foldr worse Up (status <$> l) = Down); [destruct (status r), (foldr _ _ _); naive_solver|].
    rewrite IHd. naive_solver.
Qed.
