(* ===== verification/Qt.v ===== *)
(** What the windows use of Qt, as an interface: the clients in ChatStyle.v, Window.v and
    Panels.v are written against [QtEnv], and the few facts of the Qt documentation their
    theorems need are the fields of [QtLaws].

    A [QString] is the text it holds; [+], [==], [isEmpty], [startsWith], [join] and
    [QString::number] are the operations on that text.  What depends on encodings, locales,
    fonts or the size of a window is a parameter.  [std::sort] is here too: it leaves the order
    of equal elements open.  [sample_qt] is a concrete instance. *)
From S2P Require Import Prelude Models.
From stdpp Require Import options.

(** * Definitions *)

Class QtEnv := {
  fromStdString : string → string;           (* ill-formed UTF-8 is replaced *)
  trimmed : string → string;
  replace : string → string → string → string; (* text, before, after *)
  arg : string → string → string;            (* text with place markers, value *)
  date_text : string → Z → string;           (* format, seconds since the epoch *)
  qt_now : nat → Z;                          (* QDateTime::currentSecsSinceEpoch *)
  scroll_max : Z → list string → Z;          (* the maximum of a scroll bar: viewport, lines *)
  sort_rooms : list Room.t → list Room.t     (* std::sort by id *)
}.

(** ** What the documentation says of them *)

(** every occurrence of [before], from the left, none overlapping *)
Fixpoint replace_from (skip : nat) (before after s : string) : string :=
  match s with
  | EmptyString => EmptyString
  | String c r =>
      match skip with
      | S n => replace_from n before after r
      | O => if String.prefix before s
             then after +:+ replace_from (String.length before - 1) before after r
             else String c (replace_from 0 before after r)
      end
  end.
Definition replace_all (s before after : string) : string := replace_from 0 before after s.

(** the place markers "%1" to "%9" of a text, as numbers *)
Fixpoint markers (s : string) : list N :=
  match s with
  | String "%" (String d r as rest) =>
      if is_digit d && negb (Ascii.eqb d "0") then (N_of_ascii d - 48)%N :: markers r else markers rest
  | String _ r => markers r
  | EmptyString => []
  end.
Definition marker (n : N) : string := String "%" (String (digit_char n) "").
Definition lowest (l : list N) : option N :=
  match l with [] => None | x :: l => Some (foldr N.min x l) end.
(** no marker with a second digit, and none with the locale flag *)
Fixpoint plain_markers (s : string) : bool :=
  match s with
  | String "%" (String d (String e _) as rest) =>
      negb (Ascii.eqb d "L") && negb (Ascii.eqb d "0") && negb (is_digit d && is_digit e) && plain_markers rest
  | String "%" (String d "") => negb (Ascii.eqb d "0")
  | String _ r => plain_markers r
  | EmptyString => true
  end.
(** all the markers with the lowest number are replaced *)
Definition arg_lowest (s a : string) : string :=
  match lowest (markers s) with Some n => replace_all s (marker n) a | None => s end.

Definition by_id (a b : Room.t) : Prop := (Room.id a <= Room.id b)%Z.
#[global] Instance by_id_dec : RelDecision by_id.
Proof. intros a b. unfold by_id. apply _. Defined.

(** seven-bit text *)
Fixpoint ascii_text (s : string) : bool :=
  match s with EmptyString => true | String c s => (N_of_ascii c <? 128)%N && ascii_text s end.

Class QtLaws {Q : QtEnv} : Prop := {
  from_ascii s : ascii_text s = true → fromStdString s = s;
  replace_law s before after : before ≠ "" → replace s before after = replace_all s before after;
  arg_law s a : plain_markers s = true → arg s a = arg_lowest s a;
  scroll_max_nonneg h l : (0 <= scroll_max h l)%Z;
  scroll_max_empty h : scroll_max h [] = 0%Z;
  scroll_max_grows h l x : (scroll_max h l <= scroll_max h (l ++ [x]))%Z;
  sort_perm l : sort_rooms l ≡ₚ l;
  sort_sorted l : Sorted by_id (sort_rooms l)
}.

(** ** Filling in the markers of a text *)

(** a text without a percent sign in front changes nothing *)
Lemma markers_app s t : has_char "%" s = false → markers (s +:+ t) = markers t.
Proof.
  induction s as [|c s IH]; intros H; [done|]. rewrite str_app_cons. cbn [has_char] in H.
  destruct (Ascii.eqb "%" c) eqn:E; [done|]. rewrite <-(IH H). destruct c as [[] [] [] [] [] [] [] []]; try done.
Qed.
Lemma plain_markers_app s t : has_char "%" s = false → plain_markers (s +:+ t) = plain_markers t.
Proof.
  induction s as [|c s IH]; intros H; [done|]. rewrite str_app_cons. cbn [has_char] in H.
  destruct (Ascii.eqb "%" c) eqn:E; [done|]. rewrite <-(IH H). destruct c as [[] [] [] [] [] [] [] []]; try done.
Qed.
Lemma replace_marker_app n v s t :
  has_char "%" s = false → replace_from 0 (marker n) v (s +:+ t) = s +:+ replace_from 0 (marker n) v t.
Proof.
  induction s as [|c s IH]; intros H; [done|]. rewrite !str_app_cons. cbn [has_char] in H.
  destruct (Ascii.eqb "%" c) eqn:E; [done|]. cbn [replace_from]. rewrite (IH H).
  unfold marker. cbn [String.prefix]. destruct (ascii_dec "%" c) as [<-|]; [by rewrite Ascii.eqb_refl in E|done].
Qed.

Lemma arg_step `{QtLaws} pre n post a :
  has_char "%" pre = false → plain_markers (marker n +:+ post) = true →
  lowest (markers (marker n +:+ post)) = Some n →
  replace_all (marker n +:+ post) (marker n) a = a +:+ post →
  arg (pre +:+ marker n +:+ post) a = pre +:+ a +:+ post.
Proof.
  intros Hp Hm Hl Hr. rewrite arg_law by (by rewrite plain_markers_app). unfold arg_lowest.
  rewrite markers_app, Hl by done. unfold replace_all. rewrite replace_marker_app by done. f_equal. exact Hr.
Qed.

(** ** A concrete instance: one line of the text per unit of the viewport *)

Definition strip (s : string) : string := skip_space (String.rev (skip_space (String.rev s))).
#[local] Instance sample_qt : QtEnv := {|
  fromStdString := id;
  trimmed := strip;
  replace := replace_all;
  arg := arg_lowest;
  date_text := λ _ secs, to_string secs;
  qt_now := λ n, Z.of_nat n;
  scroll_max := λ h l, Z.max 0 (Z.of_nat (length l) - Z.max 0 h);
  sort_rooms := merge_sort by_id
|}.
#[local] Instance by_id_total : Total by_id.
Proof. intros a b. unfold by_id. lia. Qed.
#[local] Instance sample_qt_laws : @QtLaws sample_qt.
Proof.
  constructor; cbn; try done; try lia.
  - intros h l x. rewrite length_app. cbn. lia.
  - intros l. apply merge_sort_Permutation.
  - intros l. apply Sorted_merge_sort, _.
Qed.

Example arg_twice : arg (arg "%1 @ %2" "ann") "Lobby" = "ann @ Lobby".
Proof. vm_compute. reflexivity. Qed.
