(* ===== verification/ChatStyle.v ===== *)
(** The look of the client's window (src/client/gui/chat_style.cpp, include/client/appearance.h):
    the two palettes, the stylesheet with its "{{name}}" tokens, and the spacing numbers.

    [paint] replaces one token after the other in the whole text, as the source does; [render]
    reads the template once and looks each token up.  The theorem: they give the same
    stylesheet, and no token is left in it. *)
From S2P Require Import Prelude Models Qt.
From stdpp Require Import options.

(** * Definitions *)

Inductive Theme := Light | Dark.
Inductive Density := Comfortable | Compact.
#[global] Instance Theme_eq_dec : EqDecision Theme.
Proof. solve_decision. Defined.
#[global] Instance Density_eq_dec : EqDecision Density.
Proof. solve_decision. Defined.

Record ChatSpacing := mkSpacing {
  bodyMargin : Z; rowSpacing : Z; cardMargin : Z; cardSpacing : Z; sideWidth : Z;
  headerMarginH : Z; headerMarginV : Z; headerSpacing : Z
}.

Record Palette := mkPalette {
  window_ : string; header_ : string; headerBorder_ : string; title_ : string; muted_ : string;
  ghostBorder_ : string; ghostText_ : string; ghostHover_ : string; primary_ : string;
  primaryHover_ : string; primaryDisabled_ : string; chipBg_ : string; chipBorder_ : string;
  chipText_ : string; chipHover_ : string; card_ : string; cardBorder_ : string; field_ : string;
  fieldBorder_ : string; ink_ : string; selection_ : string; selectedBg_ : string;
  selectedFg_ : string; dialog_ : string
}.

Definition kLight : Palette := mkPalette
  "#eef1f6" "#ffffff" "#e2e8f0" "#0f172a" "#64748b" "#cbd5e1" "#334155" "#f8fafc" "#4f46e5"
  "#4338ca" "#c7d2fe" "#eef2ff" "#c7d2fe" "#3730a3" "#e0e7ff" "#ffffff" "#e2e8f0" "#f8fafc"
  "#e2e8f0" "#0f172a" "#c7d2fe" "#eef2ff" "#3730a3" "#ffffff".
Definition kDark : Palette := mkPalette
  "#0b1220" "#111827" "#1f2937" "#e2e8f0" "#94a3b8" "#334155" "#e2e8f0" "#1e293b" "#6366f1"
  "#4f46e5" "#312e81" "#1e1b4b" "#4338ca" "#c7d2fe" "#312e81" "#111827" "#1f2937" "#0f172a"
  "#1f2937" "#e2e8f0" "#4338ca" "#1e1b4b" "#c7d2fe" "#111827".

Definition kSheet : string := "
    QMainWindow { background: {{window}}; }
    QWidget#Page { background: {{window}}; }
    QDialog, QMessageBox { background: {{dialog}}; color: {{ink}}; }
    QMessageBox QLabel { color: {{ink}}; }

    QWidget#Header {
      background: {{header}};
      border-bottom: 1px solid {{headerBorder}};
    }

    QWidget#PopUpWindow { background: {{dialog}}; color: {{ink}}; }

    QLabel { color: {{ink}}; }
    QLabel#PageTitle { font-size: 20px; font-weight: 700; color: {{title}}; }
    QLabel#PageSubtitle { font-size: 12px; color: {{muted}}; }
    QLabel#SectionTitle {
      font-size: 12px;
      font-weight: 700;
      letter-spacing: 0.6px;
      color: {{muted}};
    }
    QLabel#RoomTitle { font-size: 16px; font-weight: 700; color: {{title}}; }

    QPushButton#GhostButton {
      background: transparent;
      border: 1px solid {{ghostBorder}};
      border-radius: 8px;
      padding: 8px 14px;
      color: {{ghostText}};
      font-weight: 600;
    }
    QPushButton#GhostButton:hover { background: {{ghostHover}}; }

    QPushButton#PrimaryButton {
      background: {{primary}};
      border: none;
      border-radius: 8px;
      padding: 8px 16px;
      color: #ffffff;
      font-weight: 600;
    }
    QPushButton#PrimaryButton:hover { background: {{primaryHover}}; }
    QPushButton#PrimaryButton:disabled { background: {{primaryDisabled}}; color: #e2e8f0; }

    QPushButton#UserChip {
      background: {{chipBg}};
      border: 1px solid {{chipBorder}};
      border-radius: 18px;
      padding: 6px 14px;
      color: {{chipText}};
      font-weight: 600;
    }
    QPushButton#UserChip:hover { background: {{chipHover}}; }

    QWidget#SideCard, QWidget#ChatCard {
      background: {{card}};
      border: 1px solid {{cardBorder}};
      border-radius: 14px;
    }

    QListWidget, QPlainTextEdit, QLineEdit, QComboBox {
      background: {{field}};
      border: 1px solid {{fieldBorder}};
      border-radius: 10px;
      padding: 8px;
      color: {{ink}};
      selection-background-color: {{selection}};
    }
    QComboBox QAbstractItemView {
      background: {{field}};
      color: {{ink}};
      selection-background-color: {{selectedBg}};
      selection-color: {{selectedFg}};
    }

    QListWidget::item { padding: 8px; border-radius: 8px; }
    QListWidget::item:selected { background: {{selectedBg}}; color: {{selectedFg}}; }
".

Definition kCompact : string := "
    QLabel#PageTitle { font-size: 16px; }
    QLabel#PageSubtitle { font-size: 11px; }
    QLabel#SectionTitle { font-size: 11px; }
    QLabel#RoomTitle { font-size: 14px; }
    QPushButton#GhostButton, QPushButton#PrimaryButton {
      border-radius: 6px;
      padding: 4px 10px;
    }
    QPushButton#UserChip { padding: 2px 10px; }
    QListWidget, QPlainTextEdit, QLineEdit, QComboBox { padding: 4px; font-size: 12px; }
    QListWidget::item { padding: 2px 6px; }
".

(** the rows of [replacements], the braces of the token left off *)
Definition replacements (p : Palette) : list (string * string) :=
  [("window", window_ p); ("header", header_ p); ("headerBorder", headerBorder_ p);
  ("title", title_ p); ("muted", muted_ p); ("ghostBorder", ghostBorder_ p);
  ("ghostText", ghostText_ p); ("ghostHover", ghostHover_ p); ("primary", primary_ p);
  ("primaryHover", primaryHover_ p); ("primaryDisabled", primaryDisabled_ p);
  ("chipBg", chipBg_ p); ("chipBorder", chipBorder_ p); ("chipText", chipText_ p);
  ("chipHover", chipHover_ p); ("card", card_ p); ("cardBorder", cardBorder_ p);
  ("field", field_ p); ("fieldBorder", fieldBorder_ p); ("ink", ink_ p);
  ("selection", selection_ p); ("selectedBg", selectedBg_ p); ("selectedFg", selectedFg_ p);
  ("dialog", dialog_ p)].
Definition token (name : string) : string := "{{" +:+ name +:+ "}}".

Section with_qt.
Context {Q : QtEnv}.

Definition paint (sheet : string) (p : Palette) : string :=
  foldl (λ out entry, replace out (token entry.1) entry.2) sheet (replacements p).

Definition palette_of (t : Theme) : Palette := match t with Dark => kDark | Light => kLight end.
Definition chatStyleSheet (t : Theme) (d : Density) : string :=
  let sheet := paint kSheet (palette_of t) in
  match d with Compact => sheet +:+ kCompact | Comfortable => sheet end.
End with_qt.

Definition spacingFor (d : Density) : ChatSpacing :=
  match d with
  | Compact => mkSpacing 8 8 8 6 220 12 8 8
  | Comfortable => mkSpacing 20 16 16 10 280 24 16 16
  end.

(** * Specification *)

(** the template read once: [name] is what was read of a token so far *)
Fixpoint render_from (value : string → option string) (name : option string) (s : string) : string :=
  match s with
  | EmptyString => match name with Some n => "{{" +:+ n | None => "" end
  | String c r =>
      match name, s with
      | None, String "{" (String "{" r) => render_from value (Some "") r
      | None, _ => String c (render_from value None r)
      | Some n, String "}" (String "}" r) =>
          default (token n) (value n) +:+ render_from value None r
      | Some n, _ => render_from value (Some (n +:+ String c "")) r
      end
  end.
Definition lookup_token (p : Palette) (n : string) : option string :=
  (λ e, e.2.2) <$> list_find (λ e, e.1 = n) (replacements p).
Definition render (sheet : string) (p : Palette) : string := render_from (lookup_token p) None sheet.

(** does [pat] occur in [s] *)
Fixpoint occurs (pat s : string) : bool :=
  String.prefix pat s || match s with String _ r => occurs pat r | EmptyString => false end.

(** * Theorems *)

(** The stylesheet is the template filled in: for every theme and density, replacing one
    token after the other in the whole text gives what one reading of the template gives with
    each token looked up in the palette, then the compact rules when the density asks for
    them; no token is left. *)
Theorem stylesheet_rendered `{QtLaws} t d :
  chatStyleSheet t d =
    render kSheet (palette_of t) +:+ (if decide (d = Compact) then kCompact else "") ∧
  occurs "{{" (chatStyleSheet t d) = false ∧ occurs "}}" (chatStyleSheet t d) = false.
Proof.
  assert (∀ p, paint kSheet p = foldl (λ out e, replace_all out (token e.1) e.2) kSheet (replacements p)) as Hp.
  { intros p. unfold paint. generalize kSheet. induction (replacements p) as [|e l IH]; intros s; [done|].
    cbn [foldl]. rewrite replace_law by done. apply IH. }
  unfold chatStyleSheet. rewrite Hp. clear Hp.
  destruct t, d; vm_compute; repeat split; reflexivity.
Qed.

Lemma stylesheet_rendered_witness :
  occurs "{{" (chatStyleSheet (Q := sample_qt) Dark Compact) = false.
Proof. exact (proj1 (proj2 (stylesheet_rendered (H := sample_qt_laws) Dark Compact))). Defined.
