(* ===== verification/Window.v ===== *)
(** The window of the client (src/client/gui/pages/dashboard_page.cpp, with
    Header::setLoggedIn, Button and PopUpWindow::run of src/client/gui/components, and the two
    display settings of src/client/client.cpp).

    [Page] is the client's [Life] with what the widgets show: the header, the side card with
    the room list, the transcript with its scroll bar, and the look last applied.  The page is
    always given its client, so the tests for a null client and for null widgets are left out.

    A modal window runs an event loop of its own: while it is open the refresh timer fires and
    the reader and the supervisor of the client go on.  [answers] is what the user will do in
    the modal windows to come, with what happens before; [windows] is what was shown.  A click
    reaches a button only when it is visible and enabled.

    The theorems: a refresh makes the page show the client's state, whatever it showed; the
    badge counts the unread lines in every reachable state, and a scrolled-up view stays where
    it is while lines arrive; a click of a user who is not an admin never kicks or deletes. *)
From S2P Require Import Prelude Packet Models Codec Serializer Config EndpointRing PacketBuilder.
From S2P Require Import Client Console Dialogue Supervision Health Qt ChatStyle.
From stdpp Require Import options.

(** * Definitions *)

(** ** What the widgets show *)

Record HeaderView := mkHeader {
  subtitle : string;
  themeText : string;
  densityText : string;
  signUpVisible : bool;
  logInVisible : bool;
  userChipVisible : bool;
  logoutVisible : bool;
  userChipText : string
}.
(** one item of the room list: its [UserRole] data and its text *)
Record RoomRow := mkRow { row_name : string; row_label : string }.
Record SideView := mkSide {
  roomsList : list RoomRow;
  roomTitle : string;
  leaveEnabled : bool;
  createRoomVisible : bool;
  inviteVisible : bool;
  kickVisible : bool;
  deleteRoomVisible : bool
}.
Record ChatView := mkChat {
  transcript : list string;
  viewport : Z;                   (* the size of the view, which bounds the scroll bar *)
  barValue : Z;
  adjustingScroll : bool;
  unreadCount : Z;
  unreadText : string;
  unreadVisible : bool;
  composer : string
}.
Record LookView := mkLook {
  appearanceApplied : bool;
  appliedTheme : Theme;
  appliedDensity : Density;
  styleSheet : string;
  spacing : ChatSpacing
}.

(** what goes on while a modal window is open *)
Inductive Meanwhile :=
  | Timer                         (* the refresh timer *)
  | Received                      (* the reader takes a packet *)
  | Supervised (watched : nat).   (* a round of the supervisor *)
(** what the user does in a modal window; [None] cancels a dialog *)
Record Answer := mkAnswer { meanwhile : list Meanwhile; fields : option (list string) }.
Inductive Shown :=
  | Dialog (title : string) (prefilled : list string)
  | Information (title text : string)
  | Warning (title text : string).

Record Page := mkPage {
  life : Life;
  appearanceTheme : Theme;        (* Client::appearanceTheme, appearanceDensity *)
  appearanceDensity : Density;
  header : HeaderView;
  side : SideView;
  chat : ChatView;
  look : LookView;
  answers : list Answer;
  windows : list Shown;
  clock_reads : nat
}.

Definition set_life v p := mkPage v (appearanceTheme p) (appearanceDensity p) (header p) (side p)
  (chat p) (look p) (answers p) (windows p) (clock_reads p).
Definition set_appearance t d p := mkPage (life p) t d (header p) (side p)
  (chat p) (look p) (answers p) (windows p) (clock_reads p).
Definition set_header v p := mkPage (life p) (appearanceTheme p) (appearanceDensity p) v (side p)
  (chat p) (look p) (answers p) (windows p) (clock_reads p).
Definition set_side v p := mkPage (life p) (appearanceTheme p) (appearanceDensity p) (header p) v
  (chat p) (look p) (answers p) (windows p) (clock_reads p).
Definition set_chat_view v p := mkPage (life p) (appearanceTheme p) (appearanceDensity p) (header p)
  (side p) v (look p) (answers p) (windows p) (clock_reads p).
Definition set_look v p := mkPage (life p) (appearanceTheme p) (appearanceDensity p) (header p)
  (side p) (chat p) v (answers p) (windows p) (clock_reads p).
Definition set_modal a w p := mkPage (life p) (appearanceTheme p) (appearanceDensity p) (header p)
  (side p) (chat p) (look p) a w (clock_reads p).
Definition tick_clock p := mkPage (life p) (appearanceTheme p) (appearanceDensity p) (header p)
  (side p) (chat p) (look p) (answers p) (windows p) (S (clock_reads p)).

Definition set_bar v c := mkChat (transcript c) (viewport c) v (adjustingScroll c) (unreadCount c)
  (unreadText c) (unreadVisible c) (composer c).
Definition set_lines l c := mkChat l (viewport c) (barValue c) (adjustingScroll c) (unreadCount c)
  (unreadText c) (unreadVisible c) (composer c).
Definition set_viewport h c := mkChat (transcript c) h (barValue c) (adjustingScroll c)
  (unreadCount c) (unreadText c) (unreadVisible c) (composer c).
Definition set_adjusting b c := mkChat (transcript c) (viewport c) (barValue c) b (unreadCount c)
  (unreadText c) (unreadVisible c) (composer c).
Definition set_unread n c := mkChat (transcript c) (viewport c) (barValue c) (adjustingScroll c) n
  (unreadText c) (unreadVisible c) (composer c).
Definition set_badge t v c := mkChat (transcript c) (viewport c) (barValue c) (adjustingScroll c)
  (unreadCount c) t v (composer c).
Definition set_composer t c := mkChat (transcript c) (viewport c) (barValue c) (adjustingScroll c)
  (unreadCount c) (unreadText c) (unreadVisible c) t.

Notation MW := (SE Page).
Notation MT := (SE ChatView).

Definition the_client (p : Page) : Client := cl (life p).

Section with_env.
Context {env : ClientEnv} {qt : QtEnv}.

(** ** Texts *)

Definition roomNameOf (c : Client) : string :=
  match currentRoom c with None => "Lobby" | Some r => fromStdString (Room.name r) end.

Definition i64 (z : Z) : Z := let r := u64 z in if (r <? 2 ^ 63)%Z then r else (r - 2 ^ 64)%Z.
Definition formatChatTime (timestamp : Z) : MW string :=
  n ← gets clock_reads;
  (if negb (timestamp =? 0)%Z then mret (i64 timestamp) else modify tick_clock ;; mret (qt_now n))
    ≫= λ secs, mret (date_text "dd/MM/yy, HH:mm" secs).

Definition privacyLabel (p : Room.Privacy) : string :=
  match p with Room.PRIVATE => "Private" | Room.PUBLIC => "Public" end.

Definition roomListLabel (r : Room.t) (currentRoom : string) : string :=
  let name := fromStdString (Room.name r) in
  let label := name +:+ " room  ·  " +:+ privacyLabel (Room.privacy r) in
  if String.eqb name currentRoom then label +:+ "  ·  here" else label.

Definition displayName (c : Client) : string :=
  match user c with Some u => fromStdString (User.username u) | None => "Guest" end.

(** [Client::connectedEndpoint] *)
Definition connectedEndpoint (c : Client) : string :=
  if is_empty (host (connectedTo c)) || (port (connectedTo c) =? 0)%Z then ""
  else host (connectedTo c) +:+ ":" +:+ to_string (port (connectedTo c)).

(** ** Client operations *)

Definition on_client {A} (m : Client.M A) : MW A := zoom life set_life (on_cl m).
Definition on_chat {A} (m : MT A) : MW A := zoom chat set_chat_view m.

(** the monitor of the client holds the check [start] added *)
Definition client_health_status : Client.M HealthStatus :=
  r ← check_monitor (add (check client_health) []); mret (status r).

Definition toggleTheme : MW unit :=
  modify (λ p, set_appearance (match appearanceTheme p with Dark => Light | Light => Dark end)
                 (appearanceDensity p) p).
Definition toggleDensity : MW unit :=
  modify (λ p, set_appearance (appearanceTheme p)
                 (match appearanceDensity p with Compact => Comfortable | Comfortable => Compact end) p).

(** ** The transcript and its scroll bar *)

Definition bar_max (c : ChatView) : Z := scroll_max (viewport c) (transcript c).
Definition transcriptAtBottom (c : ChatView) : bool := (bar_max c <=? barValue c)%Z.

Definition showUnread : MT unit :=
  modify (λ c, if (unreadCount c <? 0)%Z then set_unread 0 c else c) ;;
  n ← gets unreadCount;
  if (n =? 0)%Z then modify (λ c, set_badge (unreadText c) false c)
  else modify (set_badge (if (n =? 1)%Z then "1 new" else to_string n +:+ " new") true).

(** the slot of [QScrollBar::valueChanged] *)
Definition value_changed : MT unit :=
  ignore ← gets (λ c, adjustingScroll c || negb (transcriptAtBottom c));
  if (ignore : bool) then mret tt else modify (set_unread 0) ;; showUnread.

(** [QScrollBar::setValue]: the value is kept between zero and the maximum, and the signal is
    emitted when it changes *)
Definition setValue (v : Z) : MT unit :=
  c ← get;
  let v := Z.max 0 (Z.min v (bar_max c)) in
  if (v =? barValue c)%Z then mret tt else modify (set_bar v) ;; value_changed.
(** the text or the size changed: the maximum follows, and the value within it *)
Definition relayout (f : ChatView → ChatView) : MT unit :=
  modify f ;;
  v ← gets barValue;
  setValue v.

Definition scrollTranscriptToBottom : MT unit :=
  modify (set_adjusting true) ;;
  max ← gets bar_max;
  setValue max ;;
  modify (set_adjusting false) ;;
  modify (set_unread 0) ;;
  showUnread.

(** the part of [appendMessage] after the line is put together *)
Definition append_line (line : string) : MT unit :=
  saved ← gets barValue;
  atBottom ← gets transcriptAtBottom;
  modify (set_adjusting true) ;;
  relayout (λ c, set_lines (transcript c ++ [line]) c) ;;
  max ← gets bar_max;
  setValue (if (atBottom : bool) then max else saved) ;;
  modify (set_adjusting false) ;;
  modify (λ c, set_unread (if (atBottom : bool) then 0 else as_int (unreadCount c + 1))%Z c) ;;
  showUnread.
Definition appendMessage (author text : string) (timestamp : Z) : MW unit :=
  time ← formatChatTime timestamp;
  on_chat (append_line (time +:+ "  ·  " +:+ author +:+ "  ·  " +:+ text)).
Definition append_chat_line (l : ChatLine) : MW unit :=
  appendMessage (fromStdString (author l)) (fromStdString (text l)) (timestamp l).

Definition flushIncomingChat : MW unit :=
  lines ← on_client takePendingChatMessages;
  for_each lines append_chat_line.

Definition clear_transcript : MT unit :=
  modify (set_adjusting true) ;;
  relayout (set_lines []) ;;
  modify (set_unread 0) ;;
  showUnread ;;
  modify (set_adjusting false).
Definition resetTranscriptForCurrentRoom : MW unit :=
  on_client clearPendingChatMessages ;;
  on_chat clear_transcript ;;
  history ← on_client loadMessageHistory;
  let '(error, lines) := (history : string * list ChatLine) in
  if negb (is_empty error) then appendMessage "system" (fromStdString error) 0
  else for_each lines append_chat_line.

(** ** Refresh *)

(** [Header::setLoggedIn] *)
Definition setLoggedIn (loggedIn : bool) (username : string) (h : HeaderView) : HeaderView :=
  mkHeader (subtitle h) (themeText h) (densityText h) (negb loggedIn) (negb loggedIn) loggedIn loggedIn
    (if loggedIn then username else "Guest").

Definition theme_label (t : Theme) : string := match t with Dark => "Dark" | Light => "Light" end.
Definition density_label (d : Density) : string :=
  match d with Compact => "Compact" | Comfortable => "Comfortable" end.
Definition applyAppearance : MW unit :=
  p ← get;
  let theme := appearanceTheme p in
  let density := appearanceDensity p in
  modify (λ p, let h := header p in
    set_header (mkHeader (subtitle h) (theme_label theme) (density_label density) (signUpVisible h)
      (logInVisible h) (userChipVisible h) (logoutVisible h) (userChipText h)) p) ;;
  l ← gets look;
  if appearanceApplied l && bool_decide (theme = appliedTheme l) && bool_decide (density = appliedDensity l)
  then mret tt
  else modify (set_look (mkLook true theme density (chatStyleSheet theme density) (spacingFor density))).

Definition link_subtitle (c : Client) (link : HealthStatus) : string :=
  if reconnecting c then "reconnecting..."
  else match link with
       | Up =>
           let endpoint := connectedEndpoint c in
           if negb (is_empty endpoint) then "Connected" +:+ " " +:+ fromStdString endpoint else "Connected"
       | Degraded => "Degraded"
       | Down => "Disconnected"
       end.

Definition placeholder (c : Client) (link : HealthStatus) : string :=
  if reconnecting c then "(reconnecting...)"
  else match link with Down => "(not connected)" | _ => "(waiting for rooms…)" end.
(** [nextRows] *)
Definition room_rows (c : Client) (link : HealthStatus) : list RoomRow :=
  let here := roomNameOf c in
  match (λ r, mkRow (fromStdString (Room.name r)) (roomListLabel r here)) <$> sort_rooms (rooms c) with
  | [] => [mkRow "" (placeholder c link)]
  | rows => rows
  end.
(** [roomsUnchanged] *)
Fixpoint rows_unchanged (shown next : list RoomRow) : bool :=
  match shown, next with
  | [], [] => true
  | a :: shown, b :: next =>
      String.eqb (row_label a) (row_label b) && String.eqb (row_name a) (row_name b) &&
      rows_unchanged shown next
  | _, _ => false
  end.

Definition refresh : MW unit :=
  flushIncomingChat ;;
  applyAppearance ;;
  link ← on_client client_health_status;
  c ← gets the_client;
  modify (λ p, let h := header p in
    set_header (setLoggedIn (isLoggedIn c) (displayName c)
      (mkHeader (link_subtitle c link) (themeText h) (densityText h) (signUpVisible h) (logInVisible h)
        (userChipVisible h) (logoutVisible h) (userChipText h))) p) ;;
  let nextRows := room_rows c link in
  modify (λ p, set_side (mkSide
    (if rows_unchanged (roomsList (side p)) nextRows then roomsList (side p) else nextRows)
    ("#  " +:+ roomNameOf c) (negb (String.eqb (roomNameOf c) "Lobby"))
    (isLoggedIn c) (isLoggedIn c) (isAdmin c) (isAdmin c)) p).

(** ** Modal windows *)

Definition meanwhile_step (m : Meanwhile) : MW unit :=
  match m with
  | Timer => refresh
  | Received => on_client reader_step ;; mret tt
  | Supervised n => zoom life set_life (supervise n)
  end.
(** [QDialog::exec] and the static functions of [QMessageBox] *)
Definition exec (w : Shown) : MW (option (list string)) :=
  next ← gets answers;
  modify (λ p, set_modal (tail next) (windows p ++ [w]) p) ;;
  match next with
  | [] => mret None
  | a :: _ => for_each (meanwhile a) meanwhile_step ;; mret (fields a)
  end.
Definition information (title text : string) : MW unit := exec (Information title text) ;; mret tt.
Definition warning (title text : string) : MW unit := exec (Warning title text) ;; mret tt.

Definition field (n : nat) (f : list string) : string := nth n f "".
(** [PopUpWindow::run], and what follows when it was accepted *)
Definition run_form (title : string) (prefilled : list string) (k : list string → MW unit) : MW unit :=
  answer ← exec (Dialog title prefilled);
  match answer with None => mret tt | Some f => k f end.
(** a request of the client: an error is shown, otherwise the page goes on *)
Definition request (title : string) (op : Client.M string) (k : MW unit) : MW unit :=
  error ← on_client op;
  if negb (is_empty error) then warning title (fromStdString error) else k.
Definition reload : MW unit := resetTranscriptForCurrentRoom ;; refresh.

Definition enterRoom (name : string) : MW bool :=
  if is_empty name then mret false
  else
    error ← on_client (joinRoom name);
    if negb (is_empty error) then warning "Join room" (fromStdString error) ;; mret false
    else reload ;; mret true.

Definition openLogInDialog : MW unit :=
  already ← gets (λ p, isLoggedIn (the_client p));
  if (already : bool) then information "Log in" "Already logged in."
  else
    run_form "Log in" [] (λ f,
      let username := trimmed (field 0 f) in
      let password := field 1 f in
      if is_empty username then warning "Log in" "Username cannot be empty."
      else if is_empty password then warning "Log in" "Password cannot be empty."
      else request "Log in" (login username password) reload).

Definition openSignUpDialog : MW unit :=
  already ← gets (λ p, isLoggedIn (the_client p));
  if (already : bool) then information "Sign in" "Already logged in."
  else
    run_form "Sign in" [] (λ f,
      let username := trimmed (field 0 f) in
      let password := field 1 f in
      let email := trimmed (field 2 f) in
      if is_empty username || is_empty email then warning "Sign in" "Username and email are required."
      else if is_empty password then warning "Sign in" "Password cannot be empty."
      else request "Sign in" (signUp username password email) reload).

(** the dialog keeps a reference to the client's user, so the email is the one at the end *)
Definition openUpdateProfileDialog : MW unit :=
  ok ← gets (λ p, isLoggedIn (the_client p));
  me ← gets (λ p, user (the_client p));
  match (ok : bool), me with
  | true, Some u =>
      run_form "Update profile" [fromStdString (User.username u); fromStdString (User.email u)] (λ f,
        let username := trimmed (field 0 f) in
        let password := field 1 f in
        if is_empty username then warning "Update profile" "Username cannot be empty."
        else
          email ← gets (λ p, match user (the_client p) with Some u => User.email u | None => "" end);
          request "Update profile" (updateProfile username password email) refresh)
  | _, _ => information "Update profile" "Log in first."
  end.

Definition openJoinRoomDialog : MW unit :=
  known ← gets (λ p, rooms (the_client p));
  run_form "Join room" ((λ r, fromStdString (Room.name r)) <$> known) (λ f,
    let name := trimmed (field 0 f) in
    if is_empty name then warning "Join room" "Room name cannot be empty."
    else enterRoom name ;; mret tt).

Definition openCreateRoomDialog : MW unit :=
  ok ← gets (λ p, isLoggedIn (the_client p));
  if negb ok then information "Create room" "Log in to create a room."
  else
    run_form "Create room" ["Public"; "Private"] (λ f,
      let name := trimmed (field 0 f) in
      if is_empty name then warning "Create room" "Room name cannot be empty."
      else
        let privacyWire := if String.eqb (field 1 f) "Private" then "PRIVATE" else "PUBLIC" in
        request "Create room" (createRoom name privacyWire) (enterRoom name ;; mret tt)).

(** the shared shape of inviting and kicking: a user name, about the current room *)
Definition about_room (title form_title refusal empty : string) (op : string → string → Client.M string)
    (done_ : string → string → string) : MW unit :=
  currentRoom ← gets (λ p, roomNameOf (the_client p));
  if String.eqb currentRoom "Lobby" then information title refusal
  else
    run_form form_title [currentRoom] (λ f,
      let username := trimmed (field 0 f) in
      if is_empty username then warning title empty
      else request title (op currentRoom username) (information title (done_ username currentRoom))).
Definition openInviteDialog : MW unit :=
  ok ← gets (λ p, isLoggedIn (the_client p));
  if negb ok then information "Invite" "Log in to invite users."
  else about_room "Invite" "Invite to room" "Join a room before inviting." "Username cannot be empty."
         inviteToRoom (λ username room, "Invited " +:+ username +:+ " to " +:+ room +:+ ".").
Definition openKickDialog : MW unit :=
  ok ← gets (λ p, isAdmin (the_client p));
  if negb ok then information "Kick" "Admin required to kick users."
  else about_room "Kick" "Kick from room" "Join a room before kicking." "Username cannot be empty."
         kickFromRoom (λ username room, "Kicked " +:+ username +:+ " from " +:+ room +:+ ".").

Definition fixed_room (name : string) : bool := String.eqb name "Lobby" || String.eqb name "General".
(** what the editable box of the delete dialog offers; the text it starts with is the user's
    to change, and is not part of the model *)
Definition deletable_rooms (c : Client) : list string :=
  filter (λ name, fixed_room name = false) ((λ r, fromStdString (Room.name r)) <$> rooms c).
Definition openDeleteRoomDialog : MW unit :=
  ok ← gets (λ p, isAdmin (the_client p));
  if negb ok then information "Delete room" "Admin required to delete a room."
  else
    offered ← gets (λ p, deletable_rooms (the_client p));
    run_form "Delete room" offered (λ f,
      let name := trimmed (field 0 f) in
      if is_empty name then warning "Delete room" "Room name cannot be empty."
      else if fixed_room name then warning "Delete room" "Cannot delete Lobby or General."
      else request "Delete room" (deleteRoom name) reload).

Definition page_leaveRoom : MW unit := request "Leave room" leaveRoom reload.

Definition page_sendMessage : MW unit :=
  text ← gets (λ p, trimmed (composer (chat p)));
  if is_empty text then mret tt
  else
    request "Send message" (sendMessage text)
      (flushIncomingChat ;;
       on_chat scrollTranscriptToBottom ;;
       on_chat (modify (set_composer ""))).

Definition page_logout : MW unit :=
  ok ← gets (λ p, isLoggedIn (the_client p));
  if negb ok then information "Logout" "Not logged in."
  else request "Logout" logout reload.

(** ** Events *)

Definition starts_paren (s : string) : bool := match s with String "(" _ => true | _ => false end.

Inductive Event :=
  | Background (m : Meanwhile)
  | ClickTheme | ClickDensity | ClickSignUp | ClickLogIn | ClickLogout
  | ClickJoin | ClickLeave | ClickCreate | ClickInvite | ClickKick | ClickDelete
  | ClickProfile | ClickUnread | ClickSend
  | Typed (text : string)           (* in the composer *)
  | ReturnPressed
  | DoubleClicked (row : nat)
  | Scrolled (value : Z)
  | Resized (size : Z).

#[global] Instance Meanwhile_eq_dec : EqDecision Meanwhile.
Proof. solve_decision. Defined.
#[global] Instance Event_eq_dec : EqDecision Event.
Proof. solve_decision. Defined.

(** a click on a button that may be hidden or disabled *)
Definition click (reachable : Page → bool) (m : MW unit) : MW unit :=
  ok ← gets reachable; if (ok : bool) then m else mret tt.

Definition on_event (e : Event) : MW unit :=
  match e with
  | Background m => meanwhile_step m
  | ClickTheme => toggleTheme
  | ClickDensity => toggleDensity
  | ClickSignUp => click (λ p, signUpVisible (header p)) openSignUpDialog
  | ClickLogIn => click (λ p, logInVisible (header p)) openLogInDialog
  | ClickLogout => click (λ p, logoutVisible (header p)) page_logout
  | ClickJoin => openJoinRoomDialog
  | ClickLeave => click (λ p, leaveEnabled (side p)) page_leaveRoom
  | ClickCreate => click (λ p, createRoomVisible (side p)) openCreateRoomDialog
  | ClickInvite => click (λ p, inviteVisible (side p)) openInviteDialog
  | ClickKick => click (λ p, kickVisible (side p)) openKickDialog
  | ClickDelete => click (λ p, deleteRoomVisible (side p)) openDeleteRoomDialog
  | ClickProfile => openUpdateProfileDialog
  | ClickUnread => click (λ p, unreadVisible (chat p)) (on_chat scrollTranscriptToBottom)
  | ClickSend | ReturnPressed => page_sendMessage
  | Typed text => on_chat (modify (set_composer text))
  | DoubleClicked row =>
      item ← gets (λ p, roomsList (side p) !! row);
      match item with
      | None => mret tt
      | Some item =>
          let name := row_name item in
          if is_empty name || starts_paren name then mret tt
          else enterRoom name ;; mret tt
      end
  | Scrolled v => on_chat (setValue v)
  | Resized h => on_chat (relayout (set_viewport h))
  end.

(** the constructor: the widgets as they are built, then the first refresh *)
Definition built_page (l : Life) (view : Z) (script : list Answer) : Page :=
  mkPage l Light Comfortable
    (mkHeader "" "Light" "Comfortable" true true false false "Guest")
    (mkSide [] "" true false (isLoggedIn (cl l)) false false)
    (mkChat [] view 0 false 0 "1 new" false "")
    (mkLook false Light Comfortable "" (spacingFor Comfortable))
    script [] 0.
Definition open_page (l : Life) (view : Z) (script : list Answer) : Page :=
  run_state refresh (built_page l view script).

Definition run_events (es : list Event) (p : Page) : Page :=
  foldl (λ p e, run_state (on_event e) p) p es.

End with_env.

(** * Specification *)

Section spec.
Context {env : ClientEnv} {qt : QtEnv}.

Definition badge_text (n : Z) : string := if (n =? 1)%Z then "1 new" else to_string n +:+ " new".

(** the transcript between two events: the badge shows the count, and the bar is in range *)
Definition badge_ok (c : ChatView) : Prop :=
  adjustingScroll c = false ∧ (0 <= unreadCount c < 2 ^ 31)%Z ∧
  unreadVisible c = negb (unreadCount c =? 0)%Z ∧
  (unreadVisible c = true → unreadText c = badge_text (unreadCount c)) ∧
  (0 <= barValue c <= bar_max c)%Z.
(** at the end of the transcript nothing is unread *)
Definition bottom_read (c : ChatView) : Prop := transcriptAtBottom c = true → unreadCount c = 0%Z.

Definition shown_badge (n : Z) (c : ChatView) : ChatView :=
  let n := Z.max 0 n in
  set_badge (if (n =? 0)%Z then unreadText c else badge_text n) (negb (n =? 0)%Z) (set_unread n c).
(** a line arrives: a view at the end follows it, any other stays and counts it *)
Definition appended (c : ChatView) (line : string) : ChatView :=
  let c' := set_lines (transcript c ++ [line]) c in
  if transcriptAtBottom c then shown_badge 0 (set_bar (bar_max c') c')
  else shown_badge (as_int (unreadCount c + 1)) c'.

(** the line of the transcript for a chat line; only a line without a time gets one from the
    clock *)
Definition line_text (l : ChatLine) (t : string) : Prop :=
  ∃ secs, (timestamp l ≠ 0%Z → secs = i64 (timestamp l)) ∧
    t = date_text "dd/MM/yy, HH:mm" secs +:+ "  ·  " +:+ fromStdString (author l) +:+ "  ·  " +:+ fromStdString (text l).

(** the side card and the header a client has *)
Definition side_of (c : Client) (link : HealthStatus) : SideView :=
  mkSide (room_rows c link) ("#  " +:+ roomNameOf c) (negb (String.eqb (roomNameOf c) "Lobby"))
    (isLoggedIn c) (isLoggedIn c) (isAdmin c) (isAdmin c).
Definition header_of (c : Client) (link : HealthStatus) (t : Theme) (d : Density) : HeaderView :=
  mkHeader (link_subtitle c link) (theme_label t) (density_label d) (negb (isLoggedIn c))
    (negb (isLoggedIn c)) (isLoggedIn c) (isLoggedIn c) (if isLoggedIn c then displayName c else "Guest").
(** the look that was applied is complete *)
Definition look_of (t : Theme) (d : Density) : LookView :=
  mkLook true t d (chatStyleSheet t d) (spacingFor d).
Definition look_ok (l : LookView) : Prop :=
  appearanceApplied l = true → l = look_of (appliedTheme l) (appliedDensity l).

(** the health of the link as the page reads it *)
Definition link_alive (c : Client) : bool :=
  match run_out Client.isAlive c with Ok b => b | Throw _ => false end.
End spec.

(** * Lemmas *)

(** ** The transcript *)

Section transcript.
Context {env : ClientEnv} {qt : QtEnv} {laws : QtLaws}.

Lemma showUnread_run c : showUnread c = (Ok tt, shown_badge (unreadCount c) c).
Proof using Type.
  unfold showUnread, shown_badge, modify, gets, mbind, SE_bind. destruct c as [l h v a n t s k]. cbn -[to_string].
  destruct (n <? 0)%Z eqn:E.
  - rewrite Z.max_l by lia. done.
  - rewrite Z.max_r by lia. cbn -[to_string]. by destruct (n =? 0)%Z.
Qed.
Lemma setValue_adjusting v c :
  adjustingScroll c = true →
  setValue v c = (Ok tt, set_bar (Z.max 0 (Z.min v (bar_max c))) c).
Proof using Type.
  intros Ha. unfold setValue, get, mbind, SE_bind, value_changed, modify, gets. set (w := Z.max _ _).
  destruct (w =? barValue c)%Z eqn:E.
  - apply Z.eqb_eq in E. rewrite E. by destruct c.
  - unfold mbind, SE_bind. cbn. by rewrite Ha.
Qed.

Lemma append_line_run line c :
  badge_ok c → append_line line c = (Ok tt, appended c line).
Proof using laws.
  intros (Ha & Hn & Hv & Ht & Hb). unfold append_line, relayout, appended.
  pose proof (scroll_max_grows (viewport c) (transcript c) line) as Hg.
  pose proof (scroll_max_nonneg (viewport c) (transcript c ++ [line])) as H0.
  unfold bar_max in *. unfold modify, gets, mbind, SE_bind.
  rewrite setValue_adjusting by done. cbn [transcript viewport set_lines set_adjusting set_bar barValue bar_max].
  rewrite setValue_adjusting by done. unfold bar_max.
  cbn [transcript viewport set_lines set_adjusting set_bar barValue unreadCount]. rewrite showUnread_run.
  rewrite !(Z.max_r 0 (Z.min (barValue c) _)) by lia. f_equal.
  destruct c as [l h v a n t s k]. cbn in Ha, Hb, H0, Hg |- *. subst a. unfold transcriptAtBottom, bar_max. cbn.
  destruct (scroll_max h l <=? v)%Z eqn:E; unfold shown_badge, set_badge, set_unread; cbn -[Z.max Z.min to_string as_int].
  - by rewrite (Z.max_r 0 (Z.min _ _)), Z.min_id by lia.
  - rewrite (Z.max_r 0 (Z.min _ _)), Z.min_l by lia. done.
Qed.

Lemma badge_ok_shown n c :
  adjustingScroll c = false → (n < 2 ^ 31)%Z → (0 <= barValue c <= bar_max c)%Z →
  badge_ok (shown_badge n c).
Proof using Type.
  intros Ha Hn Hb. unfold badge_ok, shown_badge. cbn -[Z.max to_string]. split_and!; [done|lia|lia|done| |apply Hb|apply Hb].
  intros H. by destruct (Z.max 0 n =? 0)%Z.
Qed.
Lemma as_int_small z : (as_int z < 2 ^ 31)%Z.
Proof using Type. unfold as_int, u32. pose proof (Z.mod_pos_bound z (2 ^ 32) ltac:(lia)). cbv zeta. destruct (Z.ltb_spec (z mod 2 ^ 32) (2 ^ 31)); lia. Qed.

Lemma badge_ok_append line c : badge_ok c → badge_ok (appended c line).
Proof using laws.
  intros (Ha & Hn & _ & _ & Hb). unfold appended.
  pose proof (scroll_max_grows (viewport c) (transcript c) line). unfold bar_max in *.
  pose proof (scroll_max_nonneg (viewport c) (transcript c ++ [line])).
  destruct (transcriptAtBottom c); (apply badge_ok_shown; [done|first [done|apply as_int_small]|]);
    unfold bar_max; cbn [viewport transcript barValue set_bar set_lines]; lia.
Qed.
Lemma bottom_read_append line c : bottom_read (appended c line).
Proof using laws.
  unfold bottom_read, appended, transcriptAtBottom, bar_max.
  pose proof (scroll_max_grows (viewport c) (transcript c) line).
  destruct (scroll_max (viewport c) (transcript c) <=? barValue c)%Z eqn:E; [done|].
  cbn -[as_int]. intros H'. lia.
Qed.

(** the other operations on the transcript *)
Lemma bottom_run c :
  badge_ok c → scrollTranscriptToBottom c = (Ok tt, shown_badge 0 (set_bar (bar_max c) c)).
Proof using laws.
  intros (Ha & Hn & Hv & Ht & Hb). unfold scrollTranscriptToBottom, modify, gets, mbind, SE_bind.
  rewrite setValue_adjusting by done. cbv beta iota. rewrite showUnread_run.
  pose proof (scroll_max_nonneg (viewport c) (transcript c)). destruct c as [l h v a n t s k]. cbn in Ha. subst a.
  unfold bar_max, shown_badge, set_badge, set_unread. cbn -[Z.max Z.min]. by rewrite Z.min_id, Z.max_r by done.
Qed.
Lemma clear_run c :
  badge_ok c → clear_transcript c = (Ok tt, shown_badge 0 (set_bar 0 (set_lines [] c))).
Proof using laws.
  intros (Ha & Hn & Hv & Ht & Hb). unfold clear_transcript, relayout, modify, gets, mbind, SE_bind.
  rewrite setValue_adjusting by done. cbv beta iota. rewrite showUnread_run. unfold modify.
  unfold bar_max. cbn [viewport transcript set_lines set_adjusting]. rewrite scroll_max_empty.
  destruct c as [l h v a n t s k]. cbn in Ha, Hb. subst a. unfold shown_badge, set_badge, set_unread, bar_max in *.
  cbn -[Z.max Z.min]. by rewrite (Z.min_r v 0), Z.max_id by lia.
Qed.
(** a moved bar clears the badge when it reaches the end *)
Definition moved (v : Z) (c : ChatView) : ChatView :=
  let c' := set_bar (Z.max 0 (Z.min v (bar_max c))) c in
  if (barValue c' =? barValue c)%Z || negb (transcriptAtBottom c') then c' else shown_badge 0 c'.
Lemma setValue_run v c : adjustingScroll c = false → setValue v c = (Ok tt, moved v c).
Proof using Type.
  intros Ha. unfold setValue, moved, get, mbind, SE_bind, modify, value_changed, gets.
  cbn [barValue set_bar]. set (w := Z.max _ _). destruct (w =? barValue c)%Z eqn:E.
  - apply Z.eqb_eq in E. rewrite E. by destruct c.
  - unfold mbind, SE_bind. cbn [adjustingScroll set_bar orb]. rewrite Ha. cbn [orb].
    destruct (transcriptAtBottom (set_bar w c)); cbn [negb]; [|done]. unfold modify; by rewrite showUnread_run.
Qed.

Lemma in_bar v c : (0 <= Z.max 0 (Z.min v (bar_max c)) <= bar_max c)%Z.
Proof using laws. pose proof (scroll_max_nonneg (viewport c) (transcript c)). unfold bar_max. lia. Qed.
Lemma badge_ok_bar v c : badge_ok c → (0 <= v <= bar_max c)%Z → badge_ok (set_bar v c).
Proof using Type. intros (Ha & Hn & Hv & Ht & _) Hb. exact (conj Ha (conj Hn (conj Hv (conj Ht Hb)))). Qed.
Lemma badge_ok_moved v c :
  adjustingScroll c = false ∧ (0 <= unreadCount c < 2 ^ 31)%Z ∧
  unreadVisible c = negb (unreadCount c =? 0)%Z ∧
  (unreadVisible c = true → unreadText c = badge_text (unreadCount c)) →
  badge_ok (moved v c).
Proof using laws.
  intros (Ha & Hn & Hv & Ht). unfold moved. pose proof (in_bar v c) as Hb.
  cbv zeta. destruct (_ || _); [exact (conj Ha (conj Hn (conj Hv (conj Ht Hb))))|].
  by apply badge_ok_shown.
Qed.
Lemma bottom_read_moved v c : bottom_read c → bottom_read (moved v c).
Proof using Type.
  unfold bottom_read, moved. cbv zeta. cbn [barValue set_bar].
  destruct (_ =? barValue c)%Z eqn:E; cbn [orb].
  - apply Z.eqb_eq in E. rewrite E. destruct c; exact id.
  - intros _. destruct (transcriptAtBottom (set_bar _ _)) eqn:Eb; cbn [negb]; [done|]. by rewrite Eb.
Qed.
End transcript.

(** ** What every operation of the page keeps *)

Section polite.
Context {env : ClientEnv}.

(** an operation of the client that neither kicks nor deletes, and keeps to the rules of the
    socket *)
Definition polite {A} (m : Client.M A) : Prop :=
  (∀ bad, Reserved bad → ∀ tr, preserves (modestly bad tr) m) ∧ tame m.

Lemma polite_take : polite takePendingChatMessages.
Proof. split; [by intros bad Hb tr c Hc|by intros c Hc]. Qed.
Lemma polite_drop : polite clearPendingChatMessages.
Proof. split; [by intros bad Hb tr c Hc|by intros c Hc]. Qed.
Lemma polite_health : polite client_health_status.
Proof.
  split; [intros bad Hb x; pose proof (modestly_alive bad x)|intros x; pose proof (tame_alive x)];
    unfold client_health_status, check_monitor, add, check, client_check; cbn [app checkAll]; solve_pres.
Qed.
Lemma polite_reader : polite reader_step.
Proof. split; [intros bad Hb tr; apply (modestly_reader bad)|apply tame_reader]. Qed.
Lemma polite_login u p : polite (login u p).
Proof. split; [intros bad Hb tr; apply (modestly_login bad)|exact (tame_plain (Login u p))]. Qed.
Lemma polite_signUp u p e : polite (signUp u p e).
Proof. split; [intros bad Hb tr; apply (modestly_signUp bad)|exact (tame_plain (SignUp u p e))]. Qed.
Lemma polite_logout : polite logout.
Proof. split; [intros bad Hb tr; apply (modestly_logout bad)|exact (tame_plain (Logout))]. Qed.
Lemma polite_update u p e : polite (updateProfile u p e).
Proof. split; [intros bad Hb tr; apply (modestly_update bad)|exact (tame_plain (UpdateProfile u p e))]. Qed.
Lemma polite_join n : polite (joinRoom n).
Proof. split; [intros bad Hb tr; apply (modestly_join bad)|exact (tame_plain (JoinRoom n))]. Qed.
Lemma polite_leave : polite leaveRoom.
Proof. split; [intros bad Hb tr; apply (modestly_leave bad)|exact (tame_plain (LeaveRoom))]. Qed.
Lemma polite_message b : polite (sendMessage b).
Proof. split; [intros bad Hb tr; apply (modestly_message bad)|exact (tame_plain (SendMessage b))]. Qed.
Lemma polite_create n p : polite (createRoom n p).
Proof. split; [intros bad Hb tr; apply (modestly_create bad)|exact (tame_plain (CreateRoom n p))]. Qed.
Lemma polite_invite n u : polite (inviteToRoom n u).
Proof. split; [intros bad Hb tr; apply (modestly_invite bad)|exact (tame_plain (Invite n u))]. Qed.
Lemma polite_history : polite loadMessageHistory.
Proof. split; [intros bad Hb tr; apply (modestly_history bad)|apply tame_history]. Qed.
End polite.
#[export] Hint Resolve polite_take polite_drop polite_health polite_reader polite_login polite_signUp
  polite_logout polite_update polite_join polite_leave polite_message polite_create polite_invite
  polite_history : pres.

(** what the page keeps whatever the window shows: [Kept] is enough for the timer and for what
    goes on behind a modal window, [KeptAll] for the events *)
Class Kept {env : ClientEnv} {qt : QtEnv} (J : Page → Prop) : Prop := {
  kept_header v p : J p → J (set_header v p);
  kept_side v p : J p → J (set_side v p);
  kept_modal a w p : J p → J (set_modal a w p);
  kept_clock p : J p → J (tick_clock p);
  kept_look t d p : J p → J (set_look (look_of t d) p);
  kept_client {A} (m : Client.M A) : polite m → preserves J (on_client m);
  kept_supervise n : preserves J (zoom life set_life (supervise n));
  kept_append line : preserves J (on_chat (append_line line))
}.
Class KeptAll {env : ClientEnv} {qt : QtEnv} (J : Page → Prop) : Prop := {
  kept_kept :: Kept J;
  kept_appearance t d p : J p → J (set_appearance t d p);
  kept_clear : preserves J (on_chat clear_transcript);
  kept_bottom : preserves J (on_chat scrollTranscriptToBottom);
  kept_composer t : preserves J (on_chat (modify (set_composer t)))
}.

Hint Extern 5 (preserves _ (modify _)) => apply preserves_modify; intros ? ?; first
  [by apply kept_header | by apply kept_side | by apply kept_modal | by apply kept_clock
  | by apply kept_look | by apply kept_appearance] : pres.

Section kept.
Context {env : ClientEnv} {qt : QtEnv} {J : Page → Prop}.

Section behind.
Context {K : Kept J}.
Hint Resolve kept_client kept_supervise kept_append : pres.

Lemma kept_line l : preserves J (append_chat_line l).
Proof using K. unfold append_chat_line, appendMessage, formatChatTime. solve_pres. Qed.
Lemma kept_system a t n : preserves J (appendMessage a t n).
Proof using K. unfold appendMessage, formatChatTime. solve_pres. Qed.
Hint Resolve kept_line kept_system : pres.
Lemma kept_flush : preserves J flushIncomingChat.
Proof using K. unfold flushIncomingChat. solve_pres. Qed.
Lemma kept_applyAppearance : preserves J applyAppearance.
Proof using K. unfold applyAppearance. cbv zeta. solve_pres. Qed.
Hint Resolve kept_flush kept_applyAppearance : pres.
Lemma kept_refresh : preserves J refresh.
Proof using K. unfold refresh. cbv zeta. solve_pres. Qed.
Hint Resolve kept_refresh : pres.
Lemma kept_meanwhile m : preserves J (meanwhile_step m).
Proof using K. unfold meanwhile_step. solve_pres. Qed.
Hint Resolve kept_meanwhile : pres.
Lemma kept_exec w : preserves J (exec w).
Proof using K. unfold exec. solve_pres. Qed.
Hint Resolve kept_exec : pres.
Lemma kept_information t x : preserves J (information t x).
Proof using K. unfold information. solve_pres. Qed.
Lemma kept_warning t x : preserves J (warning t x).
Proof using K. unfold warning. solve_pres. Qed.
End behind.

Section all.
Context {K : KeptAll J}.
Hint Resolve kept_client kept_append kept_line kept_system kept_flush kept_refresh kept_meanwhile
  kept_exec kept_information kept_warning kept_clear kept_bottom kept_composer : pres.

Ltac kept_all := pose proof (kept_kept (J := J)); solve_pres.

Lemma kept_reload : preserves J reload.
Proof using K. unfold reload, resetTranscriptForCurrentRoom. kept_all. Qed.
Hint Resolve kept_reload : pres.
Lemma kept_enterRoom n : preserves J (enterRoom n).
Proof using K. unfold enterRoom. kept_all. Qed.
Hint Resolve kept_enterRoom : pres.
Lemma kept_request t (op : Client.M string) k :
  preserves J (on_client op) → preserves J k → preserves J (request t op k).
Proof using K. intros Ho Hk. unfold request. kept_all. Qed.
Lemma kept_form t l k : (∀ f, preserves J (k f)) → preserves J (run_form t l k).
Proof using K. intros Hk. unfold run_form. kept_all. Qed.
Lemma kept_about t ft r e op d :
  (∀ a b, preserves J (on_client (op a b))) → preserves J (about_room t ft r e op d).
Proof using K.
  intros Ho. unfold about_room. pres_step; [apply preserves_gets|intros here]. destruct (String.eqb _ _); [kept_all|].
  apply kept_form. intros f. cbv zeta. destruct (is_empty _); [kept_all|]. apply kept_request; [done|kept_all].
Qed.

(** the two clicks of an administrator need more than [polite] *)
Definition ordinary (e : Event) : bool :=
  match e with ClickKick | ClickDelete | Scrolled _ | Resized _ => false | _ => true end.

Ltac page_op := repeat first
  [ match goal with
    | |- preserves J (request _ _ _) => apply kept_request
    | |- preserves J (run_form _ _ _) => apply kept_form; intros ?
    | |- preserves J (about_room _ _ _ _ _ _) => apply kept_about; intros ? ?
    | |- preserves J (on_client _) => solve [apply kept_client; eauto with pres nocore]
    | |- preserves J (click _ _) => unfold click
    end
  | progress pres_step ].

Lemma kept_event e : ordinary e = true → preserves J (on_event e).
Proof using K.
  intros He. pose proof (kept_kept (J := J)).
  assert (preserves J toggleTheme ∧ preserves J toggleDensity) as [Ht Hd].
  { split; apply preserves_modify; intros; by apply kept_appearance. }
  destruct e; try done; cbn [on_event]; try done;
    unfold openSignUpDialog, openLogInDialog, page_logout, openJoinRoomDialog, page_leaveRoom, openCreateRoomDialog,
      openInviteDialog, openUpdateProfileDialog, page_sendMessage; page_op.
Qed.
(** the two clicks of an administrator, for an invariant that their request keeps *)
Lemma kept_kick : (∀ n u, preserves J (on_client (kickFromRoom n u))) → preserves J (on_event ClickKick).
Proof using K. intros Hk. pose proof (kept_kept (J := J)). cbn [on_event]. unfold click, openKickDialog. page_op. Qed.
Lemma kept_delete : (∀ n, preserves J (on_client (Client.deleteRoom n))) → preserves J (on_event ClickDelete).
Proof using K. intros Hd. pose proof (kept_kept (J := J)). cbn [on_event]. unfold click, openDeleteRoomDialog. page_op. Qed.
(** any request at all *)
Lemma kept_admin e :
  (∀ n u, preserves J (on_client (kickFromRoom n u))) → (∀ n, preserves J (on_client (Client.deleteRoom n))) →
  match e with Scrolled _ | Resized _ => False | _ => True end → preserves J (on_event e).
Proof using K. intros Hk Hd He. destruct e; try done; first [by apply kept_event|by apply kept_kick|by apply kept_delete]. Qed.
(** the same two clicks when the client is not an administrator's *)
Lemma refused_admin e :
  match e with ClickKick | ClickDelete => True | _ => False end →
  triple (λ p, J p ∧ isAdmin (the_client p) = false) (on_event e) (λ _, J).
Proof using K.
  intros He p [HJ Ha]. pose proof (kept_kept (J := J)).
  destruct e; try done; cbn [on_event]; unfold click, openKickDialog, openDeleteRoomDialog, run_out, run_state, mbind, SE_bind, gets;
    (destruct (_ (side p)); [|done]); rewrite Ha; cbn [negb];
    [exact (kept_information _ _ p HJ)|exact (kept_information _ _ p HJ)].
Qed.
End all.
End kept.

(** ** Every operation of the page returns *)

Section returning.
Context {env : ClientEnv} {qt : QtEnv}.

Lemma total_on {A} (m : Client.M A) : total m → total (on_client m).
Proof. intros Hm. by apply total_zoom, total_zoom. Qed.
Lemma total_chat {A} (m : MT A) : total m → total (on_chat m).
Proof. apply total_zoom. Qed.
Hint Resolve client_reads total_act total_client_time total_client_send total_reader total_waitFor total_alive
  total_room_directory push_total noteInbound_total total_on total_chat : total.
Hint Resolve total_read_stop : total.

Ltac client_total := unfold login, signUp, stop, disconnect, updateProfile, joinRoom, leaveRoom, sendMessage, createRoom,
  loadMessageHistory, inviteToRoom, kickFromRoom, deleteRoom, logout, takePendingChatMessages, with_alive, logged_in,
  room_or_current, exchange, signed_in, accepted, enter_room, clearPendingChatMessages; solve_total.

Hint Resolve total_resume : total.
Lemma total_behind n : total (zoom life set_life (supervise n)).
Proof. apply total_zoom, total_supervise. Qed.
Hint Resolve total_behind : total.

Ltac chat_total := apply total_chat; unfold append_line, scrollTranscriptToBottom, clear_transcript, relayout, setValue,
  value_changed, showUnread; solve_total.
Lemma total_line a t n : total (appendMessage a t n).
Proof. unfold appendMessage, formatChatTime. solve_total; chat_total. Qed.
Hint Resolve total_line : total.
Lemma total_lines l : total (for_each l append_chat_line).
Proof. unfold append_chat_line. solve_total. Qed.
Lemma total_flush : total flushIncomingChat.
Proof. pose proof total_lines. unfold flushIncomingChat. solve_total. apply total_on. client_total. Qed.
Hint Resolve total_lines total_flush : total.
Lemma total_refresh : total refresh.
Proof.
  unfold refresh, applyAppearance, client_health_status, check_monitor, add, check, client_check. cbn [app checkAll].
  cbv zeta. solve_total. apply total_on. solve_total.
Qed.
Hint Resolve total_refresh : total.
Lemma total_exec w : total (exec w).
Proof. unfold exec, meanwhile_step. solve_total. Qed.
Hint Resolve total_exec : total.
Lemma total_reload : total reload.
Proof.
  unfold reload, resetTranscriptForCurrentRoom. solve_total; first [apply total_on; client_total|chat_total].
Qed.
Hint Resolve total_reload : total.
Lemma total_request t op k : total op → total k → total (request t op k).
Proof. intros. unfold request, warning. solve_total. Qed.
Lemma total_form t l k : (∀ f, total (k f)) → total (run_form t l k).
Proof. intros. unfold run_form. solve_total. Qed.
Lemma total_enterRoom n : total (enterRoom n).
Proof. unfold enterRoom, warning. solve_total. apply total_on. client_total. Qed.
Hint Resolve total_enterRoom : total.

Lemma total_event e : total (on_event e).
Proof.
  assert (∀ t x, total (information t x) ∧ total (warning t x)) as Hm by (intros; unfold information, warning; split; solve_total).
  pose proof (λ t x, proj1 (Hm t x)). pose proof (λ t x, proj2 (Hm t x)).
  destruct e; cbn [on_event]; unfold click, meanwhile_step, toggleTheme, toggleDensity, openSignUpDialog, openLogInDialog,
    page_logout, openJoinRoomDialog, page_leaveRoom, openCreateRoomDialog, openInviteDialog, openKickDialog, openDeleteRoomDialog,
    openUpdateProfileDialog, page_sendMessage, about_room;
    repeat first [ match goal with
                   | |- total (request _ _ _) => apply total_request
                   | |- total (run_form _ _ _) => apply total_form; intros ?
                   | |- total (on_chat _) => solve [chat_total]
                   end
                 | progress total_step ]; client_total.
Qed.
End returning.

(** ** Instances *)

Section instances.
Context {env : ClientEnv} {qt : QtEnv}.

Lemma chat_client I {A} (m : Client.M A) : preserves (λ p, I (chat p)) (on_client m).
Proof. intros p Hp. unfold run_state, on_client, on_cl, zoom. by destruct (m _). Qed.
Lemma on_chat_kept (I : ChatView → Prop) {A} (m : MT A) :
  preserves I m → preserves (λ p, I (chat p)) (on_chat m).
Proof. intros Hm. by apply (preserves_zoom _ I). Qed.

(** an invariant of the transcript *)
Lemma chat_kept (I : ChatView → Prop) :
  (∀ line, preserves I (append_line line)) → preserves I clear_transcript →
  preserves I scrollTranscriptToBottom → (∀ t, preserves I (modify (set_composer t))) →
  KeptAll (λ p, I (chat p)).
Proof.
  intros Ha Hc Hb Ht. split; [split|..]; try done; try (by intros; apply on_chat_kept).
  - intros A m _. apply chat_client.
  - intros n p Hp. unfold run_state, zoom. by destruct (supervise n _).
Qed.
(** the rules of the socket hold behind the window *)
Lemma orderly_client {A} (m : Client.M A) : tame m → preserves (λ p, orderly (life p)) (on_client m).
Proof. intros Hm. apply (preserves_zoom _ orderly); [|done|done]. intros l Hl. by apply kept_orderly. Qed.
Lemma life_kept : KeptAll (λ p, orderly (life p)).
Proof.
  assert (∀ A (m : MT A), preserves (λ p, orderly (life p)) (on_chat m)) as Hc.
  { intros A m p Hp. unfold run_state, on_chat, zoom. by destruct (m _). }
  split; [split|..]; try done; try (by intros; apply Hc).
  - intros A m [_ Hm]. by apply orderly_client.
  - intros n. apply (preserves_zoom _ orderly); [|done|done]. intros l Hl. by apply supervise_orderly.
Qed.
Lemma look_kept : KeptAll (λ p, look_ok (look p)).
Proof.
  split; [split|..]; try done; intros; intros p Hp; unfold run_state, on_client, on_chat, on_cl, zoom;
    first [by destruct (m _)|by destruct (supervise _ _)|by destruct (append_line _ _)|by destruct (clear_transcript _)
          |by destruct (scrollTranscriptToBottom _)|done].
Qed.

Context (bad : PacketType → bool) {only : Reserved bad} (tr : list LinkAction).
Hint Resolve modestly_time modestly_directory modestly_push modestly_reader modestly_wait modestly_alive : pres.
Hint Extern 2 (preserves (modestly bad tr) (act _)) => apply modestly_act; first [exact Logic.I|assumption] : pres.
Hint Extern 5 (preserves (modestly bad tr) (modify _)) =>
  apply preserves_modify; intros ? ?; repeat case_match; assumption : pres.
Lemma modest_read : preserves (modestly bad tr) next_read.
Proof. by intros c Hc. Qed.
Hint Resolve modest_read : pres.
Lemma modest_stop_read : preserves (modestly bad tr) Client.stop_requested.
Proof. unfold Client.stop_requested. solve_pres. Qed.
Lemma modest_disconnect : preserves (modestly bad tr) disconnect.
Proof. unfold disconnect. solve_pres. Qed.
Hint Resolve modest_stop_read modest_disconnect modestly_note : pres.
Lemma modest_resume : preserves (modestly bad tr) resumeSession.
Proof using only.
  assert (preserves (modestly bad tr) receivePacketFor).
  { assert (∀ n, preserves (modestly bad tr) (wait_incoming n)) by (induction n; cbn [wait_incoming]; solve_pres).
    unfold receivePacketFor, receivePacket, pop. solve_pres. }
  assert (∀ n t, preserves (modestly bad tr) (wait_for_loop n t)) by (intros n t; induction n; cbn [wait_for_loop]; solve_pres).
  assert (∀ n b p, bad (Packet.type p) = false → preserves (modestly bad tr) (resume_loop n b p)).
  { induction n as [|n IH]; intros b p Hp; cbn [resume_loop]; unfold waitFor_timeout, isConnected; [solve_pres|].
    pose proof (IH false p Hp). pose proof (modestly_send bad tr p Hp). solve_pres. }
  unfold resumeSession. do 4 (pres_step; [solve_pres|intros ?]). destruct a0, a1 as [u|]; try solve [solve_pres].
  cbv zeta. pres_step; [solve_pres|intros now]. destruct (buildReconnect _ _ _) as [p|e] eqn:E; [|solve_pres].
  apply H1. rewrite (makes_required _ _ _ _ _ _ now p E). by apply reserved.
Qed.
Hint Resolve modest_resume : pres.
Lemma modest_supervise n : preserves (λ l, modestly bad tr (cl l)) (supervise n).
Proof using only.
  assert (∀ k, preserves (modestly bad tr) (reader_steps k)) by (intros k; induction k; cbn [reader_steps]; solve_pres).
  assert (∀ k, preserves (modestly bad tr) (watch k)) by (intros k; induction k; cbn [watch]; solve_pres).
  assert (∀ k a h, preserves (modestly bad tr) (dial_loop k a h)).
  { induction k as [|k IH]; intros a h; cbn [dial_loop]; unfold Client.connect, rememberConnected, markReconnecting,
      forgetConnected, failAndWait; cbv zeta; solve_pres. }
  assert (∀ A (m : Client.M A), preserves (modestly bad tr) m → preserves (λ l, modestly bad tr (cl l)) (on_cl m)) as Hz.
  { intros A m Hm. by apply (preserves_zoom _ (modestly bad tr)). }
  unfold supervise. pres_step; [solve_pres|intros going]. destruct (negb going); [solve_pres|].
  pres_step; [apply Hz|intros again].
  - unfold link_round, markReconnecting, forgetConnected, failAndWait, dial. cbv zeta. solve_pres.
  - unfold supervisor_ends. apply preserves_when. pres_step; [apply Hz; solve_pres|intros _]. by apply preserves_modify.
Qed.
Lemma modest_kept : KeptAll (λ p, modestly bad tr (the_client p)).
Proof using only.
  assert (∀ A (m : MT A), preserves (λ p, modestly bad tr (the_client p)) (on_chat m)) as Hc.
  { intros A m p Hp. unfold run_state, on_chat, zoom. by destruct (m _). }
  split; [split|..]; try done; try (by intros; apply Hc).
  - intros A m [Hm _]. apply (preserves_zoom _ (λ l, modestly bad tr (cl l))); [|done|done].
    apply (preserves_zoom _ (modestly bad tr)); [by apply Hm|done|done].
  - intros n. apply (preserves_zoom _ (λ l, modestly bad tr (cl l))); [|done|done]. apply modest_supervise.
Qed.
End instances.

(** ** Invariants of the transcript *)

Section badges.
Context {env : ClientEnv} {qt : QtEnv} {laws : QtLaws}.

Lemma preserves_run (I : ChatView → Prop) (m : MT unit) (f : ChatView → ChatView) :
  (∀ c, I c → m c = (Ok tt, f c)) → (∀ c, I c → I (f c)) → preserves I m.
Proof. intros Hm Hf c Hc. unfold run_state. rewrite (Hm c Hc). by apply Hf. Qed.

Lemma badge_kept : KeptAll (λ p, badge_ok (chat p)).
Proof using laws.
  apply chat_kept.
  - intros line. eapply preserves_run; [apply append_line_run|apply badge_ok_append].
  - eapply preserves_run; [apply clear_run|]. intros c (Ha & Hn & Hv & Ht & Hb). apply badge_ok_shown; [done|done|].
    unfold bar_max. cbn. by rewrite scroll_max_empty.
  - eapply preserves_run; [apply bottom_run|]. intros c (Ha & Hn & Hv & Ht & Hb). apply badge_ok_shown; [done|done|].
    pose proof (scroll_max_nonneg (viewport c) (transcript c)). unfold bar_max in *. cbn. lia.
  - intros t c Hc. exact Hc.
Qed.
Definition read_ok (c : ChatView) : Prop := badge_ok c ∧ bottom_read c.
Lemma read_kept : KeptAll (λ p, read_ok (chat p)).
Proof using laws.
  apply chat_kept.
  - intros line. eapply preserves_run; [intros c [Hc' _]; by apply append_line_run|].
    intros c [Hc' _]. split; [by apply badge_ok_append|apply bottom_read_append].
  - eapply preserves_run; [intros c [Hc' _]; by apply clear_run|]. intros c [(Ha & Hn & Hv & Ht' & Hb') _].
    split; [|by intros _]. apply badge_ok_shown; [done|done|]. unfold bar_max. cbn. by rewrite scroll_max_empty.
  - eapply preserves_run; [intros c [Hc' _]; by apply bottom_run|]. intros c [(Ha & Hn & Hv & Ht' & Hb') _].
    split; [|by intros _]. apply badge_ok_shown; [done|done|].
    pose proof (scroll_max_nonneg (viewport c) (transcript c)). unfold bar_max in *. cbn. lia.
  - intros t c Hc'. exact Hc'.
Qed.
Lemma badge_scroll v : preserves badge_ok (setValue v).
Proof using laws.
  eapply preserves_run; [intros c (Ha & _); by apply setValue_run|]. intros c (Ha & Hn & Hv & Ht & _).
  by apply badge_ok_moved.
Qed.
Lemma read_scroll v : preserves read_ok (setValue v).
Proof using laws.
  eapply preserves_run; [intros c [(Ha & _) _]; by apply setValue_run|]. intros c [(Ha & Hn & Hv & Ht & _) Hr].
  split; [by apply badge_ok_moved|by apply bottom_read_moved].
Qed.
Lemma badge_resize h : preserves badge_ok (relayout (set_viewport h)).
Proof using laws.
  eapply preserves_run.
  - intros c (Ha & _). unfold relayout, modify, gets, mbind, SE_bind. by apply setValue_run.
  - intros c (Ha & Hn & Hv & Ht & _). by apply badge_ok_moved.
Qed.

(** only lines arrived since [c0] *)
Definition only_lines (c0 c : ChatView) : Prop := badge_ok c ∧ ∃ new, c = foldl appended c0 new.
Lemma lines_kept c0 : Kept (λ p, only_lines c0 (chat p)).
Proof using laws.
  split; try done.
  - intros A m _. apply chat_client.
  - intros n p Hp. unfold run_state, zoom. by destruct (supervise n _).
  - intros line. apply on_chat_kept. eapply preserves_run; [intros c [Hc _]; by apply append_line_run|].
    intros c [Hc [new ->]]. split; [by apply badge_ok_append|]. exists (new ++ [line]). by rewrite foldl_app.
Qed.
End badges.

(** ** Lines that arrive *)

Section arriving.
Context {env : ClientEnv} {qt : QtEnv} {laws : QtLaws}.

Lemma transcript_appended new c : transcript (foldl appended c new) = transcript c ++ new.
Proof using Type.
  revert c. induction new as [|x new IH]; intros c; cbn [foldl]; [by rewrite app_nil_r|]. rewrite IH. unfold appended.
  destruct (transcriptAtBottom c); cbn; by rewrite <- app_assoc.
Qed.
Lemma arrive_away new c :
  transcriptAtBottom c = false → (0 <= unreadCount c)%Z → (unreadCount c + Z.of_nat (length new) < 2 ^ 31)%Z →
  barValue (foldl appended c new) = barValue c ∧
  unreadCount (foldl appended c new) = (unreadCount c + Z.of_nat (length new))%Z.
Proof using laws.
  revert c. induction new as [|x new IH]; intros c Hb H0 Hn; cbn [foldl length] in *; [by rewrite Z.add_0_r|].
  assert (as_int (unreadCount c + 1) = unreadCount c + 1)%Z as Hi.
  { unfold as_int, u32. rewrite Z.mod_small by lia. cbv zeta. destruct (Z.ltb_spec (unreadCount c + 1) (2 ^ 31)); lia. }
  set (c1 := appended c x).
  assert (barValue c1 = barValue c ∧ unreadCount c1 = unreadCount c + 1 ∧ transcriptAtBottom c1 = false)%Z as (Hv & Hu & Hb1).
  { unfold c1, appended, transcriptAtBottom, bar_max in *. pose proof (scroll_max_grows (viewport c) (transcript c) x).
    rewrite Hb. cbn -[Z.max as_int]. rewrite Hi, Z.max_r by lia. split_and!; [done|done|lia]. }
  destruct (IH c1) as [E1 E2]; [done|lia|lia|]. rewrite E1, E2. split; [done|lia].
Qed.
Lemma arrive_end new c :
  transcriptAtBottom c = true →
  transcriptAtBottom (foldl appended c new) = true ∧
  (new ≠ [] ∨ unreadCount c = 0%Z → unreadCount (foldl appended c new) = 0%Z).
Proof using Type.
  revert c. induction new as [|x new IH]; intros c Hb; cbn [foldl]; [split; [done|by intros [|]]|].
  set (c1 := appended c x).
  assert (transcriptAtBottom c1 = true ∧ unreadCount c1 = 0%Z) as [Hb1 Hu1].
  { unfold c1, appended. rewrite Hb. unfold transcriptAtBottom, bar_max. cbn. split; [lia|done]. }
  destruct (IH c1 Hb1) as [E1 E2]. split; [done|]. intros _. apply E2. by right.
Qed.

(** the parts of the page a line does not touch *)
Definition frame (p p' : Page) : Prop :=
  life p' = life p ∧ header p' = header p ∧ side p' = side p ∧ look p' = look p ∧
  appearanceTheme p' = appearanceTheme p ∧ appearanceDensity p' = appearanceDensity p.
Lemma line_run l p :
  badge_ok (chat p) →
  ∃ line p', append_chat_line l p = (Ok tt, p') ∧ chat p' = appended (chat p) line ∧ line_text l line ∧ frame p p'.
Proof using laws.
  intros Hb. unfold append_chat_line, appendMessage, formatChatTime, mbind, SE_bind, gets, line_text.
  destruct (Z.eqb_spec (timestamp l) 0) as [H0|H0]; cbn [negb]; unfold modify, mret, SE_ret; unfold on_chat, zoom;
    [|change (chat (tick_clock p)) with (chat p)]; rewrite (append_line_run _ _ Hb); (do 2 eexists); (split; [reflexivity|]);
    (split; [reflexivity|]); (split; [|by unfold frame]); (eexists; split; [|reflexivity]); intros; done.
Qed.
Lemma lines_run ls p :
  badge_ok (chat p) →
  ∃ new p', for_each ls append_chat_line p = (Ok tt, p') ∧ chat p' = foldl appended (chat p) new ∧
    Forall2 line_text ls new ∧ frame p p'.
Proof using laws.
  revert p. induction ls as [|l ls IH]; intros p Hb; cbn [for_each].
  - exists [], p. by unfold frame.
  - unfold mbind, SE_bind. destruct (line_run l p Hb) as (line & p1 & -> & Hc & Ht & Hf).
    destruct (IH p1) as (new & p2 & -> & Hc2 & Hl & Hf2); [rewrite Hc; by apply badge_ok_append|].
    exists (line :: new), p2. split; [done|]. rewrite Hc2, Hc. cbn. split; [done|]. split; [by constructor|].
    destruct Hf as (?&?&?&?&?&?), Hf2 as (?&?&?&?&?&?). unfold frame. split_and!; congruence.
Qed.

Lemma health_run c :
  ∃ n, client_health_status c = (Ok (if link_alive c then Up else Down), set_creads n c).
Proof using Type.
  unfold client_health_status, check_monitor, add, check, client_check, link_alive. cbn [app checkAll].
  unfold run_out, mbind, SE_bind, mret, SE_ret.
  assert (∃ b n, Client.isAlive c = (Ok b, set_creads n c)) as (b & n & ->); [|exists n; by destruct b].
  unfold Client.isAlive, isConnected, heartbeatMissed, Client.steady_now, next_read, mbind, SE_bind, gets, mret, SE_ret.
  destruct (negb (connected c)) eqn:E.
  { exists false, (creads c). by destruct c. }
  cbn. rewrite ?E. destruct (lastInboundMs c <=? 0)%Z; cbn; [|by do 2 eexists]. exists false, (creads c). by destruct c.
Qed.

Lemma rows_unchanged_eq a b : rows_unchanged a b = true → a = b.
Proof using Type.
  revert b. induction a as [|[n l] a IH]; intros [|[n' l'] b]; cbn; try done.
  intros [[->%String.eqb_eq ->%String.eqb_eq]%andb_prop H]%andb_prop. by rewrite (IH b H).
Qed.
Lemma appearance_run p :
  look_ok (look p) →
  applyAppearance p = (Ok tt, set_look (look_of (appearanceTheme p) (appearanceDensity p))
    (set_header (mkHeader (subtitle (header p)) (theme_label (appearanceTheme p)) (density_label (appearanceDensity p))
       (signUpVisible (header p)) (logInVisible (header p)) (userChipVisible (header p)) (logoutVisible (header p))
       (userChipText (header p))) p)).
Proof using Type.
  intros Hl. unfold applyAppearance, get, gets, modify, mbind, SE_bind. cbv beta iota zeta.
  change (look (set_header ?v p)) with (look p).
  destruct (appearanceApplied (look p)) eqn:Ea; cbn [andb]; [|done].
  destruct (bool_decide _) eqn:Et; cbn [andb]; [|done]. destruct (bool_decide (appearanceDensity p = _)) eqn:Ed; [|done].
  apply bool_decide_eq_true in Et, Ed. specialize (Hl Ea). rewrite <- Et, <- Ed in Hl. unfold mret, SE_ret.
  rewrite <- Hl. by destruct p.
Qed.
Lemma on_client_run {A} (m : Client.M A) p o c :
  m (the_client p) = (o, c) → on_client m p = (o, set_life (set_cl c (life p)) p).
Proof using Type. unfold on_client, on_cl, zoom, the_client. intros E. by rewrite E. Qed.

Lemma refresh_run p :
  badge_ok (chat p) → look_ok (look p) →
  let c := the_client p in
  let link := if link_alive (Client.set_chat [] c) then Up else Down in
  ∃ p', refresh p = (Ok tt, p') ∧
    (∃ n, the_client p' = set_creads n (Client.set_chat [] c)) ∧
    header p' = header_of c link (appearanceTheme p) (appearanceDensity p) ∧
    side p' = side_of c link ∧
    look p' = look_of (appearanceTheme p) (appearanceDensity p) ∧
    ∃ new, Forall2 line_text (pendingChat c) new ∧ transcript (chat p') = transcript (chat p) ++ new.
Proof using laws.
  intros Hb Hl c link. set (p0 := set_life (set_cl (Client.set_chat [] c) (life p)) p).
  destruct (lines_run (pendingChat c) p0) as (new & p1 & Hrun & Hc & Hn & Fl & Fh & Fs & Fk & Ft & Fd); [exact Hb|].
  assert (the_client p1 = Client.set_chat [] c) as Hc1 by (unfold the_client; by rewrite Fl).
  unfold refresh, flushIncomingChat, mbind, SE_bind.
  change (on_client takePendingChatMessages p) with (Ok (pendingChat c), p0).
  cbv beta iota. rewrite Hrun, appearance_run by (by rewrite Fk).
  match goal with |- context [on_client client_health_status ?q] => set (p2 := q) end.
  destruct (health_run (the_client p2)) as [n Hh]. change (the_client p2) with (the_client p1) in Hh at 2 3. rewrite !Hc1 in Hh.
  rewrite (on_client_run _ p2 _ _ Hh). cbv beta iota zeta. unfold gets, modify. cbv beta iota.
  change (the_client (set_life (set_cl ?v ?l) ?q)) with v.
  eexists. split; [reflexivity|].
  split; [by exists n|]. split; [cbn; by rewrite Ft, Fd|]. split; [|split; [cbn; by rewrite Ft, Fd|]].
  - unfold side_of. cbn [side set_side]. f_equal. cbn.
    destruct (rows_unchanged _ _) eqn:E; [by apply rows_unchanged_eq in E|done].
  - exists new. split; [done|]. cbn. rewrite Hc. apply transcript_appended.
Qed.
End arriving.

(** ** Runs *)

Section events.
Context {env : ClientEnv} {qt : QtEnv} {laws : QtLaws}.

(** an invariant of the page that any request keeps, for the events of a run *)
Lemma events_kept (J : Page → Prop) es p :
  KeptAll J → (∀ A (m : Client.M A), tame m → preserves J (on_client m)) →
  (∀ v, Scrolled v ∈ es → preserves J (on_chat (setValue v))) →
  (∀ h, Resized h ∈ es → preserves J (on_chat (relayout (set_viewport h)))) →
  J p → J (run_events es p).
Proof using Type.
  intros K Hc Hs Hr. revert p. induction es as [|e es IH]; intros p Hp; [done|]. cbn. apply IH.
  { intros v Hv. apply Hs. by right. }
  { intros h Hh. apply Hr. by right. }
  assert (preserves J (on_event e)) as He; [|exact (He p Hp)].
  destruct e; try (apply kept_admin; [intros n u; apply Hc, tame_kick|intros n; apply Hc, tame_delete|done]);
    [apply Hs; by left|apply Hr; by left].
Qed.
Lemma opened (J : Page → Prop) l view script :
  Kept J → J (built_page l view script) → J (open_page l view script).
Proof using Type. intros K H. exact (kept_refresh (J := J) _ H). Qed.

Lemma badge_built l view script : read_ok (chat (built_page l view script)).
Proof using laws.
  split; [|done]. unfold badge_ok, bar_max. cbn. rewrite scroll_max_empty. split_and!; done.
Qed.
Lemma badge_events l view script es : badge_ok (chat (run_events es (open_page l view script))).
Proof using laws.
  pose proof badge_kept as K. pattern (run_events es (open_page l view script)). set (J := λ p : Page, _).
  assert (KeptAll J) by exact K.
  apply events_kept; [done|intros A m _; apply chat_client| | |].
  - intros v _. apply (on_chat_kept badge_ok), badge_scroll.
  - intros h _. apply (on_chat_kept badge_ok), badge_resize.
  - apply (opened J); [apply K|apply badge_built].
Qed.
Lemma read_events l view script es :
  (∀ h, Resized h ∉ es) → read_ok (chat (run_events es (open_page l view script))).
Proof using laws.
  intros Hn. pose proof read_kept as K. pattern (run_events es (open_page l view script)). set (J := λ p : Page, _).
  assert (KeptAll J) by exact K.
  apply events_kept; [done|intros A m _; apply chat_client| | |].
  - intros v _. apply (on_chat_kept read_ok), read_scroll.
  - intros h Hh. by destruct (Hn h).
  - apply (opened J); [apply K|apply badge_built].
Qed.
Lemma look_events l view script es : look_ok (look (run_events es (open_page l view script))).
Proof using Type.
  pose proof look_kept as K. pattern (run_events es (open_page l view script)). set (J := λ p : Page, _).
  assert (KeptAll J) by exact K.
  assert (∀ A (m : SE ChatView A), preserves J (on_chat m)) as Hch by (intros A m q Hq; unfold J, run_state, on_chat, zoom; by destruct (m _)).
  apply events_kept; [done| | | |].
  - intros A m _ q Hq. unfold J, run_state, on_client, on_cl, zoom. by destruct (m _).
  - intros v _. apply Hch.
  - intros h _. apply Hch.
  - apply (opened J); [apply K|done].
Qed.
Lemma orderly_events l view script es : orderly l → orderly (life (run_events es (open_page l view script))).
Proof using Type.
  intros Hl. pose proof life_kept as K. pattern (run_events es (open_page l view script)). set (J := λ p : Page, _).
  assert (KeptAll J) by exact K.
  assert (∀ A (m : SE ChatView A), preserves J (on_chat m)) as Hch by (intros A m q Hq; unfold J, run_state, on_chat, zoom; by destruct (m _)).
  apply events_kept; [done|intros A m; apply orderly_client|intros v _; apply Hch|intros h _; apply Hch|].
  apply (opened J); [apply K|exact Hl].
Qed.
End events.

(** * Theorems *)

(** C15. A refresh makes the window show the client's state, whatever it showed before: after
    any events, the header, the room list with its placeholder, the title, the buttons and the
    look are the ones of the client as it is then; the link counts as up exactly when the
    client is alive, and never as degraded; the chat lines that waited are at the end of the
    transcript, each once, in order, with time, author and text.  The list names every room
    of the client once, in the order of the ids. *)
Theorem refresh_shows {env : ClientEnv} `{QtLaws} l view script es :
  let p := run_events es (open_page l view script) in
  let c := the_client p in
  let link := if link_alive (Client.set_chat [] c) then Up else Down in
  (∃ p', refresh p = (Ok tt, p') ∧
    (∃ n, the_client p' = set_creads n (Client.set_chat [] c)) ∧
    header p' = header_of c link (appearanceTheme p) (appearanceDensity p) ∧
    side p' = side_of c link ∧
    look p' = look_of (appearanceTheme p) (appearanceDensity p) ∧
    ∃ new, Forall2 line_text (pendingChat c) new ∧ transcript (chat p') = transcript (chat p) ++ new) ∧
  ∃ sorted, sorted ≡ₚ rooms c ∧ Sorted by_id sorted ∧
    (rooms c ≠ [] →
     roomsList (side_of c link) =
       (λ r, mkRow (fromStdString (Room.name r)) (roomListLabel r (roomNameOf c))) <$> sorted).
Proof.
  intros p c link. split; [apply refresh_run; [apply badge_events|apply look_events]|].
  exists (sort_rooms (rooms c)). split; [apply sort_perm|]. split; [apply sort_sorted|].
  intros Hne. cbn. unfold room_rows. pose proof (sort_perm (rooms c)) as Hp.
  destruct (sort_rooms (rooms c)) as [|r rs]; [|done]. by apply Permutation_nil_l in Hp.
Qed.

(** C17. The unread badge tells the truth: after any events of the window, the badge is shown
    exactly when the count is not zero, with the count in its text; the scroll bar is within
    its range and the guard against scroll noise is off.  As long as the window was not
    resized, nothing is unread when the view is at the end of the transcript. *)
Theorem unread_badge {env : ClientEnv} `{QtLaws} l view script es :
  let c := chat (run_events es (open_page l view script)) in
  badge_ok c ∧ ((∀ h, Resized h ∉ es) → transcriptAtBottom c = true → unreadCount c = 0%Z).
Proof.
  intros c. split; [apply badge_events|]. intros Hn. exact (proj2 (read_events l view script es Hn)).
Qed.

(** C16. A scrolled-up transcript stays put: whatever the timer, the reader and the supervisor
    do after any events of the window, they only add lines at the end of the transcript.  If
    the view was not at the end, it does not move and the count grows by exactly the number of
    new lines; if it was, it still is, and nothing new is unread. *)
Theorem reader_keeps_place {env : ClientEnv} `{QtLaws} l view script es (ms : list Meanwhile) :
  let p := run_events es (open_page l view script) in
  let c := chat p in
  let c' := chat (run_events (Background <$> ms) p) in
  ∃ new, transcript c' = transcript c ++ new ∧ composer c' = composer c ∧
    (transcriptAtBottom c = false → (unreadCount c + Z.of_nat (length new) < 2 ^ 31)%Z →
     barValue c' = barValue c ∧ unreadCount c' = (unreadCount c + Z.of_nat (length new))%Z) ∧
    (transcriptAtBottom c = true →
     transcriptAtBottom c' = true ∧ (new ≠ [] → unreadCount c' = 0%Z)).
Proof.
  intros p c. assert (badge_ok c) as Hb by apply badge_events. clearbody p.
  assert (∀ q, only_lines c (chat q) → only_lines c (chat (run_events (Background <$> ms) q))) as Hk.
  { induction ms as [|m ms IH]; intros q Hq; [done|]. cbn. apply IH.
    exact (kept_meanwhile (K := lines_kept c) m q Hq). }
  destruct (Hk p) as [_ [new Hnew]]; [split; [done|by exists []]|]. intros c'. subst c'. rewrite Hnew.
  exists new. split; [apply transcript_appended|]. split.
  { clear. generalize c. induction new as [|x new IH]; intros c0; [done|]. cbn. rewrite IH. unfold appended. by destruct (transcriptAtBottom c0). }
  split; [intros Ha; apply arrive_away; [done|apply Hb]|].
  intros Ha. destruct (arrive_end new c Ha) as [H1 H2]. split; [done|]. intros Hne. apply H2. by left.
Qed.

(** what an event makes the client send, of the types [bad] *)
Lemma event_modest {env : ClientEnv} {qt : QtEnv} bad e p :
  Reserved bad →
  isAdmin (the_client p) = false ∨ (e = ClickKick → bad ROOM_KICK = false) ∧ (e = ClickDelete → bad ROOM_DELETE = false) →
  modestly bad (trace (the_client p)) (the_client (run_state (on_event e) p)).
Proof.
  intros Hb Hcase. set (J := λ p' : Page, modestly bad (trace (the_client p)) (the_client p')).
  assert (KeptAll J) as K by (by apply modest_kept).
  assert (J p) as Hp by (exists []; by rewrite app_nil_r).
  assert (∀ A (m : Client.M A), preserves (modestly bad (trace (the_client p))) m → preserves J (on_client m)) as Hz.
  { intros A m Hm. apply (preserves_zoom _ (λ l, modestly bad (trace (the_client p)) (cl l))); [|done|done].
    by apply (preserves_zoom _ (modestly bad (trace (the_client p)))). }
  assert (∀ A (m : SE ChatView A), preserves J (on_chat m)) as Hch
    by (intros A m q Hq; unfold J, run_state, on_chat, zoom; by destruct (m _)).
  change (J (run_state (on_event e) p)). destruct (ordinary e) eqn:Eo; [exact (kept_event e Eo p Hp)|].
  destruct Hcase as [Ha|[Hk Hd]].
  - destruct e; try done; [exact (refused_admin (J := J) ClickKick Logic.I p (conj Hp Ha))
      |exact (refused_admin (J := J) ClickDelete Logic.I p (conj Hp Ha))|by apply Hch|by apply Hch].
  - destruct e; try done; [| |by apply Hch|by apply Hch].
    + apply kept_kick; [|exact Hp]. intros n u. apply Hz, (modestly_kick bad). by apply Hk.
    + apply kept_delete; [|exact Hp]. intros n. apply Hz, (modestly_delete bad). by apply Hd.
Qed.

(** C14. The window acts with its user's rights: every event returns; it makes the client send
    a kick only if it is a click on the kick button while the user is an admin, and a room
    deletion only if it is a click on the button for that while the user is an admin. *)
Theorem page_rights {env : ClientEnv} {qt : QtEnv} e p :
  run_out (on_event e) p = Ok tt ∧
  ∃ new, trace (the_client (run_state (on_event e) p)) = trace (the_client p) ++ new ∧
    ∀ q, Send q ∈ new →
      (Packet.type q = ROOM_KICK → e = ClickKick ∧ isAdmin (the_client p) = true) ∧
      (Packet.type q = ROOM_DELETE → e = ClickDelete ∧ isAdmin (the_client p) = true).
Proof.
  split; [destruct (total_event e p) as [[] H]; exact H|].
  assert (∀ bad, Reserved bad → isAdmin (the_client p) = false ∨
    (e = ClickKick → bad ROOM_KICK = false) ∧ (e = ClickDelete → bad ROOM_DELETE = false) →
    ∀ new, trace (the_client (run_state (on_event e) p)) = trace (the_client p) ++ new →
    ∀ q, Send q ∈ new → bad (Packet.type q) = false) as Hno.
  { intros bad Hb Hcase new Hnew q Hq. destruct (event_modest bad e p Hb Hcase) as (new' & Ht & Hn).
    assert (new' = new) as -> by (apply (app_inv_head (trace (the_client p))); congruence).
    rewrite Forall_forall in Hn. exact (Hn _ Hq). }
  destruct (event_modest (λ _, false) e p) as (new & Ht & _); [by split|by right|].
  exists new. split; [exact Ht|]. intros q Hq.
  split; intros Et.
  - destruct (decide (e = ClickKick ∧ isAdmin (the_client p) = true)) as [|Hc]; [done|exfalso].
    enough (is_kick (Packet.type q) = false) by (by rewrite Et in H).
    apply (Hno is_kick kick_reserved) with (new := new); [|done|done].
    destruct (isAdmin (the_client p)); [right|by left]. split; [tauto|done].
  - destruct (decide (e = ClickDelete ∧ isAdmin (the_client p) = true)) as [|Hc]; [done|exfalso].
    enough (is_delete (Packet.type q) = false) by (by rewrite Et in H).
    apply (Hno is_delete delete_reserved) with (new := new); [|done|done].
    destruct (isAdmin (the_client p)); [right|by left]. split; [done|tauto].
Qed.

#[local] Existing Instance sample_client_env.
#[local] Existing Instance sample_qt.
#[local] Existing Instance sample_qt_laws.

(** a user in a room, and what the server sends while the window is open *)
Definition in_general (pushes : list Packet.t) : Life :=
  set_cl (set_queues [] pushes (set_state (Some (User.User "me" "me@x" User.USER)) (Some (named_room "General"))
    (set_rooms [named_room "General"; lobby] linked_client))) fresh_life.
Definition said (who what : string) : Packet.t := Packet.make 7 who "" MESSAGE "General" what 0.
(** what a kicked user receives *)
Definition sent_away : Packet.t :=
  Packet.make 8 "server" "*" ROOM_LIST "Lobby" (Room.serializeList [lobby; named_room "General"]) 0.
Definition tick : list Event := [Background Received; Background Timer].

(** a push that moves the user to another room changes the title only: the lines of the room
    that was left stay in the transcript *)
Example sent_away_keeps_lines :
  let p := run_events (tick ++ tick) (open_page (in_general [said "ann" "hello"; sent_away]) 5 []) in
  roomTitle (side p) = "#  Lobby" ∧ transcript (chat p) = ["7  ·  ann  ·  hello"].
Proof. vm_compute. split; reflexivity. Qed.

(** a larger window can reach the end without moving the bar: the badge stays *)
Example resized_badge :
  let p := run_events ((tick ++ tick) ++ [Scrolled 0] ++ tick ++ [Resized 9])
    (open_page (in_general [said "ann" "1"; said "ann" "2"; said "ann" "3"]) 1 []) in
  transcriptAtBottom (chat p) = true ∧ unreadText (chat p) = "1 new" ∧ unreadVisible (chat p) = true.
Proof. vm_compute. repeat split; reflexivity. Qed.

(** an admin kicks from the dialog; the notice follows *)
Definition admin_page : Page :=
  open_page (set_cl (set_user (Some (User.User "root" "r@x" User.ADMIN))
    (cl (in_general [Packet.make 0 "server" "root" ROOM_KICK "General" "kicked" 200]))) fresh_life) 5
    [mkAnswer [Timer] (Some [" bob "]); mkAnswer [] None].
Example admin_kicks :
  let p := run_state (on_event ClickKick) admin_page in
  windows p = [Dialog "Kick from room" ["General"]; Information "Kick" "Kicked bob from General."] ∧
  existsb (λ a, match a with Send q => bool_decide (Packet.type q = ROOM_KICK) | _ => false end) (trace (the_client p)) = true.
Proof. vm_compute. split; reflexivity. Qed.

(** and deletes from the other one *)
Example admin_deletes :
  let p := run_state (on_event ClickDelete) (open_page (set_cl (set_user (Some (User.User "root" "r@x" User.ADMIN))
    (cl (in_general [Packet.make 0 "server" "root" ROOM_DELETE "Lobby" "deleted" 200]))) fresh_life) 5
      [mkAnswer [Timer] (Some [" tea "]); mkAnswer [] None]) in
  windows p = [Dialog "Delete room" []] ∧
  existsb (λ a, match a with Send q => bool_decide (Packet.type q = ROOM_DELETE) | _ => false end) (trace (the_client p)) = true.
Proof. vm_compute. split; reflexivity. Qed.

(** * Witnesses *)

Lemma refresh_shows_witness :
  ∃ p', refresh (run_events tick (open_page (in_general [sent_away]) 5 [])) = (Ok tt, p') ∧
    roomTitle (side p') = "#  Lobby".
Proof.
  destruct (refresh_shows (in_general [sent_away]) 5 [] tick) as [(p' & Hrun & _ & _ & Hs & _) _].
  exists p'. split; [exact Hrun|]. rewrite Hs. vm_compute. reflexivity.
Defined.
Lemma unread_badge_witness :
  badge_ok (chat (run_events [ClickTheme] (open_page (in_general []) 5 []))).
Proof. exact (proj1 (unread_badge (in_general []) 5 [] [ClickTheme])). Defined.
Lemma reader_keeps_place_witness :
  let p := run_events [] (open_page (in_general [said "ann" "hello"]) 5 []) in
  ∃ new, transcript (chat (run_events (Background <$> [Received; Timer]) p)) = transcript (chat p) ++ new.
Proof.
  destruct (reader_keeps_place (in_general [said "ann" "hello"]) 5 [] [] [Received; Timer]) as (new & Ht & _).
  exists new. exact Ht.
Defined.
