(* ===== verification/Panels.v ===== *)
(** The panels of the server's window (src/server/gui/panels) and the logger behind one of them
    (src/utils/logger/qtLogger.cpp).

    Each panel is what its [refresh] puts into its widgets, from the state of the server.  The
    log panel keeps up by itself: [QtLogger] is a sink of the logger, and the lines it emits
    wait in the event queue of the window until [process_lines].  The panel registers the sink,
    connects to it and then reads the backlog, while other threads may log in between.

    The users, rooms and endpoints come from hash tables in the source, in an order it does not
    fix; here it is the one of [map_to_list].

    The theorems: the log panel shows the backlog and then each later message once, but twice
    what was logged between connecting and reading the backlog; the ports panel, the console
    dashboard and the health monitor agree on the health. *)
From S2P Require Import Prelude Models Logger DatabaseManager World RoomManager GossipManager Client Health Qt.
From stdpp Require Import options.

(** * Definitions *)

Section with_qt.
Context {qt : QtEnv}.

(** ** LogPanel *)

Definition log_line (m : LogMessage.t) : string :=
  arg (arg (arg (arg "[%1] (%2) %3: %4" (date_text "hh:mm:ss" (LogMessage.timestamp m)))
    (fromStdString (LogMessage.typeToString (LogMessage.type m))))
    (fromStdString (LogMessage.source m)))
    (fromStdString (LogMessage.message m)).
(** [QtLogger::log] formats the same way, and emits the line *)
Definition QtLogger_log (m : LogMessage.t) : string :=
  let timestampString := date_text "hh:mm:ss" (LogMessage.timestamp m) in
  let typeString := fromStdString (LogMessage.typeToString (LogMessage.type m)) in
  let sourceString := fromStdString (LogMessage.source m) in
  let messageString := fromStdString (LogMessage.message m) in
  arg (arg (arg (arg "[%1] (%2) %3: %4" timestampString) typeString) sourceString) messageString.

(** the address of the one [QtLogger] *)
Definition QT_SINK : nat := 0.
(** the lines it has emitted so far *)
Definition emitted (s : Logger) : list string :=
  QtLogger_log <$> (filter (λ d : nat * LogMessage.t, d.1 = QT_SINK) (delivered s)).*2.

Record LogPanel := mkLogPanel {
  logger : Logger;
  received : nat;              (* how many of the emitted lines were delivered, or came too early *)
  logText : list string;
  logView : Z;
  verticalValue : Z
}.
Notation MP := (SE LogPanel).
Definition set_logger v p := mkLogPanel v (received p) (logText p) (logView p) (verticalValue p).
Definition set_received v p := mkLogPanel (logger p) v (logText p) (logView p) (verticalValue p).
Definition set_text l v p := mkLogPanel (logger p) (received p) l (logView p) v.
Definition verticalMax (p : LogPanel) : Z := scroll_max (logView p) (logText p).

Definition appendLine (line : string) : MP unit :=
  stickToBottom ← gets (λ p, (verticalValue p =? verticalMax p)%Z);
  modify (λ p, set_text (logText p ++ [line]) (verticalValue p) p) ;;
  when stickToBottom (modify (λ p, set_text (logText p) (verticalMax p) p)).

(** the loop of [refresh]: an index that is gone ends it *)
Fixpoint backlog (i n : nat) : MP unit :=
  match n with
  | O => mret tt
  | S n =>
      go ← try_catch (m ← zoom logger set_logger (getMessage i);
                      modify (λ p, set_text (logText p ++ [log_line m]) (verticalValue p) p) ;;
                      mret true)
             (λ _, mret false);
      if (go : bool) then backlog (S i) n else mret tt
  end.
Definition log_refresh : MP unit :=
  n ← zoom logger set_logger size;
  modify (set_text [] 0) ;;
  backlog 0 n ;;
  modify (λ p, set_text (logText p) (verticalMax p) p).

(** the queued lines reach the panel *)
Definition process_lines : MP unit :=
  lines ← gets (λ p, drop (received p) (emitted (logger p)));
  modify (λ p, set_received (length (emitted (logger p))) p) ;;
  for_each lines appendLine.

Section with_clock.
Variable clock : nat → Z.

(** the other threads *)
Definition others_log (cs : list LogCall) : MP unit := zoom logger set_logger (run_calls clock cs).
(** the constructor, with what is logged before it connects and before it reads the backlog *)
Definition open_log_panel (before_connect before_backlog : list LogCall) : MP unit :=
  zoom logger set_logger (addLogger (Some QT_SINK)) ;;
  others_log before_connect ;;
  modify (λ p, set_received (length (emitted (logger p))) p) ;;
  others_log before_backlog ;;
  log_refresh.
End with_clock.
Definition closed_panel (s : Logger) (view : Z) : LogPanel := mkLogPanel s 0 [] view 0.

(** ** UsersPanel and RoomsPanel *)

Definition user_row (u : User.t) (r : Room.t) (authenticated : bool) : string :=
  let formatted := arg (arg "%1 @ %2" (fromStdString (User.username u))) (fromStdString (Room.name r)) in
  if authenticated then formatted else formatted +:+ " (un-authenticated)".
Definition users_refresh (w : World) : list string :=
  match (map_to_list (sessions w)).*2 with
  | [] => ["(no sessions)"]
  | ls => (λ l, let s := session_at w l in user_row (World.user s) (World.room s) (authenticated s)) <$> ls
  end.

Definition room_row (r : Room.t) : string :=
  arg (arg (arg "%1 — %2 / %3" (fromStdString (Room.name r)))
    (fromStdString (Room.roomTypeToString (Room.type r))))
    (fromStdString (Room.privacyToString (Room.privacy r))).
Definition rooms_refresh (w : World) : list string :=
  match (map_to_list (knownRooms w)).*2 with
  | [] => ["(no rooms)"]
  | rs => room_row <$> rs
  end.

(** ** PortsPanel *)

Record PortsPanel := mkPortsPanel {
  nodeLabel : string;
  clientLabel : string;
  peerLabel : string;
  peersLabel : string;
  endpointsLabel : string;
  dbLabel : string;
  healthOverall : string;
  healthDetails : string
}.

(** one round over the reports: the lines, the status, the names of what is down *)
Definition ports_round (acc : list string * HealthStatus * list string) (r : HealthReport)
    : list string * HealthStatus * list string :=
  let '(lines, overallStatus, downDetails) := acc in
  let line := fromStdString (name r) +:+ ": " +:+ fromStdString (statusToString r) in
  let line := if negb (is_empty (detail r)) then line +:+ " (" +:+ fromStdString (detail r) +:+ ")" else line in
  match status r with
  | Down => (lines ++ [line], Down, downDetails ++ [fromStdString (name r) +:+ ":Down"])
  | Degraded => (lines ++ [line], match overallStatus with Down => Down | _ => Degraded end, downDetails)
  | Up => (lines ++ [line], overallStatus, downDetails)
  end.
Definition ports_health (reports : list HealthReport) : string * string :=
  let '(lines, overallStatus, downDetails) := foldl ports_round ([], Up, []) reports in
  (fromStdString (healthStatusToString overallStatus) +:+
     match downDetails with [] => "" | _ => " (" +:+ join_with "; " downDetails +:+ ")" end,
   match lines with [] => "(none)" | _ => join_with newline lines end).

(** the database path is read from the configuration *)
Definition ports_refresh `{ServerEnv} (dbPath : string) (w : World) : SE Flags PortsPanel :=
  reports ← checkAll server_monitor;
  let '(overall, details) := ports_health reports in
  mret (mkPortsPanel (fromStdString NODE_ID) (to_string PORT) (to_string PEER_PORT)
    (match PEERS with [] => "(none)" | l => fromStdString (join_with ", " l) end)
    (match (map_to_list (getClientPeers (gossip w))).*2 with
     | [] => "(none)"
     | l => fromStdString (join_with ", " (endpoint_text <$> l))
     end)
    (fromStdString dbPath) overall details).
End with_qt.

(** * Specification *)

(** a call that logs a message *)
Definition is_log (c : LogCall) : bool := match c with Log _ _ _ => true | _ => false end.
(** the overall line of the health, as the dashboard prints it *)
Definition overall_text (r : HealthReport) : string :=
  healthStatusToString (status r) +:+ (if is_empty (detail r) then "" else " (" +:+ detail r +:+ ")").

(** * Lemmas *)

Section log_panel.
Context {qt : QtEnv}.

Lemma backlog_run n i p :
  i + n = length (Logger.messages (logger p)) →
  backlog i n p = (Ok tt, set_text (logText p ++ (log_line <$> drop i (Logger.messages (logger p)))) (verticalValue p) p).
Proof.
  revert i p. induction n as [|n IH]; intros i p Hn; cbn [backlog].
  - rewrite drop_ge by lia. cbn. rewrite app_nil_r. by destruct p.
  - destruct (lookup_lt_is_Some_2 (Logger.messages (logger p)) i) as [m Hm]; [lia|].
    unfold mbind, SE_bind, try_catch, zoom, getMessage, mbind, SE_bind, gets. rewrite Hm. cbn.
    rewrite IH by (cbn; lia). cbn. rewrite (drop_S _ _ _ Hm). cbn. by rewrite <-app_assoc.
Qed.
Lemma log_refresh_run p :
  ∃ v, log_refresh p = (Ok tt, set_text (log_line <$> Logger.messages (logger p)) v p).
Proof.
  unfold log_refresh, size, zoom, gets, modify, mbind, SE_bind. cbn -[backlog].
  rewrite backlog_run by done. by eexists.
Qed.
Lemma append_lines_run ls p : ∃ v, for_each ls appendLine p = (Ok tt, set_text (logText p ++ ls) v p).
Proof.
  revert p. induction ls as [|l ls IH]; intros p; cbn [for_each].
  - exists (verticalValue p). rewrite app_nil_r. by destruct p.
  - assert (∃ v, appendLine l p = (Ok tt, set_text (logText p ++ [l]) v p)) as [v Hv].
    { unfold appendLine, gets, modify, mbind, SE_bind. destruct (_ =? _)%Z; by eexists. }
    unfold mbind, SE_bind. rewrite Hv. destruct (IH (set_text (logText p ++ [l]) v p)) as [v' ->]. exists v'.
    cbn. by rewrite <-app_assoc.
Qed.
Lemma emitted_inbox s j : shows s j → emitted s = log_line <$> inbox j QT_SINK.
Proof. intros Hs. unfold emitted. by rewrite (sh_inbox _ _ Hs). Qed.

Variable clock : nat → Z.
Lemma call_returns c s : ∃ s', call clock c s = (Ok tt, s').
Proof. destruct c as [src msg ty|[l|]| |]; cbn [call]; [by rewrite addMessage_run; eexists|by eexists..]. Qed.
Lemma others_run cs p :
  others_log clock cs p = (Ok tt, set_logger (run_state (run_calls clock cs) (logger p)) p).
Proof.
  unfold others_log, zoom, run_calls, run_state. generalize (logger p). induction cs as [|c cs IH]; intros s; [done|].
  cbn [for_each]. unfold mbind, SE_bind. destruct (call_returns c s) as [s' Hs]. rewrite Hs. apply IH.
Qed.

(** what logging leaves in the journal *)
Lemma logged_kept cs j :
  Forall (λ c, is_log c = true) cs → QT_SINK ∈ sinks j →
  ∃ ms, length ms = length cs ∧ kept (foldl (journal_call clock) j cs) = kept j ++ ms ∧
    inbox (foldl (journal_call clock) j cs) QT_SINK = inbox j QT_SINK ++ ms ∧
    QT_SINK ∈ sinks (foldl (journal_call clock) j cs).
Proof.
  intros Hl. revert j. induction Hl as [|c cs Hc Hl IH]; intros j Hj.
  - exists []. by rewrite !app_nil_r.
  - destruct c as [src msg ty| | |]; try done. cbn [foldl journal_call].
    match goal with |- context [foldl _ ?q cs] => destruct (IH q) as (ms & Hn & Hk & Hi & Hs); [exact Hj|] end.
    eexists (_ :: ms). split_and!; [by cbn; rewrite Hn| | |exact Hs].
    + rewrite Hk. cbn. by rewrite <-app_assoc.
    + rewrite Hi. cbn. rewrite decide_True by done. by rewrite <-app_assoc.
Qed.
End log_panel.

(** * Theorems *)

(** C39. The log panel misses nothing: opened over any logger, with any calls before it
    connects, between that and reading the backlog, and later, it shows the stored messages of
    the moment it opened and then, in order, each message its sink was given since it
    connected.  If nothing was logged in between, each later message stands there exactly
    once; what was logged in between stands there twice. *)
Theorem log_panel_follows `{QtEnv} clock s j view before gap later :
  shows s j →
  let j1 := foldl (journal_call clock) (journal_call clock j (AddSink (Some QT_SINK))) before in
  let j2 := foldl (journal_call clock) j1 gap in
  let j3 := foldl (journal_call clock) j2 later in
  ∃ p, (open_log_panel clock before gap ;; others_log clock later ;; process_lines) (closed_panel s view) = (Ok tt, p) ∧
    shows (logger p) j3 ∧
    logText p = log_line <$> newest MAX_MESSAGES (kept j2) ++ drop (length (inbox j1 QT_SINK)) (inbox j3 QT_SINK) ∧
    (Forall (λ c, is_log c = true) (before ++ gap ++ later) →
     ∃ twice once, length twice = length gap ∧ length once = length later ∧
       kept j2 = kept j1 ++ twice ∧ kept j3 = kept j2 ++ once ∧
       logText p = log_line <$> newest MAX_MESSAGES (kept j2) ++ twice ++ once).
Proof.
  intros Hs j1 j2 j3.
  set (s0 := run_state (addLogger (Some QT_SINK)) s). set (s1 := run_state (run_calls clock before) s0).
  set (s2 := run_state (run_calls clock gap) s1). set (s3 := run_state (run_calls clock later) s2).
  assert (shows s1 j1) as H1 by (apply shows_calls, (shows_call clock s j (AddSink (Some QT_SINK)) Hs)).
  assert (shows s2 j2) as H2 by (by apply shows_calls).
  assert (shows s3 j3) as H3 by (by apply shows_calls).
  set (text := log_line <$> newest MAX_MESSAGES (kept j2) ++ drop (length (inbox j1 QT_SINK)) (inbox j3 QT_SINK)).
  assert (∃ p, (open_log_panel clock before gap ;; others_log clock later ;; process_lines) (closed_panel s view) = (Ok tt, p) ∧
    logger p = s3 ∧ logText p = text) as (p & Hrun & Hp & Ht).
  { unfold open_log_panel, mbind, SE_bind. change (zoom logger set_logger _ (closed_panel s view)) with (Ok tt, closed_panel s0 view).
    cbv iota. rewrite others_run. cbn [logger closed_panel]. fold s1. unfold modify. cbv iota. rewrite others_run.
    cbn [logger set_logger set_received]. fold s2. match goal with |- context [log_refresh ?q] => destruct (log_refresh_run q) as [v ->] end.
    cbv iota. rewrite others_run. cbn [logger set_text set_logger set_received]. fold s3.
    unfold process_lines, gets, modify, mbind, SE_bind. cbv iota.
    match goal with |- context [for_each ?l appendLine ?q] => destruct (append_lines_run l q) as [v' ->] end.
    eexists. split; [done|]. split; [done|]. cbn. rewrite (sh_messages _ _ H2), (emitted_inbox _ _ H1), (emitted_inbox _ _ H3).
    unfold text. by rewrite fmap_app, fmap_drop, length_fmap. }
  exists p. rewrite Hp. split; [done|]. split; [done|]. split; [done|].
  rewrite Ht. intros [Hb [Hg Hl]%Forall_app]%Forall_app.
  destruct (logged_kept clock before (journal_call clock j (AddSink (Some QT_SINK))) Hb) as (? & _ & _ & _ & Hin); [cbn; set_solver|].
  destruct (logged_kept clock gap j1 Hg Hin) as (twice & Hn2 & Hk2 & Hi2 & Hin2).
  destruct (logged_kept clock later j2 Hl Hin2) as (once & Hn3 & Hk3 & Hi3 & _).
  exists twice, once. split_and!; [done..|]. unfold text. unfold j3 at 1. rewrite Hi3. unfold j2 at 2. rewrite Hi2.
  by rewrite <-app_assoc, drop_app_length.
Qed.

(** C40. What the panels print: a log line carries its time, type, source and message as they
    are, whatever the message is; a user's and a room's row carry the names as they are when
    the user name, and the room name, have no percent sign.  A user named "%2" is shown with
    the name of the room in place of the user's. *)
Theorem panel_texts `{QtLaws} :
  (∀ m, has_char "%" (date_text "hh:mm:ss" (LogMessage.timestamp m)) = false →
     has_char "%" (fromStdString (LogMessage.source m)) = false →
     log_line m = "[" +:+ date_text "hh:mm:ss" (LogMessage.timestamp m) +:+ "] (" +:+
       LogMessage.typeToString (LogMessage.type m) +:+ ") " +:+ fromStdString (LogMessage.source m) +:+ ": " +:+
       fromStdString (LogMessage.message m)) ∧
  (∀ u r (auth : bool), has_char "%" (fromStdString (User.username u)) = false →
     user_row u r auth = fromStdString (User.username u) +:+ " @ " +:+ fromStdString (Room.name r) +:+
       (if auth then "" else " (un-authenticated)")) ∧
  (∀ r, has_char "%" (fromStdString (Room.name r)) = false →
     room_row r = fromStdString (Room.name r) +:+ " — " +:+ Room.roomTypeToString (Room.type r) +:+ " / " +:+
       Room.privacyToString (Room.privacy r)) ∧
  (∀ u r, User.username u = "%2" → has_char "%" (fromStdString (Room.name r)) = false →
     user_row u r true = fromStdString (Room.name r) +:+ " @ " +:+ fromStdString (Room.name r)).
Proof.
  split_and!.
  - intros m Ht Hs. unfold log_line. set (time := date_text _ _) in *. set (src := fromStdString (LogMessage.source m)) in *.
    assert (fromStdString (LogMessage.typeToString (LogMessage.type m)) = LogMessage.typeToString (LogMessage.type m)
      ∧ has_char "%" (LogMessage.typeToString (LogMessage.type m)) = false) as [-> Hty].
    { split; [apply from_ascii|]; by destruct (LogMessage.type m). }
    set (ty := LogMessage.typeToString _) in *.
    rewrite (arg_step "[" 1 "] (%2) %3: %4") by done.
    change ("[" +:+ time +:+ "] (%2) %3: %4") with ("[" +:+ time +:+ "] (" +:+ (marker 2 +:+ ") %3: %4")).
    rewrite <-!str_app_assoc, str_app_assoc.
    rewrite (arg_step (("[" +:+ time) +:+ "] (") 2 ") %3: %4") by (done || by rewrite !has_char_app, Ht).
    change (") %3: %4") with (") " +:+ (marker 3 +:+ ": %4")). rewrite <-!str_app_assoc, str_app_assoc.
    rewrite arg_step by (done || by rewrite !has_char_app, Ht, Hty).
    change (": %4") with (": " +:+ (marker 4 +:+ "")). rewrite <-!str_app_assoc, (str_app_assoc _ (marker 4)).
    rewrite arg_step by (done || by rewrite !has_char_app, Ht, Hty, Hs).
    by rewrite str_app_nil_r, !str_app_assoc.
  - intros u r auth Hu. unfold user_row. set (n := fromStdString (User.username u)) in *.
    rewrite (arg_step "" 1 " @ %2") by done.
    change ("" +:+ n +:+ " @ %2") with (n +:+ " @ " +:+ (marker 2 +:+ "")). rewrite <-str_app_assoc.
    rewrite arg_step by (done || by rewrite !has_char_app, Hu). rewrite str_app_nil_r.
    destruct auth; by rewrite ?str_app_nil_r, !str_app_assoc.
  - intros r Hr. unfold room_row. set (n := fromStdString (Room.name r)) in *.
    assert (fromStdString (Room.roomTypeToString (Room.type r)) = Room.roomTypeToString (Room.type r)
      ∧ has_char "%" (Room.roomTypeToString (Room.type r)) = false) as [-> Hty].
    { split; [apply from_ascii|]; by destruct (Room.type r). }
    assert (fromStdString (Room.privacyToString (Room.privacy r)) = Room.privacyToString (Room.privacy r)) as ->.
    { apply from_ascii. by destruct (Room.privacy r). }
    set (ty := Room.roomTypeToString _) in *.
    rewrite (arg_step "" 1 " — %2 / %3") by done.
    change ("" +:+ n +:+ " — %2 / %3") with (n +:+ " — " +:+ (marker 2 +:+ " / %3")). rewrite <-str_app_assoc.
    rewrite arg_step by (done || by rewrite !has_char_app, Hr).
    change (" / %3") with (" / " +:+ (marker 3 +:+ "")). rewrite <-!str_app_assoc, (str_app_assoc _ (marker 3)).
    rewrite arg_step by (done || by rewrite !has_char_app, Hr, Hty). by rewrite str_app_nil_r, !str_app_assoc.
  - intros u r Hu Hr. unfold user_row. rewrite Hu, (from_ascii "%2") by done. set (n := fromStdString (Room.name r)) in *.
    rewrite (arg_step "" 1 " @ %2") by done. change ("" +:+ "%2" +:+ " @ %2") with ("%2 @ %2").
    rewrite arg_law by done. change (arg_lowest "%2 @ %2" n) with (n +:+ " @ " +:+ n +:+ ""). by rewrite str_app_nil_r.
Qed.

(** The window and the console agree on the health: for reports with plain names, the
    ports panel's overall line is the status and detail of the monitor's report, and it is
    word for word what the console dashboard prints after "Overall: ". *)
Theorem ports_health_agrees `{QtLaws} reports :
  Forall (λ r, ascii_text (name r) = true) reports →
  let overall := foldl fold_report (mkReport "cluster" Up "") reports in
  (ports_health reports).1 = overall_text overall ∧
  ∃ before, dashboard_health reports = before +:+ "Overall: " +:+ (ports_health reports).1 +:+ newline.
Proof.
  intros Hn. rewrite monitor_spec.
  assert (∃ ls, foldl ports_round ([], Up, []) reports =
    (ls, worst reports, (λ r, name r +:+ ":Down") <$> filter (λ r, is_down r = true) reports)) as [ls Hp].
  { induction reports as [|r l IH] using rev_ind; [by eexists|]. apply Forall_app in Hn as [Hn [Hr _]%Forall_cons].
    destruct (IH Hn) as [ls Hl]. rewrite foldl_app, Hl, worst_snoc, filter_app, fmap_app, filter_cons, filter_nil.
    cbn [foldl]. unfold ports_round, is_down. destruct (status r).
    - rewrite worse_Up, app_nil_r. by eexists.
    - rewrite app_nil_r. eexists. by destruct (worst l).
    - rewrite (from_ascii (name r)) by done. eexists. by destruct (worst l). }
  assert ((ports_health reports).1 = overall_text (mkReport "cluster" (worst reports) (down_names reports))) as Ho.
  { unfold ports_health. rewrite Hp. cbn [fst]. unfold overall_text, down_names. cbn [status detail].
    rewrite (from_ascii (healthStatusToString _)) by (by destruct (worst reports)). f_equal.
    destruct (filter _ reports) as [|r rs]; [done|]. rewrite fmap_cons, join_nonempty; [done|]. by destruct (name r). }
  split; [exact Ho|]. rewrite Ho. destruct (dashboard_spec reports) as [out Hd]. exists out. unfold dashboard_health. rewrite Hd.
  unfold overall_text. cbn [status detail]. f_equal. rewrite str_app_assoc. do 2 f_equal. by destruct (is_empty (down_names reports)).
Qed.

#[local] Existing Instance sample_qt.
#[local] Existing Instance sample_qt_laws.

(** a message logged while the panel reads its backlog stands in it twice *)
Example log_twice :
  let info s := Log "server" s LogMessage.INFO in
  let s := run_state (run_calls (λ _, 7%Z) [info "up"]) fresh_logger in
  logText (run_state (open_log_panel (λ _, 7%Z) [info "a"] [info "b"] ;; others_log (λ _, 7%Z) [info "c"] ;; process_lines)
    (closed_panel s 3)) =
  ["[7] (INFO) server: up"; "[7] (INFO) server: a"; "[7] (INFO) server: b"; "[7] (INFO) server: b"; "[7] (INFO) server: c"].
Proof. vm_compute. reflexivity. Qed.

(** * Witnesses *)

Lemma log_panel_follows_witness :
  ∃ p, (open_log_panel (λ _, 7%Z) [] [] ;; others_log (λ _, 7%Z) [Log "a" "b" LogMessage.INFO] ;; process_lines)
    (closed_panel fresh_logger 3) = (Ok tt, p).
Proof.
  assert (shows fresh_logger empty_journal) as Hs by (constructor; [reflexivity|split; [constructor|reflexivity]|reflexivity|split; reflexivity]).
  destruct (log_panel_follows (λ _, 7%Z) fresh_logger empty_journal 3 [] [] [Log "a" "b" LogMessage.INFO] Hs) as (p & Hrun & _).
  exists p. exact Hrun.
Defined.
Lemma panel_texts_witness :
  user_row (User.User "ann" "a@x" User.USER) (Room.Room 1 "Lobby" Room.LOBBY Room.PUBLIC) true = "ann @ Lobby".
Proof.
  exact (proj1 (proj2 panel_texts) (User.User "ann" "a@x" User.USER) (Room.Room 1 "Lobby" Room.LOBBY Room.PUBLIC) true eq_refl).
Defined.
Lemma ports_health_agrees_witness :
  (ports_health [mkReport "server" Up "alive"; mkReport "database" Down "ping failed"]).1 = "Down (database:Down)".
Proof.
  exact (proj1 (ports_health_agrees [mkReport "server" Up "alive"; mkReport "database" Down "ping failed"]
    ltac:(repeat constructor))).
Defined.
