(* ===== verification/Delivery.v ===== *)
(** From the request of an author, or from a peer's event, to the eyes of a member: a chat
    message that a server takes (process_message of src/server/packet_processor.cpp, rumor and
    apply_message of src/server/gossip_manager.cpp, broadcast of src/server/room_manager.cpp),
    the packets on the wires of the room's members and of the peers, and what the window of a
    member shows for it (src/client/client.cpp, src/client/gui/pages/dashboard_page.cpp).

    The theorem composes PacketProcessor.v, Replica.v, RoomManager.v, Client.v and Window.v:
    every open member of the room gets the message once, however often the event arrives, and
    a window on the room that reads it appends its line.  Writes and statements that fail are
    left out of it by hypothesis, and so are events that make accounts or make or delete rooms.
    The witness is a node in a state of Server.v's step relation, reached by requests. *)
From S2P Require Import Prelude Packet Models Codec Serializer GossipPayload DatabaseManager.
From S2P Require Import World RoomManager GossipManager PacketProcessor ConnectionManager Server Cluster Replica.
From S2P Require Import Config Client Supervision Qt ChatStyle Window.
From stdpp Require Import options.

(** * Lemmas *)

(** ** The server *)

(** what the writes of a broadcast put on one socket *)
Lemma sent_to s (bytes : Z → string) l oks :
  NoDup l → length oks = length l → Forall (λ b, b = true) oks →
  sent_on s (zip_with (λ s b, NetSend s (bytes s) b) l oks) =
    if decide (s ∈ l) then match deserialize (bytes s) with Some p => [p] | None => [] end else [].
Proof.
  intros Hnd. revert oks. induction Hnd as [|x l Hx Hnd IH]; intros oks Hlen Hok.
  { destruct oks; [|done]. by rewrite decide_False by (by intros ?%elem_of_nil). }
  destruct oks as [|b oks]; [done|]. apply Forall_cons in Hok as [-> Hok]. injection Hlen as Hlen.
  unfold sent_on in *. cbn [zip_with omap list_omap]. rewrite (IH oks Hlen Hok). clear IH. destruct (Z.eqb_spec x s) as [->|Hne].
  - rewrite (decide_False (P := s ∈ l)), decide_True by (done || by left). by destruct (deserialize _).
  - destruct (decide (s ∈ l)) as [Hs|Hs].
    + rewrite decide_True by (by right). done.
    + rewrite decide_False; [done|]. intros [->|?]%elem_of_cons; done.
Qed.

Lemma sent_on_app s l l' : sent_on s (l ++ l') = sent_on s l ++ sent_on s l'.
Proof. apply omap_app. Qed.

(** whatever number a printed number reads as is that number *)
Lemma stoll_shown z c : stoll (to_string z) = Some c → c = z.
Proof.
  unfold stoll, sto_signed, mbind, option_bind. rewrite read_numeral_to_string. cbv zeta. destruct (_ && _); [|done].
  intros [= <-]. by destruct (Z.ltb_spec z 0); lia.
Qed.

Section server.
Context {env : ServerEnv}.
Hypothesis no_failure : ∀ n, env_db n = None.
Hypothesis writes : ∀ n, env_write n = true.
Context (ev : string → Packet.t) (V : gset string) (voc : vocabulary ev V).
Context (chat : string → Chat) (U : list UserRow) (past : string → list Line).
Hypothesis chats : chats_ok ev V chat U.

(** with writes that go through, a broadcast writes [true] everywhere *)
Lemma broadcast_writes r p w :
  serialize p ≠ "" →
  ∃ oks n, run_state (broadcast r p INVALID_SOCKET) w =
      traced w (zip_with (λ s b, NetSend s (wire w p s) b) (targets w r INVALID_SOCKET) oks) n ∧
    length oks = length (targets w r INVALID_SOCKET) ∧ Forall (λ b, b = true) oks.
Proof using writes.
  intros Hp. destruct (broadcast_loop_run (elements (members_of w (Room.name r))) p INVALID_SOCKET true w Hp) as (oks & Hrun & Hlen & Hw).
  exists oks, (length oks). split; [|split; [exact Hlen|]].
  - unfold run_state, broadcast, mbind, SE_bind, gets. by rewrite Hrun.
  - eapply Forall_impl; [exact Hw|]. intros b [n ->]. apply writes.
Qed.

(** who of the members of a room is reached *)
Definition reached (w : World) (s : Z) (name : string) : Prop :=
  s ∈ members_of w name ∧ s ≠ INVALID_SOCKET ∧ is_open w s = true.
#[local] Instance reached_dec w s name : Decision (reached w s name).
Proof. unfold reached. apply _. Defined.

(** how an event comes to a node: from a peer, or as the message of one of its own clients *)
Inductive Origin := FromPeer | FromClient (l : loc) (request response : Packet.t).
Definition take_event (o : Origin) (event : Packet.t) : SE World (option Packet.t) :=
  match o with
  | FromPeer => handle_event event ;; mret None
  | FromClient l request response => a ← process_message request l response; mret (Some a)
  end.
Definition told (o : Origin) : option Packet.t :=
  match o with FromPeer => None | FromClient _ _ response => Some (answer SUCCESS "ok" response) end.

(** the event a client's message makes, and what making it changes *)
Definition posted_id (w : World) (l : loc) : string :=
  event_id "MESSAGE" (User.username (World.user (session_at w l))) (env_time (S (reads w))) (u64 (nextPresenceSeq w + 1)).
Definition posted_fields (w : World) (l : loc) (request : Packet.t) : GossipPayload.Fields :=
  GossipPayload.mkFields "MESSAGE" (posted_id w l) (User.username (World.user (session_at w l))) (Packet.message request)
    (to_string (env_time (reads w))).
Definition posted_event (w : World) (l : loc) (request : Packet.t) : Packet.t :=
  Packet.make (env_time (S (S (reads w)))) DatabaseManager.NODE_ID "*" GOSSIP_EVENT (Room.name (World.room (session_at w l)))
    (GossipPayload.encode_fields (posted_fields w l request)) 0.
Definition start (o : Origin) (w : World) : World :=
  match o with
  | FromPeer => w
  | FromClient _ _ _ => set_reads (S (S (S (reads w)))) (set_presenceSeq (u64 (nextPresenceSeq w + 1)) w)
  end.
(** a client's message: from a signed-in session, and [id] is its event *)
Definition comes (o : Origin) (id : string) (w : World) : Prop :=
  match o with
  | FromPeer => True
  | FromClient l request _ =>
      gossip_set w = true ∧ authenticated (session_at w l) = true ∧ Packet.message request ≠ "" ∧
      ev id = posted_event w l request ∧ GossipPayload.fields_short (posted_fields w l request) ∧
      Room.name (World.room (session_at w l)) ≠ ""
  end.
(** what the two have in common: a rumor or an event that is handled *)
Definition spread (o : Origin) (event : Packet.t) : SE World unit :=
  match o with FromPeer => handle_event event | FromClient _ _ _ => rumor event end.
Definition to_peers (o : Origin) (event : Packet.t) (g : Gossip) : list NetAction :=
  match o with
  | FromPeer => []
  | FromClient _ _ _ => (λ fd, NetSend fd (serialize event) true) <$> peerSocketsLocked g
  end.
Definition of_client (o : Origin) : bool := match o with FromPeer => false | FromClient _ _ _ => true end.

Lemma take_event_run o id w w' :
  comes o id w → spread o (ev id) (start o w) = (Ok tt, w') → take_event o (ev id) w = (Ok (told o), w').
Proof using Type.
  destruct o as [|l request response]; cbn [take_event spread start].
  { intros _ Hrun. by erewrite bind_run by exact Hrun. }
  intros (Hset & Hauth & Hmsg & -> & _ & _) Hrun. erewrite bind_run; [reflexivity|].
  unfold process_message. assert (is_empty (Packet.message request) = false) as -> by (by destruct (Packet.message request)).
  unfold try_catch. erewrite bind_run by reflexivity. erewrite bind_run by reflexivity. erewrite bind_run by reflexivity.
  rewrite Hauth. cbv beta iota.
  assert (rumorMessage (User.username (World.user (session_at w l))) (Packet.message request) (Room.name (World.room (session_at w l))) w
    = (Ok tt, w')) as Hm.
  { unfold rumorMessage, rumorEvent, makeEventId, connections_rumor. repeat (erewrite bind_run by reflexivity).
    match goal with |- when ?b _ _ = _ => change b with (gossip_set w) end. rewrite Hset. exact Hrun. }
  by erewrite bind_run by exact Hm.
Qed.
(** the message is the one the client sent *)
Lemma posted_chat l request response id w :
  id ∈ V → says (ev id) → comes (FromClient l request response) id w →
  let o := session_at w l in
  id = posted_id w l ∧ c_content (chat id) = Packet.message request ∧
  u_username (c_from (chat id)) = User.username (World.user o) ∧ c_room (chat id) = Room.name (World.room o) ∧
  c_created (chat id) = env_time (reads w).
Proof using chats.
  intros HV Hsay (_ & _ & _ & Hev & Hs & Hroom). cbv zeta. destruct (proj2 (chats id HV) Hsay) as ((f & Hdec & _ & Hid & Hu & Hc & Hts & Hrm) & _ & _).
  rewrite Hev in Hdec, Hrm. unfold posted_event, Packet.make in Hdec, Hrm. cbn [Packet.message Packet.room] in Hdec, Hrm.
  rewrite GossipPayload.decode_encode_fields in Hdec by done. apply (inj Some) in Hdec as <-.
  cbn [posted_fields GossipPayload.eventId_ GossipPayload.username GossipPayload.content GossipPayload.field5] in *.
  apply stoll_shown in Hts. rewrite Hid, Hu, Hc, Hts. repeat split. rewrite <-Hrm. by destruct (Room.name _).
Qed.

Section event.
Context (id : string) (r : Room.t) (w : World).
Hypothesis ok : node_ok ev V (gossip w).
Hypothesis rep : replica ev V chat U past w.
Hypothesis known : id ∈ V.
Hypothesis message : says (ev id).
Hypothesis fresh : id ∉ recentEventIds (gossip w).
Hypothesis room : knownRooms w !! c_room (chat id) = Some r.
Hypothesis name : Room.name r = c_room (chat id).
Hypothesis fits : serialize (chat_push (chat id)) ≠ "".
Hypothesis addressed : Packet.sender (ev id) ≠ "" ∧ Packet.receiver (ev id) ≠ "".

(** a rumor sends the event as it is *)
Lemma rumor_out :
  let out := Packet.set_type GOSSIP_EVENT (ev id) in
  let out := if is_empty (Packet.sender out) then Packet.set_sender DatabaseManager.NODE_ID out else out in
  (if is_empty (Packet.receiver out) then Packet.set_receiver "*" out else out) = ev id.
Proof using voc known message addressed.
  pose proof (voc_type _ _ voc id known) as Ht. destruct addressed as [Hs Hr], (ev id) as [ty snd rcv rm msg ts code].
  cbn in Ht, Hs, Hr |- *. subst ty. destruct snd; [done|]. cbn. by destruct rcv.
Qed.
(** the writes to the members, then those to the peers *)
Lemma origin_writes o :
  ∃ oks w', spread o (ev id) w = (Ok tt, w') ∧
    net w' = net w ++ zip_with (λ s b, NetSend s (wire w (chat_push (chat id)) s) b) (targets w r INVALID_SOCKET) oks ++
      to_peers o (ev id) (gossip w) ∧
    length oks = length (targets w r INVALID_SOCKET) ∧ Forall (λ b, b = true) oks ∧
    gossip w' = gossip (run_state (handle_event (ev id)) w).
Proof using no_failure writes voc chats ok rep known message fresh room name fits addressed.
  destruct (chat_event no_failure ev V chat U past chats id r w ok rep known message fresh room) as (g & n & Hrem & Happ).
  set (w1 := stored_chat chat id r g n w) in *.
  destruct (broadcast_writes r (chat_push (chat id)) w1 fits) as (oks & k & Hb & Hlen & Hok).
  change (targets w1 r INVALID_SOCKET) with (targets w r INVALID_SOCKET) in *. change (wire w1) with (wire w) in Hb.
  rewrite Hb in Happ. set (w2 := traced w1 _ k) in *. destruct (voc_plain _ _ voc id known) as [Hne _].
  assert (handle_event (ev id) w = (Ok tt, w2)) as Hev.
  { unfold handle_event. cbv zeta. rewrite (voc_id _ _ voc id known). assert (is_empty id = false) as -> by (by destruct id).
    erewrite bind_run by exact Hrem. cbn [negb]. by erewrite bind_run by exact Happ. }
  exists oks. destruct o; cbn [spread to_peers].
  { exists w2. split; [exact Hev|]. split; [by rewrite app_nil_r|]. split; [done|]. split; [done|]. unfold run_state. by rewrite Hev. }
  destruct (deliver_ids ev V voc [id] w ok) as (_ & _ & Hpeers); [by intros x ->%list_elem_of_singleton|apply NoDup_singleton|].
  cbn [fmap list_fmap deliver foldl] in Hpeers. unfold run_state in *. rewrite Hev in *. cbn [snd] in *.
  destruct (send_all_wrote writes (λ fd, (fd, ev id)) (peerSocketsLocked (gossip w)) w2) as (w3 & Hsend & Hw3);
    [intros fd _; apply (voc_wire _ _ voc id known)|].
  exists w3. split; [|split; [rewrite Hw3; cbn; by rewrite <-app_assoc|split; [done|split; [done|exact (wrote_gossip _ _ _ Hw3)]]]].
  unfold rumor. cbv zeta. rewrite (voc_id _ _ voc id known), rumor_out. assert (is_empty id = false) as -> by (by destruct id).
  erewrite bind_run by exact Hrem. cbn [negb]. erewrite bind_run by exact Happ. erewrite bind_run by reflexivity.
  assert (peerSocketsLocked (gossip w2) = peerSocketsLocked (gossip w)) as -> by (unfold peerSocketsLocked; by rewrite Hpeers).
  exact Hsend.
Qed.

(** the packets an event puts on the wire of a TCP client, and on those of the peers *)
Lemma event_sends o s :
  s ∉ webSockets w → (of_client o = true → s ∉ peerSocketsLocked (gossip w)) →
  outbox s w (run_state (spread o (ev id)) w) =
    if decide (reached w s (c_room (chat id))) then [chat_push (chat id)] else [].
Proof using no_failure writes voc chats ok rep known message fresh room name fits addressed.
  intros Hs Hpeer. destruct (origin_writes o) as (oks & w' & Hrun & Hnet & Hlen & Hok & _).
  unfold run_state, outbox. rewrite Hrun. cbn [snd]. rewrite Hnet, drop_app_length, sent_on_app.
  assert (sent_on s (to_peers o (ev id) (gossip w)) = []) as ->.
  { destruct o; [done|]. unfold to_peers. destruct (voc_wire _ _ voc id known). rewrite sent_to_peer by done.
    rewrite filter_none; [done|]. intros fd Hfd ->. by apply (Hpeer eq_refl). }
  rewrite app_nil_r, sent_to by (done || apply NoDup_filter, NoDup_elements).
  assert (deserialize (wire w (chat_push (chat id)) s) = Some (chat_push (chat id))) as ->.
  { unfold wire. rewrite bool_decide_eq_false_2 by done. apply frame_back; [|done].
    split; [|by cbn]. cbn. unfold in_u64. unfold u64. apply Z.mod_pos_bound. lia. }
  assert (s ∈ targets w r INVALID_SOCKET ↔ reached w s (c_room (chat id))) as Hiff.
  { unfold targets, reached. rewrite list_elem_of_filter, elem_of_elements, name. tauto. }
  destruct (decide (s ∈ _)) as [H|H], (decide (reached _ _ _)) as [H'|H']; try done; exfalso; tauto.
Qed.
Lemma event_forwarded o fd :
  of_client o = true → peer_on fd (gossip w) → ¬ reached w fd (c_room (chat id)) →
  outbox fd w (run_state (spread o (ev id)) w) = [ev id].
Proof using no_failure writes voc chats ok rep known message fresh room name fits addressed.
  intros Ho Hpeer Hm. destruct (origin_writes o) as (oks & w' & Hrun & Hnet & Hlen & Hok & _).
  unfold run_state, outbox. rewrite Hrun. cbn [snd]. rewrite Hnet, drop_app_length, sent_on_app.
  rewrite sent_to by (done || apply NoDup_filter, NoDup_elements). rewrite decide_False.
  - destruct o; [done|]. unfold to_peers. destruct (voc_wire _ _ voc id known). rewrite sent_to_peer by done. by rewrite Hpeer.
  - unfold targets. rewrite list_elem_of_filter, elem_of_elements, name. intros [[? ?] ?]. by apply Hm.
Qed.
(** the second time nothing happens *)
Lemma event_repeated o :
  let w' := run_state (spread o (ev id)) w in run_state (handle_event (ev id)) w' = w'.
Proof using no_failure writes voc chats ok rep known message fresh room name fits addressed.
  destruct (origin_writes o) as (oks & w' & Hrun & _ & _ & _ & Hg). cbv zeta. unfold run_state at 2 3. rewrite Hrun. cbn [snd].
  destruct (deliver_ids ev V voc [id] w ok) as (Hn' & Hrec & _); [by intros x ->%list_elem_of_singleton|apply NoDup_singleton|].
  cbn [fmap list_fmap deliver foldl] in Hn', Hrec. rewrite <-Hg in Hn', Hrec. clear Hrun Hg.
  assert (∀ e, remember id e w' = (Ok false, w')) as Hrem.
  { intros e. unfold remember, mbind, SE_bind, gets. rewrite note_event_run by apply Hn'.
    rewrite decide_True; [done|]. rewrite Hrec, elem_of_app. right. by left. }
  unfold run_state, handle_event. cbv zeta. rewrite (voc_id _ _ voc id known). destruct (is_empty id); [done|]. by erewrite bind_run by apply Hrem.
Qed.
End event.

(** both origins together *)
Lemma event_run id r w :
  node_ok ev V (gossip w) → replica ev V chat U past w → id ∈ V → says (ev id) → id ∉ recentEventIds (gossip w) →
  knownRooms w !! c_room (chat id) = Some r → Room.name r = c_room (chat id) → serialize (chat_push (chat id)) ≠ "" →
  Packet.sender (ev id) ≠ "" ∧ Packet.receiver (ev id) ≠ "" →
  ∀ o s, comes o id w → s ∉ webSockets w → (of_client o = true → s ∉ peerSocketsLocked (gossip w)) →
  ∃ w', take_event o (ev id) w = (Ok (told o), w') ∧ run_state (handle_event (ev id)) w' = w' ∧
    (∀ fd, of_client o = true → peer_on fd (gossip w) → ¬ reached w fd (c_room (chat id)) → outbox fd w w' = [ev id]) ∧
    outbox s w w' = if decide (reached w s (c_room (chat id))) then [chat_push (chat id)] else [].
Proof using no_failure writes voc chats.
  intros Hn Hr HV Hsay Hno Hroom Hname Hp Haddr o s Hcome Hs Hpeer. set (v := start o w).
  assert (node_ok ev V (gossip v)) as Hn' by (by destruct o). assert (gossip v = gossip w) as Hg by (by destruct o).
  assert (replica ev V chat U past v) as Hr' by (destruct o; [exact Hr|destruct Hr; by constructor]).
  assert (id ∉ recentEventIds (gossip v)) as Hno' by (by destruct o).
  assert (knownRooms v !! c_room (chat id) = Some r) as Hroom' by (by destruct o).
  assert (∀ s n, reached v s n ↔ reached w s n) as Hreach by (by destruct o).
  assert (∀ s w', outbox s v w' = outbox s w w') as Hout by (by destruct o).
  destruct (origin_writes id r v Hn' Hr' HV Hsay Hno' Hroom' Hname Hp Haddr o) as (oks & w' & Hrun & _).
  assert (run_state (spread o (ev id)) v = w') as Hw' by (unfold run_state; by rewrite Hrun).
  exists w'. split; [by apply take_event_run|]. rewrite <-Hw'. split; [by apply event_repeated with (r := r)|]. split.
  - intros fd Ho Hfd Hm. rewrite <-Hout. apply event_forwarded with (r := r); try done; by rewrite ?Hg, ?Hreach.
  - rewrite <-Hout, (event_sends id r v) by (try done; by destruct o). by apply decide_ext.
Qed.
End server.

(** ** The client *)

Section client.
Context {env : ClientEnv} {qt : QtEnv} {laws : QtLaws}.

(** the reader queues a chat push for the room the client is in *)
Lemma reader_push p rest c r :
  connected c = true → socketUp c = true → inbound c = p :: rest →
  Packet.type p = MESSAGE → Packet.responseCode p = 0%Z → Packet.timestamp p ≠ 0%Z →
  currentRoom c = Some r → Packet.room p = Room.name r →
  ∃ c', reader_step c = (Ok true, c') ∧
    pendingChat c' = pendingChat c ++ [Client.mkLine (Packet.sender p) (Packet.message p) (Packet.timestamp p)].
Proof using Type.
  intros Hup Hopen Hin Hty Hcode Hts Hr Hroom.
  unfold reader_step, on_packet, is_push, on_push, enqueueChatPush, noteInbound, Client.steady_now, Client.next_read.
  unfold mbind, SE_bind, gets, modify, mret, SE_ret. cbv beta iota. rewrite Hup, Hopen. cbn [negb orb]. cbv beta iota.
  rewrite Hin. cbv beta iota.
  rewrite Hty, Hcode. rewrite decide_False by done. cbn [Z.eqb andb]. cbv beta iota.
  cbn [currentRoom set_last set_creads set_queues]. rewrite Hr, Hroom, String.eqb_refl. rewrite andb_false_r.
  rewrite (proj2 (Z.eqb_neq _ _) Hts). cbv beta iota. by eexists.
Qed.

(** the line a window shows for a message *)
Definition message_line (who what : string) (created : Z) : string :=
  date_text "dd/MM/yy, HH:mm" created +:+ "  ·  " +:+ fromStdString who +:+ "  ·  " +:+ fromStdString what.
Lemma window_reads p push rest r :
  badge_ok (Window.chat p) → look_ok (look p) →
  connected (the_client p) = true → socketUp (the_client p) = true → inbound (the_client p) = push :: rest →
  Packet.type push = MESSAGE → Packet.responseCode push = 0%Z → (0 < Packet.timestamp push < 2 ^ 63)%Z →
  currentRoom (the_client p) = Some r → Packet.room push = Room.name r →
  ∃ waiting, Forall2 line_text (pendingChat (the_client p)) waiting ∧
    transcript (Window.chat (run_events [Background Received; Background Timer] p)) =
      transcript (Window.chat p) ++ waiting ++
        [message_line (Packet.sender push) (Packet.message push) (Packet.timestamp push)].
Proof using laws.
  intros Hb Hl Hup Hopen Hin Hty Hcode Hts Hr Hroom.
  destruct (reader_push push rest (the_client p) r) as (c' & Hrun & Hpend); try done; [lia|].
  cbn [run_events foldl on_event meanwhile_step].
  set (p1 := run_state _ p). assert (p1 = Window.set_life (set_cl c' (Window.life p)) p) as Hp1.
  { unfold p1, run_state, mbind, SE_bind. by rewrite (on_client_run _ p _ _ Hrun). }
  destruct (refresh_run p1) as (p2 & Hrun2 & _ & _ & _ & _ & new & Hnew & Ht); [by rewrite Hp1..|].
  unfold run_state. rewrite Hrun2. cbn [snd]. rewrite Ht, Hp1. cbn [Window.chat Window.set_life].
  rewrite Hp1 in Hnew. change (the_client (Window.set_life (set_cl c' _) p)) with c' in Hnew. rewrite Hpend in Hnew.
  apply Forall2_app_inv_l in Hnew as (waiting & last & Hw & Hlast & ->). exists waiting. split; [done|]. do 2 f_equal.
  apply Forall2_cons_inv_l in Hlast as (line & tl & (secs & Hsecs & ->) & ->%Forall2_nil_inv_l & ->). f_equal.
  unfold message_line. cbn [author Client.text timestamp] in *. rewrite Hsecs by lia.
  assert (i64 (Packet.timestamp push) = Packet.timestamp push) as ->; [|done].
  unfold i64, u64. cbv zeta. rewrite Z.mod_small by lia. by destruct (Z.ltb_spec (Packet.timestamp push) (2 ^ 63)); [|lia].
Qed.
End client.

(** * Theorems *)


(** * Witness *)

(** a node that started on the seeded tables, was greeted by a peer on socket 200, and took two
    connections: on 7 a user signs in and goes to General, on 8 an admin does.  What they did
    is in its log already *)
Definition node : ServerEnv := node_env 2.
Definition greeting : Packet.t := Packet.make 1726000100 "node0" "*" GOSSIP_HELLO "" "10.0.0.1:5050" 0.
Definition sign_in (who : string) : Packet.t := Packet.make 1726000150 who "server" LOGIN "" who 0.
Definition enter_general (who : string) : Packet.t := Packet.make 1726000160 who "server" ROOM_JOIN "General" "" 0.
Definition started_node : World := run_state (Server_start (env := node)) (boot seeded).
Definition linked_node : World :=
  run_state (openSession (env := node) 8) (run_state (openSession (env := node) 7)
    (run_state (handle_peer_packet (env := node) 200 false greeting) (run_state (accept_peer (env := node) 200) started_node))).
Definition member_node : World :=
  run_state (dispatchPacket (env := node) 8 (enter_general "admin")) (run_state (dispatchPacket (env := node) 8 (sign_in "admin"))
    (run_state (dispatchPacket (env := node) 7 (enter_general "user")) (run_state (dispatchPacket (env := node) 7 (sign_in "user"))
      linked_node))).
Lemma member_steps : steps (env := node) started_node member_node.
Proof.
  unfold member_node, linked_node.
  eapply rtc_l; [apply (step_peer_accept (env := node) 200)|]. eapply rtc_l; [apply (step_peer_packet (env := node) 200 false greeting)|].
  eapply rtc_l; [apply (step_accept (env := node) 7); vm_compute; reflexivity|].
  eapply rtc_l; [apply (step_accept (env := node) 8); vm_compute; reflexivity|].
  eapply rtc_l; [apply (step_packet (env := node) 7 (sign_in "user"))|].
  eapply rtc_l; [apply (step_packet (env := node) 7 (enter_general "user"))|].
  eapply rtc_l; [apply (step_packet (env := node) 8 (sign_in "admin"))|].
  eapply rtc_l; [apply (step_packet (env := node) 8 (enter_general "admin"))|]. apply rtc_refl.
Qed.
Example member_log :
  (λ id, event_type (stored_event (gossip member_node) id)) <$> recentEventIds (gossip member_node) =
    Some <$> ["LOGIN"; "ROOM_JOIN"; "ROOM_JOIN"; "LOGIN"; "ROOM_JOIN"; "ROOM_JOIN"].
Proof. vm_compute. reflexivity. Qed.

Definition hello_request : Packet.t := Packet.make 1726000190 "user" "server" MESSAGE "General" "hello" 0.
Definition hello_answer : Packet.t := Packet.make 1726000191 "server" "user" MESSAGE "" "" 0.
Definition hello_id : string := Eval vm_compute in posted_id (env := node) member_node 0.
Definition hello_event : Packet.t := Eval vm_compute in posted_event (env := node) member_node 0 hello_request.
Definition hello_time : Z := Eval vm_compute in env_time (ServerEnv := node) (reads member_node).
Definition hello_chat : Chat := Replica.mkChat "General" seeded_user "hello" hello_time.
Definition posting : Origin := FromClient 0 hello_request hello_answer.
Definition posted : World := run_state (take_event (env := node) posting hello_event) member_node.

(** the events of the log and the one to come *)
Definition earlier_ids : list string := Eval vm_compute in recentEventIds (gossip member_node).
Definition hello_ev (id : string) : Packet.t :=
  if String.eqb id hello_id then hello_event else stored_event (gossip member_node) id.
Definition hello_V : gset string := list_to_set (hello_id :: earlier_ids).
Lemma hello_known id : id ∈ hello_V ↔ id ∈ hello_id :: earlier_ids.
Proof. apply elem_of_list_to_set. Qed.
Lemma hello_vocabulary : vocabulary hello_ev hello_V.
Proof.
  constructor; [vm_compute; lia|intros id Hid%hello_known..].
  all: revert id Hid; apply Forall_forall; unfold earlier_ids, hello_id; repeat (apply Forall_cons; split); try (by apply Forall_nil).
  all: vm_compute; repeat split; try done; intros H; discriminate H.
Qed.
Lemma hello_kinds id :
  id ∈ hello_V → event_type (hello_ev id) = Some "LOGIN" ∨ event_type (hello_ev id) = Some "ROOM_JOIN" ∨
    event_type (hello_ev id) = Some "MESSAGE" ∧ id = hello_id.
Proof.
  intros Hid%hello_known. revert id Hid. apply Forall_forall. unfold earlier_ids, hello_id.
  repeat (apply Forall_cons; split); try (by apply Forall_nil).
  all: vm_compute; first [left; reflexivity|right; left; reflexivity|right; right; split; reflexivity].
Qed.
Lemma hello_chats : chats_ok hello_ev hello_V (λ _, hello_chat) sample_users.
Proof.
  assert (∀ t, t ∈ ["LOGIN"; "ROOM_JOIN"; "MESSAGE"] → t ∉ ["USER_CREATED"; "ROOM_CREATED"; "ROOM_DELETED"]) as Hcalm
    by (apply Forall_forall, (bool_decide_unpack _); vm_compute; exact I).
  intros id Hid. destruct (hello_kinds id Hid) as [Ht|[Ht|[Ht Hsame]]];
    (split; [refine (calm_kind _ _ Ht (Hcalm _ _)); rewrite !elem_of_cons; tauto|unfold says; rewrite Ht; intros Hs; try discriminate Hs]).
  subst id. clear.
  split; [eexists; split; [vm_compute; reflexivity|repeat split; reflexivity]|].
  split; [right; left|]; reflexivity.
Qed.
Lemma member_ids id : id ∈ log_ids (gossip member_node) → id ∈ hello_V ∧ id ≠ hello_id.
Proof.
  assert (recentEventIds (gossip member_node) = earlier_ids) as E by (vm_compute; reflexivity).
  unfold log_ids. rewrite E, elem_of_list_to_set. intros Hid. split; [apply hello_known; by right|].
  intros ->. revert Hid. apply (bool_decide_unpack _). vm_compute. exact I.
Qed.
Lemma member_node_ok : node_ok hello_ev hello_V (gossip member_node).
Proof.
  assert (log_inv member_node) as Hlog.
  { pose proof member_steps as Hs. pose proof (started_log (env := node) seeded) as H0. change (log_inv started_node) in H0.
    induction Hs; [done|]. apply IHHs. by eapply step_log. }
  split; [exact Hlog|by intros id [? _]%member_ids|]. intros id [_ Hne]%member_ids.
  unfold hello_ev. by rewrite (proj2 (String.eqb_neq _ _) Hne).
Qed.
Lemma member_node_replica : replica hello_ev hello_V (λ _, hello_chat) sample_users no_past member_node.
Proof.
  assert (consistent member_node) as (Hwf & _ & _).
  { apply (steps_consistent (env := node) (λ _, eq_refl) _ _ member_steps).
    apply (started_consistent (env := node) (λ _, eq_refl)); [apply init_wf|apply seeded_rooms]. }
  assert (knownRooms member_node = {["Lobby" := LOBBY; "General" := GENERAL]}) as Hk by (vm_compute; reflexivity).
  assert (DatabaseManager.users (db member_node) = sample_users ∧ DatabaseManager.rooms (db member_node) = DatabaseManager.rooms seeded ∧
    DatabaseManager.messages (db member_node) = []) as (Hu & Hr & Hm)
    by (vm_compute; split_and!; reflexivity).
  constructor.
  - exact (proj1 Hwf).
  - vm_compute. reflexivity.
  - rewrite Hu. reflexivity.
  - rewrite Hk, Hr. intros name r. rewrite lookup_insert_Some. intros [[<- <-]|[_ [<- <-]%lookup_singleton_Some]].
    + exists (mkRoomRow 1 "Lobby" "Lobby" "PUBLIC"). split; [left|by split].
    + exists (mkRoomRow 2 "General" "Other" "PUBLIC"). split; [right; left|by split].
  - intros id _ _. rewrite Hk. by eexists.
  - rewrite Hm. intros m ?%elem_of_nil. contradiction.
  - rewrite Hm. intros m ?%elem_of_nil. contradiction.
  - intros name r l _. rewrite Hm, filter_nil. unfold in_room, no_past. split; [intros ?%elem_of_nil; contradiction|].
    intros [?%elem_of_nil|(id & Hid & Hsay & _)]; [contradiction|]. apply member_ids in Hid as [Hid Hne].
    unfold says in Hsay. destruct (hello_kinds id Hid) as [Ht|[Ht|[_ ?]]];
      [rewrite Ht in Hsay; discriminate Hsay..|contradiction].
Qed.

(** the reader's window, with the packet on its link *)
Definition member_page : Page :=
  run_events (env := sample_client_env) (qt := sample_qt) []
    (open_page (env := sample_client_env) (qt := sample_qt) (in_general [chat_push hello_chat]) 5 []).

