(* ===== verification/Main.v ===== *)
(** The two programs (src/server/main.cpp, src/client/main.cpp): what [main] does with the
    command line, the server or client object, and its end.

    The server: [server_main] relates a command line to what [main] returns and to the process
    it leaves; in between the process moves as in Process.v.  In console mode the main thread
    waits for the stop signal: [Ctrl] is that wait with its mutex and condition variable, the
    threads of the control handler and the waiter as interleaved events.

    The client: [client_main] is executable.  A [Turn] is one look of the console loop at its
    flags, with what the supervisor and the reader did before it and whether the control
    handler was called; the window gets its events from Window.v.  [None] is a loop whose turns
    ran out.

    The theorems: both programs leave nothing open behind, and the client ends when it is told
    to; a stop signal can be lost between the waiter's look at the flag and its sleep, and then
    only another one ends the server. *)
From S2P Require Import Prelude Packet Models DatabaseManager World Process.
From S2P Require Import Config Dialogue Client Supervision Console Qt ChatStyle Window.
From stdpp Require Import options.

(** * Definitions *)

(** ** Waiting for the stop signal *)

Inductive Waiter :=
  | Looks      (* about to test the flag, with the mutex *)
  | Dozes      (* the flag was not set; about to sleep, with the mutex *)
  | Sleeps     (* in the queue of the condition variable, without the mutex *)
  | Leaves.
Record Ctrl := mkCtrl {
  g_stop : bool;
  notifying : nat;     (* handler calls that set the flag and did not notify yet *)
  waiter : Waiter
}.
Inductive CtrlEvent :=
  | HandlerSets | HandlerNotifies       (* onConsoleCtrl *)
  | WaiterTests | WaiterSleeps | WakesAnyway.
#[global] Instance Waiter_eq_dec : EqDecision Waiter.
Proof. solve_decision. Defined.
#[global] Instance CtrlEvent_eq_dec : EqDecision CtrlEvent.
Proof. solve_decision. Defined.

(** [None]: the event cannot happen now *)
Definition ctrl_step (e : CtrlEvent) (c : Ctrl) : option Ctrl :=
  match e, waiter c with
  | HandlerSets, _ => Some (mkCtrl true (S (notifying c)) (waiter c))
  | HandlerNotifies, w =>
      match notifying c with
      | O => None
      | S n => Some (mkCtrl (g_stop c) n (match w with Sleeps => Looks | _ => w end))
      end
  | WaiterTests, Looks => Some (mkCtrl (g_stop c) (notifying c) (if g_stop c then Leaves else Dozes))
  | WaiterSleeps, Dozes => Some (mkCtrl (g_stop c) (notifying c) Sleeps)
  | WakesAnyway, Sleeps => Some (mkCtrl (g_stop c) (notifying c) Looks)
  | _, _ => None
  end.
Fixpoint ctrl_run (es : list CtrlEvent) (c : Ctrl) : option Ctrl :=
  match es with [] => Some c | e :: es => c ← ctrl_step e c; ctrl_run es c end.
Definition ctrl_start : Ctrl := mkCtrl false 0 Looks.

(** ** The server *)

(** the settings of the command line *)
Definition server_env (c : Config) (base : ServerEnv) : ServerEnv := {|
  srv_db := {| db_argon2 := db_argon2 (DbEnv := srv_db (ServerEnv := base));
               env_db := env_db (DbEnv := srv_db (ServerEnv := base));
               env_salt := env_salt (DbEnv := srv_db (ServerEnv := base));
               DatabaseManager.NODE_ID := NODE_ID c |};
  World.SERVER_HOST := SERVER_HOST c; World.PORT := PORT c;
  env_time := env_time (ServerEnv := base); env_steady := env_steady (ServerEnv := base);
  env_rand := env_rand (ServerEnv := base); env_write := env_write (ServerEnv := base);
  env_connect := env_connect (ServerEnv := base); env_listening := env_listening (ServerEnv := base);
  World.PEER_PORT := PEER_PORT c; World.PEERS := PEERS c
|}.

Section server.
Context {env : ServerEnv} {os : ProcessEnv}.

(** the main thread returned from [g_cv.wait] *)
Definition signalled (es : list CtrlEvent) : Prop := ∃ c, ctrl_run es ctrl_start = Some c ∧ waiter c = Leaves.
(** [main] from the [Server] object on, with the mode: it starts the server, which then moves
    until the events [es] of the wait let the main thread go on, or the event loop of the
    window returns [rc]; its destructor stops it again *)
Definition server_session (tables : Db) (es : list CtrlEvent) (test : bool) (rc : Z) (p : Process) : Prop :=
  ∃ p1 p2 p3,
    server_start (fresh_process tables) = (Ok tt, p1) ∧ rtc move p1 p2 ∧
    (test = true → rc = 0%Z ∧ signalled es) ∧
    server_stop p2 = (Ok tt, p3) ∧ server_stop p3 = (Ok tt, p).
End server.

(** [None] is a process in which no server was made *)
Definition server_main (base : ServerEnv) (os : ProcessEnv) (tables : Db) (args : list string)
    (es : list CtrlEvent) (rc : Z) (left_ : option Process) : Prop :=
  match parseArgs args defaults with
  | (false, _) => rc = 1%Z ∧ left_ = None
  | (true, c) => ∃ p, left_ = Some p ∧ server_session (env := server_env c base) tables es (TEST_MODE c) rc p
  end.

(** ** The client *)

Definition client_env (c : Config) (base : ClientEnv) : ClientEnv := {|
  config := c;
  cl_steady := cl_steady (ClientEnv := base); cl_time := cl_time (ClientEnv := base);
  cl_draw := cl_draw (ClientEnv := base); cl_dial := cl_dial (ClientEnv := base);
  cl_inbound := cl_inbound (ClientEnv := base); cl_write := cl_write (ClientEnv := base);
  cl_stop := cl_stop (ClientEnv := base); cl_in_time := cl_in_time (ClientEnv := base);
  cl_burst := cl_burst (ClientEnv := base)
|}.

(** what the other threads do *)
Inductive Work := Reads | Supervises (watched : nat).
Record Turn := mkTurn { work : list Work; ctrl : bool }.
(** what the window is given *)
Record Gui := mkGui { view : Z; script : list Answer; events : list Event; code : Z }.

Section client.
Context {env : ClientEnv} {qt : QtEnv}.

Definition background (w : Work) : MC unit :=
  match w with
  | Reads => Console.on_client reader_step ;; mret tt
  | Supervises n => zoom Console.life Console.set_life (supervise n)
  end.
Definition isRunning : MC bool := gets (λ s, supervisorRunning (Console.life s)).
Definition isReconnecting : MC bool := gets (λ s, reconnecting (Console.client s)).

(** the console loop, and with [waiting] the loop in it that waits for the link *)
Fixpoint console_loop (turns : list Turn) (stop waiting : bool) : MC bool :=
  match turns with
  | [] => mret false
  | t :: turns =>
      for_each (work t) background ;;
      let stop := stop || ctrl t in
      up ← isRunning;
      away ← isReconnecting;
      if waiting then console_loop turns stop (negb stop && up && away)
      else if stop || negb up then mret true
      else if (away : bool) then
        say ("reconnecting..." +:+ newline) ;; console_loop turns stop true
      else
        alive ← Console.on_client Client.isAlive;
        when (alive : bool) showDashboard ;;
        console_loop turns stop false
  end.

(** the window on the client, until it is closed *)
Definition window_loop (g : Gui) : MC unit :=
  modify (λ s, Console.set_life (life (run_events (events g) (open_page (Console.life s) (view g) (script g)))) s).

(** [main] from the [Client] object on; its destructor stops it again *)
Definition client_session (turns : list Turn) (g : Gui) : MC (option Z) :=
  started ← zoom Console.life Console.set_life client_start;
  if negb started then exit_client ;; mret (Some 1%Z)
  else if TEST_MODE config then
    ended ← console_loop turns false false;
    if (ended : bool) then exit_client ;; exit_client ;; mret (Some 0%Z) else mret None
  else
    window_loop g ;; exit_client ;; exit_client ;; mret (Some (code g)).
End client.

Definition client_main (base : ClientEnv) {qt : QtEnv} (args : list string) (turns : list Turn) (g : Gui) : MC (option Z) :=
  match parseArgs args defaults with
  | (false, _) => mret (Some 1%Z)
  | (true, c) => client_session (env := client_env c base) turns g
  end.
(** a process that was just started, and what will be typed *)
Definition fresh_terminal (input : list (option string)) : Console := mkConsole fresh_life input "".

(** * Lemmas *)

(** ** The wait *)

(** a flag that is set stays set, and only the handler sets it *)
Lemma ctrl_flag es : ∀ c c', ctrl_run es c = Some c' →
  g_stop c' = g_stop c || bool_decide (HandlerSets ∈ es) ∧
  (waiter c' = Leaves → waiter c = Leaves ∨ g_stop c' = true).
Proof.
  induction es as [|e es IH]; intros c c' H; cbn in H.
  { injection H as <-. rewrite orb_false_r. split; [done|by left]. }
  apply bind_Some in H as (c1 & H1 & H). destruct (IH _ _ H) as [Hf Hl].
  assert (g_stop c1 = g_stop c || bool_decide (e = HandlerSets) ∧ (waiter c1 = Leaves → waiter c = Leaves ∨ g_stop c1 = true))
    as [Hf1 Hl1].
  { destruct c as [f n w], e, w, n, f; cbn in H1; try discriminate H1; injection H1 as <-; (split; [reflexivity|by auto]). }
  rewrite Hf, Hf1. split.
  { rewrite <-orb_assoc. f_equal. destruct (decide (e = HandlerSets)) as [->|He].
    - by rewrite !bool_decide_eq_true_2 by set_solver.
    - rewrite (bool_decide_eq_false_2 (e = _)) by done. cbn. apply bool_decide_ext. set_solver. }
  intros Hw. destruct (Hl Hw) as [H1'|H1']; [|right; by rewrite <-Hf1, <-Hf].
  destruct (Hl1 H1') as [?|Hs]; [by left|right]. rewrite <-Hf1, Hs. done.
Qed.

Lemma left_signalled es c : ctrl_run es ctrl_start = Some c → waiter c = Leaves → HandlerSets ∈ es.
Proof.
  intros H Hw. destruct (ctrl_flag es _ _ H) as [Hf Hl]. destruct (Hl Hw) as [?|Hs]; [done|].
  rewrite Hs in Hf. symmetry in Hf. by apply bool_decide_eq_true in Hf.
Qed.

(** ** The server *)

Section server_ends.
Context {env : ServerEnv} {os : ProcessEnv}.

Lemma stopped_again p : running p = false → server_stop p = (Ok tt, p).
Proof using Type. intros H. unfold server_stop, mbind, SE_bind, gets. by rewrite H. Qed.
Lemma stop_from tables p1 p2 :
  server_start (fresh_process tables) = (Ok tt, p1) → rtc move p1 p2 →
  ∃ p3, server_stop p2 = (Ok tt, p3) ∧ running p3 = false ∧ idle p3.
Proof using Type.
  intros H1 H2. assert (tidy p2) as Ht.
  { apply (moves_tidy p1); [done|]. apply (move_tidy (fresh_process tables)); [by apply move_start|apply fresh_tidy]. }
  unfold tidy in Ht. destruct (running p2) eqn:E; [destruct Ht; by apply stop_idle|].
  exists p2. split; [by apply stopped_again|by split].
Qed.
End server_ends.

(** ** The client *)

Section client_ends.
Context {env : ClientEnv} {qt : QtEnv}.

(** the rules of the socket hold behind the terminal *)
Definition tidily (s : Console) : Prop := orderly (Console.life s).
Lemma tidily_client {A} (m : Client.M A) : tame m → preserves tidily (Console.on_client m).
Proof using Type.
  intros Hm s Hs. unfold tidily, run_state, Console.on_client, zoom in *.
  pose proof (kept_orderly m (Console.life s) Hm Hs) as H. unfold run_state in H. rewrite on_cl_run in H.
  unfold Console.client, run_state in *. by destruct (m _).
Qed.
Lemma tidily_life {A} (m : SE Life A) : preserves orderly m → preserves tidily (zoom Console.life Console.set_life m).
Proof using Type. intros Hm. by apply (preserves_zoom _ orderly). Qed.
Lemma stop_kept : preserves orderly client_stop.
Proof using Type.
  intros l Hl. destruct (stop_orderly l Hl) as (c & Hrun & Hc). unfold run_state. rewrite Hrun.
  split; [exact Hc|]. split; [done|]. by destruct Hl as (_ & _ & ?).
Qed.
Lemma start_kept : preserves orderly client_start.
Proof using Type. intros l Hl. by apply start_orderly. Qed.
Lemma tidily_exit : preserves tidily exit_client.
Proof using Type. apply tidily_life, stop_kept. Qed.
Hint Extern 5 (preserves tidily (modify _)) => apply preserves_modify; intros ? ?; assumption : pres.
Lemma tidily_say t : preserves tidily (say t).
Proof using Type. unfold say. solve_pres. Qed.
Lemma tidily_built build : preserves tidily (built build).
Proof using Type.
  unfold built, say_line. pose proof tidily_say. pose proof (tidily_client _ tame_time). solve_pres.
Qed.
Hint Resolve tidily_exit tidily_say tidily_built : pres.
Lemma tidily_readLine prompt : preserves tidily (readLine prompt).
Proof using Type.
  assert (∀ n, preserves tidily (readLine_loop n prompt)) by (induction n; cbn [readLine_loop]; unfold say_line, getline; solve_pres).
  unfold readLine. solve_pres.
Qed.
Lemma tidily_choice min max : preserves tidily (tryReadMenuChoice min max).
Proof using Type. unfold tryReadMenuChoice, getline. solve_pres. Qed.
Hint Resolve tidily_choice : pres.
Lemma tidily_menu screen min max : preserves tidily screen → preserves tidily (menu screen min max).
Proof using Type.
  intros Hs. assert (∀ n, preserves tidily (menu_loop n screen min max)).
  { induction n; cbn [menu_loop]; solve_pres. }
  unfold menu. solve_pres.
Qed.
Hint Resolve tidily_readLine : pres.
Lemma tidily_ask prompt k : (∀ l, preserves tidily (k l)) → preserves tidily (ask prompt k).
Proof using Type. intros Hk. unfold ask. solve_pres. Qed.
Lemma tidily_do screen op : preserves tidily screen → (∀ p, tame (op p)) → preserves tidily (then_do screen op).
Proof using Type.
  intros Hs Ho. unfold then_do. pres_step; [done|intros [p|]; [|solve_pres]]. pres_step; [apply tidily_client, Ho|solve_pres].
Qed.
Lemma tidily_user k : (∀ u, preserves tidily (k u)) → preserves tidily (with_user k).
Proof using Type. intros Hk. unfold with_user. solve_pres. Qed.
Ltac screens := repeat first
  [ match goal with
    | |- preserves tidily (then_do _ _) => apply tidily_do; [|intros ?]
    | |- preserves tidily (with_user _) => apply tidily_user; intros ?
    | |- preserves tidily (ask _ _) => apply tidily_ask; intros ?
    | |- preserves tidily (menu _ _ _) => apply tidily_menu
    | |- preserves tidily (Console.on_client _) => apply tidily_client
    | |- tame (kickFromRoom _ _) => apply tame_kick
    | |- tame (Client.deleteRoom _) => apply tame_delete
    | |- tame loadMessageHistory => apply tame_history
    | |- tame (login ?u ?p) => exact (tame_plain (Login u p))
    | |- tame (signUp ?u ?p ?e) => exact (tame_plain (SignUp u p e))
    | |- tame logout => exact (tame_plain Logout)
    | |- tame (updateProfile ?u ?p ?e) => exact (tame_plain (UpdateProfile u p e))
    | |- tame (Client.joinRoom ?n) => exact (tame_plain (JoinRoom n))
    | |- tame leaveRoom => exact (tame_plain LeaveRoom)
    | |- tame (sendMessage ?b) => exact (tame_plain (SendMessage b))
    | |- tame (Client.createRoom ?n ?p) => exact (tame_plain (CreateRoom n p))
    | |- tame (inviteToRoom ?n ?u) => exact (tame_plain (Invite n u))
    end
  | progress pres_step ].
Lemma tidily_dashboard : preserves tidily showDashboard.
Proof using Type.
  unfold showDashboard, signed_out_turn, signed_in_turn, showHomeScreen, showUserDashboard, admin_only, log_out, show_history,
    home_screen, dashboard_screen, showLogin, showRegister, showUpdateProfile, showJoinRoom, showCreateMessage, showCreateRoom,
    showInviteToRoom, showKickFromRoom, showDeleteRoom, with_room, say_line. screens.
Qed.
Lemma tidily_background w : preserves tidily (background w).
Proof using Type.
  destruct w as [|n]; cbn [background].
  - pres_step; [apply tidily_client, tame_reader|intros _; apply preserves_ret].
  - apply tidily_life. intros l Hl. by apply supervise_orderly.
Qed.
Hint Resolve tidily_dashboard tidily_background : pres.
Lemma tidily_loop turns stop waiting : preserves tidily (console_loop turns stop waiting).
Proof using Type.
  pose proof (tidily_client _ tame_alive). revert stop waiting.
  induction turns as [|t turns IH]; intros stop waiting; cbn [console_loop]; unfold isRunning, isReconnecting; solve_pres.
Qed.
Lemma tidily_window g : preserves tidily (window_loop g).
Proof using Type. apply preserves_modify. intros s Hs. unfold tidily. by apply orderly_events. Qed.

Lemma total_loop turns stop waiting : total (console_loop turns stop waiting).
Proof using Type.
  assert (∀ w, total (background w)) as Hb.
  { intros [|n]; cbn [background]; [|apply total_zoom, total_supervise]. pose proof total_reader.
    apply total_bind; [by apply total_zoom|intros _; apply total_ret]. }
  pose proof total_showDashboard. assert (total (Console.on_client Client.isAlive)) by (apply total_zoom, total_alive).
  revert stop waiting. induction turns as [|t turns IH]; intros stop waiting; cbn [console_loop];
    unfold isRunning, isReconnecting, say; solve_total.
Qed.
Lemma total_client_start : total client_start.
Proof using Type.
  assert (∀ k a h, total (dial_loop k a h)).
  { pose proof total_read_stop. pose proof client_reads. pose proof total_act. pose proof noteInbound_total.
    induction k as [|k IH]; intros a h; cbn [dial_loop]; unfold Client.connect, rememberConnected, markReconnecting,
      forgetConnected, failAndWait; cbv zeta; solve_total. }
  pose proof client_reads. pose proof total_act. pose proof total_reader. pose proof push_total. pose proof total_resume.
  assert (∀ k, total (reader_steps k)) by (intros k; induction k; cbn [reader_steps]; solve_total).
  unfold client_start, supervisor_ends. solve_total; apply total_zoom;
    unfold Client.start, rebuildEndpoints, dial, disconnect; solve_total.
Qed.
Lemma run_total {A} (m : MC A) s : total m → ∃ a, m s = (Ok a, run_state m s).
Proof using Type. intros Hm. destruct (Hm s) as [a Ha]. exists a. unfold run_out, run_state in *. destruct (m s). cbn in *. by subst. Qed.

(** the console loop ends at the second turn after the stop signal *)
Definition told (turns : list Turn) : Prop :=
  ∃ before t t' after, turns = before ++ t :: t' :: after ∧ ctrl t = true.
Lemma loop_ends turns : ∀ stop waiting s,
  told turns ∨ stop = true ∧ (if waiting : bool then 2 else 1) <= length turns →
  run_out (console_loop turns stop waiting) s = Ok true.
Proof using Type.
  assert (∀ w, total (background w)) as Hb.
  { intros [|n]; cbn [background]; [|apply total_zoom, total_supervise]. pose proof total_reader.
    apply total_bind; [by apply total_zoom|intros _; apply total_ret]. }
  induction turns as [|t turns IH]; intros stop waiting s H.
  { exfalso. destruct H as [(b & ? & ? & ? & H & _)|[_ H]]; [by destruct b|by destruct waiting; cbn in H; lia]. }
  assert (told turns ∨ (stop || ctrl t = true ∧ 1 <= length turns) ∨ stop = true ∧ waiting = false) as Hn.
  { destruct H as [([|x b] & t1 & t2 & post & H & Hc)|[-> H]].
    - injection H as -> ->. right; left. rewrite Hc, orb_true_r. split; [done|cbn; lia].
    - injection H as -> ->. left. by exists b, t1, t2, post.
    - destruct waiting; [right; left|by right; right]. split; [done|cbn in H; lia]. }
  cbn [console_loop]. unfold run_out, mbind at 1, SE_bind at 1.
  destruct (run_total (for_each (work t) background) s) as [[] ->]; [by apply total_for_each|].
  set (s1 := run_state _ s). clearbody s1. unfold isRunning, isReconnecting, mbind at 1 2, SE_bind at 1 2, gets. cbv beta iota zeta.
  destruct (stop || ctrl t) eqn:E.
  - cbn [negb andb orb]. destruct waiting; [|done]. apply IH. destruct Hn as [?|[[_ ?]|[_ ?]]]; [by left|by right|done].
  - assert (told turns) as Ht by (destruct Hn as [?|[[? _]|[-> _]]]; done). clear Hn H.
    destruct waiting; [by apply IH; left|]. destruct (negb (supervisorRunning _)); [done|]. cbn [orb].
    destruct (reconnecting _); [unfold mbind, SE_bind; rewrite say_run; by apply IH; left|].
    unfold mbind, SE_bind. destruct (run_total (Console.on_client Client.isAlive) s1) as [alive ->]; [apply total_zoom, total_alive|].
    set (s2 := run_state _ s1). clearbody s2.
    destruct (run_total (when alive showDashboard) s2) as [[] ->]; [apply total_when, total_showDashboard|]. by apply IH; left.
Qed.

(** what is left when the client was stopped *)
Definition stopped_client (s : Console) : Prop :=
  sockets (trace (Console.client s)) = Some false ∧
  supervisorRunning (Console.life s) = false ∧ joinable (Console.life s) = false.
Lemma exit_run s : tidily s → ∃ s', exit_client s = (Ok tt, s') ∧ tidily s' ∧ stopped_client s'.
Proof using Type.
  intros Hs. unfold exit_client, zoom. pose proof (stop_kept _ Hs) as Hk. unfold run_state in Hk.
  destruct (stop_orderly _ Hs) as (c & Hrun & Ht & _ & Hc). rewrite Hrun in *. eexists. split; [done|]. split; [exact Hk|].
  split; [cbn; by rewrite Ht, Hc|done].
Qed.
Lemma session_ends turns g s :
  tidily s → ∃ r s', client_session turns g s = (Ok r, s') ∧ (is_Some r → stopped_client s') ∧
    (TEST_MODE config = false ∨ told turns → is_Some r).
Proof using Type.
  intros Hs. unfold client_session, mbind, SE_bind.
  destruct (run_total (zoom Console.life Console.set_life client_start) s) as [up Hup]; [apply total_zoom, total_client_start|].
  rewrite Hup. pose proof (tidily_life client_start start_kept s Hs) as Hs1. set (s1 := run_state _ s) in *. clearbody s1.
  destruct (exit_run s1 Hs1) as (q & Hq & _ & Hd). destruct up; cbn [negb].
  2: { rewrite Hq. by eexists _, _. }
  destruct (TEST_MODE config) eqn:Et.
  - destruct (run_total (console_loop turns false false) s1) as [e He]; [apply total_loop|]. rewrite He.
    pose proof (tidily_loop turns false false s1 Hs1) as Hs2. set (s2 := run_state _ s1) in *.
    assert (told turns → e = true) as Hend.
    { intros Ht. pose proof (loop_ends turns false false s1 (or_introl Ht)) as H. unfold run_out in H. rewrite He in H. by injection H. }
    clearbody s2. destruct e.
    + destruct (exit_run s2 Hs2) as (s3 & -> & Hs3 & _). destruct (exit_run s3 Hs3) as (s4 & -> & _ & H4). by eexists _, _.
    + eexists _, _. split; [done|]. split; [by intros []|]. intros [?|Ht]; [done|by apply Hend in Ht].
  - pose proof (tidily_window g s1 Hs1) as Hs2. unfold run_state in Hs2.
    change (window_loop g s1) with (Ok tt, (window_loop g s1).2). cbv beta iota. set (s2 := (window_loop g s1).2) in *. clearbody s2.
    destruct (exit_run s2 Hs2) as (s3 & -> & Hs3 & _). destruct (exit_run s3 Hs3) as (s4 & -> & _ & H4). by eexists _, _.
Qed.
End client_ends.

(** * Theorems *)

(** C21. The programs end clean.  A client, console or window, whatever is typed or clicked,
    whatever arrives and however the links fail, lets no exception out of [main]; when [main]
    returns, every socket it ever opened was closed, once, and no supervisor is left.  A
    command line that is refused makes it return 1 at once.  The window's program returns when
    its event loop does, the console's at the latest one turn after it was told to stop, also
    while it waits for a link. *)
Theorem client_main_ends base {qt : QtEnv} args turns g input :
  let s := fresh_terminal input in
  ∃ r s', client_main base args turns g s = (Ok r, s') ∧
    (is_Some r → stopped_client s') ∧
    ((parseArgs args defaults).1 = false → r = Some 1%Z ∧ s' = s) ∧
    (TEST_MODE (parseArgs args defaults).2 = false ∨ told turns → is_Some r).
Proof.
  cbv zeta. unfold client_main. destruct (parseArgs args defaults) as [[] c].
  - destruct (session_ends (env := client_env c base) turns g (fresh_terminal input)) as (r & s' & Hrun & H1 & H2).
    { split; [by split_and!|by split]. }
    exists r, s'. by split_and!.
  - exists (Some 1%Z), (fresh_terminal input). by split_and!.
Qed.

(** C22. The server's [main] leaves nothing running: it returns 1 without having started a
    server exactly when the command line is refused; otherwise the process it leaves holds no
    socket, no thread and no session, whatever happened in between and also when the start
    failed, and its console returns only after a stop signal.  From any state the running
    server can be in, it can be stopped, and the destructor's second stop does nothing. *)
Theorem server_main_ends base os tables args :
  (∀ es rc p, server_main base os tables args es rc p →
    match p with
    | None => rc = 1%Z ∧ (parseArgs args defaults).1 = false
    | Some p => running p = false ∧ idle p ∧ (parseArgs args defaults).1 = true ∧
        (TEST_MODE (parseArgs args defaults).2 = true → rc = 0%Z ∧ HandlerSets ∈ es)
    end) ∧
  ∀ es c p1 p2, parseArgs args defaults = (true, c) →
    let env := server_env c base in
    server_start (fresh_process tables) = (Ok tt, p1) → rtc move p1 p2 → (TEST_MODE c = true → signalled es) →
    ∃ p, server_main base os tables args es 0 (Some p) ∧ server_stop p2 = (Ok tt, p).
Proof.
  unfold server_main. split.
  - intros es rc p. destruct (parseArgs args defaults) as [[] c]; [|by intros [-> ->]].
    intros (q & -> & p1 & p2 & p3 & H1 & H2 & Ht & H3 & H4).
    destruct (stop_from (env := server_env c base) tables p1 p2 H1 H2) as (p3' & Hs & Hr & Hi).
    rewrite Hs in H3. injection H3 as <-. rewrite stopped_again in H4 by done. injection H4 as <-.
    split_and!; [done..|]. intros E. destruct (Ht E) as [-> (w & Hw & Hl)]. split; [done|]. by eapply left_signalled.
  - intros es c p1 p2 Hc. cbv zeta. rewrite Hc. intros H1 H2 Ht. destruct (stop_from (env := server_env c base) tables p1 p2 H1 H2) as (p3 & Hs & Hr & Hi).
    exists p3. split; [|done]. exists p3. split; [done|]. exists p1, p2, p3. split_and!; [done..|by intros; split; auto|done|].
    by apply stopped_again.
Qed.

(** C36. A stop signal can be lost: the main thread leaves its wait only after a signal; but
    the handler does not take the mutex, so a signal handled between the test of the flag and
    the sleep wakes nobody: there is a run after which the flag is set, no handler is left to
    notify, and nothing but another signal, or a spurious wake-up, can happen.  Another signal
    is enough then. *)
Theorem stop_signal_lost :
  (∀ es c, ctrl_run es ctrl_start = Some c → waiter c = Leaves → HandlerSets ∈ es) ∧
  (∃ es c, ctrl_run es ctrl_start = Some c ∧ g_stop c = true ∧ notifying c = 0 ∧ waiter c = Sleeps ∧
    ∀ e c', ctrl_step e c = Some c' → e = HandlerSets ∨ e = WakesAnyway) ∧
  (∀ c, waiter c = Sleeps →
    ∃ c', ctrl_run [HandlerSets; HandlerNotifies; WaiterTests] c = Some c' ∧ waiter c' = Leaves).
Proof.
  split_and!.
  - apply left_signalled.
  - exists [WaiterTests; HandlerSets; HandlerNotifies; WaiterSleeps]. eexists. split; [done|]. split_and!; try done.
    intros [] c' H; cbn in H; try discriminate H; auto.
  - intros [f n w] Hw. cbn in Hw. subst w. by eexists.
Qed.

#[local] Existing Instance sample_client_env.
#[local] Existing Instance sample_qt.
#[local] Existing Instance plain_server.

(** a console client that types nothing, and is told to stop while it waits for the link *)
Definition no_window : Gui := mkGui 5 [] [] 0.
Definition some_turns : list Turn := [mkTurn [Reads] false; mkTurn [Supervises 2; Reads] true; mkTurn [] false].
Definition at_exit : list (option string) := [Some "x"; Some "3"].

(** a start that failed is not told: [main] shows the window of a server that is down, and
    returns what the window returned *)
#[local] Instance no_winsock : ProcessEnv := {|
  os_listen n := Z.of_nat (100 + n); os_port _ := Some 8080%Z; os_winsock _ := false; os_thread _ := true |}.
Definition console_server : ServerEnv := server_env (set_test true defaults) plain_server.
Example failed_start_serves :
  ∃ p, server_main plain_server no_winsock seeded [] [] 0 (Some p) ∧ winsock p = 0%Z ∧ running p = false.
Proof.
  unfold server_main. change (parseArgs [] defaults) with (true, defaults). cbv beta iota.
  set (env := server_env defaults plain_server).
  assert (run_out server_start (fresh_process seeded) = Ok tt) as H1 by (vm_compute; reflexivity).
  set (p1 := run_state server_start (fresh_process seeded)).
  assert (running p1 = false) as Hr by (vm_compute; reflexivity).
  exists p1. split; [|vm_compute; split; reflexivity]. exists p1. split; [reflexivity|].
  exists p1, p1, p1. split; [exact (run_of _ _ _ H1)|]. split; [apply rtc_refl|]. split; [intros H; discriminate H|].
  split; by apply stopped_again.
Qed.

(** * Witnesses *)

Lemma client_main_ends_witness :
  ∃ r s', client_main sample_client_env ["--test"] some_turns no_window (fresh_terminal at_exit) = (Ok r, s') ∧
    is_Some r ∧ stopped_client s'.
Proof.
  destruct (client_main_ends sample_client_env ["--test"] some_turns no_window at_exit) as (r & s' & Hrun & Hs & _ & Hr).
  assert (is_Some r) as H.
  { apply Hr. right. exists [mkTurn [Reads] false], (mkTurn [Supervises 2; Reads] true), (mkTurn [] false), []. split; reflexivity. }
  exists r, s'. split; [exact Hrun|]. split; [exact H|]. exact (Hs H).
Defined.
Lemma server_main_ends_witness :
  let env := console_server in let os := sample_os in
  ∃ p1 p, server_start (fresh_process seeded) = (Ok tt, p1) ∧ running p1 = true ∧ length (listeners p1) = 3 ∧
    server_main plain_server sample_os seeded ["--test"] [HandlerSets; WaiterTests] 0 (Some p) ∧ idle p.
Proof.
  cbv zeta. set (env := console_server). set (os := sample_os).
  assert (run_out server_start (fresh_process seeded) = Ok tt) as H1 by (vm_compute; reflexivity).
  set (p1 := run_state server_start (fresh_process seeded)).
  destruct (proj2 (server_main_ends plain_server os seeded ["--test"]) [HandlerSets; WaiterTests] (set_test true defaults)
    p1 p1 eq_refl (run_of _ _ _ H1) (rtc_refl _ _)) as (p & Hp & _).
  { intros _. eexists. split; [reflexivity|reflexivity]. }
  exists p1, p. split; [exact (run_of _ _ _ H1)|]. split; [vm_compute; reflexivity|]. split; [vm_compute; reflexivity|].
  split; [exact Hp|]. exact (proj1 (proj2 (proj1 (server_main_ends plain_server os seeded ["--test"]) _ 0%Z (Some p) Hp))).
Defined.
