(* ===== verification/EndToEnd.v ===== *)
(** Client and server together: what the client makes of what the server answers.

    The theorems: the history the server encodes is the history the client shows, oldest
    message first; a message with a line break is the exception, which lets its author write
    lines in another user's name. *)
From S2P Require Import Prelude Packet Models PacketProcessor Client.
From stdpp Require Import options.

(** * Lemmas *)

Definition nl : ascii := "010".

(** the line [encodeHistory] writes for a message, and the one the client shows *)
Definition line_of (m : Message.t) : string :=
  "[" +:+ User.username (Message.from m) +:+ "][" +:+ to_string (Message.timestamp m) +:+ "] " +:+
  Message.content m.
Definition shown (m : Message.t) : ChatLine :=
  mkLine (User.username (Message.from m)) (Message.content m) (Message.timestamp m).

(** a message the line format can carry *)
Definition one_line (m : Message.t) : Prop :=
  has_char "]" (User.username (Message.from m)) = false ∧
  has_char nl (User.username (Message.from m)) = false ∧
  has_char nl (Message.content m) = false ∧ in_u64 (Message.timestamp m).

Lemma line_no_break m : one_line m → has_char nl (line_of m) = false.
Proof.
  intros (_ & Hu & Hc & _). unfold line_of. rewrite !has_char_app, Hu, Hc.
  by rewrite to_string_no_char.
Qed.

(** a bracketed field at the head of a line *)
Lemma bracket_field s t :
  has_char "]" s = false →
  let line := String "[" (s +:+ String "]" t) in
  ∃ i, index_of "]" line = Some i ∧ substr 1 (i - 1) line = s ∧ str_drop (i + 1) line = t.
Proof.
  intros Hs line. exists (S (String.length s)). split_and!.
  - change (index_of "]" line) with (S <$> index_of "]" (s +:+ String "]" t)).
    by rewrite index_of_app_fresh.
  - replace (S (String.length s) - 1) with (String.length s) by lia.
    change (substr 0 (String.length s) (s +:+ String "]" t) = s). apply substr_first.
  - rewrite Nat.add_1_r. change (str_drop (S (String.length s)) (s +:+ String "]" t) = t).
    clear. induction s as [|c s IH]; [done|]. by rewrite str_app_cons.
Qed.

Lemma parse_line_of m : one_line m → parse_line (line_of m) = shown m.
Proof.
  intros (Hb & _ & _ & Ht). unfold line_of, shown.
  set (u := User.username (Message.from m)) in *. set (ts := to_string (Message.timestamp m)).
  assert (has_char "]" ts = false) as Hts by (by apply to_string_no_char).
  set (tail := String " " (Message.content m)). set (rest := String "[" (ts +:+ String "]" tail)).
  change (parse_line (String "[" (u +:+ String "]" rest)) = mkLine u (Message.content m) (Message.timestamp m)).
  destruct (bracket_field u rest Hb) as (i & Hi & Hu & Hr). cbv zeta in Hi, Hu, Hr.
  destruct (bracket_field ts tail Hts) as (j & Hj & Hs & Hc). cbv zeta in Hj, Hs, Hc.
  unfold parse_line. rewrite Hi, Hu, Hr. cbv zeta. subst rest. cbv iota. rewrite Hj, Hs, Hc.
  unfold ts. by rewrite stoull_to_string.
Qed.

Lemma encode_lines ms :
  encodeHistory ms = foldr (λ m out, line_of m +:+ String nl out) "" (reverse ms).
Proof.
  unfold encodeHistory. generalize (reverse ms). intros l.
  assert (∀ l out, foldl (λ out m, out +:+ "[" +:+ User.username (Message.from m) +:+ "][" +:+
      to_string (Message.timestamp m) +:+ "] " +:+ Message.content m +:+ PacketProcessor.newline) out l
    = out +:+ foldr (λ m out, line_of m +:+ String nl out) "" l) as H; [|by rewrite H].
  clear. induction l as [|m l IH]; intros out; simpl; [by rewrite str_app_nil_r|].
  rewrite IH. unfold line_of. rewrite !str_app_assoc. done.
Qed.

Lemma lines_split l :
  Forall one_line l →
  getline_all nl (foldr (λ m out, line_of m +:+ String nl out) "" l) = line_of <$> l.
Proof.
  unfold getline_all. induction 1 as [|m l Hm _ IH]; [done|]. simpl.
  rewrite getline_go_piece by (by apply line_no_break). by rewrite str_app_nil_l, IH.
Qed.

(** * Theorems *)

(** C34. The history survives the wire: what the client shows for the history the server
    encodes is the stored messages, oldest first, each with its author, text and time, when
    no author's name holds a bracket or a line break and no text holds a line break. *)
Theorem history_shown ms :
  Forall one_line ms → parseHistoryPayload (encodeHistory ms) = shown <$> reverse ms.
Proof.
  intros H. assert (Forall one_line (reverse ms)) as Hr by (by apply Forall_reverse).
  unfold parseHistoryPayload. rewrite encode_lines. change "010"%char with nl. rewrite lines_split by done.
  rewrite list_filter_all.
  - rewrite <-list_fmap_compose. apply list_fmap_ext. intros i m Hm.
    rewrite Forall_forall in Hr. apply parse_line_of, Hr. by eapply list_elem_of_lookup_2.
  - by intros line (m & -> & _)%list_elem_of_fmap.
Qed.

(** a user can make others read a line somebody else never wrote *)
Definition mallory : User.t := User.User "mallory" "m@x" User.USER.
Definition forged : Message.t :=
  Message.Message mallory mallory ("hi" +:+ String nl "[admin][1] server closes at noon") 7 "id".
Example history_forged :
  parseHistoryPayload (encodeHistory [forged]) =
  [mkLine "mallory" "hi" 7; mkLine "admin" "server closes at noon" 1].
Proof. vm_compute. reflexivity. Qed.

(** * Witnesses *)

Definition said (text : string) (time : Z) : Message.t := Message.Message mallory mallory text time "id".
Lemma history_shown_witness :
  parseHistoryPayload (encodeHistory [said "bye" 9; said "hi" 7]) =
  [mkLine "mallory" "hi" 7; mkLine "mallory" "bye" 9].
Proof.
  apply (history_shown [said "bye" 9; said "hi" 7]).
  repeat constructor; vm_compute; discriminate.
Defined.
